(* ===== verification/_CoqProject ===== *)
-Q . S2P
Prelude.v
World.v
Price.v
Observation.v
Network.v
Economy.v
Initializer.v
Unassigned.v
Pipeline.v
Frame.v
Tables.v
Catalog.v
Xml.v
Persistence.v
Game.v
Wellformed.v
Statistics.v
Session.v
Ledger.v
Interleaving.v
Gatherables.v
Pool.v
Format.v
