(* ===== verification/Prelude.v ===== *)
(** * Verification of naev's economy core (src/src/economy.c)

    ** The program

    economy.c holds the trade model of the game.  Its parts work on shared
    registries (the commodity stack, the list [econ_comm] of priced
    commodities, the star systems and their planets):

    - the catalogue ([commodity_load], [commodity_parse], [commodity_get],
      [commodity_compareTech], [commodity_free]): the commodity stack, read
      from a data file, and the priced set;
    - the saved game ([economy_sysSave], [economy_sysLoad]): what the player
      has seen and the last purchase prices, written to and read from an XML
      document;
    - the floating cargo ([gatherable_init], [gatherable_update],
      [gatherable_gather], [gatherable_getClosest], [gatherable_getPos],
      [gatherable_render], [gatherable_free], [commodity_Jettison]): a pool
      of objects in space that age, are drawn, are picked up by the pilots
      and are thrown out of a ship;
    - the text of an amount of credits ([credits2str], [price2str]);
    - the price evaluator ([economy_getPrice], [economy_getPriceAtTime]):
      the price of a good at a planet is its base price plus two sines of
      the time, rounded;
    - the observation tracker ([economy_averageSeenPrices],
      [economy_averageSeenPricesAtTime], [economy_getAveragePlanetPrice],
      [economy_getAveragePrice], [economy_clearKnown]): count, sum and sum of
      squares of the prices the player has seen, and the statistics read
      from them;
    - the network model ([econ_calcJumpR], [econ_calcSysI],
      [econ_createGMatrix]): a resistance per jump and the admittance matrix
      of the star map;
    - the life cycle of the nodal analysis ([economy_init],
      [economy_addQueuedUpdate], [economy_execQueued], [economy_refresh],
      [economy_update], [economy_destroy]): the solve of the matrix for one
      price vector per system;
    - the price initialiser ([economy_calcPrice],
      [economy_modifySystemCommodityPrice], [economy_smoothCommodityPrice],
      [economy_calcUpdatedCommodityPrice],
      [economy_initialiseCommodityPrices]): four passes that derive the
      parameters of every price field from the attributes of planets and
      systems.

    ** The files

    - Prelude (this file): machine integers, the cast of a double to an
      integer, sums over lists, lemmas on loops, a loop given by its round
      and run with fuel ([loop], [rounds]), the tactics and the hint bases.
    - World: the structs as records and the registries as one [Universe];
      [wf_universe], the pointers in range, and [same_shape], the
      equivalence of universes with the same pointers, of which
      [wf_universe] is a [Proper] predicate.
    - Price: the price evaluator; its error cases as a sum type; the
      equivalence [planet_equiv] of planets that agree on what the evaluator
      reads, with the evaluator as a [Proper] function of it.
    - Observation: the tracker; the recording loop as the code writes it and
      the reference [averageSeen_spec] it is proved equal to.
    - Network: resistances and the assembly of the matrix, with the reference
      list of entries [G_entries]; strict diagonal dominance and what it
      gives.  Faction standings are the class [Factions].
    - Economy: the globals [econ_initialized], [econ_queued], [econ_G] as the
      record [EconState], the six functions on it, the calls of the game as
      the type [econ_call] and the reachable states as the relation
      [econ_reachable].  The solver [cs_qrsol] and the [malloc] of the work
      vector of [economy_update] are the class [Solver]: an update whose
      allocation is refused returns -1.  The contract [SolverSpec] has an
      allocator that does not refuse, and a solver whose result 1 means a
      solution of the system when the matrix is strictly diagonally dominant,
      the only matrices it is asked about.
    - Initializer: the four passes.  What they take from other files of the
      game is the class [GameData].
    - Unassigned: the cells [sum], [sum2] and [cnt] of a new line of the
      table of pass 2, which [realloc] leaves undefined and the model holds
      as 0: [alike], the equivalence of universes that agree but for such
      cells, and the passes 3 and 4 as functions of its classes.
    - Pipeline: the four passes together: the conditions on the data
      ([init_input_ok]), what each pass leaves in a price field and in a
      line of the table of a system, and the state between two rounds of a
      loop over the systems ([staged]).
    - Tables: the table of pass 2 without its search loop: one line of
      means per name ([table_means]).
    - Catalog: the commodity stack: [commodity_parse] and [commodity_load]
      on a document given as a value, the lookups by name,
      [commodity_compareTech] and [commodity_free].  The textures are
      references into the store of opengl_tex.c, a multiset of image paths
      ([GlStore]) that the parser, the loader and the release receive and
      return; which images load is the class [Gl].  [catalogue] is the
      stack seen as a finite map from names to positions.
    - Xml: what the saved game takes from libxml2 and the C library: a
      document as a tree ([xml]), the writer as the list of the calls made
      on it, [xml_write] and [xml_read] between the two; integers as decimal
      text; the text of a [double] as the class [RealText] with the contract
      [RealTextSpec] of [%f] and [atof], and [millionths_text], an instance
      that satisfies it.
    - Persistence: [economy_sysSave] as the calls it makes, with its flags
      [doneSys] and [donePlanet]; [economy_sysLoad] on a document, with
      [None] where the code dereferences [NULL], and the lookup [system_get]
      whose result the loader drops; the document
      [saved_economy] and the state [restored] the round trip is stated
      with.
    - Game: the functions that change the state of a running game as the
      calls of one machine ([game_call], [game_step]): the life cycle of the
      solver, the recordings of prices seen, the reset and the loading of a
      saved game, from the universe [economy_initialiseCommodityPrices]
      leaves; its reachable states ([game_reachable]) and its invariant
      ([game_inv]).
    - Frame: the frame of the universe ([same_frame]): what the four passes
      do not write, for every reading of a planet that does not look at its
      price fields ([price_blind]).
    - Wellformed: the shape of the universe through the four passes and the
      calls of the game, and what a well-formed universe gives the loops
      ([derefs_ok]).
    - Statistics: the accumulators of the tracker through the game
      ([counted], [seen_within]), with the bounds of the machine integers
      ([PRICE_MAX], the number of calls); the four passes keep what the
      [accumulators] decide.
    - Session: two sessions of one game, the first saved and the second
      loading it: [forget], the universe without what was seen, bought and
      solved, which no call of a running game ([playable]) changes;
      [resumable], the universes that the save and the load bring back as
      they are; [honest], the game as a step relation whose loads read
      documents that a state of the same game saved.
    - Ledger: the abstract specification of the tracker.  A [Ledger] is a
      finite map (stdpp's [gmap]) from a planet and the position of a good
      to the prices seen there and the time of the last recording; a
      [Market] is what the book reads of a universe ([market_of]);
      [ledger_record], [ledger_clear], [ledger_step], [ledger_run] are the
      machine; [kept_by] relates a book to the universe whose accumulators
      are its statistics.
    - Interleaving: which calls can be exchanged: [independent] calls (the
      solver against the tracker, the reset and the loader; recordings at
      two planets) and [reordered] sequences of calls, an equivalence under
      which [game_run] and [ledger_run] are [Proper].
    - Gatherables: the pool of floating cargo ([gatherable_init],
      [gatherable_update], [gatherable_free], [gatherable_getClosest],
      [gatherable_getPos], [gatherable_gather]) and [commodity_Jettison].
      The loops that remove from the array they walk are recursions on the
      index, defined with Equations by the measure [length - index]; the
      random numbers are the class [Rng], the pilot the class [Pilots], with
      their contracts [RngSpec] and [PilotsSpec].
    - Pool: [gatherable_render] as the list of its [gl_blitSprite] calls,
      each with the sprite of the commodity of the object;
      the two loops of Gatherables as rounds of a [for] statement
      ([update_round], [gather_round]); the reference [gather_ref] of
      [gatherable_gather]; the pool as a machine ([pool_call], [pool_step],
      [pool_reachable]).
    - Format: [credits2str] and [price2str]; the buffer is the string left
      in it, [nsnprintf] keeps what fits, and the texts of the printf
      conversions are the class [CreditText] with the contract
      [CreditTextSpec].

    ** Conventions of the model

    - A [double] is a real number, and so is the one [float] of the file,
      [noscoop_timer]: rounding, overflow to infinity and NaN are outside
      the model, [M_PI] is [PI], and a division by zero, which the reals of
      the library define as zero and C as infinity, is excluded by a
      hypothesis wherever a theorem depends on it.  The conversion of an
      integer to a [double] is [IZR], exact: [(double)credits] in
      [credits2str] loses nothing here, where the machine rounds an amount
      above 2^53 to 53 bits, and the sum of [noscoop_timer] and [dt] is the
      sum of the reals.  What is proved of the texts and the timer is proved
      of this model.
    - [int], [int64_t] ([credits_t], [ntime_t]) and [size_t] are integers
      with the wrap of their width written where the code computes:
      [cnt++], [cnt * cnt], [price * price], [econ_queued++], the difference
      of two [strlen].
    - [(credits_t)(x + 0.5)] is [Ztrunc (x + 0.5)]: a cast truncates toward
      zero.  C defines the cast only when the truncated value is a
      [credits_t]; [Ztrunc] is the truncation of every real, so outside that
      range the model gives a number where the program has no defined
      result.  [price_cast_defined] of Statistics shows that the cast of the
      evaluator is in range for the price fields below [PRICE_MAX], which is
      what the theorems on the tracker assume.
    - [sys->njumps + 1] in pass 2 is a sum of [int]s and wraps as one.
    - Memory that [realloc] hands out is not initialised.  The one place
      where the code leaves fields of such memory unassigned is the new
      line of the table [avprice] in pass 2 ([sum], [sum2] and [cnt]); the
      model holds 0 there, and [unassigned_cells_unread] shows that no later
      pass reads the value.
    - A pointer is an index: [Commodity*] into [commodity_stack], [Planet*]
      into [planet_stack], the target of a jump into [systems_stack].  The
      planets are one shared list, so two pointers to one planet are two
      writes to one cell.  The parallel arrays [commodities] and
      [commodityPrice] of a planet are one list of pairs, [pl_goods].
    - [ntime_get ()] is an argument [now]; the parameter [sys] of
      [economy_getPrice] and [economy_getPriceAtTime], which the code does not
      read, is left out.
    - A loop is a [foldl] over the indices or the elements it visits, its
      body a definition of its own; a search loop with [break] is
      [list_find].
    - [WARN] and [DEBUG] print and are not modelled; the return value of a
      function is part of its result.  [economy_update] checks its
      [malloc] and returns -1 when it fails: that path is modelled, the
      allocator being a field of [Solver].  The other allocations ([calloc]
      in [economy_init], [realloc] and [malloc] in the loaders and the pool)
      are not checked by the code, which writes through what they return;
      they succeed in the model, and so do [cs_spalloc] and [cs_compress],
      whose failure ends the program with [ERR].
    - A random draw is a function of its number in the order of the draws,
      and a function that draws receives the number of draws made and
      returns it increased.  Messages to the player and graphical effects
      are the lists of what was shown and added.

    ** The theorems

    - Price: the price stays within the two amplitudes of the base price;
      it is periodic under a shift by a common multiple of the two periods;
      the two lookup failures answer 0.
    - Observation: the loop equals its reference; recording twice at one
      instant is recording once; the first observation gives mean = price,
      deviation 0; the accumulators remain count, sum and sum of squares of a
      list of prices; the variance formula under the bound on [cnt] that
      keeps [cnt * cnt] in range; [economy_getAveragePrice] is the mean and
      the deviation of the means of the planets ([galaxy_means]), in which
      the sums of squares of the planets do not appear;
      [economy_clearKnown] clears every reachable field and changes no price.
    - Network: the resistance on every branch, its lower bound 27 and its
      symmetry; the entries of the matrix; its symmetry; the margin of each
      row, 1/3 less the conductance of the jumps that lead into the system;
      dominance with at most eight such jumps, and uniqueness of the solution
      then; a hub of eleven neighbours whose row does not dominate.
    - Economy: [economy_update] sets every price to 1 whatever the solver
      reports; the matrix depends on the star map only; every reachable
      state satisfies [econ_inv] and answers every price query as the start
      did; init, the guards of the functions on an economy that is not
      initialised, destroy, and the queue counter; with an allocator that
      refuses, the update returns -1 and changes nothing, its callers
      report 0, and [economy_init] leaves an initialised economy whose
      prices are all 0.
    - Initializer: positivity and bounds of pass 1; a planet of a faction is
      priced with the planet modifier of that name, the faction table not
      being read; the loop without [break] of pass 2 equals the search with one;
      pass 3 is the mean over the neighbours that carry the good; the
      catalogue after the initialisation; the four passes on a symmetric map
      of two systems.
    - Unassigned: passes 3 and 4 give the same universe from two universes
      that are [alike], so the initialisation does not depend on what
      [realloc] left in the cells pass 2 does not assign.
    - Pipeline: on data where every planet belongs to one system, with radius
      below 200000, presence range below 30 and positive modifiers
      ([init_input_ok]), the four passes leave every price field with a
      positive price, positive periods and amplitudes that together are at
      most 27/80 of the price; so every price the evaluator answers after
      the initialisation is within that distance of the base price and not
      negative.  The proof follows the loops: [staged] is the state after
      [k] systems of a pass, and each pass moves it by one system.
    - Tables: the search loop of pass 2 computes [table_means]: the names in
      the order of their first occurrence, and under each name the
      arithmetic means of the five parameters over the goods of that name.
    - Catalog: the fields [commodity_parse] returns, images included;
      [econ_comm] is the list of the commodities of positive price, and the
      others have no price; the textures the loader takes are those the
      stack holds and [commodity_free] releases, when no node names an
      image twice, and a node that does loses a texture; [commodity_get] is
      the lookup in [catalogue], which a load extends, and of two
      commodities of one name the second is never found;
      [commodity_compareTech] is a comparison for [qsort].
    - Xml: reading what was written gives the documents back; [atoi] and
      [atol] invert [%d] and [PRIu64] on the values that fit.
    - Persistence: the calls of [economy_sysSave] write [saved_economy];
      loading it, beside whatever else the saved game holds, into a universe
      that differs only in what was seen gives [restored]; with counts,
      times and sums that their text keeps, the fields of the goods seen and
      every answer of [economy_getAveragePlanetPrice] are as before the save;
      a saved game that names an unknown planet or commodity makes the loader
      dereference [NULL].
    - Game: by induction on the calls, in any order and number: no call
      changes a price, so every query is answered as right after the
      initialisation and, on data that satisfy [init_input_ok], within
      27/80 of the base price; on a well connected star map the solver
      keeps its matrix and the price 1 in every cell whatever the tracker
      and the loader do in between; a saved game, whatever it holds,
      changes only what was seen and bought.
    - Wellformed: the four passes and every call of the game keep the shape
      of the universe, so a universe that is well formed at the start is
      well formed in every reachable state, and every pointer the loops
      follow has a target; [commodity_load] keeps the registries well
      formed.
    - Frame: the passes keep the priced set, the systems but for their
      tables of averages, and the names and commodity pointers of the
      planets, so the conditions on the star map ([well_connected]) and on
      the names ([names_distinct]) are conditions on the data of the game.
    - Statistics: from a universe of which nothing was seen, through the
      passes and fewer than [INT_MAX] calls other than loads, with price
      fields below [PRICE_MAX], the accumulators of every good are count,
      sum and sum of squares of one list of prices, no longer than the
      number of calls, and the variance is not negative; up to 46340 calls
      [economy_getAveragePlanetPrice] reports the rounded mean and the
      standard deviation of that list, and 0 and 0 with the return value 0
      for a good never seen, and [economy_getAveragePrice] the mean and the
      deviation of the means of the planets ([galaxy_report]); a saved game
      with a sum and no sum of squares gives a variance of -1.
    - Session: the tracker, the solver, the writer and the loader together.
      From data of which nothing was seen ([fresh]), a first session of
      fewer than [INT_MAX] calls is saved; a second session from the same
      data, however far it got, loads the document; with both economies
      initialised on a well connected star map and names that identify, the
      universe after the load is the universe the first session saved.  The
      hypotheses of the round trip of Persistence are theorems here: the
      accumulators of a running game are numbers their text keeps, and the
      reset at the head of the loader brings both sessions to one universe.
      By induction on the rules of [honest], a game with any number of
      saves and loads stays in the universes a session without loads
      reaches: the counts are bounded by the longest session, the variances
      are not negative, and every state saves to a document that loads back
      to it.
      A planet that no system points to is outside: it is neither cleared
      nor saved.
    - Ledger: the tracker implements the book.  The game started by
      [economy_initialiseCommodityPrices] and the book started empty run
      side by side, call by call (a forward simulation with the invariant
      [booked]): after fewer than [INT_MAX] calls of the solver, recordings
      and resets the accumulators of every good are the statistics of its
      page, and up to 46340 calls [economy_getAveragePlanetPrice] reports
      what the page reports.  So after landings at rising times the player
      is told the mean and the deviation of the prices at exactly those
      times, whatever the solver did and whatever was seen elsewhere; and a
      game with saved games ([honest]) has in every state the book of a
      session without loads.  The book itself records once per instant and
      its recordings at two planets commute.
    - Interleaving: the solver reads and writes the systems and the priced
      set, the other calls the commodities and the planets
      ([econ_step_frame], [game_step_restack]); so two independent calls
      give the same state, or the same failure, in either order
      ([calls_commute]), and two sequences of calls that differ in the
      order of independent neighbours give the same result: every game is a
      game in which the solver makes all its calls first.
    - Pool: [gatherable_update] takes exactly as many rounds as the array
      has objects, [gatherable_gather] at most as many, and the recursions
      of Gatherables are what the rounds compute; [gatherable_gather] is
      [gather_ref], and a pilot with room for everything among objects in
      reach gathers every second one; the objects of every reachable pool
      have a lifetime from 50 to 150 that is not over, and a pool to which
      nothing is added is empty after a time of 150; every object drawn has
      a sprite when the pool holds goods of the priced set of a catalogue
      that [commodity_load] built, and an object of a commodity without
      price and image is drawn with [NULL].
    - Gatherables: [gatherable_update] moves and ages every object and
      drops those whose time is over, and two updates are one;
      [gatherable_gather] passes over the object that follows one it takes,
      and takes nothing for a pilot without room; [gatherable_getClosest]
      returns the first nearest object within the radius or -1; the lifetime
      of a new object; number, place and speed of the effects of
      [commodity_Jettison].
    - Format: the text fits the buffer; the unit and the letter on every
      branch of [credits2str], with the amount in its unit between 1 and
      1000; [price2str] colours a price above the credits and resets the
      colour when the text has at most 27 bytes, and loses the reset when
      it has 29 or more.

    ** Bounds

    Every loop of the modelled code runs over a list or, in Gatherables, is
    a recursion with a measure that its definition proves decreasing, so it
    is total.  Pool runs the same two loops round by round with fuel
    ([loop]): the length of the array is enough fuel, for
    [gatherable_update] it is exactly the number of rounds, and with less
    the loop has not ended.  The theorems on counters
    carry the bound at which the counter
    wraps: [cnt <= 46340] for [cnt * cnt], [cnt < INT_MAX] for [cnt++],
    [econ_queued + n <= INT_MAX] for the queue, the number of jumps of a
    system below [INT_MAX] in pass 3 and the number of goods of a system
    below [INT64_MAX] in pass 2, whose table counts them in [updateTime].
    The round trip of the saved game
    assumes that names identify (planets, commodities, the goods of a
    planet) and that the planet pointers of the systems are in range; its
    exact form assumes [storable]: a count that is an [int], a time in
    [0, LONG_MAX], sums that are whole numbers, as sums of prices are.
    Session proves [storable] of every state a session reaches in fewer
    than [INT_MAX] calls with times up to [LONG_MAX]; the second session
    may be of any length.  The simulation of Ledger holds as long as no
    page is longer than [INT_MAX] (the count of a field is the length of its
    page) and the prices are below [PRICE_MAX]; the book itself has no
    bounds.  Interleaving has none: the exchange of independent calls holds
    of every state, wrapped counters and failing loads included.

    The components that stay partly modelled are the libraries the sources
    only call (libxml2, CSparse, OpenGL, the pilot and the random numbers):
    each is an interface with the contract the theorems use, and an
    instance for the witnesses; every function of economy.c is modelled.

    ** Not modelled

    - The bytes of the XML file: a saved game is the tree libxml2 parses it
      to, and the writer the calls made on it.
    - The reading of the data file itself: the loader starts from the
      parsed document.  Of a texture only the path of its image and its use
      count are modelled; the attributes [sx] and [sy] of an image element
      and the truncation of a path at [PATH_MAX] are left out.
    - The pilot, the random number generator, the sprites and the effects
      themselves, which are other files of the game: they are interfaces
      with the contract the theorems use, or the list of the calls made.
    - CSparse itself: the matrix is a list of entries, the solver an
      interface with a contract.
    - The floating point arithmetic of the machine, as said under the
      conventions: every [double] and [float] is a real number. *)

From Stdlib Require Import Reals Lra Lia ZArith Zfloor.
From stdpp Require Import base tactics option list strings.

#[local] Open Scope R_scope.

(** ** Machine integers

    [int], [int64_t] ([credits_t], [ntime_t]) and [size_t] are kept at their
    width: a value is a [Z] and every arithmetic result is reduced by the
    two's-complement wrap of its width. *)

Definition wrap_signed (w : Z) (x : Z) : Z :=
  ((x + 2 ^ (w - 1)) mod 2 ^ w - 2 ^ (w - 1))%Z.

Definition wrap_unsigned (w : Z) (x : Z) : Z := (x mod 2 ^ w)%Z.

Definition int32 (x : Z) : Z := wrap_signed 32 x.
Definition int64 (x : Z) : Z := wrap_signed 64 x.
Definition size_t (x : Z) : Z := wrap_unsigned 64 x.

Definition INT_MAX : Z := 2147483647.
Definition INT64_MAX : Z := 9223372036854775807.

(** ** Conversion of a double to an integer type

    A C cast [(credits_t) x] discards the fractional part, that is, it rounds
    toward zero. *)

Definition Ztrunc (x : R) : Z :=
  if Rle_dec 0 x then Zfloor x else Zceil x.

(** ** Sums of reals over a list (the accumulators of the C loops). *)

Definition Rsum (l : list R) : R := foldr Rplus 0 l.

(** The sum of a weight over a list: what a loop [acc += w(l[i])] leaves in
    [acc]. *)
Definition wsum {A : Type} (w : A -> R) (l : list A) : R := Rsum (w <$> l).

(** ** Loops by rounds

    A loop whose number of rounds is not the length of a list is given by
    its round: [round s] is the state after the body and the step of the
    loop, or [None] when the condition of the loop fails in [s].
    [loop round fuel s] is the state the loop ends in, if it ends within
    [fuel] rounds, and [None] if a round is left to run when the fuel is
    used up. *)

Fixpoint loop {St : Type} (round : St -> option St) (fuel : nat) (s : St) {struct fuel}
  : option St :=
  match round s, fuel with
  | None, _ => Some s
  | Some _, O => None
  | Some s', S n => loop round n s'
  end.

(** The number of rounds the loop runs, under the same convention. *)
Fixpoint rounds {St : Type} (round : St -> option St) (fuel : nat) (s : St) {struct fuel}
  : option nat :=
  match round s, fuel with
  | None, _ => Some 0%nat
  | Some _, O => None
  | Some s', S n => S <$> rounds round n s'
  end.

(** Equality of reals is decidable (classically), so [decide] and
    [bool_decide] take equations between reals. *)
#[export] Instance R_eq_dec : EqDecision R := Req_dec_T.
#[export] Instance Rlt_decision (a b : R) : Decision (a < b) := Rlt_dec a b.
#[export] Instance Rle_decision (a b : R) : Decision (a <= b) := Rle_dec a b.

(** ** Tactics

    [f_equal_R] reduces an equation between records, pairs or lists to the
    equations between their real-valued fields; [real_compute] evaluates a
    term with reals down to its arithmetic and decides the equations of
    constants that are left. *)

Ltac f_equal_R :=
  repeat (lazymatch goal with
          | |- @eq R _ _ => fail
          | |- @eq _ _ _ => f_equal
          end).

(** [case_Rlt] decides the comparisons of reals in the goal, closing the
    cases that arithmetic refutes. *)
Ltac case_Rlt :=
  repeat match goal with
         | |- context [Rlt_dec ?a ?b] => destruct (Rlt_dec a b); try lra
         end.

Ltac real_compute :=
  cbv -[Rplus Rmult Rminus Rdiv Rinv Ropp IZR INR tanh ln sin sqrt PI Rabs];
  f_equal_R; try lra; try (field; lra).

Lemma int32_small (x : Z) :
  (- 2147483648 <= x <= INT_MAX)%Z -> int32 x = x.
Proof.
  unfold int32, wrap_signed, INT_MAX. intros H.
  rewrite Z.mod_small; lia.
Qed.

Lemma int64_small (x : Z) :
  (- 9223372036854775808 <= x <= INT64_MAX)%Z -> int64 x = x.
Proof.
  unfold int64, wrap_signed, INT64_MAX. intros H.
  rewrite Z.mod_small; lia.
Qed.

(** ** Absolute values *)

Lemma Rabs_le_inv (x y : R) : Rabs x <= y -> - y <= x <= y.
Proof.
  unfold Rabs. destruct (Rcase_abs x); lra.
Qed.

Lemma Rabs_le_iff (x y : R) : Rabs x <= y <-> - y <= x <= y.
Proof. split; [apply Rabs_le_inv | apply Rabs_le]. Qed.

(** ** Rounding lemmas for [Ztrunc] *)

Lemma Ztrunc_IZR (z : Z) : Ztrunc (IZR z) = z.
Proof.
  unfold Ztrunc, Zceil. destruct (Rle_dec 0 (IZR z)).
  - apply ZfloorZ.
  - rewrite ZfloorNZ. lia.
Qed.

Lemma Ztrunc_nonneg_bound (x : R) :
  0 <= x -> IZR (Ztrunc x) <= x < IZR (Ztrunc x) + 1.
Proof.
  intros Hx. unfold Ztrunc. destruct (Rle_dec 0 x); [|lra].
  apply Zfloor_bound.
Qed.

Lemma Ztrunc_neg_bound (x : R) :
  x < 0 -> x <= IZR (Ztrunc x) < x + 1.
Proof.
  intros Hx. unfold Ztrunc. destruct (Rle_dec 0 x); [lra|].
  pose proof (Zceil_bound x). lra.
Qed.

(** A cast does not move a number away from zero. *)
Lemma Ztrunc_abs_le (x : R) : Rabs (IZR (Ztrunc x)) <= Rabs x.
Proof.
  destruct (Rle_dec 0 x) as [Hx|Hx].
  - pose proof (Ztrunc_nonneg_bound x Hx) as [Hz _].
    assert (0 <= IZR (Ztrunc x)).
    { apply IZR_le. unfold Ztrunc. destruct (Rle_dec 0 x); [|lra].
      by apply (Zfloor_lub 0). }
    rewrite !Rabs_pos_eq by lra. done.
  - pose proof (Ztrunc_neg_bound x ltac:(lra)) as [Hz Hz1].
    assert (IZR (Ztrunc x) <= 0).
    { apply IZR_le. assert (Ztrunc x < 1)%Z by (apply lt_IZR; lra). lia. }
    rewrite !Rabs_left1 by lra. lra.
Qed.

Lemma Ztrunc_nonneg (x : R) : 0 <= x -> (0 <= Ztrunc x)%Z.
Proof.
  intros Hx. unfold Ztrunc. destruct (Rle_dec 0 x); [|lra].
  now apply (Zfloor_lub 0).
Qed.

Lemma Ztrunc_eq (z : Z) (x : R) :
  0 <= x -> IZR z <= x < IZR z + 1 -> Ztrunc x = z.
Proof.
  intros Hx Hz. unfold Ztrunc. destruct (Rle_dec 0 x); [|lra].
  now apply Zfloor_eq.
Qed.

Lemma Ztrunc_le (x y : R) : x <= y -> (Ztrunc x <= Ztrunc y)%Z.
Proof.
  intros Hxy. unfold Ztrunc.
  destruct (Rle_dec 0 x), (Rle_dec 0 y); try lra.
  - now apply Zfloor_le.
  - apply Z.le_trans with 0%Z; [|now apply (Zfloor_lub 0)].
    apply le_IZR. pose proof (Zceil_bound x). 
    destruct (Z_le_gt_dec (Zceil x) 0) as [?|Hgt]; [now apply IZR_le|].
    assert (1 <= IZR (Zceil x)) by (apply IZR_le; lia). lra.
  - now apply Zceil_le.
Qed.

(** The idiom [(credits_t)(x + 0.5)] rounds a non-negative [x] to a nearest
    integer: the result is within one half of [x]. *)
Lemma Ztrunc_half_nearest (x : R) :
  0 <= x -> Rabs (IZR (Ztrunc (x + / 2)) - x) <= / 2.
Proof.
  intros Hx. pose proof (Ztrunc_nonneg_bound (x + / 2)) as H.
  apply Rabs_le. lra.
Qed.

Lemma Ztrunc_half_IZR (z : Z) : (0 <= z)%Z -> Ztrunc (IZR z + / 2) = z.
Proof.
  intros Hz. apply IZR_le in Hz. apply Ztrunc_eq; lra.
Qed.

(** ** Bounds of the transcendental functions the code calls *)

Lemma tanh_bound (x : R) : -1 < tanh x < 1.
Proof.
  unfold tanh, sinh, cosh.
  pose proof (exp_pos x). pose proof (exp_pos (- x)).
  set (s := (exp x - exp (- x)) / 2). set (c := (exp x + exp (- x)) / 2).
  assert (Hc : 0 < c) by (unfold c; lra).
  assert (Hs : - c < s < c) by (unfold s, c; lra).
  assert (Hq : s / c * c = s) by (field; lra).
  split; apply Rmult_lt_reg_r with c; lra.
Qed.

Lemma sin_Rabs_le (x : R) : Rabs (sin x) <= 1.
Proof. apply Rabs_le. apply SIN_bound. Qed.

Lemma Rabs_mul_sin_le (a x : R) : Rabs (a * sin x) <= Rabs a.
Proof.
  rewrite Rabs_mult. pose proof (sin_Rabs_le x). pose proof (Rabs_pos a). nra.
Qed.

(** [sin] has every integer multiple of [2 * PI] as a period. *)
Lemma sin_period_Z (x : R) (k : Z) : sin (x + 2 * IZR k * PI) = sin x.
Proof.
  destruct (Z_le_gt_dec 0 k) as [Hk|Hk].
  - rewrite <- (Z2Nat.id k) by exact Hk. rewrite <- INR_IZR_INZ. apply sin_period.
  - rewrite <- (sin_period (x + 2 * IZR k * PI) (Z.to_nat (- k))).
    rewrite INR_IZR_INZ, Z2Nat.id by lia. rewrite opp_IZR. f_equal. ring.
Qed.

(** ** Sums *)

Lemma Rsum_nil : Rsum [] = 0.
Proof. reflexivity. Qed.

Lemma Rsum_cons (x : R) (l : list R) : Rsum (x :: l) = x + Rsum l.
Proof. reflexivity. Qed.

Lemma Rsum_app (l1 l2 : list R) : Rsum (l1 ++ l2) = Rsum l1 + Rsum l2.
Proof. induction l1 as [|a l1 IH]; simpl; [|rewrite IH]; lra. Qed.

(** A sum of integers is an integer. *)
Lemma Rsum_IZR (g : Z -> R) (f : Z -> Z) (l : list Z) :
  (forall x, g x = IZR (f x)) -> Rsum (g <$> l) = IZR (foldr Z.add 0%Z (f <$> l)).
Proof.
  intros Hg. induction l as [|x l IH]; [done|].
  rewrite !fmap_cons, Rsum_cons. cbn [foldr]. by rewrite plus_IZR, IH, Hg.
Qed.

(** A function that fixes every element of a list. *)
Lemma list_fmap_fixed {A : Type} (f : A -> A) (l : list A) :
  Forall (fun x => f x = x) l -> f <$> l = l.
Proof. induction 1 as [|x l Hx _ IH]; [done|]. by rewrite fmap_cons, Hx, IH. Qed.

Lemma length_omap_le {A B : Type} (f : A -> option B) (l : list A) :
  (length (omap f l) <= length l)%nat.
Proof. induction l as [|x l IH]; [done|]. cbn. destruct (f x); cbn; lia. Qed.

Lemma Rsum_nonneg (l : list R) : Forall (fun x => 0 <= x) l -> 0 <= Rsum l.
Proof. induction 1; simpl; lra. Qed.

Lemma Rsum_le_bound (b : R) (l : list R) :
  Forall (fun x => x <= b) l -> Rsum l <= INR (length l) * b.
Proof.
  induction 1 as [|x l Hx _ IH]; [simpl; lra|].
  change (length (x :: l)) with (S (length l)). rewrite S_INR.
  simpl Rsum. lra.
Qed.

Lemma Rsum_map_scale (A : Type) (f : A -> R) (c : R) (l : list A) :
  Rsum (map (fun a => c * f a) l) = c * Rsum (map f l).
Proof. induction l as [|a l IH]; simpl; [|rewrite IH]; lra. Qed.

(** ** Loops over the indices of an array

    A C loop [for (i = 0; i < n; i++) a[i] = f(a[i])] is a left fold of
    [alter f i] over [seq 0 n]. *)

Lemma alter_alter_same {A : Type} (f g : A -> A) (i : nat) (l : list A) :
  alter f i (alter g i l) = alter (f ∘ g) i l.
Proof.
  apply list_eq; intros j. destruct (decide (i = j)) as [->|].
  - rewrite !list_lookup_alter_eq. by destruct (l !! j).
  - by rewrite !list_lookup_alter_ne.
Qed.

Lemma foldl_alter_cons {A : Type} (f : A -> A) (y : A) (n s : nat) (q : list A) :
  foldl (fun q i => alter f i q) (y :: q) (seq (S s) n)
  = y :: foldl (fun q i => alter f i q) q (seq s n).
Proof.
  revert s q. induction n as [|n IH]; intros s q; [done|]. cbn. apply IH.
Qed.

Lemma foldl_alter_seq {A : Type} (f : A -> A) (l : list A) :
  foldl (fun q i => alter f i q) l (seq 0 (length l)) = f <$> l.
Proof.
  induction l as [|x l IH]; [done|].
  cbn. by rewrite foldl_alter_cons, IH.
Qed.

(** Two loop bodies that agree on the states an invariant admits compute the
    same result, and the invariant holds of it. *)
Lemma foldl_ext_inv {A B : Type} (I : A -> Prop) (f g : A -> B -> A) (l : list B) (a : A) :
  I a ->
  (forall a b, I a -> b ∈ l -> f a b = g a b) ->
  (forall a b, I a -> b ∈ l -> I (g a b)) ->
  foldl f a l = foldl g a l /\ I (foldl g a l).
Proof.
  revert a. induction l as [|b l IH]; intros a Ha Hfg Hg; [done|].
  cbn. rewrite Hfg by (done || left). apply IH.
  - apply Hg; [done|left].
  - intros ?? ??. apply Hfg; [done|by right].
  - intros ?? ??. apply Hg; [done|by right].
Qed.

(** A loop nested in a loop is one loop over the concatenated ranges. *)
Lemma foldl_ext_in {A B : Type} (f g : A -> B -> A) (l : list B) (a : A) :
  (forall a b, b ∈ l -> f a b = g a b) -> foldl f a l = foldl g a l.
Proof.
  intros Hfg. by destruct (foldl_ext_inv (fun _ => True) f g l a) as [-> _]; auto.
Qed.

(** A loop keeps what each of its rounds keeps. *)
Lemma foldl_inv {A B : Type} (I : A -> Prop) (f : A -> B -> A) (l : list B) (a : A) :
  I a -> (forall a b, I a -> b ∈ l -> I (f a b)) -> I (foldl f a l).
Proof. intros Ha Hf. by destruct (foldl_ext_inv I f f l a) as [_ ?]. Qed.

Lemma foldl_foldl_bind {A B C : Type} (g : A -> C -> A) (h : B -> list C) (l : list B) (a : A) :
  foldl (fun a b => foldl g a (h b)) a l = foldl g a (l ≫= h).
Proof.
  revert a. induction l as [|b l IH]; intros a; [done|].
  cbn. by rewrite foldl_app, IH.
Qed.

(** Writes through indices that keep what [h] reads. *)
Lemma fmap_alter_fixed {A B : Type} (h : A -> B) (f : A -> A) (j : nat) (l : list A) :
  (forall x, h (f x) = h x) -> h <$> alter f j l = h <$> l.
Proof.
  intros Hf. apply list_eq. intros k. rewrite !list_lookup_fmap.
  destruct (decide (j = k)) as [->|Hk].
  - rewrite list_lookup_alter_eq. destruct (l !! k); cbn; [|done]. by rewrite Hf.
  - by rewrite list_lookup_alter_ne.
Qed.

Lemma fmap_foldl_alter_fixed {A B : Type} (h : A -> B) (f : A -> A) (js : list nat)
    (l : list A) :
  (forall x, h (f x) = h x) -> h <$> foldl (fun q j => alter f j q) l js = h <$> l.
Proof.
  intros Hf. apply (foldl_inv (fun q => h <$> q = h <$> l)); [done|].
  intros q j Hq _. by rewrite fmap_alter_fixed.
Qed.

(** What holds of every element and is kept by [f] holds after writes of [f]
    through indices. *)
Lemma foldl_alter_Forall {A : Type} (P : A -> Prop) (f : A -> A) (js : list nat) (l : list A) :
  (forall x, P x -> P (f x)) -> Forall P l -> Forall P (foldl (fun q j => alter f j q) l js).
Proof.
  intros Hf Hl. apply (foldl_inv (Forall P)); [done|].
  intros q j Hq _. apply Forall_alter; [done|]. intros x _. apply Hf.
Qed.

(** Writes to two cells of an array can be made in either order. *)
Lemma alter_commute_ne {A : Type} (f g : A -> A) (i j : nat) (l : list A) :
  i <> j -> alter f i (alter g j l) = alter g j (alter f i l).
Proof.
  intros Hij. apply list_eq. intros k.
  destruct (decide (k = i)) as [Hi|Hi]; destruct (decide (k = j)) as [Hj|Hj]; subst;
    [done|..];
    repeat (rewrite list_lookup_alter_eq || rewrite list_lookup_alter_ne by congruence);
    done.
Qed.

(** A loop with failure that commutes with [h] step by step commutes with
    it as a whole. *)
Lemma foldl_option_fmap {A B : Type} (h : A -> A) (f : option A -> B -> option A)
    (l : list B) (st : option A) :
  (forall st b, f (h <$> st) b = h <$> f st b) -> foldl f (h <$> st) l = h <$> foldl f st l.
Proof.
  intros Hf. revert st. induction l as [|b l IH]; intros st; [done|].
  cbn. by rewrite Hf, IH.
Qed.

Lemma list_bind_assoc {A B C : Type} (f : A -> list B) (g : B -> list C) (l : list A) :
  (l ≫= f) ≫= g = l ≫= (fun x => f x ≫= g).
Proof.
  induction l as [|x l IH]; [done|]. cbn. by rewrite bind_app, IH.
Qed.

(** A search by key in a list whose keys are distinct finds the element
    where it stands. *)
Lemma list_find_key {A K : Type} `{EqDecision K} (key : A -> K) (l : list A)
    (i : nat) (x : A) (k : K) :
  NoDup (key <$> l) -> l !! i = Some x -> key x = k ->
  list_find (fun y => key y = k) l = Some (i, x).
Proof.
  intros Hnd Hi Hk. apply list_find_Some. split_and!; [done..|].
  intros j y Hj Hlt Hy.
  assert (j = i); [|lia].
  apply (NoDup_lookup (key <$> l) j i k); [done|..];
    rewrite list_lookup_fmap; [rewrite Hj|rewrite Hi]; cbn; congruence.
Qed.

Lemma list_find_key_middle {A K : Type} `{EqDecision K} (key : A -> K) (l1 l2 : list A)
    (x : A) (k : K) :
  NoDup (key <$> (l1 ++ x :: l2)) -> key x = k ->
  list_find (fun y => key y = k) (l1 ++ x :: l2) = Some (length l1, x).
Proof.
  intros Hnd Hk. apply (list_find_key key); [done| |done].
  by rewrite list_lookup_middle.
Qed.

Lemma alter_middle {A : Type} (f : A -> A) (l1 l2 : list A) (x : A) :
  alter f (length l1) (l1 ++ x :: l2) = l1 ++ f x :: l2.
Proof.
  replace (length l1) with (length l1 + 0)%nat by lia.
  by rewrite alter_app_r.
Qed.

(** Writing [f] through a list of pointers: the cell of a pointer that occurs
    in the list holds [f] of its old content when [f] is idempotent, every
    other cell is untouched. *)
Lemma foldl_alter_lookup {A : Type} (f : A -> A) (js : list nat) (l : list A) (k : nat) :
  (forall x, f (f x) = f x) ->
  foldl (fun q j => alter f j q) l js !! k
  = if decide (k ∈ js) then f <$> l !! k else l !! k.
Proof.
  intros Hf. revert l. induction js as [|j js IH]; intros l; [done|].
  cbn. rewrite IH. destruct (decide (j = k)) as [->|Hjk].
  - rewrite list_lookup_alter_eq, (decide_True (P := k ∈ k :: js)) by left.
    case_decide; [|done]. destruct (l !! k); cbn; by rewrite ?Hf.
  - rewrite list_lookup_alter_ne by done.
    case_decide as Hk.
    + rewrite decide_True; [done|by right].
    + rewrite decide_False; [done|]. intros [?|?]%elem_of_cons; done.
Qed.

Lemma foldl_alter_length {A : Type} (f : A -> A) (js : list nat) (l : list A) :
  length (foldl (fun q j => alter f j q) l js) = length l.
Proof.
  revert l. induction js as [|j js IH]; intros l; [done|].
  cbn. by rewrite IH, length_alter.
Qed.

(** The same through pointers that are all different: each cell pointed to
    is written once, whatever [f] is. *)
Lemma foldl_alter_lookup_NoDup {A : Type} (f : A -> A) (js : list nat) (l : list A) (k : nat) :
  NoDup js ->
  foldl (fun q j => alter f j q) l js !! k
  = if decide (k ∈ js) then f <$> l !! k else l !! k.
Proof.
  intros Hnd. revert l. induction Hnd as [|j js Hj Hnd IH]; intros l; [done|].
  cbn. rewrite IH. destruct (decide (j = k)) as [->|Hjk].
  - rewrite list_lookup_alter_eq, decide_False, decide_True; [done|left|done].
  - rewrite list_lookup_alter_ne by done.
    case_decide as Hk.
    + rewrite decide_True; [done|by right].
    + rewrite decide_False; [done|]. intros [?|?]%elem_of_cons; done.
Qed.

(** A loop [for (k = 0; k < n; k++)]: what holds of round 0 before the loop
    and moves from each round to the next holds of round [n] after it. *)
Lemma foldl_seq_inv {A : Type} (I : nat -> A -> Prop) (f : A -> nat -> A) (a : A) (n : nat) :
  I 0%nat a -> (forall k x, (k < n)%nat -> I k x -> I (S k) (f x k)) ->
  I n (foldl f a (seq 0 n)).
Proof.
  intros H0. induction n as [|n IH]; intros Hstep; [done|].
  rewrite seq_S, foldl_app. cbn. apply Hstep; [lia|].
  apply IH. intros k x Hk. apply Hstep. lia.
Qed.

(** Lists that are concatenated without repetition have none themselves and
    share no element. *)
Lemma NoDup_bind_each {A B : Type} (f : A -> list B) (l : list A) (a : A) :
  NoDup (l ≫= f) -> a ∈ l -> NoDup (f a).
Proof.
  induction l as [|b l IH]; intros Hnd Ha; [by apply elem_of_nil in Ha|].
  cbn in Hnd. apply NoDup_app in Hnd as (Hb & _ & Hl).
  apply elem_of_cons in Ha as [->|Ha]; auto.
Qed.

Lemma NoDup_bind_disjoint {A B : Type} (f : A -> list B) (l : list A) (i k : nat)
    (a b : A) (x : B) :
  NoDup (l ≫= f) -> l !! i = Some a -> l !! k = Some b -> i <> k ->
  x ∈ f a -> x ∉ f b.
Proof.
  revert i k. induction l as [|c l IH]; intros i k Hnd Hi Hk Hik Ha Hb; [done|].
  cbn in Hnd. apply NoDup_app in Hnd as (_ & Hc & Hl).
  destruct i as [|i], k as [|k]; simplify_eq/=.
  - apply (Hc x Ha), list_elem_of_bind. eauto using list_elem_of_lookup_2.
  - apply (Hc x Hb), list_elem_of_bind. eauto using list_elem_of_lookup_2.
  - apply (IH i k); auto.
Qed.

(** ** The Cauchy-Schwarz inequality for a list against the constant list

    [n * sum x^2 >= (sum x)^2]: the variance the code puts under a square
    root is never negative. *)

Lemma Rsum_sq_shift (l : list R) (x : R) :
  0 <= Rsum ((fun y => y * y) <$> l) - 2 * x * Rsum l + INR (length l) * (x * x).
Proof.
  induction l as [|y l IH].
  - cbn. lra.
  - change (length (y :: l)) with (S (length l)).
    rewrite S_INR, fmap_cons, !Rsum_cons.
    pose proof (Rle_0_sqr (y - x)) as Hsq. unfold Rsqr in Hsq. nra.
Qed.

Lemma Rsum_cauchy (l : list R) :
  Rsum l * Rsum l <= INR (length l) * Rsum ((fun y => y * y) <$> l).
Proof.
  induction l as [|y l IH].
  - cbn. lra.
  - change (length (y :: l)) with (S (length l)).
    rewrite S_INR, fmap_cons, !Rsum_cons.
    pose proof (Rsum_sq_shift l y). nra.
Qed.

(** The squares of the deviations from [x], summed. *)
Lemma Rsum_sq_dev (l : list R) (x : R) :
  Rsum ((fun y => (y - x) * (y - x)) <$> l)
  = Rsum ((fun y => y * y) <$> l) - 2 * x * Rsum l + INR (length l) * (x * x).
Proof.
  induction l as [|y l IH]; [cbn; lra|].
  change (length (y :: l)) with (S (length l)).
  rewrite S_INR, !fmap_cons, !Rsum_cons, IH. lra.
Qed.

(** The mean of the squares less the square of the mean is the mean of the
    squares of the deviations from the mean. *)
Lemma mean_sq_dev (l : list R) :
  l <> [] ->
  Rsum ((fun y => y * y) <$> l) / INR (length l)
  - (Rsum l / INR (length l)) * (Rsum l / INR (length l))
  = Rsum ((fun y => (y - Rsum l / INR (length l)) * (y - Rsum l / INR (length l))) <$> l)
    / INR (length l).
Proof.
  intros Hl. rewrite Rsum_sq_dev.
  assert (0 < INR (length l)) by (apply lt_0_INR; destruct l; [done|cbn; lia]).
  field. lra.
Qed.

Lemma variance_nonneg (l : list R) :
  l <> [] ->
  0 <= Rsum ((fun y => y * y) <$> l) / INR (length l)
       - (Rsum l / INR (length l)) * (Rsum l / INR (length l)).
Proof.
  intros Hl. pose proof (Rsum_cauchy l) as Hc.
  assert (Hn : 0 < INR (length l)).
  { apply lt_0_INR. destruct l; [done|cbn; lia]. }
  revert Hc Hn.
  generalize (Rsum ((fun y => y * y) <$> l)) (Rsum l) (INR (length l)).
  intros q s n Hc Hn.
  replace (q / n - s / n * (s / n)) with ((n * q - s * s) * / (n * n))
    by (field; lra).
  apply Rmult_le_pos; [lra|].
  apply Rlt_le, Rinv_0_lt_compat. nra.
Qed.

(** ** Weighted sums over a list

    [wsum w l] is the sum of the weights [w x] of the elements of [l]; the
    running totals of the C loops are of this form. *)

Section wsum.
Context {A : Type}.
Implicit Types (w v : A -> R) (l k : list A).

Lemma wsum_nil w : wsum w [] = 0.
Proof. reflexivity. Qed.

Lemma wsum_cons w x l : wsum w (x :: l) = w x + wsum w l.
Proof. reflexivity. Qed.

Lemma wsum_app w l k : wsum w (l ++ k) = wsum w l + wsum w k.
Proof. unfold wsum. by rewrite fmap_app, Rsum_app. Qed.

Lemma wsum_snoc w l x : wsum w (l ++ [x]) = wsum w l + w x.
Proof. rewrite wsum_app, wsum_cons, wsum_nil. lra. Qed.

Lemma wsum_ext w v l :
  (forall x, x ∈ l -> w x = v x) -> wsum w l = wsum v l.
Proof.
  induction l as [|x l IH]; intros H; [done|].
  rewrite !wsum_cons, H, IH; [done| |left]. intros y Hy. apply H. by right.
Qed.

Lemma wsum_zero w l : (forall x, x ∈ l -> w x = 0) -> wsum w l = 0.
Proof.
  induction l as [|x l IH]; intros H; [done|].
  rewrite wsum_cons, H, IH; [lra| |left]. intros y Hy. apply H. by right.
Qed.

Lemma wsum_plus w v l : wsum (fun x => w x + v x) l = wsum w l + wsum v l.
Proof. induction l as [|x l IH]; rewrite ?wsum_nil, ?wsum_cons, ?IH; lra. Qed.

Lemma wsum_minus w v l : wsum (fun x => w x - v x) l = wsum w l - wsum v l.
Proof. induction l as [|x l IH]; rewrite ?wsum_nil, ?wsum_cons, ?IH; lra. Qed.

Lemma wsum_scale w (c : R) l : wsum (fun x => c * w x) l = c * wsum w l.
Proof. induction l as [|x l IH]; rewrite ?wsum_nil, ?wsum_cons, ?IH; lra. Qed.

Lemma wsum_le w v l :
  (forall x, x ∈ l -> w x <= v x) -> wsum w l <= wsum v l.
Proof.
  induction l as [|x l IH]; intros H; [rewrite !wsum_nil; lra|].
  rewrite !wsum_cons. assert (w x <= v x) by (apply H; left).
  assert (wsum w l <= wsum v l) by (apply IH; intros y Hy; apply H; by right).
  lra.
Qed.

Lemma wsum_nonneg w l : (forall x, x ∈ l -> 0 <= w x) -> 0 <= wsum w l.
Proof.
  intros H. rewrite <- (wsum_zero (fun _ => 0) l) by done. by apply wsum_le.
Qed.

Lemma wsum_Rabs w l : Rabs (wsum w l) <= wsum (fun x => Rabs (w x)) l.
Proof.
  induction l as [|x l IH]; [rewrite !wsum_nil, Rabs_R0; lra|].
  rewrite !wsum_cons. eapply Rle_trans; [apply Rabs_triang|]. lra.
Qed.

Lemma wsum_filter_count (P : A -> Prop) `{!forall x, Decision (P x)} (c : R) l :
  wsum (fun x => if decide (P x) then c else 0) l = INR (length (filter P l)) * c.
Proof.
  induction l as [|x l IH]; [rewrite wsum_nil; cbn; lra|].
  rewrite wsum_cons, IH, filter_cons. case_decide; [|lra].
  change (length (x :: filter P l)) with (S (length (filter P l))).
  rewrite S_INR. lra.
Qed.

(** The running total of [for (...) acc += w(x)]. *)
Lemma foldl_Rplus w l (a : R) : foldl (fun acc x => acc + w x) a l = a + wsum w l.
Proof.
  revert a. induction l as [|x l IH]; intros a; [rewrite wsum_nil; cbn; lra|].
  cbn [foldl]. rewrite IH, wsum_cons. lra.
Qed.

End wsum.

Lemma wsum_bind {A B : Type} (w : B -> R) (f : A -> list B) (l : list A) :
  wsum w (l ≫= f) = wsum (fun x => wsum w (f x)) l.
Proof.
  induction l as [|x l IH]; [done|].
  by rewrite bind_cons, wsum_app, wsum_cons, IH.
Qed.

Lemma wsum_fmap {A B : Type} (w : B -> R) (f : A -> B) (l : list A) :
  wsum w (f <$> l) = wsum (w ∘ f) l.
Proof. unfold wsum. by rewrite <- list_fmap_compose. Qed.

(** The position [i] contributes [c] once to a sum over the positions of a
    list, if it is one of them. *)
Lemma wsum_imap_indicator {A : Type} (l : list A) (i : nat) (c : R) :
  wsum (fun ix : nat * A => if decide (ix.1 = i) then c else 0) (imap pair l)
  = if decide (i < length l)%nat then c else 0.
Proof.
  induction l as [|x l IH] using rev_ind; [done|].
  rewrite imap_app, wsum_app, IH, length_app. cbn [imap length].
  rewrite wsum_cons, wsum_nil, Nat.add_0_r. cbn [fst].
  repeat case_decide; try lia; lra.
Qed.

(** ** Removal from an array *)

Lemma length_delete_le {A : Type} (l : list A) (i : nat) :
  (length (delete i l) <= length l)%nat.
Proof.
  destruct (decide (i < length l)%nat) as [Hi|Hi].
  - rewrite length_delete by (by apply lookup_lt_is_Some_2). lia.
  - replace (delete i l) with l; [done|]. apply list_eq. intros k.
    destruct (decide (k < i)%nat).
    + by rewrite list_lookup_delete_lt.
    + rewrite list_lookup_delete_ge, !lookup_ge_None_2 by lia. done.
Qed.

Lemma Forall_sublist {A : Type} (Q : A -> Prop) (k l : list A) :
  k `sublist_of` l -> Forall Q l -> Forall Q k.
Proof.
  induction 1 as [|x k l _ IH|x k l _ IH]; [done|..];
    intros [? ?]%Forall_cons; [constructor|]; auto.
Qed.

(** ** Loops by rounds *)

Section loop.
Context {St : Type} (round : St -> option St).

Lemma loop_done (fuel : nat) (s : St) : round s = None -> loop round fuel s = Some s.
Proof. intros H. destruct fuel; cbn; by rewrite H. Qed.

Lemma loop_round (fuel : nat) (s s' : St) :
  round s = Some s' -> loop round (S fuel) s = loop round fuel s'.
Proof. intros H. cbn. by rewrite H. Qed.

Lemma rounds_done (fuel : nat) (s : St) : round s = None -> rounds round fuel s = Some 0%nat.
Proof. intros H. destruct fuel; cbn; by rewrite H. Qed.

Lemma rounds_round (fuel : nat) (s s' : St) :
  round s = Some s' -> rounds round (S fuel) s = S <$> rounds round fuel s'.
Proof. intros H. cbn. by rewrite H. Qed.

(** The loop ends in a state where its condition fails, and an invariant of
    the rounds holds there. *)
Lemma loop_inv (I : St -> Prop) (fuel : nat) (s s' : St) :
  (forall s s', I s -> round s = Some s' -> I s') ->
  I s -> loop round fuel s = Some s' -> I s' /\ round s' = None.
Proof.
  intros Hstep. revert s. induction fuel as [|n IH]; intros s Hs; cbn;
    destruct (round s) as [s1|] eqn:Hr; intros ?; simplify_eq; eauto.
Qed.

(** More fuel does not change the result. *)
Lemma loop_fuel_mono (n n' : nat) (s s' : St) :
  loop round n s = Some s' -> (n <= n')%nat -> loop round n' s = Some s'.
Proof.
  revert n' s. induction n as [|n IH]; intros n' s; cbn;
    destruct (round s) as [s1|] eqn:Hr; intros H Hn; simplify_eq;
    try (by apply loop_done).
  destruct n' as [|n']; [lia|]. rewrite (loop_round _ _ _ Hr). apply IH; [done|lia].
Qed.

(** The loop ends within the fuel exactly when its rounds are counted. *)
Lemma loop_is_Some_rounds (fuel : nat) (s : St) :
  is_Some (loop round fuel s) <-> is_Some (rounds round fuel s).
Proof.
  revert s. induction fuel as [|n IH]; intros s; cbn;
    destruct (round s) as [s1|]; rewrite ?fmap_is_Some; try done;
    split; intros [? ?]; done.
Qed.

(** Termination: a measure that every round decreases bounds the number of
    rounds, so that the measure of the first state is enough fuel. *)
Lemma loop_terminates (m : St -> nat) (fuel : nat) (s : St) :
  (forall s s', round s = Some s' -> (m s' < m s)%nat) -> (m s <= fuel)%nat ->
  exists s' n, loop round fuel s = Some s' /\ rounds round fuel s = Some n /\
               (n <= m s)%nat /\ round s' = None.
Proof.
  intros Hm. revert s. induction fuel as [|k IH]; intros s Hs; cbn;
    destruct (round s) as [s1|] eqn:Hr; try (exists s, 0%nat; split_and!; by try lia).
  - apply Hm in Hr. lia.
  - pose proof (Hm _ _ Hr) as Hlt.
    destruct (IH s1) as (s' & n & -> & -> & Hn & Hend); [lia|].
    exists s', (S n). split_and!; by try lia.
Qed.

(** The exact number of rounds, for a measure that counts them: the loop
    ends when the measure is 0 and a round takes 1 from it. *)
Lemma rounds_exact (m : St -> nat) (fuel : nat) (s : St) :
  (forall s, round s = None <-> m s = 0%nat) ->
  (forall s s', round s = Some s' -> m s = S (m s')) ->
  rounds round fuel s = if decide (m s <= fuel)%nat then Some (m s) else None.
Proof.
  intros H0 HS. revert s. induction fuel as [|k IH]; intros s; cbn;
    destruct (round s) as [s1|] eqn:Hr.
  - apply HS in Hr. by rewrite decide_False by lia.
  - apply H0 in Hr. rewrite decide_True by lia. by rewrite Hr.
  - rewrite IH. apply HS in Hr. rewrite Hr.
    repeat case_decide; try done; lia.
  - apply H0 in Hr. rewrite decide_True by lia. by rewrite Hr.
Qed.

End loop.

(** ** Notation and automation

    [∑ x <- l , e] is the sum of [e] over the elements [x] of [l].  The
    rewrite base [wsum] evaluates a sum over a list that is given by its
    elements; the hint base [econ] holds the sign and bound facts that the
    proofs about prices use. *)

Declare Scope econ_scope.
Delimit Scope econ_scope with econ.
Notation "∑ x <- l , e" := (wsum (fun x => e) l)
  (at level 100, x binder, l at level 10, e at level 100) : econ_scope.

Create HintDb econ discriminated.
Create Rewrite HintDb wsum.
#[export] Hint Resolve Rabs_pos Rle_0_sqr Rsum_nonneg wsum_nonneg tanh_bound
  sin_Rabs_le Ztrunc_nonneg : econ.
#[export] Hint Rewrite @wsum_nil @wsum_cons @wsum_app @wsum_snoc Rsum_nil Rsum_cons
  Rsum_app : wsum.
