(* ===== verification/World.v ===== *)
(** * World: the data the economy works on

    The structs of economy.c and of the headers it includes, as records, and
    the global registries ([commodity_stack], [econ_comm], [systems_stack]) as
    one [Universe] value that every operation receives and returns.

    Pointers are indices: a [Commodity*] is a position in [commodity_stack]
    (the code itself recovers it with [com - commodity_stack]), a [Planet*] a
    position in [planet_stack], a jump's [target] a position in
    [systems_stack].  The parallel arrays [commodities] and [commodityPrice]
    of a planet, which share the length [ncommodities], are one list of
    pairs.  Record fields carry a prefix naming their struct ([cp_] for
    CommodityPrice, [com_] for Commodity, [pl_] for Planet, [sys_] for
    StarSystem), because several structs share the field names [name] and
    [price]. *)

From Stdlib Require Import Reals ZArith.
From stdpp Require Import base tactics option list strings.
From S2P Require Import Prelude.

#[local] Open Scope R_scope.

(** One link of the [planet_modifier] / [faction_modifier] chains.  A chain
    is a list whose head is the link parsed last. *)
Record CommodityModifier : Type := mkCommodityModifier {
  cm_name : string;
  cm_value : R
}.

(** A [glTexture*] that is not [NULL]: the texture of an image file, named
    by the path it was loaded from. *)
Definition Texture : Type := string.

(** A [NULL] string ([name], [description]) is the empty string; a [NULL]
    texture is [None]. *)
Record Commodity : Type := mkCommodity {
  com_name : string;
  com_price : R;
  com_period : R;
  com_population_modifier : R;
  com_planet_modifier : list CommodityModifier;
  com_faction_modifier : list CommodityModifier;
  com_lastPurchasePrice : Z;
  com_description : string;
  com_gfx_store : option Texture;
  com_gfx_space : option Texture
}.

(** The price field of one good at one planet; also the scratch record of
    the per-system averages during initialisation. *)
Record CommodityPrice : Type := mkCommodityPrice {
  cp_name : string;
  cp_price : R;
  cp_planetPeriod : R;
  cp_sysPeriod : R;
  cp_planetVariation : R;
  cp_sysVariation : R;
  cp_updateTime : Z;
  cp_sum : R;
  cp_sum2 : R;
  cp_cnt : Z
}.

Record Planet : Type := mkPlanet {
  pl_name : string;
  pl_class : string;
  pl_faction : Z;
  pl_population : Z;
  pl_presenceRange : Z;
  pl_gfx_spaceName : string;
  pl_gfx_exterior : string;
  pl_goods : list (nat * CommodityPrice)
}.

Record JumpPoint : Type := mkJumpPoint {
  jp_target : nat
}.

Record StarSystem : Type := mkStarSystem {
  sys_name : string;
  sys_id : Z;
  sys_jumps : list JumpPoint;
  sys_planets : list nat;
  sys_nebu_density : R;
  sys_nebu_volatility : R;
  sys_interference : R;
  sys_radius : R;
  sys_faction : Z;
  sys_prices : option (list R);
  sys_averagePrice : list CommodityPrice
}.

Record Universe : Type := mkUniverse {
  commodity_stack : list Commodity;
  econ_comm : list nat;
  systems_stack : list StarSystem;
  planet_stack : list Planet
}.

(** ** Views of a planet's parallel arrays *)

Definition pl_commodities (p : Planet) : list nat := (pl_goods p).*1.
Definition pl_commodityPrice (p : Planet) : list CommodityPrice := (pl_goods p).*2.

(** A change of the price field of one entry of [pl_goods]; the commodity
    pointer beside it stays. *)
Definition map_cp (f : CommodityPrice -> CommodityPrice)
  (g : nat * CommodityPrice) : nat * CommodityPrice := (g.1, f g.2).

(** ** Field updates *)

Definition set_pl_goods (g : list (nat * CommodityPrice)) (p : Planet) : Planet :=
  mkPlanet (pl_name p) (pl_class p) (pl_faction p) (pl_population p)
    (pl_presenceRange p) (pl_gfx_spaceName p) (pl_gfx_exterior p) g.

Definition set_sys_prices (v : option (list R)) (s : StarSystem) : StarSystem :=
  mkStarSystem (sys_name s) (sys_id s) (sys_jumps s) (sys_planets s)
    (sys_nebu_density s) (sys_nebu_volatility s) (sys_interference s)
    (sys_radius s) (sys_faction s) v (sys_averagePrice s).

Definition set_sys_averagePrice (a : list CommodityPrice) (s : StarSystem) : StarSystem :=
  mkStarSystem (sys_name s) (sys_id s) (sys_jumps s) (sys_planets s)
    (sys_nebu_density s) (sys_nebu_volatility s) (sys_interference s)
    (sys_radius s) (sys_faction s) (sys_prices s) a.

Definition set_com_lastPurchasePrice (v : Z) (c : Commodity) : Commodity :=
  mkCommodity (com_name c) (com_price c) (com_period c)
    (com_population_modifier c) (com_planet_modifier c)
    (com_faction_modifier c) v (com_description c) (com_gfx_store c) (com_gfx_space c).

Definition set_com_modifiers (pm fm : list CommodityModifier) (c : Commodity) : Commodity :=
  mkCommodity (com_name c) (com_price c) (com_period c)
    (com_population_modifier c) pm fm (com_lastPurchasePrice c)
    (com_description c) (com_gfx_store c) (com_gfx_space c).

Definition set_com_gfx_store (t : option Texture) (c : Commodity) : Commodity :=
  mkCommodity (com_name c) (com_price c) (com_period c)
    (com_population_modifier c) (com_planet_modifier c) (com_faction_modifier c)
    (com_lastPurchasePrice c) (com_description c) t (com_gfx_space c).

Definition set_com_gfx_space (t : option Texture) (c : Commodity) : Commodity :=
  mkCommodity (com_name c) (com_price c) (com_period c)
    (com_population_modifier c) (com_planet_modifier c) (com_faction_modifier c)
    (com_lastPurchasePrice c) (com_description c) (com_gfx_store c) t.

Definition set_commodity_stack (cs : list Commodity) (u : Universe) : Universe :=
  mkUniverse cs (econ_comm u) (systems_stack u) (planet_stack u).

Definition set_systems_stack (ss : list StarSystem) (u : Universe) : Universe :=
  mkUniverse (commodity_stack u) (econ_comm u) ss (planet_stack u).

Definition set_planet_stack (ps : list Planet) (u : Universe) : Universe :=
  mkUniverse (commodity_stack u) (econ_comm u) (systems_stack u) ps.

(** ** Pointer dereference *)

(** [com->name] for the commodity pointer [k]. *)
Definition commodity_name (u : Universe) (k : nat) : string :=
  from_option com_name EmptyString (commodity_stack u !! k).

(** The names of the catalogue, in its order. *)
Definition commodity_names (u : Universe) : list string :=
  com_name <$> commodity_stack u.

(** What the pointers of a system are: its [id], its jumps and its
    planets. *)
Definition sys_links (s : StarSystem) : Z * list JumpPoint * list nat :=
  (sys_id s, sys_jumps s, sys_planets s).

(** Two universes with the same pointers: the catalogue has the same
    length, the priced set, the links of the systems and the commodity
    pointers of the planets are the same. *)
Definition same_shape (u u' : Universe) : Prop :=
  length (commodity_stack u) = length (commodity_stack u') /\
  econ_comm u = econ_comm u' /\
  sys_links <$> systems_stack u = sys_links <$> systems_stack u' /\
  pl_commodities <$> planet_stack u = pl_commodities <$> planet_stack u'.

(** ** Well-formedness of the registries

    What the loaders outside economy.c establish and the operations here rely
    on: pointers are in range, and a system's [id] is its position in
    [systems_stack]. *)

Definition wf_planet (u : Universe) (p : Planet) : Prop :=
  Forall (fun k => k < length (commodity_stack u))%nat (pl_commodities p).

Definition wf_system (u : Universe) (i : nat) (s : StarSystem) : Prop :=
  sys_id s = Z.of_nat i /\
  Forall (fun j => jp_target j < length (systems_stack u))%nat (sys_jumps s) /\
  Forall (fun k => k < length (planet_stack u))%nat (sys_planets s).

Definition wf_universe (u : Universe) : Prop :=
  Forall (fun k => k < length (commodity_stack u))%nat (econ_comm u) /\
  Forall (wf_planet u) (planet_stack u) /\
  (forall i s, systems_stack u !! i = Some s -> wf_system u i s).

(** ** Basic facts *)

Lemma pl_commodities_length (p : Planet) :
  length (pl_commodities p) = length (pl_goods p).
Proof. unfold pl_commodities. by rewrite length_fmap. Qed.

Lemma pl_commodityPrice_length (p : Planet) :
  length (pl_commodityPrice p) = length (pl_goods p).
Proof. unfold pl_commodityPrice. by rewrite length_fmap. Qed.

Lemma pl_commodityPrice_lookup (p : Planet) (i : nat) :
  pl_commodityPrice p !! i = snd <$> pl_goods p !! i.
Proof. unfold pl_commodityPrice. by rewrite list_lookup_fmap. Qed.

Lemma pl_commodities_lookup (p : Planet) (i : nat) :
  pl_commodities p !! i = fst <$> pl_goods p !! i.
Proof. unfold pl_commodities. by rewrite list_lookup_fmap. Qed.

Lemma set_pl_goods_goods (g : list (nat * CommodityPrice)) (p : Planet) :
  pl_goods (set_pl_goods g p) = g.
Proof. reflexivity. Qed.

Lemma set_pl_goods_id (p : Planet) : set_pl_goods (pl_goods p) p = p.
Proof. by destruct p. Qed.

Lemma set_pl_goods_twice (g g' : list (nat * CommodityPrice)) (p : Planet) :
  set_pl_goods g (set_pl_goods g' p) = set_pl_goods g p.
Proof. reflexivity. Qed.

Lemma map_cp_compose (f g : CommodityPrice -> CommodityPrice) (x : nat * CommodityPrice) :
  map_cp f (map_cp g x) = map_cp (f ∘ g) x.
Proof. reflexivity. Qed.

Lemma commodity_name_lookup (u : Universe) (k : nat) (c : Commodity) :
  commodity_stack u !! k = Some c -> commodity_name u k = com_name c.
Proof. unfold commodity_name. by intros ->. Qed.

Lemma commodity_name_names (u : Universe) (k : nat) :
  commodity_name u k = default EmptyString (commodity_names u !! k).
Proof.
  unfold commodity_name, commodity_names. rewrite list_lookup_fmap.
  by destruct (commodity_stack u !! k).
Qed.

Lemma commodity_names_name (u u' : Universe) :
  commodity_names u' = commodity_names u ->
  forall k, commodity_name u' k = commodity_name u k.
Proof. intros H k. by rewrite !commodity_name_names, H. Qed.

Lemma commodity_names_length (u u' : Universe) :
  commodity_names u' = commodity_names u ->
  length (commodity_stack u') = length (commodity_stack u).
Proof.
  intros H. apply (f_equal length) in H. unfold commodity_names in H.
  by rewrite !length_fmap in H.
Qed.

(** A write to a commodity that keeps its name keeps the names. *)
Lemma commodity_names_alter (f : Commodity -> Commodity) (c : nat) (u : Universe) :
  (forall x, com_name (f x) = com_name x) ->
  commodity_names (set_commodity_stack (alter f c (commodity_stack u)) u)
  = commodity_names u.
Proof.
  intros Hf. unfold commodity_names. cbn. apply list_eq. intros k.
  rewrite !list_lookup_fmap. destruct (decide (c = k)) as [->|Hk].
  - rewrite list_lookup_alter_eq. destruct (commodity_stack u !! k); cbn; [|done].
    by rewrite Hf.
  - by rewrite list_lookup_alter_ne.
Qed.

Lemma commodity_names_fmap (f : Commodity -> Commodity) (u : Universe) :
  (forall x, com_name (f x) = com_name x) ->
  commodity_names (set_commodity_stack (f <$> commodity_stack u) u) = commodity_names u.
Proof.
  intros Hf. unfold commodity_names. cbn. rewrite <- list_fmap_compose.
  apply list_fmap_ext. intros _ x _. apply Hf.
Qed.

(** ** The shape is an equivalence, and well-formedness reads the shape
    only *)

#[export] Instance same_shape_equivalence : Equivalence same_shape.
Proof.
  unfold same_shape. split.
  - by intros u.
  - intros u u' (? & ? & ? & ?). by split_and!.
  - intros u1 u2 u3 (? & ? & ? & ?) (? & ? & ? & ?). split_and!; congruence.
Qed.

Lemma same_shape_wf (u u' : Universe) : same_shape u u' -> wf_universe u -> wf_universe u'.
Proof.
  intros (Hc & He & Hs & Hp) (Hwe & Hwp & Hws).
  assert (length (systems_stack u) = length (systems_stack u')) as Hls
    by (apply (f_equal length) in Hs; by rewrite !length_fmap in Hs).
  assert (length (planet_stack u) = length (planet_stack u')) as Hlp
    by (apply (f_equal length) in Hp; by rewrite !length_fmap in Hp).
  split_and!.
  - by rewrite <- He, <- Hc.
  - apply Forall_lookup. intros k p' Hk.
    apply (f_equal (fun l => l !! k)) in Hp. rewrite !list_lookup_fmap, Hk in Hp.
    destruct (planet_stack u !! k) as [p|] eqn:Hpk; [|done]. cbn in Hp.
    pose proof (Forall_lookup_1 _ _ _ _ Hwp Hpk) as Hw.
    unfold wf_planet in *. simplify_eq. by rewrite <- Hc, <- Hp.
  - intros i s' Hi.
    apply (f_equal (fun l => l !! i)) in Hs. rewrite !list_lookup_fmap, Hi in Hs.
    destruct (systems_stack u !! i) as [s|] eqn:Hsi; [|done]. cbn in Hs.
    destruct (Hws i s Hsi) as (Hid & Hj & Hpl). unfold sys_links in Hs.
    injection Hs as H1 H2 H3. unfold wf_system.
    by rewrite <- H1, <- H2, <- H3, <- Hls, <- Hlp.
Qed.

#[export] Instance wf_universe_proper : Proper (same_shape ==> iff) wf_universe.
Proof. intros u u' H. split; apply same_shape_wf; [done|by symmetry]. Qed.
