(* ===== verification/Price.v ===== *)
(** * Price: the price evaluator

    [economy_getPriceAtTime] and [economy_getPrice] of economy.c: the lookup
    of a good's price field on a planet and the closed-form price
    [price + sysVariation * sin (2 pi t / sysPeriod)
           + planetVariation * sin (2 pi t / planetPeriod)],
    rounded by [(credits_t)(price + 0.5)].

    Doubles are real numbers, [M_PI] is [PI].  The lookup reports its two
    failures as values of [price_error]; the code logs a warning there and
    returns 0. *)

From Stdlib Require Import Reals Lra Lia ZArith.
From stdpp Require Import base tactics option list strings.
From S2P Require Import Prelude World.

#[local] Open Scope R_scope.

(** ** Time units (ntime.c, outside src/)

    The comment in [economy_getPriceAtTime] fixes the product of the two
    conversions: 1e7 ntime units are one STP. *)

Definition ntime_convertSTU (t : Z) : R := IZR t / 1000.
Definition NT_STP_STU : R := 10000.

(** ** Lookup of the price field *)

Inductive price_error : Type :=
| PriceNotKnown
| PriceNotKnownOnPlanet.

(** [for (i=0; i<econ_nprices; i++) if (econ_comm[i] == k) break;] *)
Definition econ_comm_index (u : Universe) (k : nat) : option nat :=
  fst <$> list_find (fun c => c = k) (econ_comm u).

(** [for (i=0; i<p->ncommodities; i++)
       if (!strcmp(p->commodities[i]->name, com->name)) break;] *)
Definition planet_commodity_index (u : Universe) (p : Planet) (com : nat) : option nat :=
  fst <$> list_find (fun c => commodity_name u c = commodity_name u com)
            (pl_commodities p).

Definition find_commodityPrice (u : Universe) (com : nat) (p : Planet)
  : price_error + CommodityPrice :=
  match econ_comm_index u com with
  | None => inl PriceNotKnown
  | Some _ =>
      match planet_commodity_index u p com with
      | None => inl PriceNotKnownOnPlanet
      | Some i =>
          match pl_commodityPrice p !! i with
          | Some cp => inr cp
          | None => inl PriceNotKnownOnPlanet
          end
      end
  end.

(** ** The price function *)

Definition price_at (cp : CommodityPrice) (t : R) : R :=
  cp_price cp
  + cp_sysVariation cp * sin (2 * PI * t / cp_sysPeriod cp)
  + cp_planetVariation cp * sin (2 * PI * t / cp_planetPeriod cp).

Definition economy_getPriceAtTime (u : Universe) (com : nat) (p : Planet) (tme : Z) : Z :=
  let t := ntime_convertSTU tme / NT_STP_STU in
  match find_commodityPrice u com p with
  | inl _ => 0%Z
  | inr commPrice => Ztrunc (price_at commPrice t + 0.5)
  end.

(** [ntime_get()] is the argument [now]. *)
Definition economy_getPrice (u : Universe) (com : nat) (p : Planet) (now : Z) : Z :=
  economy_getPriceAtTime u com p now.

(** ** Planets that agree on the price parameters

    The evaluator reads the goods a planet lists and the five price
    parameters of each field, never the observation accumulators.
    [planet_equiv] relates two planets that agree on what it reads. *)

Definition cp_params_eq (a b : CommodityPrice) : Prop :=
  cp_price a = cp_price b /\
  cp_sysVariation a = cp_sysVariation b /\
  cp_sysPeriod a = cp_sysPeriod b /\
  cp_planetVariation a = cp_planetVariation b /\
  cp_planetPeriod a = cp_planetPeriod b.

Definition good_equiv (x y : nat * CommodityPrice) : Prop :=
  x.1 = y.1 /\ cp_params_eq x.2 y.2.

Definition planet_equiv (p q : Planet) : Prop :=
  Forall2 good_equiv (pl_goods p) (pl_goods q).

(** ** Sample data for the witnesses: two goods, the second unpriced, and a
    planet that sells both. *)

Definition sample_food : Commodity :=
  mkCommodity "Food" 100 200 0 [] [] 0 "" None None.
Definition sample_dust : Commodity :=
  mkCommodity "Dust" 0 200 0 [] [] 0 "" None None.
Definition sample_field : CommodityPrice :=
  mkCommodityPrice "" 100 300 1000 5 2 0 0 0 0.
Definition sample_planet : Planet :=
  mkPlanet "Haven" "M" 0 1000 2 "gfx/planet/space/M00.png" ""
    [(0%nat, sample_field); (1%nat, sample_field)].
Definition sample_universe : Universe :=
  mkUniverse [sample_food; sample_dust] [0%nat] [] [sample_planet].

(** * Theorems *)

Lemma ntime_STP (tme : Z) : ntime_convertSTU tme / NT_STP_STU = IZR tme / 10000000.
Proof. unfold ntime_convertSTU, NT_STP_STU. field. Qed.

(** ** The lookup *)

Lemma econ_comm_index_Some (u : Universe) (k i : nat) :
  econ_comm_index u k = Some i ->
  econ_comm u !! i = Some k /\ forall j, (j < i)%nat -> econ_comm u !! j <> Some k.
Proof.
  unfold econ_comm_index. intros H.
  apply fmap_Some in H as [[i' c] [H ->]]. simpl.
  apply list_find_Some in H as (Hi & -> & Hleast). split; [done|].
  intros j Hj Hjk. by eapply Hleast.
Qed.

Lemma econ_comm_index_None (u : Universe) (k : nat) :
  econ_comm_index u k = None <-> k ∉ econ_comm u.
Proof.
  unfold econ_comm_index. rewrite fmap_None, list_find_None, Forall_forall.
  split; [intros H Hk; by eapply H|intros H x Hx ->; done].
Qed.

Lemma econ_comm_index_is_Some (u : Universe) (k : nat) :
  is_Some (econ_comm_index u k) <-> k ∈ econ_comm u.
Proof.
  rewrite <- not_eq_None_Some, econ_comm_index_None.
  split; [|tauto]. destruct (decide (k ∈ econ_comm u)); tauto.
Qed.

Lemma planet_commodity_index_None (u : Universe) (p : Planet) (com : nat) :
  planet_commodity_index u p com = None <->
  Forall (fun c => commodity_name u c <> commodity_name u com) (pl_commodities p).
Proof. unfold planet_commodity_index. by rewrite fmap_None, list_find_None. Qed.

Lemma planet_commodity_index_Some (u : Universe) (p : Planet) (com i : nat) :
  planet_commodity_index u p com = Some i ->
  exists c, pl_commodities p !! i = Some c /\
            commodity_name u c = commodity_name u com.
Proof.
  unfold planet_commodity_index. intros H.
  apply fmap_Some in H as [[i' c] [H ->]].
  apply list_find_Some in H as (Hi & Hc & _). eauto.
Qed.

Lemma find_commodityPrice_inr (u : Universe) (com : nat) (p : Planet) (cp : CommodityPrice) :
  find_commodityPrice u com p = inr cp ->
  com ∈ econ_comm u /\
  exists i c, pl_goods p !! i = Some (c, cp) /\
              commodity_name u c = commodity_name u com.
Proof.
  unfold find_commodityPrice.
  destruct (econ_comm_index u com) as [j|] eqn:Hj; [|done].
  destruct (planet_commodity_index u p com) as [i|] eqn:Hi; [|done].
  destruct (pl_commodityPrice p !! i) as [cp'|] eqn:Hcp; [|done].
  intros [= ->]. split; [apply econ_comm_index_is_Some; eauto|].
  apply planet_commodity_index_Some in Hi as (c & Hc & Hn).
  rewrite pl_commodities_lookup in Hc. rewrite pl_commodityPrice_lookup in Hcp.
  destruct (pl_goods p !! i) as [[c' cp']|] eqn:Hg; simplify_eq/=. eauto.
Qed.

(** ** The price function *)

Lemma price_at_deviation (cp : CommodityPrice) (t : R) :
  Rabs (price_at cp t - cp_price cp)
  <= Rabs (cp_sysVariation cp) + Rabs (cp_planetVariation cp).
Proof.
  unfold price_at.
  replace (_ - cp_price cp) with
    (cp_sysVariation cp * sin (2 * PI * t / cp_sysPeriod cp)
     + cp_planetVariation cp * sin (2 * PI * t / cp_planetPeriod cp)) by ring.
  eapply Rle_trans; [apply Rabs_triang|].
  apply Rplus_le_compat; apply Rabs_mul_sin_le.
Qed.

(** The rounded value of the price function. *)
Lemma price_round_bounds (cp : CommodityPrice) (t : R) :
  Rabs (cp_sysVariation cp) + Rabs (cp_planetVariation cp) <= cp_price cp ->
  (0 <= Ztrunc (price_at cp t + 0.5))%Z /\
  Rabs (IZR (Ztrunc (price_at cp t + 0.5)) - cp_price cp)
  <= Rabs (cp_sysVariation cp) + Rabs (cp_planetVariation cp) + / 2.
Proof.
  intros Hamp. set (x := price_at cp t).
  pose proof (price_at_deviation cp t) as Hd.
  fold x in Hd. apply Rabs_le_inv in Hd.
  assert (Hx : 0 <= x) by lra.
  replace 0.5 with (/ 2) by lra.
  split; [apply Ztrunc_nonneg; lra|].
  pose proof (Ztrunc_half_nearest x Hx) as Hr. apply Rabs_le_inv in Hr.
  apply Rabs_le. lra.
Qed.

(** Before it is rounded the price is a continuous function of the time. *)
Lemma price_at_continuous (cp : CommodityPrice) : continuity (price_at cp).
Proof.
  unfold price_at.
  repeat first [apply continuity_plus | apply continuity_mult
               | apply continuity_const; intros ? ?; reflexivity].
  all: try (apply (continuity_comp (fun t => 2 * PI * t / _) sin); [|apply continuity_sin]).
  all: unfold Rdiv;
    repeat first [apply continuity_mult
                 | apply (continuity_const (fun _ => _)); intros ? ?; reflexivity
                 | apply derivable_continuous, derivable_id].
Qed.

Lemma price_at_zero (cp : CommodityPrice) : price_at cp 0 = cp_price cp.
Proof.
  unfold price_at. unfold Rdiv. rewrite !Rmult_0_r, !Rmult_0_l, sin_0. ring.
Qed.

Lemma price_at_shift (cp : CommodityPrice) (t d : R) (n1 n2 : Z) :
  cp_sysPeriod cp <> 0 -> cp_planetPeriod cp <> 0 ->
  d = IZR n1 * cp_sysPeriod cp -> d = IZR n2 * cp_planetPeriod cp ->
  price_at cp (t + d) = price_at cp t.
Proof.
  intros Hs Hp H1 H2. unfold price_at.
  replace (2 * PI * (t + d) / cp_sysPeriod cp)
    with (2 * PI * t / cp_sysPeriod cp + 2 * IZR n1 * PI) by (rewrite H1; field; done).
  replace (2 * PI * (t + d) / cp_planetPeriod cp)
    with (2 * PI * t / cp_planetPeriod cp + 2 * IZR n2 * PI) by (rewrite H2; field; done).
  by rewrite !sin_period_Z.
Qed.

(** ** The evaluator respects [planet_equiv] *)

#[export] Instance cp_params_eq_equivalence : Equivalence cp_params_eq.
Proof.
  unfold cp_params_eq. split; [intros a|intros a b ?|intros a b c ??];
    intuition congruence.
Qed.

#[export] Instance good_equiv_equivalence : Equivalence good_equiv.
Proof.
  unfold good_equiv. split.
  - intros a. split; reflexivity.
  - intros a b [? ?]. split; by symmetry.
  - intros a b c [? ?] [? ?]. split; etrans; eauto.
Qed.

#[export] Instance planet_equiv_equivalence : Equivalence planet_equiv.
Proof.
  unfold planet_equiv. split.
  - intros p. reflexivity.
  - intros p q ?. by symmetry.
  - intros p q r ??. by etrans.
Qed.

Lemma planet_equiv_commodities (p q : Planet) :
  planet_equiv p q -> pl_commodities p = pl_commodities q.
Proof.
  unfold planet_equiv, pl_commodities.
  generalize (pl_goods p) (pl_goods q).
  induction 1 as [|x y l k [Hx _] _ IH]; [done|]. cbn. by rewrite Hx, IH.
Qed.

Lemma planet_equiv_commodityPrice (p q : Planet) (i : nat) (cp : CommodityPrice) :
  planet_equiv p q -> pl_commodityPrice p !! i = Some cp ->
  exists cq, pl_commodityPrice q !! i = Some cq /\ cp_params_eq cp cq.
Proof.
  unfold planet_equiv. rewrite !pl_commodityPrice_lookup. intros H Hi.
  apply fmap_Some in Hi as [x [Hx ->]].
  destruct (Forall2_lookup_l _ _ _ _ _ H Hx) as (y & Hy & _ & Hxy).
  exists y.2. by rewrite Hy.
Qed.

Lemma price_at_params (a b : CommodityPrice) (t : R) :
  cp_params_eq a b -> price_at a t = price_at b t.
Proof. unfold price_at. by intros (-> & -> & -> & -> & ->). Qed.

Lemma find_commodityPrice_equiv (u : Universe) (com : nat) (p q : Planet) :
  planet_equiv p q ->
  match find_commodityPrice u com p, find_commodityPrice u com q with
  | inl e, inl e' => e = e'
  | inr a, inr b => cp_params_eq a b
  | _, _ => False
  end.
Proof.
  intros H. unfold find_commodityPrice, planet_commodity_index.
  rewrite <- (planet_equiv_commodities p q H).
  destruct (econ_comm_index u com); [|done].
  destruct (fst <$> list_find _ (pl_commodities p)) as [i|]; [|done].
  destruct (pl_commodityPrice p !! i) as [cp|] eqn:Hp.
  - destruct (planet_equiv_commodityPrice p q i cp H Hp) as (cq & -> & Hpq). done.
  - destruct (pl_commodityPrice q !! i) as [cq|] eqn:Hq; [|done].
    symmetry in H.
    destruct (planet_equiv_commodityPrice q p i cq H Hq) as (? & ? & _). congruence.
Qed.

#[export] Instance economy_getPriceAtTime_proper (u : Universe) (com : nat) :
  Proper (planet_equiv ==> eq ==> eq) (economy_getPriceAtTime u com).
Proof.
  intros p q H t ? <-. unfold economy_getPriceAtTime.
  pose proof (find_commodityPrice_equiv u com p q H) as Hf.
  destruct (find_commodityPrice u com p), (find_commodityPrice u com q); try done.
  by rewrite (price_at_params _ _ _ Hf).
Qed.

(** The evaluator reads only two things of the registries: the priced set
    and the names behind the commodity pointers. *)
Lemma find_commodityPrice_universe (u u' : Universe) (com : nat) (p : Planet) :
  econ_comm u = econ_comm u' ->
  (forall k, commodity_name u k = commodity_name u' k) ->
  find_commodityPrice u com p = find_commodityPrice u' com p.
Proof.
  intros He Hn. unfold find_commodityPrice, econ_comm_index, planet_commodity_index.
  rewrite He. destruct (fst <$> list_find _ (econ_comm u')); [|done].
  rewrite (list_find_ext _ (fun c => commodity_name u' c = commodity_name u' com));
    [done|].
  intros c. by rewrite !Hn.
Qed.

Lemma economy_getPriceAtTime_universe (u u' : Universe) (com : nat) (p : Planet) (tme : Z) :
  econ_comm u = econ_comm u' ->
  (forall k, commodity_name u k = commodity_name u' k) ->
  economy_getPriceAtTime u com p tme = economy_getPriceAtTime u' com p tme.
Proof.
  intros He Hn. unfold economy_getPriceAtTime.
  by rewrite (find_commodityPrice_universe u u').
Qed.

(** C1.  The price of a good with a price field stays within the two
    amplitudes (and the half unit of rounding) of its base price, and is
    non-negative, whenever the amplitudes together do not exceed the base. *)
Theorem economy_getPriceAtTime_bounds
  (u : Universe) (com : nat) (p : Planet) (tme : Z) (cp : CommodityPrice) :
  find_commodityPrice u com p = inr cp ->
  Rabs (cp_sysVariation cp) + Rabs (cp_planetVariation cp) <= cp_price cp ->
  (0 <= economy_getPriceAtTime u com p tme)%Z /\
  Rabs (IZR (economy_getPriceAtTime u com p tme) - cp_price cp)
  <= Rabs (cp_sysVariation cp) + Rabs (cp_planetVariation cp) + / 2.
Proof.
  intros Hf Hamp. unfold economy_getPriceAtTime. rewrite Hf.
  by apply price_round_bounds.
Qed.

Lemma economy_getPriceAtTime_bounds_witness :
  (0 <= economy_getPriceAtTime sample_universe 0 sample_planet 12345678)%Z /\
  Rabs (IZR (economy_getPriceAtTime sample_universe 0 sample_planet 12345678) - 100)
  <= Rabs 2 + Rabs 5 + / 2.
Proof.
  apply (economy_getPriceAtTime_bounds sample_universe 0 sample_planet 12345678 sample_field).
  - reflexivity.
  - simpl. rewrite !Rabs_pos_eq; lra.
Defined.

(** C26.  The price of a good with a price field whose two periods are not
    zero is periodic in time: a shift of the clock by a common whole
    multiple of both periods (in ntime units, 1e7 to the period unit)
    leaves the price unchanged. *)
Theorem economy_getPriceAtTime_periodic
  (u : Universe) (com : nat) (p : Planet) (tme d : Z) (n1 n2 : Z) (cp : CommodityPrice) :
  find_commodityPrice u com p = inr cp ->
  cp_sysPeriod cp <> 0 -> cp_planetPeriod cp <> 0 ->
  IZR d / 10000000 = IZR n1 * cp_sysPeriod cp ->
  IZR d / 10000000 = IZR n2 * cp_planetPeriod cp ->
  economy_getPriceAtTime u com p (tme + d) = economy_getPriceAtTime u com p tme.
Proof.
  intros Hf Hs Hp H1 H2. unfold economy_getPriceAtTime. rewrite Hf.
  rewrite !ntime_STP, plus_IZR.
  replace ((IZR tme + IZR d) / 10000000)
    with (IZR tme / 10000000 + IZR d / 10000000) by field.
  by rewrite (price_at_shift cp _ _ n1 n2).
Qed.

Lemma economy_getPriceAtTime_periodic_witness :
  economy_getPriceAtTime sample_universe 0 sample_planet (777 + 30000000000)
  = economy_getPriceAtTime sample_universe 0 sample_planet 777.
Proof.
  apply (economy_getPriceAtTime_periodic sample_universe 0 sample_planet
           777 30000000000 3 10 sample_field).
  - reflexivity.
  - simpl. lra.
  - simpl. lra.
  - simpl. lra.
  - simpl. lra.
Defined.

Lemma find_commodityPrice_unpriced (u : Universe) (com : nat) (p : Planet) :
  com ∉ econ_comm u -> find_commodityPrice u com p = inl PriceNotKnown.
Proof.
  intros H. apply econ_comm_index_None in H.
  unfold find_commodityPrice. by rewrite H.
Qed.

Lemma getPriceAtTime_unpriced (u : Universe) (com : nat) (p : Planet) (tme : Z) :
  com ∉ econ_comm u -> economy_getPriceAtTime u com p tme = 0%Z.
Proof.
  intros H. unfold economy_getPriceAtTime. by rewrite find_commodityPrice_unpriced.
Qed.

(** A good that is not in the priced set has no price: the search
    ends at the first check, and both queries answer 0, on every planet and
    at every time. *)
Theorem economy_getPriceAtTime_not_priced
  (u : Universe) (com : nat) (p : Planet) (tme : Z) :
  com ∉ econ_comm u ->
  find_commodityPrice u com p = inl PriceNotKnown /\
  economy_getPriceAtTime u com p tme = 0%Z /\ economy_getPrice u com p tme = 0%Z.
Proof.
  intros H. unfold economy_getPrice.
  by rewrite find_commodityPrice_unpriced, getPriceAtTime_unpriced.
Qed.

Lemma economy_getPriceAtTime_not_priced_witness :
  economy_getPriceAtTime sample_universe 1 sample_planet 777 = 0%Z.
Proof.
  apply (economy_getPriceAtTime_not_priced sample_universe 1 sample_planet 777). simpl.
  rewrite list_elem_of_singleton. discriminate.
Defined.

(** A priced good that no entry of the planet carries by name has no
    price there: the search ends at the second check, and the query answers
    0. *)
Theorem economy_getPriceAtTime_not_on_planet
  (u : Universe) (com : nat) (p : Planet) (tme : Z) :
  com ∈ econ_comm u ->
  Forall (fun c => commodity_name u c <> commodity_name u com) (pl_commodities p) ->
  find_commodityPrice u com p = inl PriceNotKnownOnPlanet /\
  economy_getPriceAtTime u com p tme = 0%Z.
Proof.
  intros Hc H. apply planet_commodity_index_None in H.
  apply econ_comm_index_is_Some in Hc as [i Hi].
  unfold economy_getPriceAtTime, find_commodityPrice. by rewrite Hi, H.
Qed.

Lemma economy_getPriceAtTime_not_on_planet_witness :
  economy_getPriceAtTime sample_universe 0 (set_pl_goods [] sample_planet) 777 = 0%Z.
Proof.
  apply (economy_getPriceAtTime_not_on_planet sample_universe 0
           (set_pl_goods [] sample_planet) 777); [|constructor].
  simpl. apply list_elem_of_here.
Defined.

(** At the origin of time both sines vanish and the price is the base price
    rounded. *)
Lemma economy_getPriceAtTime_origin
  (u : Universe) (com : nat) (p : Planet) (cp : CommodityPrice) :
  find_commodityPrice u com p = inr cp ->
  economy_getPriceAtTime u com p 0 = Ztrunc (cp_price cp + 0.5).
Proof.
  intros Hf. unfold economy_getPriceAtTime. rewrite Hf, ntime_STP.
  replace (0 / 10000000) with 0 by field. by rewrite price_at_zero.
Qed.

Example sample_price_origin :
  economy_getPriceAtTime sample_universe 0 sample_planet 0 = 100%Z.
Proof.
  rewrite (economy_getPriceAtTime_origin _ _ _ sample_field) by reflexivity.
  simpl. replace 0.5 with (/ 2) by lra. by apply (Ztrunc_half_IZR 100).
Qed.
