(* ===== verification/Observation.v ===== *)
(** * Observation: statistics of the prices the player has seen

    [economy_averageSeenPrices], [economy_averageSeenPricesAtTime],
    [economy_getAveragePlanetPrice], [economy_getAveragePrice] and
    [economy_clearKnown] of economy.c.

    The recording loops are kept as the code writes them: a fold over the
    indices of the planet's goods in which each step reads the planet as the
    previous steps left it.  [averageSeen_spec] is the reference they are
    proved equal to: one map over the goods that reads only the planet the
    loop started from.  [cnt] is an [int] and [price * price] an [int64_t]
    product, so both are wrapped at their width. *)

From Stdlib Require Import Reals Lra Lia ZArith.
From stdpp Require Import base tactics option list strings.
From S2P Require Import Prelude World Price.

#[local] Open Scope R_scope.

(** ** Recording one price *)

(** [cp->updateTime = t; cp->cnt++;] *)
Definition mark_seen (t : Z) (cp : CommodityPrice) : CommodityPrice :=
  mkCommodityPrice (cp_name cp) (cp_price cp) (cp_planetPeriod cp)
    (cp_sysPeriod cp) (cp_planetVariation cp) (cp_sysVariation cp)
    t (cp_sum cp) (cp_sum2 cp) (int32 (cp_cnt cp + 1)).

(** [cp->sum += price; cp->sum2 += price*price;] *)
Definition add_price (price : Z) (cp : CommodityPrice) : CommodityPrice :=
  mkCommodityPrice (cp_name cp) (cp_price cp) (cp_planetPeriod cp)
    (cp_sysPeriod cp) (cp_planetVariation cp) (cp_sysVariation cp)
    (cp_updateTime cp) (cp_sum cp + IZR price)
    (cp_sum2 cp + IZR (int64 (price * price))) (cp_cnt cp).

(** A write through [cp = &p->commodityPrice[i]]. *)
Definition upd_cp (f : CommodityPrice -> CommodityPrice) (i : nat) (p : Planet) : Planet :=
  set_pl_goods (alter (map_cp f) i (pl_goods p)) p.

(** One iteration of the loop of [economy_averageSeenPricesAtTime]. *)
Definition averageSeenAtTime_step (u : Universe) (now tupdate : Z) (p : Planet) (i : nat) : Planet :=
  match pl_goods p !! i with
  | Some (c, cp) =>
      if decide (cp_updateTime cp < now)%Z then
        let p1 := upd_cp (mark_seen now) i p in
        let price := economy_getPriceAtTime u c p1 tupdate in
        upd_cp (add_price price) i p1
      else p
  | None => p
  end.

Definition economy_averageSeenPricesAtTime (u : Universe) (p : Planet) (now tupdate : Z) : Planet :=
  foldl (averageSeenAtTime_step u now tupdate) p (seq 0 (length (pl_goods p))).

(** One iteration of the loop of [economy_averageSeenPrices], which asks
    [economy_getPrice] for the price at the current time. *)
Definition averageSeen_step (u : Universe) (now : Z) (p : Planet) (i : nat) : Planet :=
  match pl_goods p !! i with
  | Some (c, cp) =>
      if decide (cp_updateTime cp < now)%Z then
        let p1 := upd_cp (mark_seen now) i p in
        let price := economy_getPrice u c p1 now in
        upd_cp (add_price price) i p1
      else p
  | None => p
  end.

Definition economy_averageSeenPrices (u : Universe) (p : Planet) (now : Z) : Planet :=
  foldl (averageSeen_step u now) p (seq 0 (length (pl_goods p))).

(** ** Reference definition of the recording *)

Definition seen_entry (u : Universe) (p : Planet) (now tupdate : Z)
  (g : nat * CommodityPrice) : nat * CommodityPrice :=
  if decide (cp_updateTime g.2 < now)%Z
  then (g.1, add_price (economy_getPriceAtTime u g.1 p tupdate) (mark_seen now g.2))
  else g.

Definition averageSeen_spec (u : Universe) (p : Planet) (now tupdate : Z) : Planet :=
  set_pl_goods (seen_entry u p now tupdate <$> pl_goods p) p.

(** ** Mean and standard deviation at one planet *)

Definition mean_of (cp : CommodityPrice) : Z :=
  Ztrunc (cp_sum cp / IZR (cp_cnt cp) + 0.5).

(** [cnt * cnt] is a product of two [int]s. *)
Definition std_of (cp : CommodityPrice) : R :=
  sqrt (cp_sum2 cp / IZR (cp_cnt cp)
        - cp_sum cp * cp_sum cp / IZR (int32 (cp_cnt cp * cp_cnt cp))).

(** The result is [(return value, *mean, *std)]. *)
Definition economy_getAveragePlanetPrice (u : Universe) (com : nat) (p : Planet) : Z * Z * R :=
  match find_commodityPrice u com p with
  | inl _ => ((-1)%Z, 0%Z, 0)
  | inr commPrice =>
      if decide (cp_cnt commPrice > 0)%Z
      then (0%Z, mean_of commPrice, std_of commPrice)
      else (0%Z, 0%Z, 0)
  end.

(** ** Mean and standard deviation over the galaxy *)

(** The body of the loop over planets: the accumulators are [(av, av2, cnt)]. *)
Definition galaxy_step (u : Universe) (com : nat) (acc : R * R * Z) (p : Planet) : R * R * Z :=
  match planet_commodity_index u p com with
  | Some k =>
      match pl_commodityPrice p !! k with
      | Some commPrice =>
          if decide (cp_cnt commPrice > 0)%Z then
            (acc.1.1 + cp_sum commPrice / IZR (cp_cnt commPrice),
             acc.1.2 + cp_sum commPrice * cp_sum commPrice
                       / IZR (int32 (cp_cnt commPrice * cp_cnt commPrice)),
             int32 (acc.2 + 1))
          else acc
      | None => acc
      end
  | None => acc
  end.

Definition galaxy_planets (u : Universe) : list Planet :=
  s ← systems_stack u; omap (fun j => planet_stack u !! j) (sys_planets s).

Definition galaxy_sums (u : Universe) (com : nat) : R * R * Z :=
  foldl (galaxy_step u com) (0, 0, 0%Z) (galaxy_planets u).

Definition economy_getAveragePrice (u : Universe) (com : nat) : Z * Z * R :=
  match econ_comm_index u com with
  | None => (1%Z, 0%Z, 0)
  | Some _ =>
      let '(av, av2, cnt) := galaxy_sums u com in
      if decide (cnt > 0)%Z then
        let av' := av / IZR cnt in
        (0%Z, Ztrunc (av' + 0.5), sqrt (av2 / IZR cnt - av' * av'))
      else (0%Z, Ztrunc (av + 0.5), av2)
  end.

(** What a planet adds to the sums: the mean of the prices seen there, when
    the planet sells the good and the good was seen. *)
Definition planet_mean (u : Universe) (com : nat) (p : Planet) : option R :=
  k ← planet_commodity_index u p com;
  commPrice ← pl_commodityPrice p !! k;
  if decide (cp_cnt commPrice > 0)%Z
  then Some (cp_sum commPrice / IZR (cp_cnt commPrice)) else None.

(** The means of the planets of the galaxy, one per pointer to a planet that
    has seen the good. *)
Definition galaxy_means (u : Universe) (com : nat) : list R :=
  omap (planet_mean u com) (galaxy_planets u).

(** What the galaxy reports of the means [ms]: their rounded mean and their
    standard deviation; 0 and 0 of no mean. *)
Definition galaxy_report (ms : list R) : Z * Z * R :=
  let mean := Rsum ms / INR (length ms) in
  if decide (ms = []) then (0%Z, 0%Z, 0)
  else (0%Z, Ztrunc (mean + 0.5),
        sqrt (Rsum ((fun m => m * m) <$> ms) / INR (length ms) - mean * mean)).

(** Counts below the square root of [INT_MAX]: [cnt * cnt] is exact. *)
Definition counts_small (ps : list Planet) : Prop :=
  Forall (fun p => Forall (fun g => (cp_cnt g.2 <= 46340)%Z) (pl_goods p)) ps.

(** ** Forgetting everything seen *)

Definition clear_cp (cp : CommodityPrice) : CommodityPrice :=
  mkCommodityPrice (cp_name cp) (cp_price cp) (cp_planetPeriod cp)
    (cp_sysPeriod cp) (cp_planetVariation cp) (cp_sysVariation cp)
    0 0 0 0.

Definition clearKnown_planet (p : Planet) : Planet :=
  set_pl_goods (map_cp clear_cp <$> pl_goods p) p.

Definition economy_clearKnown (u : Universe) : Universe :=
  mkUniverse
    (set_com_lastPurchasePrice 0 <$> commodity_stack u)
    (econ_comm u)
    (systems_stack u)
    (foldl (fun ps s => foldl (fun ps j => alter clearKnown_planet j ps) ps (sys_planets s))
       (planet_stack u) (systems_stack u)).

(** ** The statistics an accumulator stands for

    [observed l cp]: the accumulators of [cp] are the count, the sum and the
    sum of squares of the prices [l]. *)

Definition observed (l : list Z) (cp : CommodityPrice) : Prop :=
  cp_cnt cp = Z.of_nat (length l) /\
  cp_sum cp = Rsum (IZR <$> l) /\
  cp_sum2 cp = Rsum ((fun x => IZR x * IZR x) <$> l).

(** The mean of the prices [l], and their standard deviation: the square
    root of the mean of the squares of the deviations from the mean. *)
Definition mean_seen (l : list Z) : R := Rsum (IZR <$> l) / INR (length l).

Definition deviation_seen (l : list Z) : R :=
  sqrt (Rsum ((fun x => (IZR x - mean_seen l) * (IZR x - mean_seen l)) <$> l)
        / INR (length l)).

Definition planet_observed (p : Planet) : Prop :=
  Forall (fun g => exists l, observed l g.2) (pl_goods p).

(** The planets [economy_clearKnown], [economy_getAveragePrice] and the
    save routine reach: those some system points to. *)
Definition reachable_planets (u : Universe) : list nat :=
  systems_stack u ≫= sys_planets.

Definition cleared (cp : CommodityPrice) : Prop :=
  cp_cnt cp = 0%Z /\ cp_sum cp = 0 /\ cp_sum2 cp = 0 /\ cp_updateTime cp = 0%Z.

(** ** Sample data: a planet with one good not yet seen, and a field that
    has seen the prices 100 and 102. *)

Definition unseen_field : CommodityPrice :=
  mkCommodityPrice "" 100 300 1000 5 2 (-1) 0 0 0.
Definition unseen_planet : Planet :=
  mkPlanet "Haven" "M" 0 1000 2 "" "" [(0%nat, unseen_field)].
Definition seen_twice_field : CommodityPrice :=
  mkCommodityPrice "" 100 300 1000 5 2 7 202 20404 2.
Definition seen_planet : Planet :=
  mkPlanet "Haven" "M" 0 1000 2 "" "" [(0%nat, seen_twice_field)].
Definition sample_system : StarSystem :=
  mkStarSystem "Sol" 0 [] [0%nat] 0 0 0 0 (-1) None [].
Definition seen_universe : Universe :=
  mkUniverse [set_com_lastPurchasePrice 55 sample_food; sample_dust] [0%nat]
    [sample_system] [seen_planet].

(** * Theorems *)

(** ** Writes through [cp] keep the price parameters *)

Lemma mark_seen_params (t : Z) (cp : CommodityPrice) : cp_params_eq (mark_seen t cp) cp.
Proof. by repeat split. Qed.

Lemma add_price_params (price : Z) (cp : CommodityPrice) : cp_params_eq (add_price price cp) cp.
Proof. by repeat split. Qed.

Lemma clear_cp_params (cp : CommodityPrice) : cp_params_eq (clear_cp cp) cp.
Proof. by repeat split. Qed.

Lemma good_equiv_map_cp (f : CommodityPrice -> CommodityPrice) (g : nat * CommodityPrice) :
  (forall cp, cp_params_eq (f cp) cp) -> good_equiv (map_cp f g) g.
Proof. intros Hf. split; [done|apply Hf]. Qed.

Lemma planet_equiv_alter (h : nat * CommodityPrice -> nat * CommodityPrice) (i : nat) (q : Planet) :
  (forall x, good_equiv (h x) x) ->
  planet_equiv (set_pl_goods (alter h i (pl_goods q)) q) q.
Proof.
  intros Hh. unfold planet_equiv. rewrite set_pl_goods_goods.
  generalize (pl_goods q). intros l. revert i.
  induction l as [|x l IH]; intros [|i]; cbn.
  - constructor.
  - constructor.
  - constructor; [apply Hh|reflexivity].
  - constructor; [reflexivity|apply IH].
Qed.

Lemma planet_equiv_fmap (h : nat * CommodityPrice -> nat * CommodityPrice) (q : Planet) :
  (forall x, good_equiv (h x) x) ->
  planet_equiv (set_pl_goods (h <$> pl_goods q) q) q.
Proof.
  intros Hh. unfold planet_equiv. rewrite set_pl_goods_goods.
  induction (pl_goods q); cbn; by constructor.
Qed.

Lemma planet_equiv_upd_cp (f : CommodityPrice -> CommodityPrice) (i : nat) (p : Planet) :
  (forall cp, cp_params_eq (f cp) cp) -> planet_equiv (upd_cp f i p) p.
Proof. intros Hf. apply planet_equiv_alter. intros x. by apply good_equiv_map_cp. Qed.

Lemma upd_cp_upd_cp (f g : CommodityPrice -> CommodityPrice) (i : nat) (p : Planet) :
  upd_cp f i (upd_cp g i p) = upd_cp (f ∘ g) i p.
Proof.
  unfold upd_cp. rewrite set_pl_goods_twice, set_pl_goods_goods, alter_alter_same.
  f_equal.
Qed.

Lemma good_equiv_seen_entry (u : Universe) (p : Planet) (now tupdate : Z) (g : nat * CommodityPrice) :
  good_equiv (seen_entry u p now tupdate g) g.
Proof.
  unfold seen_entry. case_decide; [|reflexivity].
  split; [done|]. cbn. etrans; [apply add_price_params|apply mark_seen_params].
Qed.

(** ** The recording loop and its reference *)

(** On a planet that agrees with [p] on the price parameters, one iteration
    is the replacement of entry [i] by its [seen_entry]. *)
Lemma averageSeenAtTime_step_spec (u : Universe) (p q : Planet) (now tupdate : Z) (i : nat) :
  planet_equiv q p ->
  averageSeenAtTime_step u now tupdate q i
  = set_pl_goods (alter (seen_entry u p now tupdate) i (pl_goods q)) q.
Proof.
  intros Hq. unfold averageSeenAtTime_step.
  destruct (pl_goods q !! i) as [[c cp]|] eqn:Hi.
  - case_decide as Hlt.
    + rewrite upd_cp_upd_cp. unfold upd_cp. f_equal.
      apply list_alter_ext; [|done]. intros x Hx. simplify_eq.
      unfold seen_entry, map_cp. cbn. rewrite decide_True by done.
      f_equal. f_equal.
      rewrite <- Hq. apply economy_getPriceAtTime_proper; [|done].
      apply planet_equiv_alter. intros y. apply good_equiv_map_cp, mark_seen_params.
    + rewrite <- (set_pl_goods_id q) at 1. f_equal. symmetry.
      rewrite <- (list_alter_id (fun x => x) (pl_goods q) i) at 2 by done.
      apply list_alter_ext; [|done]. intros x Hx. simplify_eq.
      unfold seen_entry. cbn. by rewrite decide_False.
  - rewrite <- (set_pl_goods_id q) at 1. f_equal.
    apply list_eq. intros j. rewrite list_lookup_alter.
    case_decide; [subst; by rewrite Hi|done].
Qed.

Lemma foldl_upd_goods (h : nat * CommodityPrice -> nat * CommodityPrice) (js : list nat) (p : Planet) :
  foldl (fun q i => set_pl_goods (alter h i (pl_goods q)) q) p js
  = set_pl_goods (foldl (fun g i => alter h i g) (pl_goods p) js) p.
Proof.
  revert p. induction js as [|j js IH]; intros p; cbn; [by rewrite set_pl_goods_id|].
  by rewrite IH, set_pl_goods_goods, set_pl_goods_twice.
Qed.

(** The recording loop computes what the reference does. *)
Lemma averageSeenPricesAtTime_loop (u : Universe) (p : Planet) (now tupdate : Z) :
  economy_averageSeenPricesAtTime u p now tupdate = averageSeen_spec u p now tupdate.
Proof.
  unfold economy_averageSeenPricesAtTime, averageSeen_spec.
  destruct (foldl_ext_inv (fun q => planet_equiv q p)
    (averageSeenAtTime_step u now tupdate)
    (fun q i => set_pl_goods (alter (seen_entry u p now tupdate) i (pl_goods q)) q)
    (seq 0 (length (pl_goods p))) p) as [-> _].
  - reflexivity.
  - intros q i Hq _. by apply averageSeenAtTime_step_spec.
  - intros q i Hq _. etrans; [|exact Hq].
    apply planet_equiv_alter, good_equiv_seen_entry.
  - by rewrite foldl_upd_goods, foldl_alter_seq.
Qed.

Lemma economy_averageSeenPrices_AtTime (u : Universe) (p : Planet) (now : Z) :
  economy_averageSeenPrices u p now = economy_averageSeenPricesAtTime u p now now.
Proof. reflexivity. Qed.

(** C9.  The recording loops, which read the planet while they update it,
    compute what the reference does: every entry not yet seen at [now]
    gets the time stamp [now], one more count and the price the planet had
    when the loop started; every other entry is left as it was. *)
Theorem economy_averageSeenPrices_spec (u : Universe) (p : Planet) (now tupdate : Z) :
  economy_averageSeenPricesAtTime u p now tupdate = averageSeen_spec u p now tupdate /\
  economy_averageSeenPrices u p now = averageSeen_spec u p now now.
Proof.
  by rewrite economy_averageSeenPrices_AtTime, !averageSeenPricesAtTime_loop.
Qed.

Lemma averageSeen_spec_equiv (u : Universe) (p : Planet) (now tupdate : Z) :
  planet_equiv (averageSeen_spec u p now tupdate) p.
Proof. apply planet_equiv_fmap, good_equiv_seen_entry. Qed.

(** ** Recording twice at one instant *)

Lemma seen_entry_updateTime (u : Universe) (p : Planet) (now tupdate : Z) (g : nat * CommodityPrice) :
  (now <= cp_updateTime (seen_entry u p now tupdate g).2)%Z.
Proof. unfold seen_entry. case_decide; cbn; lia. Qed.

Lemma seen_entry_stale (u : Universe) (p : Planet) (now tupdate : Z) (g : nat * CommodityPrice) :
  (now <= cp_updateTime g.2)%Z -> seen_entry u p now tupdate g = g.
Proof. intros H. unfold seen_entry. by rewrite decide_False by lia. Qed.

(** C31.  Recording the prices of a planet a second time at the same instant
    changes nothing, whatever time the second price is asked for. *)
Theorem economy_averageSeenPricesAtTime_idempotent
  (u : Universe) (p : Planet) (now tupdate tupdate' : Z) :
  economy_averageSeenPricesAtTime u
    (economy_averageSeenPricesAtTime u p now tupdate) now tupdate'
  = economy_averageSeenPricesAtTime u p now tupdate.
Proof.
  rewrite !averageSeenPricesAtTime_loop. unfold averageSeen_spec.
  rewrite set_pl_goods_twice, set_pl_goods_goods. f_equal.
  rewrite <- list_fmap_compose. apply list_fmap_ext. intros i g _. cbn.
  apply seen_entry_stale, seen_entry_updateTime.
Qed.

(** ** Querying what was recorded *)

Lemma seen_entry_fst (u : Universe) (p : Planet) (now tupdate : Z) (g : nat * CommodityPrice) :
  (seen_entry u p now tupdate g).1 = g.1.
Proof. unfold seen_entry. by case_decide. Qed.

(** The lookup on a planet whose fields were all rewritten by [h] finds the
    rewritten field at the position where it found the original. *)
Lemma find_commodityPrice_fmap (u : Universe) (com : nat) (p : Planet)
  (h : nat * CommodityPrice -> nat * CommodityPrice) :
  (forall x, (h x).1 = x.1) ->
  find_commodityPrice u com (set_pl_goods (h <$> pl_goods p) p)
  = match econ_comm_index u com with
    | None => inl PriceNotKnown
    | Some _ =>
        match planet_commodity_index u p com with
        | None => inl PriceNotKnownOnPlanet
        | Some i =>
            match pl_goods p !! i with
            | Some g => inr (h g).2
            | None => inl PriceNotKnownOnPlanet
            end
        end
    end.
Proof.
  intros Hh.
  unfold find_commodityPrice, planet_commodity_index, pl_commodities, pl_commodityPrice.
  rewrite set_pl_goods_goods.
  replace ((h <$> pl_goods p).*1) with ((pl_goods p).*1).
  2:{ rewrite <- list_fmap_compose. apply list_fmap_ext. intros ???. cbn. by rewrite Hh. }
  destruct (econ_comm_index u com); [|done].
  destruct (fst <$> list_find _ _) as [i|]; [|done].
  rewrite !list_lookup_fmap. by destruct (pl_goods p !! i).
Qed.

Lemma mean_of_single (t P : Z) (cp : CommodityPrice) :
  cp_cnt cp = 0%Z -> cp_sum cp = 0 -> (0 <= P)%Z ->
  mean_of (add_price P (mark_seen t cp)) = P.
Proof.
  intros Hc Hs HP. unfold mean_of. cbn. rewrite Hc, Hs.
  replace (int32 (0 + 1)) with 1%Z by reflexivity.
  replace ((0 + IZR P) / 1 + 0.5) with (IZR P + / 2) by lra.
  by apply Ztrunc_half_IZR.
Qed.

Lemma std_of_single (t P : Z) (cp : CommodityPrice) :
  cp_cnt cp = 0%Z -> cp_sum cp = 0 -> cp_sum2 cp = 0 ->
  (P * P <= INT64_MAX)%Z ->
  std_of (add_price P (mark_seen t cp)) = 0.
Proof.
  intros Hc Hs Hs2 HP. unfold std_of. cbn. rewrite Hc, Hs, Hs2.
  replace (int32 (0 + 1)) with 1%Z by reflexivity.
  replace (int32 (1 * 1)) with 1%Z by reflexivity.
  rewrite int64_small by (pose proof (Z.square_nonneg P); lia).
  rewrite mult_IZR.
  replace (_ - _) with 0 by lra. apply sqrt_0.
Qed.

(** After the first observation of a good at a planet, the mean the
    planet reports for it is the price that was seen and the standard
    deviation is 0. *)
Theorem first_observation_mean_std
  (u : Universe) (com : nat) (p : Planet) (now : Z) (i : nat) (cp : CommodityPrice) :
  com ∈ econ_comm u ->
  planet_commodity_index u p com = Some i ->
  pl_goods p !! i = Some (com, cp) ->
  cp_cnt cp = 0%Z -> cp_sum cp = 0 -> cp_sum2 cp = 0 ->
  (cp_updateTime cp < now)%Z ->
  (0 <= economy_getPrice u com p now)%Z ->
  (economy_getPrice u com p now * economy_getPrice u com p now <= INT64_MAX)%Z ->
  economy_getAveragePlanetPrice u com (economy_averageSeenPrices u p now)
  = (0%Z, economy_getPrice u com p now, 0).
Proof.
  intros Hcom Hi Hg Hc Hs Hs2 Ht HP HPP.
  rewrite economy_averageSeenPrices_AtTime, averageSeenPricesAtTime_loop.
  unfold economy_getAveragePlanetPrice, averageSeen_spec.
  rewrite find_commodityPrice_fmap by apply seen_entry_fst.
  apply econ_comm_index_is_Some in Hcom as [j ->]. rewrite Hi, Hg.
  unfold seen_entry. cbn [fst snd].
  rewrite (decide_True (P := (cp_updateTime cp < now)%Z)) by done. cbn [snd].
  rewrite decide_True by (cbn; rewrite Hc; done).
  unfold economy_getPrice in *.
  by rewrite mean_of_single, (std_of_single now).
Qed.

(** ** What the accumulators stand for *)

Lemma observed_clear (cp : CommodityPrice) : observed [] (clear_cp cp).
Proof. by repeat split. Qed.

Lemma observed_record (l : list Z) (cp : CommodityPrice) (t price : Z) :
  observed l cp -> (cp_cnt cp < INT_MAX)%Z -> (price * price <= INT64_MAX)%Z ->
  observed (price :: l) (add_price price (mark_seen t cp)).
Proof.
  intros (Hc & Hs & Hs2) Hmax Hp. unfold observed. cbn [add_price mark_seen cp_cnt cp_sum cp_sum2].
  rewrite int32_small by (unfold INT_MAX in *; lia).
  rewrite int64_small by (pose proof (Z.square_nonneg price); lia).
  rewrite !fmap_cons, !Rsum_cons, Hs, Hs2, Hc, mult_IZR.
  split; [cbn [length]; lia|]. split; lra.
Qed.

Lemma observed_variance_nonneg (l : list Z) (cp : CommodityPrice) :
  observed l cp -> l <> [] ->
  0 <= cp_sum2 cp / IZR (cp_cnt cp)
       - (cp_sum cp / IZR (cp_cnt cp)) * (cp_sum cp / IZR (cp_cnt cp)).
Proof.
  intros (Hc & Hs & Hs2) Hl. rewrite Hc, Hs, Hs2, <- INR_IZR_INZ.
  pose proof (variance_nonneg (IZR <$> l)) as Hv.
  rewrite length_fmap, <- list_fmap_compose in Hv.
  apply Hv. by destruct l.
Qed.

(** While the count is small enough for [cnt * cnt] to fit an [int],
    the standard deviation a planet reports is the square root of a
    non-negative variance: its square is the mean of the squares minus the
    square of the mean of the prices seen. *)
Theorem std_of_sqr (l : list Z) (cp : CommodityPrice) :
  observed l cp -> l <> [] -> (cp_cnt cp <= 46340)%Z ->
  std_of cp * std_of cp
  = cp_sum2 cp / IZR (cp_cnt cp)
    - (cp_sum cp / IZR (cp_cnt cp)) * (cp_sum cp / IZR (cp_cnt cp)).
Proof.
  intros Ho Hl Hn. pose proof (observed_variance_nonneg l cp Ho Hl) as Hv.
  destruct Ho as (Hc & _ & _). unfold std_of.
  assert (Hpos : (0 < cp_cnt cp)%Z) by (rewrite Hc; destruct l; [done|cbn; lia]).
  assert (cp_cnt cp * cp_cnt cp <= 46340 * 46340)%Z by nia.
  rewrite int32_small by (unfold INT_MAX; lia).
  rewrite mult_IZR.
  assert (IZR (cp_cnt cp) <> 0) by (apply not_0_IZR; lia).
  replace (cp_sum cp * cp_sum cp / (IZR (cp_cnt cp) * IZR (cp_cnt cp)))
    with (cp_sum cp / IZR (cp_cnt cp) * (cp_sum cp / IZR (cp_cnt cp)))
    by (field; done).
  by apply sqrt_sqrt.
Qed.

Lemma std_of_sqr_witness :
  std_of seen_twice_field * std_of seen_twice_field
  = cp_sum2 seen_twice_field / IZR (cp_cnt seen_twice_field)
    - (cp_sum seen_twice_field / IZR (cp_cnt seen_twice_field))
      * (cp_sum seen_twice_field / IZR (cp_cnt seen_twice_field)).
Proof.
  apply (std_of_sqr [100; 102]%Z seen_twice_field).
  - repeat split; cbn; lra.
  - discriminate.
  - cbn. lia.
Defined.

Lemma observed_deviation (l : list Z) (cp : CommodityPrice) :
  observed l cp -> l <> [] -> (Z.of_nat (length l) <= 46340)%Z ->
  std_of cp = deviation_seen l.
Proof.
  intros (Hc & Hs & Hs2) Hl Hn. unfold std_of, deviation_seen, mean_seen.
  assert (0 <= cp_cnt cp * cp_cnt cp <= 46340 * 46340)%Z by nia.
  rewrite int32_small by (unfold INT_MAX; lia).
  rewrite mult_IZR, Hs, Hs2, Hc, <- INR_IZR_INZ. f_equal.
  pose proof (mean_sq_dev (IZR <$> l)) as Hv.
  rewrite length_fmap, <- !list_fmap_compose in Hv. unfold compose in Hv.
  rewrite <- Hv by (by destruct l).
  assert (0 < INR (length l)) by (apply lt_0_INR; destruct l; [done|cbn; lia]).
  field. lra.
Qed.

(** What a planet reports of a good whose accumulators hold the prices
    [l], while the count is small enough for [cnt * cnt] to fit an [int]:
    the mean of the prices, rounded, and their standard deviation; for a
    good that was never seen the mean 0 and the deviation 0, with the
    return value 0 that an observed good gets. *)
Lemma getAveragePlanetPrice_observed
    (u : Universe) (com : nat) (p : Planet) (cp : CommodityPrice) (l : list Z) :
  find_commodityPrice u com p = inr cp -> observed l cp ->
  (Z.of_nat (length l) <= 46340)%Z ->
  economy_getAveragePlanetPrice u com p
  = if l is [] then (0%Z, 0%Z, 0)
    else (0%Z, Ztrunc (mean_seen l + 0.5), deviation_seen l).
Proof.
  intros Hf Ho Hn. unfold economy_getAveragePlanetPrice. rewrite Hf.
  destruct (decide (l = [])) as [->|Hl].
  - destruct Ho as (Hc & _). by rewrite decide_False by (rewrite Hc; cbn; lia).
  - rewrite (observed_deviation l cp Ho Hl Hn). destruct Ho as (Hc & Hs & _).
    unfold mean_of. rewrite Hs, Hc, <- INR_IZR_INZ.
    rewrite decide_True by (destruct l; [done|cbn; lia]). by destruct l.
Qed.

(** The planet that saw the prices 100 and 102. *)
Example seen_twice_report :
  economy_getAveragePlanetPrice seen_universe 0 seen_planet
  = (0%Z, Ztrunc (mean_seen [100; 102]%Z + 0.5), deviation_seen [100; 102]%Z).
Proof.
  apply (getAveragePlanetPrice_observed seen_universe 0 seen_planet
           seen_twice_field [100; 102]%Z).
  - reflexivity.
  - repeat split; cbn; lra.
  - cbn. lia.
Qed.

(** Past that count the product [cnt * cnt] no longer fits an [int]: at
    65536 observations it wraps to 0, and the square of the mean is divided
    by zero. *)
Example std_of_count_overflow : int32 (65536 * 65536) = 0%Z.
Proof. reflexivity. Qed.

Example unseen_price_origin :
  economy_getPrice sample_universe 0 unseen_planet 0 = 100%Z.
Proof.
  unfold economy_getPrice.
  rewrite (economy_getPriceAtTime_origin _ _ _ unseen_field) by reflexivity.
  cbn. replace 0.5 with (/ 2) by lra. by apply (Ztrunc_half_IZR 100).
Qed.

Lemma first_observation_mean_std_witness :
  economy_getAveragePlanetPrice sample_universe 0
    (economy_averageSeenPrices sample_universe unseen_planet 0)
  = (0%Z, economy_getPrice sample_universe 0 unseen_planet 0, 0).
Proof.
  apply (first_observation_mean_std sample_universe 0 unseen_planet 0 0 unseen_field);
    rewrite ?unseen_price_origin; try reflexivity.
  - cbn. apply list_elem_of_singleton. reflexivity.
  - lia.
  - unfold INT64_MAX. lia.
Defined.

(** ** The accumulators of a whole planet *)

Lemma planet_observed_clear (p : Planet) : planet_observed (clearKnown_planet p).
Proof.
  unfold planet_observed, clearKnown_planet. rewrite set_pl_goods_goods.
  apply Forall_fmap, Forall_true. intros g. exists []. apply observed_clear.
Qed.

(** The accumulators of every good of a planet remain the count, the
    sum and the sum of squares of a list of observed prices when a round of
    prices is recorded, provided no count is at [INT_MAX] and the square of
    no price overflows an [int64_t]. *)
Theorem averageSeen_preserves_observed (u : Universe) (p : Planet) (now tupdate : Z) :
  planet_observed p ->
  Forall (fun g => (cp_cnt g.2 < INT_MAX)%Z) (pl_goods p) ->
  (forall c, (economy_getPriceAtTime u c p tupdate
              * economy_getPriceAtTime u c p tupdate <= INT64_MAX)%Z) ->
  planet_observed (economy_averageSeenPricesAtTime u p now tupdate).
Proof.
  intros Ho Hc HP. rewrite averageSeenPricesAtTime_loop.
  unfold planet_observed, averageSeen_spec in *. rewrite set_pl_goods_goods.
  apply Forall_fmap. rewrite Forall_forall in *. intros g Hg.
  destruct (Ho g Hg) as [l Hl]. specialize (Hc g Hg).
  cbn. unfold seen_entry. case_decide; [|by exists l].
  eexists. cbn. by apply observed_record.
Qed.

Lemma averageSeen_preserves_observed_witness :
  planet_observed (economy_averageSeenPricesAtTime sample_universe unseen_planet 0 0).
Proof.
  apply averageSeen_preserves_observed.
  - constructor; [|constructor]. exists []. by repeat split.
  - constructor; [|constructor]. cbn. unfold INT_MAX. lia.
  - intros [|[|c]].
    + change (economy_getPriceAtTime sample_universe 0 unseen_planet 0)
        with (economy_getPrice sample_universe 0 unseen_planet 0).
      rewrite unseen_price_origin. unfold INT64_MAX. lia.
    + rewrite getPriceAtTime_unpriced; [unfold INT64_MAX; lia|].
      cbn. rewrite list_elem_of_singleton. discriminate.
    + rewrite getPriceAtTime_unpriced; [unfold INT64_MAX; lia|].
      cbn. rewrite list_elem_of_singleton. discriminate.
Defined.

(** ** Forgetting everything seen *)

Lemma clearKnown_planet_idem (p : Planet) :
  clearKnown_planet (clearKnown_planet p) = clearKnown_planet p.
Proof.
  unfold clearKnown_planet. rewrite set_pl_goods_twice, set_pl_goods_goods.
  f_equal. rewrite <- list_fmap_compose. by apply list_fmap_ext.
Qed.

Lemma clearKnown_planet_cleared (p : Planet) :
  Forall (fun g => cleared g.2) (pl_goods (clearKnown_planet p)).
Proof.
  unfold clearKnown_planet. rewrite set_pl_goods_goods.
  apply Forall_fmap, Forall_true. intros g. by repeat split.
Qed.

Lemma clearKnown_planet_equiv (p : Planet) : planet_equiv (clearKnown_planet p) p.
Proof.
  apply planet_equiv_fmap. intros x. apply good_equiv_map_cp, clear_cp_params.
Qed.

(** The planet heap after [economy_clearKnown], cell by cell. *)
Lemma economy_clearKnown_planet_lookup (u : Universe) (k : nat) :
  planet_stack (economy_clearKnown u) !! k
  = if decide (k ∈ reachable_planets u)
    then clearKnown_planet <$> planet_stack u !! k
    else planet_stack u !! k.
Proof.
  unfold economy_clearKnown, reachable_planets. cbn [planet_stack].
  rewrite foldl_foldl_bind. apply foldl_alter_lookup, clearKnown_planet_idem.
Qed.

(** What holds of every planet and of every cleared planet holds after
    [economy_clearKnown]. *)
Lemma economy_clearKnown_Forall (Q : Planet -> Prop) (u : Universe) :
  (forall p, Q (clearKnown_planet p)) ->
  Forall Q (planet_stack u) -> Forall Q (planet_stack (economy_clearKnown u)).
Proof.
  intros HQ Hu. apply Forall_lookup. intros k p' Hk.
  rewrite economy_clearKnown_planet_lookup in Hk. case_decide.
  - destruct (planet_stack u !! k) as [p|]; [|done]. cbn in Hk. by simplify_eq.
  - exact (Forall_lookup_1 _ _ _ _ Hu Hk).
Qed.

Lemma economy_clearKnown_names (u : Universe) :
  commodity_names (economy_clearKnown u) = commodity_names u.
Proof.
  unfold commodity_names, economy_clearKnown. cbn [commodity_stack].
  by rewrite <- list_fmap_compose.
Qed.

Lemma economy_clearKnown_name (u : Universe) (k : nat) :
  commodity_name (economy_clearKnown u) k = commodity_name u k.
Proof.
  unfold commodity_name, economy_clearKnown. cbn [commodity_stack].
  rewrite list_lookup_fmap. by destruct (commodity_stack u !! k).
Qed.

(** After [economy_clearKnown] every price field of every planet that
    a system points to has count, sum, sum of squares and time stamp 0. *)
Theorem economy_clearKnown_cleared (u : Universe) (k : nat) (p : Planet) :
  k ∈ reachable_planets u ->
  planet_stack (economy_clearKnown u) !! k = Some p ->
  Forall (fun g => cleared g.2) (pl_goods p).
Proof.
  intros Hk. rewrite economy_clearKnown_planet_lookup, decide_True by done.
  intros [q [_ ->]]%fmap_Some. apply clearKnown_planet_cleared.
Qed.

(** After [economy_clearKnown] the last purchase price of every good
    is 0. *)
Theorem economy_clearKnown_lastPurchasePrice (u : Universe) (c : Commodity) :
  c ∈ commodity_stack (economy_clearKnown u) -> com_lastPurchasePrice c = 0%Z.
Proof.
  unfold economy_clearKnown. cbn [commodity_stack].
  by intros (c' & -> & _)%list_elem_of_fmap.
Qed.

(** [economy_clearKnown] leaves every price as it was: the planet in
    each cell of the heap answers every price query as before. *)
Theorem economy_clearKnown_prices (u : Universe) (k com : nat) (p : Planet) (tme : Z) :
  planet_stack u !! k = Some p ->
  exists p', planet_stack (economy_clearKnown u) !! k = Some p' /\
    economy_getPriceAtTime (economy_clearKnown u) com p' tme
    = economy_getPriceAtTime u com p tme.
Proof.
  intros Hp. rewrite economy_clearKnown_planet_lookup, Hp.
  assert (Hu : forall q, economy_getPriceAtTime (economy_clearKnown u) com q tme
                         = economy_getPriceAtTime u com q tme).
  { intros q. apply economy_getPriceAtTime_universe;
      [done|apply economy_clearKnown_name]. }
  case_decide; eexists; (split; [done|]); rewrite Hu; [|done].
  by rewrite clearKnown_planet_equiv.
Qed.

(** ** Statistics of fields that saw nothing *)

(** For a good the player never saw at a planet, the planet reports
    mean 0 and standard deviation 0, and the return value is 0, the one an
    observed good gets. *)
Theorem economy_getAveragePlanetPrice_unobserved
  (u : Universe) (com : nat) (p : Planet) (cp : CommodityPrice) :
  find_commodityPrice u com p = inr cp -> cp_cnt cp = 0%Z ->
  economy_getAveragePlanetPrice u com p = (0%Z, 0%Z, 0).
Proof.
  intros Hf Hc. unfold economy_getAveragePlanetPrice. rewrite Hf, Hc.
  by rewrite decide_False.
Qed.

Lemma galaxy_step_cleared (u : Universe) (com : nat) (acc : R * R * Z) (p : Planet) :
  Forall (fun g => cleared g.2) (pl_goods p) -> galaxy_step u com acc p = acc.
Proof.
  intros Hp. unfold galaxy_step.
  destruct (planet_commodity_index u p com) as [k|]; [|done].
  rewrite pl_commodityPrice_lookup.
  destruct (pl_goods p !! k) as [g|] eqn:Hg; [|done]. cbn.
  rewrite Forall_forall in Hp.
  destruct (Hp g) as (Hc & _); [by eapply list_elem_of_lookup_2|].
  by rewrite Hc, decide_False.
Qed.

Lemma galaxy_planets_cleared (u : Universe) (p : Planet) :
  p ∈ galaxy_planets (economy_clearKnown u) ->
  Forall (fun g => cleared g.2) (pl_goods p).
Proof.
  unfold galaxy_planets.
  intros (s & (k & Hk & Hp)%list_elem_of_omap & Hs)%list_elem_of_bind.
  rewrite economy_clearKnown_planet_lookup, decide_True in Hp
    by (apply list_elem_of_bind; eauto).
  apply fmap_Some in Hp as [q [_ ->]]. apply clearKnown_planet_cleared.
Qed.

(** After [economy_clearKnown] the galaxy-wide average of every
    priced good is mean 0 and standard deviation 0. *)
Theorem economy_getAveragePrice_cleared (u : Universe) (com : nat) :
  com ∈ econ_comm u ->
  economy_getAveragePrice (economy_clearKnown u) com = (0%Z, 0%Z, 0).
Proof.
  intros Hcom. unfold economy_getAveragePrice.
  apply econ_comm_index_is_Some in Hcom as [j Hj].
  replace (econ_comm_index (economy_clearKnown u) com) with (Some j) by done.
  assert (Hs : galaxy_sums (economy_clearKnown u) com = (0, 0, 0%Z)).
  { unfold galaxy_sums.
    pose proof (galaxy_planets_cleared u) as Hall. revert Hall.
    generalize (galaxy_planets (economy_clearKnown u)). intros l Hall.
    induction l as [|p l IH]; [done|]. cbn.
    rewrite galaxy_step_cleared by (apply Hall; left).
    apply IH. intros q Hq. apply Hall. by right. }
  rewrite Hs. rewrite decide_False by lia.
  f_equal. f_equal.
  apply (Ztrunc_eq 0); lra.
Qed.

(** ** Witnesses on the sample galaxy *)

Lemma economy_clearKnown_cleared_witness :
  Forall (fun g => cleared g.2) (pl_goods (clearKnown_planet seen_planet)).
Proof.
  apply (economy_clearKnown_cleared seen_universe 0).
  - cbn. left.
  - reflexivity.
Defined.

Lemma economy_clearKnown_lastPurchasePrice_witness :
  com_lastPurchasePrice (set_com_lastPurchasePrice 0 sample_food) = 0%Z.
Proof.
  apply (economy_clearKnown_lastPurchasePrice seen_universe). cbn. left.
Defined.

Lemma economy_clearKnown_prices_witness :
  exists p', planet_stack (economy_clearKnown seen_universe) !! 0%nat = Some p' /\
    economy_getPriceAtTime (economy_clearKnown seen_universe) 0 p' 5
    = economy_getPriceAtTime seen_universe 0 seen_planet 5.
Proof. apply (economy_clearKnown_prices seen_universe 0 0 seen_planet 5). reflexivity. Defined.

Lemma economy_getAveragePlanetPrice_unobserved_witness :
  economy_getAveragePlanetPrice sample_universe 0 unseen_planet = (0%Z, 0%Z, 0).
Proof.
  apply (economy_getAveragePlanetPrice_unobserved _ _ _ unseen_field); reflexivity.
Defined.

Lemma economy_getAveragePrice_cleared_witness :
  economy_getAveragePrice (economy_clearKnown seen_universe) 0 = (0%Z, 0%Z, 0).
Proof.
  apply economy_getAveragePrice_cleared. cbn. left.
Defined.

(** ** The average over the galaxy *)

Lemma galaxy_step_mean (u : Universe) (com : nat) (acc : R * R * Z) (p : Planet) :
  Forall (fun g => (cp_cnt g.2 <= 46340)%Z) (pl_goods p) ->
  (0 <= acc.2 < INT_MAX)%Z ->
  galaxy_step u com acc p
  = match planet_mean u com p with
    | Some m => (acc.1.1 + m, acc.1.2 + m * m, (acc.2 + 1)%Z)
    | None => acc
    end.
Proof.
  intros Hp Hn. unfold galaxy_step, planet_mean.
  destruct (planet_commodity_index u p com) as [k|]; cbn; [|done].
  destruct (pl_commodityPrice p !! k) as [cp|] eqn:Hk; cbn; [|done].
  case_decide as Hc; [|done].
  assert (cp_cnt cp <= 46340)%Z as Hsmall.
  { rewrite pl_commodityPrice_lookup in Hk.
    destruct (pl_goods p !! k) as [g|] eqn:Hg; simplify_eq/=.
    exact (Forall_lookup_1 _ _ _ _ Hp Hg). }
  rewrite !int32_small by (unfold INT_MAX in *; nia).
  rewrite mult_IZR. do 2 f_equal. field. apply not_0_IZR. lia.
Qed.

Lemma galaxy_fold (u : Universe) (com : nat) (ps : list Planet) (acc : R * R * Z) :
  counts_small ps -> (0 <= acc.2)%Z -> (acc.2 + Z.of_nat (length ps) <= INT_MAX)%Z ->
  foldl (galaxy_step u com) acc ps
  = (acc.1.1 + Rsum (omap (planet_mean u com) ps),
     acc.1.2 + Rsum ((fun m => m * m) <$> omap (planet_mean u com) ps),
     (acc.2 + Z.of_nat (length (omap (planet_mean u com) ps)))%Z).
Proof.
  intros Hps. revert acc. induction Hps as [|p ps Hp Hps IH]; intros [[av av2] n] H0 Hn.
  - cbn. do 2 f_equal; lra || lia.
  - cbn [foldl length fst snd] in *. rewrite galaxy_step_mean by (done || cbn; lia).
    change (omap (planet_mean u com) (p :: ps))
      with (match planet_mean u com p with
            | Some m => m :: omap (planet_mean u com) ps
            | None => omap (planet_mean u com) ps
            end).
    destruct (planet_mean u com p) as [m|];
      rewrite IH by (cbn [fst snd]; lia); rewrite ?fmap_cons, ?Rsum_cons;
      cbn [fst snd length]; [|done].
    rewrite Nat2Z.inj_succ, <- Z.add_1_l, !Rplus_assoc, !Z.add_assoc. done.
Qed.

Lemma getAveragePrice_means (u : Universe) (com : nat) :
  com ∈ econ_comm u -> counts_small (galaxy_planets u) ->
  (Z.of_nat (length (galaxy_planets u)) <= INT_MAX)%Z ->
  economy_getAveragePrice u com = galaxy_report (galaxy_means u com).
Proof.
  intros Hcom Hsmall Hlen. unfold economy_getAveragePrice, galaxy_sums, galaxy_report.
  apply econ_comm_index_is_Some in Hcom as [j ->].
  rewrite galaxy_fold by (done || cbn; lia). fold (galaxy_means u com).
  cbn [fst snd]. rewrite !Rplus_0_l, Z.add_0_l.
  destruct (galaxy_means u com) as [|m ms'] eqn:Hms.
  - rewrite decide_False, decide_True by (cbn; done || lia).
    cbn. do 2 f_equal. apply (Ztrunc_eq 0); lra.
  - rewrite decide_True, decide_False by (cbn; done || lia).
    by rewrite <- INR_IZR_INZ.
Qed.

Lemma galaxy_planets_heap (u : Universe) (p : Planet) :
  p ∈ galaxy_planets u -> p ∈ planet_stack u.
Proof.
  intros (s & (j & _ & Hp)%list_elem_of_omap & _)%list_elem_of_bind.
  by apply list_elem_of_lookup_2 in Hp.
Qed.

Lemma galaxy_planets_length (u : Universe) :
  (length (galaxy_planets u) <= length (reachable_planets u))%nat.
Proof.
  unfold galaxy_planets, reachable_planets.
  induction (systems_stack u) as [|s l IH]; [done|]. cbn. rewrite !length_app.
  pose proof (length_omap_le (fun j => planet_stack u !! j) (sys_planets s)). lia.
Qed.

(** The average over the galaxy, for a priced commodity: the mean of
    the means of the prices seen at the planets that have seen it, one term
    per pointer of a system to such a planet, and the standard deviation of
    these means, which the sums of squares of the planets do not enter; 0
    and 0 when no planet has seen it.  The counts are below 46341, so that
    [cnt * cnt] is exact. *)
Theorem economy_getAveragePrice_spec (u : Universe) (com : nat) :
  com ∈ econ_comm u -> counts_small (galaxy_planets u) ->
  (Z.of_nat (length (galaxy_planets u)) <= INT_MAX)%Z ->
  let ms := galaxy_means u com in
  let mean := Rsum ms / INR (length ms) in
  economy_getAveragePrice u com
  = if decide (ms = []) then (0%Z, 0%Z, 0)
    else (0%Z, Ztrunc (mean + 0.5),
          sqrt (Rsum ((fun m => m * m) <$> ms) / INR (length ms) - mean * mean)).
Proof. intros Hcom Hsmall Hlen ms mean. by apply getAveragePrice_means. Qed.

Lemma economy_getAveragePrice_spec_witness :
  economy_getAveragePrice seen_universe 0
  = if decide (galaxy_means seen_universe 0 = []) then (0%Z, 0%Z, 0)
    else (0%Z,
          Ztrunc (Rsum (galaxy_means seen_universe 0)
                  / INR (length (galaxy_means seen_universe 0)) + 0.5),
          sqrt (Rsum ((fun m => m * m) <$> galaxy_means seen_universe 0)
                / INR (length (galaxy_means seen_universe 0))
                - Rsum (galaxy_means seen_universe 0)
                  / INR (length (galaxy_means seen_universe 0))
                  * (Rsum (galaxy_means seen_universe 0)
                     / INR (length (galaxy_means seen_universe 0))))).
Proof.
  apply (economy_getAveragePrice_spec seen_universe 0).
  - cbn. left.
  - repeat constructor. cbn. lia.
  - cbn. unfold INT_MAX. lia.
Defined.

(** The deviation over the galaxy is a real number: what is under the
    square root is not negative. *)
Lemma galaxy_variance_nonneg (u : Universe) (com : nat) :
  galaxy_means u com <> [] ->
  0 <= Rsum ((fun m => m * m) <$> galaxy_means u com) / INR (length (galaxy_means u com))
       - Rsum (galaxy_means u com) / INR (length (galaxy_means u com))
         * (Rsum (galaxy_means u com) / INR (length (galaxy_means u com))).
Proof. apply variance_nonneg. Qed.

(** One planet that has seen 100 and 102: mean 101, deviation 0, though the
    prices seen at the planet deviate by 1. *)
Example galaxy_average_one_planet :
  economy_getAveragePrice seen_universe 0 = (0%Z, 101%Z, 0).
Proof.
  unfold economy_getAveragePrice, galaxy_sums, galaxy_planets. cbn.
  unfold galaxy_step. cbn. rewrite (decide_True (P := "Food" = "Food")) by done.
  cbn. rewrite decide_True by (cbn; lia). cbn.
  rewrite decide_True by (cbn; lia).
  change (int32 (0 + 1)) with 1%Z. change (int32 (2 * 2)) with 4%Z.
  f_equal; [f_equal|].
  - apply (Ztrunc_eq 101); lra.
  - replace (_ - _) with 0 by field. apply sqrt_0.
Qed.

