(* ===== verification/Network.v ===== *)
(** * Network: jump resistances and the admittance matrix

    [econ_calcJumpR], [econ_calcSysI] and [econ_createGMatrix] of economy.c.

    The matrix is built through CSparse ([cs_spalloc], [cs_entry],
    [cs_compress]), which is not part of the sources: it is modelled here
    from its documented contract as a list of (row, column, value) entries,
    the value of a cell being the sum of the entries that name it.  Faction
    standings ([areEnemies], [areAllies] of faction.c) are an interface, the
    class [Factions]. *)

From Stdlib Require Import Reals Lra Lia ZArith.
From stdpp Require Import base tactics option list strings.
From S2P Require Import Prelude World.

#[local] Open Scope R_scope.

(** ** Parameters of the nodal analysis *)

Definition ECON_BASE_RES : R := 30.
Definition ECON_SELF_RES : R := 3.
Definition ECON_FACTION_MOD : R := 0.1.

(** ** The interface to faction standings *)

Class Factions : Type := {
  areEnemies : Z -> Z -> bool;
  areAllies : Z -> Z -> bool
}.

(** Standings that do not depend on who asks. *)
Class FactionsSymmetric (F : Factions) : Prop := {
  areEnemies_sym : forall a b, areEnemies a b = areEnemies b a;
  areAllies_sym : forall a b, areAllies a b = areAllies b a
}.

(** ** Sparse matrices in coordinate form (CSparse) *)

Record cs : Type := mk_cs {
  cs_triplet : bool;
  cs_m : Z;
  cs_n : Z;
  cs_entries : list (Z * Z * R)
}.

Definition cs_spalloc (m n : Z) : cs := mk_cs true m n [].

(** [cs_entry T i j x] appends one entry and grows the dimensions to hold
    it; it refuses (result 0) a matrix that is not in coordinate form and a
    negative index. *)
Definition cs_entry (T : cs) (i j : Z) (x : R) : cs * Z :=
  if decide (cs_triplet T = true /\ 0 <= i /\ 0 <= j)%Z
  then (mk_cs true (Z.max (cs_m T) (i + 1)) (Z.max (cs_n T) (j + 1))
          (cs_entries T ++ [(i, j, x)]), 1%Z)
  else (T, 0%Z).

(** Compression changes the storage order, not the entries. *)
Definition cs_compress (T : cs) : cs :=
  mk_cs false (cs_m T) (cs_n T) (cs_entries T).

(** The value of cell [(i, j)]: duplicate entries add up. *)
Definition entries_get (es : list (Z * Z * R)) (i j : Z) : R :=
  (∑ e <- es, if decide (e.1.1 = i /\ e.1.2 = j) then e.2 else 0)%econ.

Definition cs_get (M : cs) (i j : Z) : R := entries_get (cs_entries M) i j.

(** Component [i] of the product of the matrix with a vector. *)
Definition vec_at (x : list R) (j : Z) : R :=
  if decide (0 <= j)%Z then default 0 (x !! Z.to_nat j) else 0.

Definition entries_mulvec (es : list (Z * Z * R)) (x : list R) (i : Z) : R :=
  (∑ e <- es, if decide (e.1.1 = i) then e.2 * vec_at x e.1.2 else 0)%econ.

(** Row [i] of a matrix given by entries dominates strictly when the sum of
    its diagonal entries exceeds the sum of the absolute values of its
    other entries. *)
Definition margin_weight (i : Z) (e : Z * Z * R) : R :=
  if decide (e.1.1 = i)
  then (if decide (e.1.2 = i) then e.2 else - Rabs e.2)
  else 0.

Definition row_margin (es : list (Z * Z * R)) (i : Z) : R :=
  wsum (margin_weight i) es.

Definition diag_dominant (es : list (Z * Z * R)) (n : nat) : Prop :=
  forall i, (i < n)%nat -> 0 < row_margin es (Z.of_nat i).

(** ** Resistance of a jump, intensity of a node *)

Definition econ_calcJumpR `{Factions} (A B : StarSystem) : R :=
  let R0 := ECON_BASE_RES in
  let R1 := R0 + (sys_nebu_density A + sys_nebu_density B) / 1000 in
  let R2 := R1 + (sys_nebu_volatility A + sys_nebu_volatility B) / 100 in
  if decide (sys_faction A <> (-1)%Z /\ sys_faction B <> (-1)%Z) then
    if areEnemies (sys_faction A) (sys_faction B)
    then R2 + ECON_FACTION_MOD * ECON_BASE_RES
    else if areAllies (sys_faction A) (sys_faction B)
         then R2 - ECON_FACTION_MOD * ECON_BASE_RES
         else R2
  else R2.

Definition econ_calcSysI (dt : Z) (sys : StarSystem) (price : nat) : R := 0.

(** ** Assembly of the admittance matrix *)

(** One jump of system [i]: the conductance is added to the row total and
    entered, negated, at both [(i, target)] and [(target, i)]. *)
Definition G_jump `{Factions} (u : Universe) (i : nat) (sys : StarSystem)
  (acc : cs * R) (j : JumpPoint) : cs * R :=
  match systems_stack u !! jp_target j with
  | Some target =>
      let R := 1 / econ_calcJumpR sys target in
      let M1 := (cs_entry acc.1 (Z.of_nat i) (sys_id target) (- R)).1 in
      let M2 := (cs_entry M1 (sys_id target) (Z.of_nat i) (- R)).1 in
      (M2, acc.2 + R)
  | None => acc
  end.

(** One system: its jumps, then the diagonal with the damping term. *)
Definition G_row `{Factions} (u : Universe) (M : cs) (i : nat) (sys : StarSystem) : cs :=
  let r := foldl (G_jump u i sys) (M, 0) (sys_jumps sys) in
  (cs_entry r.1 (Z.of_nat i) (Z.of_nat i) (r.2 + 1 / ECON_SELF_RES)).1.

Definition econ_createGMatrix `{Factions} (u : Universe) : cs :=
  let n := Z.of_nat (length (systems_stack u)) in
  cs_compress
    (foldl (fun M si => G_row u M si.1 si.2) (cs_spalloc n n)
       (imap pair (systems_stack u))).

(** ** Reference description of the matrix *)

(** The conductance of the jump [j] of [sys]. *)
Definition jump_conductance `{Factions} (u : Universe) (sys : StarSystem) (j : JumpPoint) : R :=
  match systems_stack u !! jp_target j with
  | Some target => 1 / econ_calcJumpR sys target
  | None => 0
  end.

Definition jump_entries `{Factions} (u : Universe) (i : nat) (sys : StarSystem)
  (j : JumpPoint) : list (Z * Z * R) :=
  match systems_stack u !! jp_target j with
  | Some target =>
      [(Z.of_nat i, sys_id target, - (1 / econ_calcJumpR sys target));
       (sys_id target, Z.of_nat i, - (1 / econ_calcJumpR sys target))]
  | None => []
  end.

Definition row_entries `{Factions} (u : Universe) (i : nat) (sys : StarSystem)
  : list (Z * Z * R) :=
  (sys_jumps sys ≫= jump_entries u i sys)
  ++ [(Z.of_nat i, Z.of_nat i,
       wsum (jump_conductance u sys) (sys_jumps sys) + 1 / ECON_SELF_RES)].

Definition G_entries `{Factions} (u : Universe) : list (Z * Z * R) :=
  imap pair (systems_stack u) ≫= (fun si => row_entries u si.1 si.2).

(** The total conductance of the jumps that lead into system [i]. *)
Definition incoming_conductance `{Factions} (u : Universe) (i : nat) : R :=
  wsum (fun s => wsum (fun j => if decide (jp_target j = i)
                                then jump_conductance u s j else 0) (sys_jumps s))
    (systems_stack u).

Definition incoming_jumps (u : Universe) (i : nat) : nat :=
  length (filter (fun j => jp_target j = i) (systems_stack u ≫= sys_jumps)).

(** ** Conditions on the star map *)

Definition nebula_nonneg (u : Universe) : Prop :=
  Forall (fun s => 0 <= sys_nebu_density s /\ 0 <= sys_nebu_volatility s)
    (systems_stack u).

Definition no_self_jump (u : Universe) : Prop :=
  forall i s, systems_stack u !! i = Some s ->
    Forall (fun j => jp_target j <> i) (sys_jumps s).

Definition ids_nonneg (u : Universe) : Prop :=
  Forall (fun s => (0 <= sys_id s)%Z) (systems_stack u).

(** A system's [id] is its position in [systems_stack]. *)
Definition ids_positions (u : Universe) : Prop :=
  forall i s, systems_stack u !! i = Some s -> sys_id s = Z.of_nat i.

(** ** Sample data: no diplomacy; a table with one hostile and one allied
    pair; two systems joined by a jump in each direction. *)

Definition no_factions : Factions :=
  {| areEnemies := fun _ _ => false; areAllies := fun _ _ => false |}.

Definition sample_factions : Factions :=
  {| areEnemies := fun a b => bool_decide ((a = 1 /\ b = 2) \/ (a = 2 /\ b = 1))%Z;
     areAllies := fun a b => bool_decide ((a = 1 /\ b = 3) \/ (a = 3 /\ b = 1))%Z |}.

Definition system_A : StarSystem :=
  mkStarSystem "A" 0 [mkJumpPoint 1] [] 0 0 0 0 (-1) None [].
Definition system_B : StarSystem :=
  mkStarSystem "B" 1 [mkJumpPoint 0] [] 0 0 0 0 (-1) None [].
Definition system_C : StarSystem :=
  mkStarSystem "C" 2 [] [] 0 0 0 0 (-1) None [].
Definition two_systems : Universe :=
  mkUniverse [] [] [system_A; system_B; system_C] [].

(** A hub: system 0 joined to eleven others, each jump stored at both
    ends. *)
Definition hub_centre : StarSystem :=
  mkStarSystem "hub" 0 (mkJumpPoint <$> seq 1 11) [] 0 0 0 0 (-1) None [].
Definition hub_spoke (k : nat) : StarSystem :=
  mkStarSystem "spoke" (Z.of_nat k) [mkJumpPoint 0] [] 0 0 0 0 (-1) None [].
Definition hub_universe : Universe :=
  mkUniverse [] [] (hub_centre :: (hub_spoke <$> seq 1 11)) [].

(** * Theorems *)

(** ** Resistance *)

Section resistance.
Context `{F : Factions}.

(** The resistance of a jump on every branch of the code: the base
    30 plus the two nebula terms, raised by 3 between enemies, lowered by 3
    between allies, and unchanged when either side has no faction. *)
Theorem econ_calcJumpR_cases (A B : StarSystem) :
  econ_calcJumpR A B
  = 30 + (sys_nebu_density A + sys_nebu_density B) / 1000
       + (sys_nebu_volatility A + sys_nebu_volatility B) / 100
       + (if bool_decide (sys_faction A = (-1)%Z \/ sys_faction B = (-1)%Z) then 0
          else if areEnemies (sys_faction A) (sys_faction B) then 3
          else if areAllies (sys_faction A) (sys_faction B) then -3
          else 0).
Proof.
  unfold econ_calcJumpR, ECON_BASE_RES, ECON_FACTION_MOD.
  case_decide as Hf; case_bool_decide as Hb; try tauto; try lia.
  - destruct (areEnemies (sys_faction A) (sys_faction B)),
      (areAllies (sys_faction A) (sys_faction B)); lra.
  - lra.
Qed.

Lemma econ_calcJumpR_lower (A B : StarSystem) :
  0 <= sys_nebu_density A -> 0 <= sys_nebu_density B ->
  0 <= sys_nebu_volatility A -> 0 <= sys_nebu_volatility B ->
  27 <= econ_calcJumpR A B.
Proof.
  intros. unfold econ_calcJumpR, ECON_BASE_RES, ECON_FACTION_MOD.
  case_decide; [|lra].
  destruct (areEnemies (sys_faction A) (sys_faction B)),
    (areAllies (sys_faction A) (sys_faction B)); lra.
Qed.

(** The resistance of a jump between systems with non-negative
    nebula density and volatility is strictly positive: it is at least 27. *)
Theorem econ_calcJumpR_pos (A B : StarSystem) :
  0 <= sys_nebu_density A -> 0 <= sys_nebu_density B ->
  0 <= sys_nebu_volatility A -> 0 <= sys_nebu_volatility B ->
  0 < econ_calcJumpR A B /\ 27 <= econ_calcJumpR A B.
Proof. intros. pose proof (econ_calcJumpR_lower A B). lra. Qed.

(** With standings that do not depend on the direction, the
    resistance of a jump is the same from either end. *)
Theorem econ_calcJumpR_sym `{!FactionsSymmetric F} (A B : StarSystem) :
  econ_calcJumpR A B = econ_calcJumpR B A.
Proof.
  unfold econ_calcJumpR.
  rewrite (areEnemies_sym (sys_faction A)), (areAllies_sym (sys_faction A)).
  repeat case_decide; try tauto;
    destruct (areEnemies (sys_faction B) (sys_faction A)),
      (areAllies (sys_faction B) (sys_faction A)); lra.
Qed.

End resistance.

(** ** Assembly: the loops build the reference entries *)

Lemma cs_entry_ok (T : cs) (i j : Z) (x : R) :
  cs_triplet T = true -> (0 <= i)%Z -> (0 <= j)%Z ->
  cs_triplet (cs_entry T i j x).1 = true /\
  cs_entries (cs_entry T i j x).1 = cs_entries T ++ [(i, j, x)].
Proof. intros. unfold cs_entry. by rewrite decide_True. Qed.

Lemma cs_entry_refused (T : cs) (i j : Z) (x : R) :
  (i < 0 \/ j < 0)%Z -> cs_entry T i j x = (T, 0%Z).
Proof. intros. unfold cs_entry. rewrite decide_False; [done|lia]. Qed.

Section assembly.
Context `{F : Factions}.

Lemma G_jump_spec (u : Universe) (i : nat) (sys : StarSystem) (acc : cs * R) (j : JumpPoint) :
  ids_nonneg u -> cs_triplet acc.1 = true ->
  cs_triplet (G_jump u i sys acc j).1 = true /\
  cs_entries (G_jump u i sys acc j).1 = cs_entries acc.1 ++ jump_entries u i sys j /\
  (G_jump u i sys acc j).2 = acc.2 + jump_conductance u sys j.
Proof.
  intros Hid Ht. unfold G_jump, jump_entries, jump_conductance.
  destruct (systems_stack u !! jp_target j) as [tgt|] eqn:Htgt.
  - assert (0 <= sys_id tgt)%Z as Hi.
    { unfold ids_nonneg in Hid. rewrite Forall_forall in Hid.
      apply Hid. by eapply list_elem_of_lookup_2. }
    cbn [fst snd].
    destruct (cs_entry_ok acc.1 (Z.of_nat i) (sys_id tgt)
                (- (1 / econ_calcJumpR sys tgt))) as [Ht1 He1]; [done|lia|done|].
    destruct (cs_entry_ok (cs_entry acc.1 (Z.of_nat i) (sys_id tgt)
                             (- (1 / econ_calcJumpR sys tgt))).1
                (sys_id tgt) (Z.of_nat i)
                (- (1 / econ_calcJumpR sys tgt))) as [Ht2 He2]; [done|done|lia|].
    rewrite Ht2, He2, He1, <- app_assoc. done.
  - rewrite app_nil_r. split_and!; [done|done|lra].
Qed.

Lemma G_jumps_spec (u : Universe) (i : nat) (sys : StarSystem) (js : list JumpPoint) (acc : cs * R) :
  ids_nonneg u -> cs_triplet acc.1 = true ->
  cs_triplet (foldl (G_jump u i sys) acc js).1 = true /\
  cs_entries (foldl (G_jump u i sys) acc js).1
    = cs_entries acc.1 ++ (js ≫= jump_entries u i sys) /\
  (foldl (G_jump u i sys) acc js).2 = acc.2 + wsum (jump_conductance u sys) js.
Proof.
  intros Hid. revert acc. induction js as [|j js IH]; intros acc Ht.
  - rewrite wsum_nil. cbn [foldl]. change ([] ≫= jump_entries u i sys) with (@nil (Z * Z * R)).
    rewrite app_nil_r. split_and!; [done|done|lra].
  - cbn [foldl]. destruct (G_jump_spec u i sys acc j Hid Ht) as (Ht1 & He1 & Hs1).
    destruct (IH _ Ht1) as (Ht2 & He2 & Hs2).
    rewrite Ht2, He2, Hs2, He1, Hs1, bind_cons, wsum_cons, <- app_assoc.
    split_and!; [done|done|lra].
Qed.

Lemma G_row_spec (u : Universe) (M : cs) (i : nat) (sys : StarSystem) :
  ids_nonneg u -> cs_triplet M = true ->
  cs_triplet (G_row u M i sys) = true /\
  cs_entries (G_row u M i sys) = cs_entries M ++ row_entries u i sys.
Proof.
  intros Hid Ht. unfold G_row, row_entries.
  destruct (G_jumps_spec u i sys (sys_jumps sys) (M, 0) Hid Ht) as (Ht1 & He1 & Hs1).
  destruct (cs_entry_ok (foldl (G_jump u i sys) (M, 0) (sys_jumps sys)).1
              (Z.of_nat i) (Z.of_nat i)
              ((foldl (G_jump u i sys) (M, 0) (sys_jumps sys)).2 + 1 / ECON_SELF_RES))
    as [Ht2 He2]; [done|lia|lia|].
  rewrite Ht2, He2, He1, Hs1, <- app_assoc. cbn [fst snd].
  split; [done|]. do 4 f_equal. lra.
Qed.

Lemma G_rows_spec (u : Universe) (l : list StarSystem) (M : cs) :
  ids_nonneg u -> cs_triplet M = true ->
  cs_triplet (foldl (fun M si => G_row u M si.1 si.2) M (imap pair l)) = true /\
  cs_entries (foldl (fun M si => G_row u M si.1 si.2) M (imap pair l))
  = cs_entries M ++ (imap pair l ≫= (fun si => row_entries u si.1 si.2)).
Proof.
  intros Hid Ht. induction l as [|s l IH] using rev_ind.
  - cbn. by rewrite app_nil_r.
  - rewrite imap_app, foldl_app, bind_app. cbn [imap foldl].
    destruct IH as [Ht1 He1].
    destruct (G_row_spec u _ (length l + 0) s Hid Ht1) as [Ht2 He2].
    cbn [fst snd]. rewrite Ht2, He2, He1, bind_singleton, <- app_assoc.
    done.
Qed.

(** The entries the two nested loops of [econ_createGMatrix] make. *)
Lemma createGMatrix_cs_entries (u : Universe) :
  ids_nonneg u -> cs_entries (econ_createGMatrix u) = G_entries u.
Proof.
  intros Hid. unfold econ_createGMatrix, G_entries, cs_compress. cbn [cs_entries].
  by destruct (G_rows_spec u (systems_stack u)
                 (cs_spalloc (Z.of_nat (length (systems_stack u)))
                    (Z.of_nat (length (systems_stack u)))) Hid) as [_ ->].
Qed.

End assembly.

(** ** Positions of a list *)

Lemma elem_of_imap_pair {A : Type} (l : list A) (i : nat) (x : A) :
  (i, x) ∈ imap pair l <-> l !! i = Some x.
Proof.
  rewrite list_elem_of_lookup. setoid_rewrite list_lookup_imap. split.
  - intros [k Hk]. destruct (l !! k) eqn:E; by simplify_eq/=.
  - intros Hi. exists i. by rewrite Hi.
Qed.

Lemma wsum_imap_snd {A : Type} (w : A -> R) (l : list A) :
  wsum (fun ix : nat * A => w ix.2) (imap pair l) = wsum w l.
Proof.
  induction l as [|x l IH] using rev_ind; [done|].
  by rewrite imap_app, !wsum_app, IH.
Qed.

(** ** Symmetry *)

Section symmetry.
Context `{F : Factions}.

Lemma jump_entries_sym (u : Universe) (i : nat) (sys : StarSystem) (j : JumpPoint) (a b : Z) :
  entries_get (jump_entries u i sys j) a b = entries_get (jump_entries u i sys j) b a.
Proof.
  unfold jump_entries, entries_get.
  destruct (systems_stack u !! jp_target j); [|done].
  autorewrite with wsum. cbn [fst snd].
  repeat case_decide; try lra; lia.
Qed.

Lemma row_entries_sym (u : Universe) (i : nat) (sys : StarSystem) (a b : Z) :
  entries_get (row_entries u i sys) a b = entries_get (row_entries u i sys) b a.
Proof.
  unfold row_entries, entries_get. rewrite !wsum_app, !wsum_bind. f_equal.
  - apply wsum_ext. intros j _. apply jump_entries_sym.
  - autorewrite with wsum. cbn [fst snd]. repeat case_decide; try lra; lia.
Qed.

(** The admittance matrix is symmetric, whatever the star map. *)
Theorem econ_createGMatrix_sym (u : Universe) (a b : Z) :
  ids_nonneg u ->
  cs_get (econ_createGMatrix u) a b = cs_get (econ_createGMatrix u) b a.
Proof.
  intros Hid. unfold cs_get. rewrite createGMatrix_cs_entries by done.
  unfold G_entries, entries_get. rewrite !wsum_bind.
  apply wsum_ext. intros si _. apply row_entries_sym.
Qed.

End symmetry.

(** ** Diagonal dominance *)

Section dominance.
Context `{F : Factions}.

Lemma jump_conductance_bounds (u : Universe) (s : StarSystem) (j : JumpPoint) :
  nebula_nonneg u -> s ∈ systems_stack u ->
  0 <= jump_conductance u s j <= / 27.
Proof.
  intros Hn Hs. unfold jump_conductance.
  destruct (systems_stack u !! jp_target j) as [t|] eqn:Ht; [|lra].
  unfold nebula_nonneg in Hn. rewrite Forall_forall in Hn.
  destruct (Hn s Hs) as [? ?].
  destruct (Hn t) as [? ?]; [by eapply list_elem_of_lookup_2|].
  pose proof (econ_calcJumpR_lower s t) as HR.
  unfold Rdiv. rewrite Rmult_1_l. split.
  - apply Rlt_le, Rinv_0_lt_compat. lra.
  - apply Rinv_le_contravar; lra.
Qed.

(** The two entries of a jump from [a] count against row [a] and against
    the row of the target. *)
Lemma jump_entries_margin (u : Universe) (a : nat) (sys : StarSystem) (j : JumpPoint) (i : nat) :
  ids_positions u -> jp_target j <> a -> 0 <= jump_conductance u sys j ->
  wsum (margin_weight (Z.of_nat i)) (jump_entries u a sys j)
  = - (if decide (a = i) then jump_conductance u sys j else 0)
    - (if decide (jp_target j = i) then jump_conductance u sys j else 0).
Proof.
  intros Hid Hne Hc. unfold jump_entries, jump_conductance in *.
  destruct (systems_stack u !! jp_target j) as [t|] eqn:Ht.
  - rewrite (Hid _ _ Ht), !wsum_cons, wsum_nil. unfold margin_weight. cbn [fst snd].
    rewrite Rabs_Ropp, (Rabs_pos_eq _ Hc).
    repeat case_decide; try lia; lra.
  - rewrite wsum_nil. repeat case_decide; lra.
Qed.

Lemma row_entries_margin (u : Universe) (a : nat) (sys : StarSystem) (i : nat) :
  ids_positions u ->
  Forall (fun j => jp_target j <> a) (sys_jumps sys) ->
  (forall j, 0 <= jump_conductance u sys j) ->
  wsum (margin_weight (Z.of_nat i)) (row_entries u a sys)
  = (if decide (a = i) then 1 / ECON_SELF_RES else 0)
    - wsum (fun j => if decide (jp_target j = i)
                     then jump_conductance u sys j else 0) (sys_jumps sys).
Proof.
  intros Hid Hne Hc. unfold row_entries.
  rewrite wsum_app, wsum_bind, wsum_cons, wsum_nil.
  rewrite (wsum_ext _ (fun j =>
     (if decide (a = i) then -1 else 0) * jump_conductance u sys j
     - (if decide (jp_target j = i) then jump_conductance u sys j else 0))).
  2:{ intros j Hj. rewrite jump_entries_margin; [|done| |done].
      - case_decide; lra.
      - rewrite Forall_forall in Hne. by apply Hne. }
  rewrite wsum_minus, wsum_scale. unfold margin_weight. cbn [fst snd].
  repeat case_decide; try lia; lra.
Qed.

(** The margin of row [i]: the damping conductance less the conductance
    of the jumps that lead into system [i]. *)
Lemma G_entries_row_margin (u : Universe) (i : nat) :
  ids_positions u -> no_self_jump u -> nebula_nonneg u ->
  (i < length (systems_stack u))%nat ->
  row_margin (G_entries u) (Z.of_nat i)
  = 1 / ECON_SELF_RES - incoming_conductance u i.
Proof.
  intros Hid Hns Hn Hi. unfold G_entries, row_margin, incoming_conductance.
  rewrite wsum_bind.
  rewrite (wsum_ext _ (fun si : nat * StarSystem =>
     (if decide (si.1 = i) then 1 / ECON_SELF_RES else 0)
     - wsum (fun j => if decide (jp_target j = i)
                      then jump_conductance u si.2 j else 0) (sys_jumps si.2))).
  2:{ intros [a s] Has%elem_of_imap_pair. cbn [fst snd].
      apply row_entries_margin; [done|by eapply Hns|].
      intros j. eapply jump_conductance_bounds; [done|].
      by eapply list_elem_of_lookup_2. }
  rewrite wsum_minus, wsum_imap_indicator, decide_True by done.
  by rewrite (wsum_imap_snd (fun s =>
    wsum (fun j => if decide (jp_target j = i)
                   then jump_conductance u s j else 0) (sys_jumps s))).
Qed.

Lemma incoming_conductance_le (u : Universe) (i : nat) :
  nebula_nonneg u ->
  incoming_conductance u i <= INR (incoming_jumps u i) * / 27.
Proof.
  intros Hn. unfold incoming_conductance, incoming_jumps.
  rewrite <- (wsum_filter_count (fun j => jp_target j = i) (/ 27)), wsum_bind.
  apply wsum_le. intros s Hs. apply wsum_le. intros j _.
  pose proof (jump_conductance_bounds u s j Hn Hs). case_decide; lra.
Qed.

Lemma incoming_conductance_nonneg (u : Universe) (i : nat) :
  nebula_nonneg u -> 0 <= incoming_conductance u i.
Proof.
  intros Hn. unfold incoming_conductance.
  apply wsum_nonneg. intros s Hs. apply wsum_nonneg. intros j _.
  pose proof (jump_conductance_bounds u s j Hn Hs). case_decide; lra.
Qed.

Lemma G_entries_dominant (u : Universe) :
  ids_positions u -> no_self_jump u -> nebula_nonneg u ->
  (forall i, incoming_jumps u i <= 8)%nat ->
  diag_dominant (G_entries u) (length (systems_stack u)).
Proof.
  intros Hid Hns Hn H8 i Hi. rewrite G_entries_row_margin by done.
  pose proof (incoming_conductance_le u i Hn) as Hle.
  pose proof (le_INR _ _ (H8 i)) as Hc. cbn [INR] in Hc.
  unfold ECON_SELF_RES. lra.
Qed.

End dominance.

(** ** A strictly diagonally dominant matrix has a trivial kernel *)

Lemma max_abs_index (x : list R) :
  x <> [] ->
  exists i v, x !! i = Some v /\ forall j w, x !! j = Some w -> Rabs w <= Rabs v.
Proof.
  induction x as [|a x IH]; [done|]. intros _. destruct (decide (x = [])) as [->|Hx].
  - exists 0%nat, a. split; [done|]. intros [|j] w Hj; simplify_eq/=. lra.
  - destruct (IH Hx) as (i & v & Hi & Hmax).
    destruct (Rle_dec (Rabs v) (Rabs a)).
    + exists 0%nat, a. split; [done|]. intros [|j] w Hj; simplify_eq/=; [lra|].
      specialize (Hmax j w Hj). lra.
    + exists (S i), v. split; [done|]. intros [|j] w Hj; simplify_eq/=; [lra|].
      by apply (Hmax j).
Qed.

Lemma vec_at_of_nat (x : list R) (j : nat) : vec_at x (Z.of_nat j) = default 0 (x !! j).
Proof. unfold vec_at. rewrite decide_True by lia. by rewrite Nat2Z.id. Qed.

Lemma vec_at_bound (x : list R) (m : R) (c : Z) :
  (forall j w, x !! j = Some w -> Rabs w <= m) -> 0 <= m ->
  Rabs (vec_at x c) <= m.
Proof.
  intros Hm H0. unfold vec_at. case_decide; [|by rewrite Rabs_R0].
  destruct (x !! Z.to_nat c) as [w|] eqn:Hw; cbn; [by eapply Hm|by rewrite Rabs_R0].
Qed.

(** A vector that a strictly diagonally dominant matrix maps to zero is
    zero (Levy-Desplanques, on the entries). *)
Lemma dominant_kernel_trivial (es : list (Z * Z * R)) (x : list R) :
  diag_dominant es (length x) ->
  (forall i, (i < length x)%nat -> entries_mulvec es x (Z.of_nat i) = 0) ->
  Forall (fun v => v = 0) x.
Proof.
  intros Hdom Hzero. destruct (decide (x = [])) as [->|Hne]; [constructor|].
  destruct (max_abs_index x Hne) as (i & v & Hi & Hmax).
  assert (Hlt : (i < length x)%nat) by by eapply lookup_lt_Some.
  destruct (Req_dec v 0) as [->|Hv].
  - apply Forall_forall. intros w [j Hj]%list_elem_of_lookup.
    specialize (Hmax j w Hj). rewrite Rabs_R0 in Hmax.
    pose proof (Rabs_pos w). apply Rabs_le_inv in Hmax. lra.
  - exfalso. specialize (Hdom i Hlt). specialize (Hzero i Hlt).
    set (t := if Rle_dec 0 v then 1 else -1).
    assert (Hvt : t * v = Rabs v).
    { unfold t, Rabs. destruct (Rle_dec 0 v), (Rcase_abs v); lra. }
    assert (Ht : Rabs t = 1).
    { unfold t, Rabs. destruct (Rle_dec 0 v), (Rcase_abs _); lra. }
    assert (Hpos : 0 < Rabs v) by by apply Rabs_pos_lt.
    assert (Hle : Rabs v * row_margin es (Z.of_nat i)
                  <= t * entries_mulvec es x (Z.of_nat i)).
    { unfold row_margin, entries_mulvec. rewrite <- !wsum_scale.
      apply wsum_le. intros e _. unfold margin_weight.
      case_decide; [|lra]. case_decide as Hc.
      - rewrite Hc, vec_at_of_nat, Hi. cbn [default from_option Datatypes.id].
        apply Req_le. rewrite <- Hvt. ring.
      - pose proof (vec_at_bound x (Rabs v) e.1.2 Hmax (Rabs_pos v)) as Hb.
        assert (Hab : Rabs (t * (e.2 * vec_at x e.1.2)) <= Rabs e.2 * Rabs v).
        { rewrite !Rabs_mult, Ht. pose proof (Rabs_pos e.2). nra. }
        apply Rabs_le_inv in Hab. lra. }
    rewrite Hzero in Hle. nra.
Qed.

Lemma vec_at_minus (x y : list R) (j : Z) :
  length x = length y ->
  vec_at (zip_with Rminus x y) j = vec_at x j - vec_at y j.
Proof.
  intros Hlen. unfold vec_at. case_decide; [|lra].
  rewrite lookup_zip_with.
  destruct (x !! Z.to_nat j) as [a|] eqn:Ha; cbn.
  - destruct (lookup_lt_is_Some_2 y (Z.to_nat j)) as [b ->]; [|done].
    rewrite <- Hlen. by eapply lookup_lt_Some.
  - rewrite (lookup_ge_None_2 y); [cbn; lra|].
    rewrite <- Hlen. by apply lookup_ge_None.
Qed.

Lemma entries_mulvec_minus (es : list (Z * Z * R)) (x y : list R) (i : Z) :
  length x = length y ->
  entries_mulvec es (zip_with Rminus x y) i
  = entries_mulvec es x i - entries_mulvec es y i.
Proof.
  intros Hlen. unfold entries_mulvec. rewrite <- wsum_minus.
  apply wsum_ext. intros e _. case_decide; [|lra].
  rewrite vec_at_minus by done. lra.
Qed.

Lemma zip_with_minus_zero (x y : list R) :
  length x = length y -> Forall (fun v => v = 0) (zip_with Rminus x y) -> x = y.
Proof.
  revert y. induction x as [|a x IH]; intros [|b y] Hlen Hz; simplify_eq/=; [done|].
  inversion Hz as [|? ? Hab Hz']; subst. f_equal; [lra|by apply IH].
Qed.

(** The system [G x = b] has at most one solution when [G] is strictly
    diagonally dominant: two vectors with the same image are equal. *)
Lemma dominant_solution_unique (es : list (Z * Z * R)) (x y : list R) :
  diag_dominant es (length x) -> length x = length y ->
  (forall i, (i < length x)%nat ->
     entries_mulvec es x (Z.of_nat i) = entries_mulvec es y (Z.of_nat i)) ->
  x = y.
Proof.
  intros Hdom Hlen Heq. apply zip_with_minus_zero; [done|].
  assert (Hl : length (zip_with Rminus x y) = length x).
  { rewrite length_zip_with. lia. }
  apply (dominant_kernel_trivial es); rewrite Hl; [done|].
  intros i Hi. rewrite entries_mulvec_minus, (Heq i Hi) by done. lra.
Qed.

(** ** The matrix [econ_createGMatrix] returns *)

Section matrix.
Context `{F : Factions}.

Lemma ids_positions_nonneg (u : Universe) : ids_positions u -> ids_nonneg u.
Proof.
  intros Hid. apply Forall_forall. intros s [i Hi]%list_elem_of_lookup.
  rewrite (Hid i s Hi). lia.
Qed.

Lemma cs_entry_dims (N : Z) (T : cs) (i j : Z) (x : R) :
  (i < N)%Z -> (j < N)%Z -> cs_m T = N /\ cs_n T = N ->
  cs_m (cs_entry T i j x).1 = N /\ cs_n (cs_entry T i j x).1 = N.
Proof. intros ?? [??]. unfold cs_entry. case_decide; cbn; lia. Qed.

Lemma G_row_dims (u : Universe) (M : cs) (i : nat) (sys : StarSystem) :
  ids_positions u -> (i < length (systems_stack u))%nat ->
  let N := Z.of_nat (length (systems_stack u)) in
  cs_m M = N /\ cs_n M = N ->
  cs_m (G_row u M i sys) = N /\ cs_n (G_row u M i sys) = N.
Proof.
  intros Hid Hi N HM. unfold G_row. apply cs_entry_dims; [lia..|].
  change M with (M, 0).1 in HM. revert HM. generalize (M, 0).
  induction (sys_jumps sys) as [|j js IH]; intros acc HM; [done|].
  cbn [foldl]. apply IH. unfold G_jump.
  destruct (systems_stack u !! jp_target j) as [t|] eqn:Ht; [|done].
  pose proof (lookup_lt_Some _ _ _ Ht). rewrite (Hid _ _ Ht).
  cbn [fst]. by repeat (apply cs_entry_dims; [lia..|]).
Qed.

(** C27.  On a star map in which the id of every system is its position in
    [systems_stack], [econ_createGMatrix] returns a compressed matrix of the
    dimensions of the star map whose entries are, for every system in order,
    a pair of mirrored entries [-1/R] for each of its jumps and then the
    diagonal entry: the sum of the conductances of its own jumps plus the
    damping conductance 1/3. *)
Theorem econ_createGMatrix_spec (u : Universe) :
  ids_positions u ->
  econ_createGMatrix u
  = mk_cs false (Z.of_nat (length (systems_stack u)))
      (Z.of_nat (length (systems_stack u))) (G_entries u).
Proof.
  intros Hid. pose proof (createGMatrix_cs_entries u (ids_positions_nonneg u Hid)) as He.
  unfold econ_createGMatrix, cs_compress in *. cbn [cs_entries] in He. rewrite He.
  set (N := Z.of_nat (length (systems_stack u))).
  enough (forall (l : list StarSystem) M, (length l <= length (systems_stack u))%nat ->
            cs_m M = N /\ cs_n M = N ->
            cs_m (foldl (fun M si => G_row u M si.1 si.2) M (imap pair l)) = N /\
            cs_n (foldl (fun M si => G_row u M si.1 si.2) M (imap pair l)) = N) as Hd.
  { by destruct (Hd (systems_stack u) (cs_spalloc N N)) as [-> ->]. }
  induction l as [|s l IH] using rev_ind; intros M Hl HM; [done|].
  rewrite length_app in Hl. cbn in Hl.
  rewrite imap_app, foldl_app. cbn [imap foldl fst snd].
  apply G_row_dims; [done|lia|]. apply IH; [lia|done].
Qed.

(** C3.  On a star map in which the id of every system is its position in
    [systems_stack], no system jumps to itself and no nebula density or
    volatility is negative, in the matrix [econ_createGMatrix] returns the
    diagonal of the row [i] of a system exceeds the sum of the absolute
    values of the other entries of the row by the damping conductance 1/3
    less the total conductance of the jumps that lead into system [i]: the
    mirrored entry of every jump from another system counts against the
    row, and nothing on the diagonal balances it. *)
Theorem econ_createGMatrix_margin (u : Universe) (i : nat) :
  ids_positions u -> no_self_jump u -> nebula_nonneg u ->
  (i < length (systems_stack u))%nat ->
  row_margin (cs_entries (econ_createGMatrix u)) (Z.of_nat i)
  = 1 / ECON_SELF_RES - incoming_conductance u i.
Proof.
  intros Hid ???. rewrite createGMatrix_cs_entries by by apply ids_positions_nonneg.
  by apply G_entries_row_margin.
Qed.

(** C29.  On a star map in which the id of every system is its position in
    [systems_stack], no system jumps to itself, no nebula density or
    volatility is negative and no system is the target of more than eight
    jumps, every row of the matrix [econ_createGMatrix] returns is strictly
    diagonally dominant. *)
Theorem econ_createGMatrix_dominant (u : Universe) :
  ids_positions u -> no_self_jump u -> nebula_nonneg u ->
  (forall i, incoming_jumps u i <= 8)%nat ->
  diag_dominant (cs_entries (econ_createGMatrix u)) (length (systems_stack u)).
Proof.
  intros Hid ???. rewrite createGMatrix_cs_entries by by apply ids_positions_nonneg.
  by apply G_entries_dominant.
Qed.

(** C30.  On a star map in which the id of every system is its position in
    [systems_stack], no system jumps to itself, no nebula density or
    volatility is negative and no system is the target of more than eight
    jumps, the system [G x = b] of the matrix [econ_createGMatrix] returns
    has at most one solution: two vectors of the length of the star map
    with the same image are equal. *)
Theorem econ_createGMatrix_unique_solution (u : Universe) (x y : list R) :
  ids_positions u -> no_self_jump u -> nebula_nonneg u ->
  (forall i, incoming_jumps u i <= 8)%nat ->
  length x = length (systems_stack u) -> length y = length (systems_stack u) ->
  (forall i, (i < length (systems_stack u))%nat ->
     entries_mulvec (cs_entries (econ_createGMatrix u)) x (Z.of_nat i)
     = entries_mulvec (cs_entries (econ_createGMatrix u)) y (Z.of_nat i)) ->
  x = y.
Proof.
  intros Hid ??? Hx Hy Heq.
  rewrite createGMatrix_cs_entries in Heq by by apply ids_positions_nonneg.
  apply (dominant_solution_unique (G_entries u)); rewrite ?Hx; [|congruence|done].
  by apply G_entries_dominant.
Qed.

End matrix.

(** ** The theorems on the sample maps *)

Lemma sample_factions_symmetric : FactionsSymmetric sample_factions.
Proof. split; intros a b; cbn; apply bool_decide_ext; lia. Qed.

Lemma two_systems_ids_positions : ids_positions two_systems.
Proof. intros [|[|[|i]]] s Hs; by simplify_eq/=. Qed.

Lemma two_systems_no_self_jump : no_self_jump two_systems.
Proof. intros [|[|[|i]]] s Hs; simplify_eq/=; repeat constructor; cbn; lia. Qed.

Lemma two_systems_nebula_nonneg : nebula_nonneg two_systems.
Proof. repeat constructor; cbn; lra. Qed.

Lemma two_systems_incoming (i : nat) : (incoming_jumps two_systems i <= 8)%nat.
Proof.
  unfold incoming_jumps. etrans; [apply length_filter|]. cbn. lia.
Qed.

Lemma two_systems_dominant :
  diag_dominant (@G_entries no_factions two_systems) 3.
Proof.
  apply (@G_entries_dominant no_factions two_systems);
    [exact two_systems_ids_positions | exact two_systems_no_self_jump
    | exact two_systems_nebula_nonneg | exact two_systems_incoming].
Qed.

Lemma factionless_resistance `{F : Factions} (A B : StarSystem) :
  sys_faction A = (-1)%Z -> sys_nebu_density A = 0 -> sys_nebu_density B = 0 ->
  sys_nebu_volatility A = 0 -> sys_nebu_volatility B = 0 ->
  1 / econ_calcJumpR A B = / 30.
Proof.
  intros Hf Ha Hb Hc Hd. unfold econ_calcJumpR, ECON_BASE_RES.
  rewrite Ha, Hb, Hc, Hd, decide_False by tauto. lra.
Qed.

Lemma econ_calcJumpR_pos_witness :
  0 < @econ_calcJumpR sample_factions system_A system_B /\
  27 <= @econ_calcJumpR sample_factions system_A system_B.
Proof. apply (@econ_calcJumpR_pos sample_factions system_A system_B); cbn; lra. Defined.

Lemma econ_calcJumpR_sym_witness :
  @econ_calcJumpR sample_factions system_A system_B
  = @econ_calcJumpR sample_factions system_B system_A.
Proof.
  exact (@econ_calcJumpR_sym sample_factions sample_factions_symmetric system_A system_B).
Defined.

Lemma econ_createGMatrix_spec_witness :
  @econ_createGMatrix no_factions two_systems
  = mk_cs false 3 3 (@G_entries no_factions two_systems).
Proof. exact (@econ_createGMatrix_spec no_factions two_systems two_systems_ids_positions). Defined.

Lemma econ_createGMatrix_sym_witness :
  cs_get (@econ_createGMatrix no_factions two_systems) 0 1
  = cs_get (@econ_createGMatrix no_factions two_systems) 1 0.
Proof.
  exact (@econ_createGMatrix_sym no_factions two_systems 0 1
           (ids_positions_nonneg two_systems two_systems_ids_positions)).
Defined.

Lemma econ_createGMatrix_margin_witness :
  row_margin (cs_entries (@econ_createGMatrix no_factions two_systems)) (Z.of_nat 2)
  = 1 / ECON_SELF_RES - @incoming_conductance no_factions two_systems 2.
Proof.
  apply (@econ_createGMatrix_margin no_factions two_systems 2);
    [exact two_systems_ids_positions | exact two_systems_no_self_jump
    | exact two_systems_nebula_nonneg | cbn; lia].
Defined.

Lemma econ_createGMatrix_dominant_witness :
  diag_dominant (cs_entries (@econ_createGMatrix no_factions two_systems))
    (length (systems_stack two_systems)).
Proof.
  apply (@econ_createGMatrix_dominant no_factions two_systems);
    [exact two_systems_ids_positions | exact two_systems_no_self_jump
    | exact two_systems_nebula_nonneg | exact two_systems_incoming].
Defined.

Lemma econ_createGMatrix_unique_solution_witness : [1; 2; 3] = [1; 2; 3].
Proof.
  apply (@econ_createGMatrix_unique_solution no_factions two_systems [1; 2; 3] [1; 2; 3]);
    [exact two_systems_ids_positions | exact two_systems_no_self_jump
    | exact two_systems_nebula_nonneg | exact two_systems_incoming
    | reflexivity | reflexivity | reflexivity].
Defined.

(** ** What the assembled matrix looks like

    On the map of two systems joined by a jump stored at both ends, each end
    enters the pair of mirrored entries, so the cell between them holds twice
    the conductance of the jump, while each diagonal holds it once. *)

Example two_systems_off_diagonal :
  cs_get (@econ_createGMatrix no_factions two_systems) 0 1 = - (2 / 30).
Proof.
  unfold cs_get. rewrite (@createGMatrix_cs_entries no_factions)
    by exact (ids_positions_nonneg _ two_systems_ids_positions).
  unfold entries_get, G_entries. cbn. unfold wsum. cbn.
  repeat (case_decide; try lia).
  rewrite !factionless_resistance by done. lra.
Qed.

Example two_systems_diagonal :
  cs_get (@econ_createGMatrix no_factions two_systems) 0 0 = 1 / 30 + 1 / 3.
Proof.
  unfold cs_get. rewrite (@createGMatrix_cs_entries no_factions)
    by exact (ids_positions_nonneg _ two_systems_ids_positions).
  unfold entries_get, G_entries. cbn. unfold wsum. cbn.
  repeat (case_decide; try lia).
  rewrite !factionless_resistance by done. unfold ECON_SELF_RES. lra.
Qed.

(** A system with eleven neighbours, each jump stored at both ends: the
    eleven mirrored entries outweigh the damping term, and the row of the hub
    is not diagonally dominant. *)

Lemma hub_ids_positions : ids_positions hub_universe.
Proof. intros i s Hs. do 13 (destruct i as [|i]; simplify_eq/=; try done). Qed.

Lemma hub_no_self_jump : no_self_jump hub_universe.
Proof.
  intros i s Hs.
  do 13 (destruct i as [|i]; simplify_eq/=; try by (repeat constructor; cbn; lia)).
Qed.

Lemma hub_nebula_nonneg : nebula_nonneg hub_universe.
Proof.
  unfold nebula_nonneg, hub_universe. cbn [systems_stack].
  constructor; [cbn; lra|]. apply Forall_fmap, Forall_true. intros k; cbn; lra.
Qed.

Example hub_not_dominant :
  row_margin (cs_entries (@econ_createGMatrix no_factions hub_universe)) (Z.of_nat 0)
  = - (1 / 30).
Proof.
  rewrite (@createGMatrix_cs_entries no_factions)
    by exact (ids_positions_nonneg _ hub_ids_positions).
  rewrite (@G_entries_row_margin no_factions hub_universe 0 hub_ids_positions
             hub_no_self_jump hub_nebula_nonneg) by (cbn; lia).
  unfold incoming_conductance, jump_conductance. cbn. unfold wsum. cbn.
  rewrite !factionless_resistance by done. unfold ECON_SELF_RES.
  repeat (case_decide; try done). lra.
Qed.

