(* ===== verification/Economy.v ===== *)
(** * Economy: the life cycle of the nodal analysis

    The globals [econ_initialized], [econ_queued] and [econ_G] of economy.c as
    one record, and the functions that change them: [economy_init],
    [economy_addQueuedUpdate], [economy_execQueued], [economy_refresh],
    [economy_update] and [economy_destroy].  Each takes the globals and the
    universe and returns both with the function's result.

    What [economy_update] calls outside economy.c is an interface, the class
    [Solver]: [malloc] for the work vector, which may refuse, and [cs_qrsol]
    of CSparse.  The class [SolverSpec] is the contract under which the
    solve does its work: the allocator hands the vector out, the result of
    [cs_qrsol] has the length of the right-hand side, a reported success on
    a dominant matrix is a solution, and a reported failure leaves the
    right-hand side as it was.  The calls of the game are an inductive type,
    and the states it can reach a relation. *)

From Stdlib Require Import Reals Lra Lia ZArith.
From stdpp Require Import base tactics option list strings.
From S2P Require Import Prelude World Price Network.

#[local] Open Scope R_scope.

(** ** The globals *)

Record EconState : Type := mkEconState {
  econ_initialized : bool;
  econ_queued : Z;
  econ_G : option cs
}.

(** The state of a program that has not called the economy yet. *)
Definition econ_start : EconState := mkEconState false 0 None.

(** [econ_nprices]: the number of priced commodities. *)
Definition econ_nprices (u : Universe) : nat := length (econ_comm u).

(** ** The interface to the solver and the allocator *)

(** [cs_qrsol order G b] overwrites [b] with a solution of [G x = b] and
    returns 1, or returns 0.  [malloc n] tells whether the allocator hands
    out the vector of [n] doubles that [economy_update] asks for: [false]
    is the [NULL] the code tests. *)
Class Solver : Type := {
  cs_qrsol : Z -> cs -> list R -> list R * Z;
  malloc : nat -> bool
}.

(** The contract.  A QR solve of a square system gives the solution when
    the matrix is regular; the contract asks it of the dominant matrices
    only, which are the ones the theorems meet, and says nothing of what a
    reported success on a singular matrix holds. *)
Class SolverSpec (S : Solver) : Prop := {
  malloc_succeeds : forall n, malloc n = true;
  cs_qrsol_length : forall o G b, length (cs_qrsol o G b).1 = length b;
  cs_qrsol_sound : forall o G b, diag_dominant (cs_entries G) (length b) ->
    (cs_qrsol o G b).2 = 1%Z ->
    forall i, (i < length b)%nat ->
      entries_mulvec (cs_entries G) (cs_qrsol o G b).1 (Z.of_nat i)
      = vec_at b (Z.of_nat i);
  cs_qrsol_failure : forall o G b, (cs_qrsol o G b).2 <> 1%Z ->
    (cs_qrsol o G b).1 = b
}.

(** A solver that always gives up, one that solves the systems with a
    zero right-hand side, and the latter with an allocator that refuses. *)
Definition failing_solver : Solver :=
  {| cs_qrsol := fun _ _ b => (b, 0%Z); malloc := fun _ => true |}.

Definition null_solver : Solver :=
  {| cs_qrsol := fun _ _ b =>
       if forallb (fun v => bool_decide (v = 0)) b then (b, 1%Z) else (b, 0%Z);
     malloc := fun _ => true |}.

Definition no_memory : Solver :=
  {| cs_qrsol := @cs_qrsol null_solver; malloc := fun _ => false |}.

(** ** The operations *)

(** [systems_stack[i].prices[j] = v]. *)
Definition set_price (j : nat) (v : R) (s : StarSystem) : StarSystem :=
  set_sys_prices (<[j := v]> <$> sys_prices s) s.

(** One round of the outer loop of [economy_update]: the intensities, the
    solve in place, and the filtered result stored as price [j] of every
    system.  Without a matrix the solver refuses and the vector stays. *)
Definition update_price `{Solver} (G : option cs) (dt : Z) (ss : list StarSystem)
  (j : nat) : list StarSystem :=
  let X := (fun s => econ_calcSysI dt s j) <$> ss in
  let X' := match G with Some G => (cs_qrsol 3 G X).1 | None => X end in
  let scale := 1 in
  let offset := 1 in
  imap (fun i s => set_price j (default 0 (X' !! i) * scale + offset) s) ss.

(** [economy_update]: the guard, the allocation of [X] with its return of
    -1, the loop over the priced commodities, and the reset of the queue
    counter. *)
Definition economy_update `{Solver} (st : EconState) (u : Universe) (dt : Z)
  : EconState * Universe * Z :=
  if negb (econ_initialized st) then (st, u, 0%Z)
  else if negb (malloc (length (systems_stack u))) then (st, u, (-1)%Z)
  else
    let ss := foldl (update_price (econ_G st) dt) (systems_stack u)
                (seq 0 (econ_nprices u)) in
    (mkEconState (econ_initialized st) 0 (econ_G st), set_systems_stack ss u, 0%Z).

Definition economy_refresh `{Solver} `{Factions} (st : EconState) (u : Universe)
  : EconState * Universe * Z :=
  if negb (econ_initialized st) then (st, u, 0%Z)
  else
    let st1 := mkEconState (econ_initialized st) (econ_queued st)
                 (Some (econ_createGMatrix u)) in
    let r := economy_update st1 u 0 in
    (r.1.1, r.1.2, 0%Z).

Definition economy_init `{Solver} `{Factions} (st : EconState) (u : Universe)
  : EconState * Universe * Z :=
  if econ_initialized st then (st, u, 0%Z)
  else
    let ss := set_sys_prices (Some (replicate (econ_nprices u) 0)) <$> systems_stack u in
    let st1 := mkEconState true (econ_queued st) (econ_G st) in
    let r := economy_refresh st1 (set_systems_stack ss u) in
    (r.1.1, r.1.2, 0%Z).

Definition economy_addQueuedUpdate (st : EconState) : EconState :=
  mkEconState (econ_initialized st) (int32 (econ_queued st + 1)) (econ_G st).

Definition economy_execQueued `{Solver} `{Factions} (st : EconState) (u : Universe)
  : EconState * Universe * Z :=
  if decide (econ_queued st <> 0%Z) then economy_refresh st u else (st, u, 0%Z).

Definition economy_destroy (st : EconState) (u : Universe) : EconState * Universe :=
  if negb (econ_initialized st) then (st, u)
  else
    (mkEconState false (econ_queued st) None,
     set_systems_stack (set_sys_prices None <$> systems_stack u) u).

(** ** The calls of the game, and the states they reach *)

Inductive econ_call : Type :=
  | CallInit
  | CallAddQueuedUpdate
  | CallExecQueued
  | CallRefresh
  | CallUpdate (dt : Z)
  | CallDestroy.

Definition econ_step `{Solver} `{Factions} (c : econ_call) (su : EconState * Universe)
  : EconState * Universe :=
  match c with
  | CallInit => (economy_init su.1 su.2).1
  | CallAddQueuedUpdate => (economy_addQueuedUpdate su.1, su.2)
  | CallExecQueued => (economy_execQueued su.1 su.2).1
  | CallRefresh => (economy_refresh su.1 su.2).1
  | CallUpdate dt => (economy_update su.1 su.2 dt).1
  | CallDestroy => economy_destroy su.1 su.2
  end.

Definition econ_run `{Solver} `{Factions} (cs : list econ_call) (su : EconState * Universe)
  : EconState * Universe :=
  foldl (fun su c => econ_step c su) su cs.

Inductive econ_reachable `{Solver} `{Factions} (u0 : Universe)
  : EconState * Universe -> Prop :=
  | reach_start : econ_reachable u0 (econ_start, u0)
  | reach_step (c : econ_call) (su : EconState * Universe) :
      econ_reachable u0 su -> econ_reachable u0 (econ_step c su).

(** ** What the states of a running economy have in common *)

(** Every system has a price vector with one cell per priced commodity. *)
Definition prices_allocated (u : Universe) : Prop :=
  Forall (fun s => exists l, sys_prices s = Some l /\ length l = econ_nprices u)
    (systems_stack u).

(** Every system has the price vector [replicate econ_nprices v]. *)
Definition prices_all (v : R) (u : Universe) : Prop :=
  Forall (fun s => sys_prices s = Some (replicate (econ_nprices u) v))
    (systems_stack u).

(** The star map without its price vectors: what [econ_createGMatrix]
    reads. *)
Definition star_map (u : Universe) : list StarSystem :=
  set_sys_prices None <$> systems_stack u.

(** The economy changes nothing of the universe but the price vectors. *)
Definition same_world (u0 u : Universe) : Prop :=
  commodity_stack u = commodity_stack u0 /\ econ_comm u = econ_comm u0 /\
  planet_stack u = planet_stack u0 /\ star_map u = star_map u0.

(** The conditions on the star map under which the admittance matrix
    dominates. *)
Definition well_connected (u : Universe) : Prop :=
  ids_positions u /\ no_self_jump u /\ nebula_nonneg u /\
  forall i, (incoming_jumps u i <= 8)%nat.

(** The matrix held, if any, dominates on [n] rows. *)
Definition matrix_dominant (G : option cs) (n : nat) : Prop :=
  forall M, G = Some M -> diag_dominant (cs_entries M) n.

(** The invariant of the life cycle on the universe [u0] the game started
    with: an initialised economy holds the matrix of the star map and the
    price 1 everywhere, one that is not holds no matrix. *)
Definition econ_inv `{Factions} (u0 : Universe) (su : EconState * Universe) : Prop :=
  same_world u0 su.2 /\
  if econ_initialized su.1
  then econ_G su.1 = Some (econ_createGMatrix u0) /\ prices_all 1 su.2
  else econ_G su.1 = None.

(** ** Sample data *)

Definition priced_two_systems (p : R) : Universe :=
  mkUniverse [] [0%nat]
    (set_sys_prices (Some [p]) <$> [system_A; system_B; system_C]) [].

(** An initialised economy on [u] with one update pending. *)
Definition running (u : Universe) : EconState :=
  mkEconState true 1 (Some (@econ_createGMatrix no_factions u)).

(** * Theorems *)

(** ** The solvers meet the contract *)

Lemma failing_solver_spec : SolverSpec failing_solver.
Proof. split; cbn; intros; by try lia. Qed.

Lemma entries_mulvec_zero (es : list (Z * Z * R)) (x : list R) (i : Z) :
  Forall (fun v => v = 0) x -> entries_mulvec es x i = 0.
Proof.
  intros Hx. unfold entries_mulvec. apply wsum_zero. intros e _.
  case_decide; [|done]. unfold vec_at. case_decide; [|lra].
  destruct (x !! Z.to_nat e.1.2) as [v|] eqn:Hv; cbn; [|lra].
  rewrite Forall_forall in Hx. rewrite (Hx v); [lra|by eapply list_elem_of_lookup_2].
Qed.

Lemma null_solver_spec : SolverSpec null_solver.
Proof.
  split; cbn; [done|intros o G b..].
  - by destruct (forallb _ b).
  - intros _. destruct (forallb _ b) eqn:Hb; cbn; [|lia]. intros _ i Hi.
    assert (Forall (fun v => v = 0) b) as Hz.
    { apply Forall_forall. intros v Hv. rewrite forallb_forall in Hb.
      apply list_elem_of_In, Hb in Hv. by apply bool_decide_eq_true in Hv. }
    rewrite entries_mulvec_zero by done. symmetry.
    unfold vec_at. case_decide; [|done].
    destruct (b !! Z.to_nat (Z.of_nat i)) as [v|] eqn:Hv; cbn; [|done].
    rewrite Forall_forall in Hz. apply Hz. by eapply list_elem_of_lookup_2.
  - by destruct (forallb _ b).
Qed.

(** ** Loops that store into every cell *)

Lemma foldl_insert_seq {A : Type} (v : A) (l : list A) (k : nat) :
  (k <= length l)%nat ->
  foldl (fun l j => <[j := v]> l) l (seq 0 k) = replicate k v ++ drop k l.
Proof.
  induction k as [|k IH]; intros Hk; [by rewrite drop_0|].
  rewrite seq_S, foldl_app, IH by lia. cbn [foldl Nat.add].
  rewrite replicate_S_end, <- app_assoc.
  rewrite insert_app_r_alt by (rewrite length_replicate; lia).
  rewrite length_replicate, Nat.sub_diag. f_equal.
  destruct (drop k l) as [|a l'] eqn:Hd.
  - apply (f_equal length) in Hd. rewrite length_drop in Hd. cbn in Hd. lia.
  - cbn. f_equal. replace (S k) with (k + 1)%nat by lia.
    by rewrite <- drop_drop, Hd.
Qed.

Lemma foldl_insert_all {A : Type} (v : A) (l : list A) :
  foldl (fun l j => <[j := v]> l) l (seq 0 (length l)) = replicate (length l) v.
Proof. by rewrite foldl_insert_seq, drop_all, app_nil_r. Qed.

Lemma foldl_set_price (v : R) (s : StarSystem) (js : list nat) :
  foldl (fun s j => set_price j v s) s js
  = set_sys_prices ((fun l => foldl (fun l j => <[j := v]> l) l js) <$> sys_prices s) s.
Proof.
  revert s. induction js as [|j js IH]; intros s.
  - destruct s as [? ? ? ? ? ? ? ? ? [l|] ?]; done.
  - cbn [foldl]. rewrite IH. destruct s as [? ? ? ? ? ? ? ? ? [l|] ?]; done.
Qed.

Lemma foldl_fmap_systems (f : nat -> StarSystem -> StarSystem) (ss : list StarSystem)
    (js : list nat) :
  foldl (fun ss j => f j <$> ss) ss js = (fun s => foldl (fun s j => f j s) s js) <$> ss.
Proof.
  revert ss. induction js as [|j js IH]; intros ss; cbn [foldl].
  - by rewrite list_fmap_id.
  - by rewrite IH, <- list_fmap_compose.
Qed.

(** ** One solve, and the whole update *)

Section update.
Context `{Sv : Solver} `{!SolverSpec Sv}.

Lemma intensities_zero (dt : Z) (ss : list StarSystem) (j : nat) :
  (fun s => econ_calcSysI dt s j) <$> ss = replicate (length ss) 0.
Proof. induction ss as [|s ss IH]; cbn; [done|by f_equal]. Qed.

(** With a zero right-hand side the solver leaves the zero vector: a
    success is the one solution, a failure does not touch it. *)
Lemma solve_zero (G : cs) (n : nat) :
  diag_dominant (cs_entries G) n ->
  (cs_qrsol 3 G (replicate n 0)).1 = replicate n 0.
Proof.
  intros Hdom.
  destruct (decide ((cs_qrsol 3 G (replicate n 0)).2 = 1%Z)) as [Hok|Hko];
    [|by apply cs_qrsol_failure].
  pose proof (cs_qrsol_length 3 G (replicate n 0)) as Hlen.
  rewrite length_replicate in Hlen. symmetry.
  apply replicate_as_Forall. split; [done|].
  apply (Forall_impl (fun v => v = 0)); [|by intros v ->].
  apply (dominant_kernel_trivial (cs_entries G)); [by rewrite Hlen|].
  intros i Hi. rewrite Hlen in Hi.
  rewrite cs_qrsol_sound by (done || by rewrite length_replicate).
  by rewrite vec_at_of_nat, lookup_replicate_2.
Qed.

Lemma update_price_one (G : option cs) (dt : Z) (ss : list StarSystem) (j : nat) :
  matrix_dominant G (length ss) ->
  update_price G dt ss j = set_price j 1 <$> ss.
Proof.
  intros Hdom. unfold update_price. rewrite intensities_zero.
  assert (match G with Some M => (cs_qrsol 3 M (replicate (length ss) 0)).1
          | None => replicate (length ss) 0 end = replicate (length ss) 0) as ->.
  { destruct G as [M|]; [|done]. by apply solve_zero, Hdom. }
  apply list_eq. intros i. rewrite list_lookup_imap, list_lookup_fmap.
  destruct (ss !! i) as [s|] eqn:Hs; [|done]. cbn.
  rewrite lookup_replicate_2 by by eapply lookup_lt_Some.
  cbn. do 2 f_equal. lra.
Qed.

Lemma update_prices_one (G : option cs) (dt : Z) (ss : list StarSystem) (n : nat) :
  matrix_dominant G (length ss) ->
  foldl (update_price G dt) ss (seq 0 n)
  = (fun s => set_sys_prices
                ((fun l => foldl (fun l j => <[j := 1]> l) l (seq 0 n)) <$> sys_prices s) s)
    <$> ss.
Proof.
  intros Hdom.
  destruct (foldl_ext_inv (fun l => length l = length ss) (update_price G dt)
              (fun ss j => set_price j 1 <$> ss) (seq 0 n) ss) as [-> _]; [done|..].
  - intros l j Hl _. apply update_price_one. by rewrite Hl.
  - intros l j Hl _. by rewrite length_fmap.
  - rewrite (foldl_fmap_systems (fun j => set_price j 1)).
    apply list_fmap_ext. intros _ s _. apply foldl_set_price.
Qed.

Lemma update_result (st : EconState) (u : Universe) (dt : Z) :
  econ_initialized st = true ->
  matrix_dominant (econ_G st) (length (systems_stack u)) ->
  prices_allocated u ->
  let r := economy_update st u dt in
  prices_all 1 r.1.2 /\ same_world u r.1.2 /\
  r.1.1 = mkEconState true 0 (econ_G st) /\ r.2 = 0%Z.
Proof.
  intros Hi Hdom Hp. unfold economy_update. rewrite Hi, malloc_succeeds. cbn.
  rewrite update_prices_one by done. split_and!; try done.
  - unfold prices_all, prices_allocated, econ_nprices in *. cbn.
    rewrite Forall_fmap. eapply Forall_impl; [exact Hp|].
    intros s (l & Hl & <-). cbn. rewrite Hl. cbn. by rewrite foldl_insert_all.
  - split_and!; try done. unfold star_map. cbn.
    rewrite <- list_fmap_compose. by apply list_fmap_ext.
Qed.

End update.

(** ** The matrix depends on the star map only *)

Section star_map.
Context `{F : Factions}.

Lemma G_row_star_map (u1 u2 : Universe) (M : cs) (i : nat) (s : StarSystem) :
  systems_stack u1 = set_sys_prices None <$> systems_stack u2 ->
  G_row u1 M i (set_sys_prices None s) = G_row u2 M i s.
Proof.
  intros Hss. unfold G_row. cbn [sys_jumps set_sys_prices].
  destruct (foldl_ext_inv (fun _ => True) (G_jump u1 i (set_sys_prices None s))
              (G_jump u2 i s) (sys_jumps s) (M, 0)) as [-> _]; try done.
  intros acc j _ _. unfold G_jump. rewrite Hss, list_lookup_fmap.
  by destruct (systems_stack u2 !! jp_target j).
Qed.

Lemma createGMatrix_strip (u1 u2 : Universe) :
  systems_stack u1 = set_sys_prices None <$> systems_stack u2 ->
  econ_createGMatrix u1 = econ_createGMatrix u2.
Proof.
  intros Hss. unfold econ_createGMatrix.
  enough (forall l M,
    foldl (fun M si => G_row u1 M si.1 si.2) M (imap pair (set_sys_prices None <$> l))
    = foldl (fun M si => G_row u2 M si.1 si.2) M (imap pair l)) as Hl.
  { by rewrite Hss, length_fmap, Hl. }
  induction l as [|s l IH] using rev_ind; intros M; [done|].
  rewrite fmap_app, !imap_app, !foldl_app, IH, length_fmap. cbn.
  by apply G_row_star_map.
Qed.

(** The admittance matrix is a function of the star map: two
    universes that differ in their price vectors, planets or commodities
    only have the same matrix. *)
Theorem econ_createGMatrix_star_map (u u' : Universe) :
  star_map u = star_map u' -> econ_createGMatrix u = econ_createGMatrix u'.
Proof.
  intros Hm.
  rewrite <- (createGMatrix_strip (mkUniverse [] [] (star_map u) []) u) by done.
  rewrite <- (createGMatrix_strip (mkUniverse [] [] (star_map u') []) u') by done.
  by rewrite Hm.
Qed.

Lemma same_world_matrix (u0 u : Universe) :
  same_world u0 u -> econ_createGMatrix u = econ_createGMatrix u0.
Proof.
  intros (_ & _ & _ & Hm).
  rewrite <- (createGMatrix_strip (mkUniverse [] [] (star_map u) []) u) by done.
  rewrite Hm. by apply createGMatrix_strip.
Qed.

End star_map.

Lemma same_world_refl (u : Universe) : same_world u u.
Proof. done. Qed.

Lemma same_world_trans (u0 u1 u2 : Universe) :
  same_world u0 u1 -> same_world u1 u2 -> same_world u0 u2.
Proof. intros (? & ? & ? & ?) (? & ? & ? & ?). split_and!; congruence. Qed.

#[export] Instance same_world_preorder : PreOrder same_world.
Proof. split; [exact same_world_refl|exact same_world_trans]. Qed.

Lemma same_world_length (u0 u : Universe) :
  same_world u0 u -> length (systems_stack u) = length (systems_stack u0).
Proof.
  intros (_ & _ & _ & Hm). apply (f_equal length) in Hm.
  unfold star_map in Hm. by rewrite !length_fmap in Hm.
Qed.

Lemma same_world_nprices (u0 u : Universe) :
  same_world u0 u -> econ_nprices u = econ_nprices u0.
Proof. intros (_ & He & _). unfold econ_nprices. by rewrite He. Qed.

Lemma same_world_set_prices (f : StarSystem -> option (list R)) (u : Universe) :
  same_world u (set_systems_stack ((fun s => set_sys_prices (f s) s) <$> systems_stack u) u).
Proof.
  split_and!; try done. unfold star_map. cbn.
  rewrite <- list_fmap_compose. by apply list_fmap_ext.
Qed.

(** Every call of the economy leaves the world as it is but for the price
    vectors, whatever the state and whatever the solver does. *)
Section same_world.
Context `{Sv : Solver} `{F : Factions}.

Lemma update_price_star_map (G : option cs) (dt : Z) (ss : list StarSystem) (j : nat) :
  set_sys_prices None <$> update_price G dt ss j = set_sys_prices None <$> ss.
Proof.
  unfold update_price. apply list_eq. intros i.
  rewrite !list_lookup_fmap, list_lookup_imap. by destruct (ss !! i).
Qed.

Lemma economy_update_same_world (st : EconState) (u : Universe) (dt : Z) :
  same_world u (economy_update st u dt).1.2.
Proof.
  unfold economy_update. destruct (negb (econ_initialized st)); [done|].
  destruct (negb (malloc _)); [done|].
  split_and!; try done. unfold star_map. cbn [fst snd systems_stack set_systems_stack].
  apply (foldl_inv (fun ss => set_sys_prices None <$> ss
                              = set_sys_prices None <$> systems_stack u)); [done|].
  intros ss j Hss _. by rewrite update_price_star_map.
Qed.

Lemma economy_refresh_same_world (st : EconState) (u : Universe) :
  same_world u (economy_refresh st u).1.2.
Proof.
  unfold economy_refresh. destruct (negb (econ_initialized st)); [done|].
  apply economy_update_same_world.
Qed.

Lemma economy_init_same_world (st : EconState) (u : Universe) :
  same_world u (economy_init st u).1.2.
Proof.
  unfold economy_init. destruct (econ_initialized st); [done|]. cbn [fst snd].
  eapply same_world_trans; [|apply economy_refresh_same_world].
  apply (same_world_set_prices (fun _ => Some (replicate (econ_nprices u) 0))).
Qed.

Lemma economy_destroy_same_world (st : EconState) (u : Universe) :
  same_world u (economy_destroy st u).2.
Proof.
  unfold economy_destroy. destruct (negb (econ_initialized st)); [done|].
  apply (same_world_set_prices (fun _ => None)).
Qed.

Lemma econ_step_same_world (c : econ_call) (su : EconState * Universe) :
  same_world su.2 (econ_step c su).2.
Proof.
  destruct su as [st u]. destruct c; cbn [econ_step fst snd].
  - apply economy_init_same_world.
  - done.
  - unfold economy_execQueued. case_decide; [apply economy_refresh_same_world|done].
  - apply economy_refresh_same_world.
  - apply economy_update_same_world.
  - apply economy_destroy_same_world.
Qed.

End same_world.

Lemma prices_all_allocated (v : R) (u : Universe) :
  prices_all v u -> prices_allocated u.
Proof.
  intros Hp. eapply Forall_impl; [exact Hp|].
  intros s Hs. exists (replicate (econ_nprices u) v). by rewrite length_replicate.
Qed.

(** ** The life cycle keeps the invariant *)

Section lifecycle.
Context `{Sv : Solver} `{!SolverSpec Sv} `{F : Factions}.
Variable u0 : Universe.
Hypothesis Hwc : well_connected u0.

Lemma start_matrix_dominant (u : Universe) :
  same_world u0 u ->
  matrix_dominant (Some (econ_createGMatrix u0)) (length (systems_stack u)).
Proof.
  intros Hw M [= <-]. rewrite (same_world_length u0 u Hw).
  destruct Hwc as (Hid & Hns & Hn & H8).
  rewrite createGMatrix_cs_entries by by apply ids_positions_nonneg.
  by apply G_entries_dominant.
Qed.

Lemma update_inv (st : EconState) (u : Universe) (dt : Z) :
  econ_inv u0 (st, u) -> econ_inv u0 (economy_update st u dt).1.
Proof.
  intros [Hw Hinv]. cbn [fst snd] in *. destruct (econ_initialized st) eqn:Hi.
  - destruct Hinv as [HG Hp].
    destruct (update_result st u dt Hi) as (Hp' & Hw' & Hst & _).
    { rewrite HG. by apply start_matrix_dominant. }
    { by eapply prices_all_allocated. }
    split; [by eapply same_world_trans|]. rewrite Hst. by cbn.
  - unfold economy_update. rewrite Hi. split; [done|]. cbn. by rewrite Hi.
Qed.

Lemma refresh_initialized (st : EconState) (u : Universe) :
  same_world u0 u -> econ_initialized st = true -> prices_allocated u ->
  econ_inv u0 (economy_refresh st u).1 /\
  (economy_refresh st u).1.1 = mkEconState true 0 (Some (econ_createGMatrix u0)).
Proof.
  intros Hw Hi Hp. unfold economy_refresh. rewrite Hi. cbn [negb fst snd].
  rewrite (same_world_matrix u0 u Hw).
  destruct (update_result (mkEconState true (econ_queued st)
              (Some (econ_createGMatrix u0))) u 0) as (Hp' & Hw' & Hst & _);
    [done|by apply start_matrix_dominant|done|].
  unfold econ_inv. cbn [fst snd]. rewrite Hst.
  split_and!; [by eapply same_world_trans|done..].
Qed.

Lemma refresh_inv (st : EconState) (u : Universe) :
  econ_inv u0 (st, u) -> econ_inv u0 (economy_refresh st u).1.
Proof.
  intros [Hw Hinv]. cbn [fst snd] in *. destruct (econ_initialized st) eqn:Hi.
  - apply refresh_initialized; [done..|]. by eapply prices_all_allocated, Hinv.
  - unfold economy_refresh. rewrite Hi. split; [done|]. cbn. by rewrite Hi.
Qed.

Lemma init_fresh (st : EconState) (u : Universe) :
  same_world u0 u -> econ_initialized st = false ->
  econ_inv u0 (economy_init st u).1 /\
  (economy_init st u).1.1 = mkEconState true 0 (Some (econ_createGMatrix u0)).
Proof.
  intros Hw Hi. unfold economy_init. rewrite Hi. cbn [fst snd].
  apply refresh_initialized; [|done|].
  - eapply same_world_trans; [done|].
    apply (same_world_set_prices (fun _ => Some (replicate (econ_nprices u) 0))).
  - unfold prices_allocated. cbn. apply Forall_fmap, Forall_true. intros s.
    exists (replicate (econ_nprices u) 0). by rewrite length_replicate.
Qed.

Lemma init_inv (st : EconState) (u : Universe) :
  econ_inv u0 (st, u) -> econ_inv u0 (economy_init st u).1.
Proof.
  intros [Hw Hinv]. cbn [fst snd] in *. destruct (econ_initialized st) eqn:Hi.
  - unfold economy_init. rewrite Hi. split; [done|]. cbn. by rewrite Hi.
  - by apply init_fresh.
Qed.

Lemma destroy_inv (st : EconState) (u : Universe) :
  econ_inv u0 (st, u) -> econ_inv u0 (economy_destroy st u).
Proof.
  intros [Hw Hinv]. cbn [fst snd] in *. unfold economy_destroy.
  destruct (econ_initialized st) eqn:Hi; cbn [negb].
  - split; [|done]. eapply same_world_trans; [done|].
    apply (same_world_set_prices (fun _ => None)).
  - split; [done|]. cbn. by rewrite Hi.
Qed.

Lemma step_inv (c : econ_call) (su : EconState * Universe) :
  econ_inv u0 su -> econ_inv u0 (econ_step c su).
Proof.
  destruct su as [st u]. intros Hinv. destruct c; cbn [econ_step fst snd].
  - by apply init_inv.
  - apply Hinv.
  - unfold economy_execQueued. case_decide; [by apply refresh_inv|done].
  - by apply refresh_inv.
  - by apply update_inv.
  - by apply destroy_inv.
Qed.

Lemma reachable_inv (su : EconState * Universe) :
  econ_reachable u0 su -> econ_inv u0 su.
Proof.
  induction 1 as [|c su _ IH]; [|by apply step_inv].
  split; [apply same_world_refl|done].
Qed.

(** A pending update is carried out once: with the queue counter
    not zero, [economy_execQueued] on an initialised economy rebuilds the
    matrix, solves, and leaves the counter at zero; with the counter at zero
    it changes nothing. *)
Theorem economy_execQueued_spec (st : EconState) (u : Universe) :
  econ_inv u0 (st, u) -> econ_initialized st = true ->
  (econ_queued st <> 0%Z ->
     (economy_execQueued st u).1.1 = mkEconState true 0 (Some (econ_createGMatrix u0)) /\
     prices_all 1 (economy_execQueued st u).1.2) /\
  (econ_queued st = 0%Z -> economy_execQueued st u = (st, u, 0%Z)).
Proof.
  intros [Hw Hinv] Hi. cbn [fst snd] in *. rewrite Hi in Hinv.
  unfold economy_execQueued. split; intros Hq; [|by rewrite decide_False by lia].
  rewrite decide_True by done.
  destruct (refresh_initialized st u Hw Hi) as [[_ Hr] Hst];
    [by eapply prices_all_allocated, Hinv|].
  rewrite Hst in Hr. split; [done|apply Hr].
Qed.

End lifecycle.

(** C10.  On a star map that is well connected (the ids of the systems are
    their positions, no system jumps to itself, no nebula value is
    negative, and no system has more than eight incoming jumps), with an
    allocator and a solver that meet the contract [SolverSpec], every state
    reached from the start by calls of the economy satisfies the invariant:
    nothing but the price vectors of the universe has changed, an economy
    that is not initialised holds no matrix, and an initialised one holds
    the matrix of the star map and the price 1 in every cell of every
    system.  The price of a good at a planet is in every such state what it
    was at the start: the evaluator does not read the price vectors. *)
Theorem econ_reachable_inv `{Sv : Solver} `{!SolverSpec Sv} `{F : Factions}
    (u0 : Universe) (su : EconState * Universe) :
  well_connected u0 -> econ_reachable u0 su ->
  econ_inv u0 su /\
  forall com p tme,
    economy_getPriceAtTime su.2 com p tme = economy_getPriceAtTime u0 com p tme.
Proof.
  intros Hwc Hr. pose proof (reachable_inv u0 Hwc su Hr) as Hinv.
  split; [done|]. destruct Hinv as [(Hc & He & _) _]. intros com p tme.
  apply economy_getPriceAtTime_universe; [done|].
  intros k. unfold commodity_name. by rewrite Hc.
Qed.

(** ** The operations one by one *)

(** C2.  With an allocator and a solver that meet the contract
    [SolverSpec], an update of an initialised economy that holds the matrix
    of a well connected star map, on a universe whose systems have their
    price vectors allocated, stores the price 1 in every cell of every
    system, whatever the solver reports and whatever the cells held, clears
    the queue counter and returns 0: the intensities are zero, and the zero
    vector is the one solution. *)
Theorem economy_update_prices `{Sv : Solver} `{!SolverSpec Sv} `{F : Factions}
    (st : EconState) (u : Universe) (dt : Z) :
  well_connected u -> econ_initialized st = true ->
  econ_G st = Some (econ_createGMatrix u) -> prices_allocated u ->
  prices_all 1 (economy_update st u dt).1.2 /\
  same_world u (economy_update st u dt).1.2 /\
  (economy_update st u dt).1.1 = mkEconState true 0 (Some (econ_createGMatrix u)) /\
  (economy_update st u dt).2 = 0%Z.
Proof.
  intros Hwc Hi HG Hp.
  destruct (update_result st u dt Hi) as (Hp' & Hw' & Hst & Hr); [|done|].
  { rewrite HG. by apply (start_matrix_dominant u Hwc u). }
  by rewrite Hst, HG.
Qed.

(** [economy_init] on an economy that is not initialised allocates
    the price vectors, builds the matrix of the star map, solves, and leaves
    an initialised economy with an empty queue and the price 1 everywhere;
    it returns 0. *)
Theorem economy_init_spec `{Sv : Solver} `{!SolverSpec Sv} `{F : Factions}
    (st : EconState) (u : Universe) :
  well_connected u -> econ_initialized st = false ->
  (economy_init st u).1.1 = mkEconState true 0 (Some (econ_createGMatrix u)) /\
  prices_all 1 (economy_init st u).1.2 /\
  same_world u (economy_init st u).1.2 /\
  (economy_init st u).2 = 0%Z.
Proof.
  intros Hwc Hi.
  destruct (init_fresh u Hwc st u (same_world_refl u) Hi) as [[Hw Hinv] Hst].
  rewrite Hst in Hinv. split_and!; [done|apply Hinv|done|].
  unfold economy_init. by rewrite Hi.
Qed.

(** An economy that is initialised is not initialised again:
    [economy_init] returns 0 and changes nothing. *)
Theorem economy_init_initialized `{Sv : Solver} `{F : Factions}
    (st : EconState) (u : Universe) :
  econ_initialized st = true -> economy_init st u = (st, u, 0%Z).
Proof. intros Hi. unfold economy_init. by rewrite Hi. Qed.

(** On an economy that is not initialised, [economy_update],
    [economy_refresh], [economy_execQueued] and [economy_destroy] return at
    their guard: nothing changes, and a queued update stays queued. *)
Theorem economy_uninitialized `{Sv : Solver} `{F : Factions}
    (st : EconState) (u : Universe) (dt : Z) :
  econ_initialized st = false ->
  economy_update st u dt = (st, u, 0%Z) /\ economy_refresh st u = (st, u, 0%Z) /\
  economy_execQueued st u = (st, u, 0%Z) /\ economy_destroy st u = (st, u).
Proof.
  intros Hi. unfold economy_execQueued, economy_refresh, economy_update, economy_destroy.
  rewrite Hi. split_and!; try done. by case_decide.
Qed.

(** [economy_destroy] on an initialised economy frees every price
    vector and the matrix and marks the economy as not initialised; the
    queue counter and the rest of the universe stay. *)
Theorem economy_destroy_spec (st : EconState) (u : Universe) :
  econ_initialized st = true ->
  (economy_destroy st u).1 = mkEconState false (econ_queued st) None /\
  Forall (fun s => sys_prices s = None) (systems_stack (economy_destroy st u).2) /\
  same_world u (economy_destroy st u).2.
Proof.
  intros Hi. unfold economy_destroy. rewrite Hi. cbn [negb fst snd].
  split_and!; [done| |apply (same_world_set_prices (fun _ => None))].
  cbn. by apply Forall_fmap, Forall_true.
Qed.

Lemma run_addQueued `{Sv : Solver} `{F : Factions} (n : nat) (st : EconState) (u : Universe) :
  (0 <= econ_queued st)%Z -> (econ_queued st + Z.of_nat n <= INT_MAX)%Z ->
  econ_run (replicate n CallAddQueuedUpdate) (st, u)
  = (mkEconState (econ_initialized st) (econ_queued st + Z.of_nat n) (econ_G st), u).
Proof.
  revert st. induction n as [|n IH]; intros st H0 Hn.
  - cbn. rewrite Z.add_0_r. by destruct st.
  - assert (econ_queued (economy_addQueuedUpdate st) = (econ_queued st + 1)%Z) as Hq.
    { cbn. apply int32_small. unfold INT_MAX in *. lia. }
    change (econ_run (replicate (S n) CallAddQueuedUpdate) (st, u))
      with (econ_run (replicate n CallAddQueuedUpdate) (economy_addQueuedUpdate st, u)).
    rewrite IH by (rewrite Hq; lia). rewrite Hq. cbn. do 2 f_equal. lia.
Qed.

(** Queued updates coalesce: any number of calls of
    [economy_addQueuedUpdate] that the counter can hold, followed by one
    [economy_execQueued], bring an initialised economy to the state one
    refresh gives, with the counter back at zero. *)
Theorem economy_queue_coalesce `{Sv : Solver} `{!SolverSpec Sv} `{F : Factions}
    (u0 : Universe) (n : nat) (st : EconState) (u : Universe) :
  well_connected u0 -> econ_inv u0 (st, u) -> econ_initialized st = true ->
  (0 <= econ_queued st)%Z -> (0 < n)%nat -> (econ_queued st + Z.of_nat n <= INT_MAX)%Z ->
  (econ_run (replicate n CallAddQueuedUpdate ++ [CallExecQueued]) (st, u)).1
  = mkEconState true 0 (Some (econ_createGMatrix u0)).
Proof.
  intros Hwc [Hw Hinv] Hi H0 Hn Hmax. unfold econ_run.
  rewrite foldl_app. fold (econ_run (replicate n CallAddQueuedUpdate) (st, u)).
  rewrite run_addQueued by done. cbn [foldl econ_step fst snd] in *.
  rewrite Hi in Hinv. unfold economy_execQueued. cbn [econ_queued].
  rewrite decide_True by lia.
  apply (refresh_initialized u0 Hwc); [done|done|].
  by eapply prices_all_allocated, Hinv.
Qed.

(** ** When the allocator refuses *)

Section refused.
Context `{Sv : Solver} `{F : Factions}.

Lemma update_refused (st : EconState) (u : Universe) (dt : Z) :
  econ_initialized st = true -> malloc (length (systems_stack u)) = false ->
  economy_update st u dt = (st, u, (-1)%Z).
Proof. intros Hi Hm. unfold economy_update. by rewrite Hi, Hm. Qed.

Lemma refresh_refused (st : EconState) (u : Universe) :
  econ_initialized st = true -> malloc (length (systems_stack u)) = false ->
  economy_refresh st u
  = (mkEconState true (econ_queued st) (Some (econ_createGMatrix u)), u, 0%Z).
Proof.
  intros Hi Hm. unfold economy_refresh. rewrite Hi. cbn [negb].
  by rewrite update_refused.
Qed.

Lemma init_refused (st : EconState) (u : Universe) :
  econ_initialized st = false -> malloc (length (systems_stack u)) = false ->
  economy_init st u
  = (mkEconState true (econ_queued st) (Some (econ_createGMatrix u)),
     set_systems_stack
       (set_sys_prices (Some (replicate (econ_nprices u) 0)) <$> systems_stack u) u,
     0%Z).
Proof.
  intros Hi Hm. unfold economy_init. rewrite Hi.
  rewrite refresh_refused by (done || by cbn; rewrite length_fmap). cbn [fst snd].
  do 4 f_equal. apply same_world_matrix.
  apply (same_world_set_prices (fun _ => Some (replicate (econ_nprices u) 0))).
Qed.

(** With an allocator that always refuses, an initialised economy never
    holds a price other than the 0 of [calloc], whatever is called. *)
Lemma step_refused (c : econ_call) (su : EconState * Universe) :
  (forall n, malloc n = false) ->
  (econ_initialized su.1 = true -> prices_all 0 su.2) ->
  econ_initialized (econ_step c su).1 = true -> prices_all 0 (econ_step c su).2.
Proof.
  intros Hm. destruct su as [st u]. cbn [fst snd]. intros Hinv.
  destruct (econ_initialized st) eqn:Hi, c; cbn [econ_step fst snd];
    unfold economy_execQueued; try case_decide;
    rewrite ?refresh_refused, ?update_refused, ?init_refused by done;
    unfold economy_init, economy_refresh, economy_update, economy_destroy;
    rewrite ?Hi; cbn [negb fst snd econ_initialized economy_addQueuedUpdate];
    rewrite ?Hi; try done; try by auto.
  intros _. unfold prices_all. cbn. by apply Forall_fmap, Forall_true.
Qed.

Lemma reachable_refused (u0 : Universe) (su : EconState * Universe) :
  (forall n, malloc n = false) -> econ_reachable u0 su ->
  econ_initialized su.1 = true -> prices_all 0 su.2.
Proof. intros Hm. induction 1; [done|by apply step_refused]. Qed.

End refused.

(** C36.  When the allocator refuses the work vector, [economy_update] on
    an initialised economy returns -1 and changes nothing: the prices and
    the queue counter stay.  Its callers do not look at the result:
    [economy_refresh] has rebuilt the matrix and returns 0, and so does
    [economy_execQueued] with an update pending, which stays pending;
    [economy_init] on an economy that is not initialised returns 0 with the
    economy marked as initialised, the matrix built, and the price 0 of
    [calloc] in every cell of every system. *)
Theorem economy_update_no_memory `{Sv : Solver} `{F : Factions}
    (st : EconState) (u : Universe) (dt : Z) :
  malloc (length (systems_stack u)) = false ->
  (econ_initialized st = true ->
     economy_update st u dt = (st, u, (-1)%Z) /\
     economy_refresh st u
     = (mkEconState true (econ_queued st) (Some (econ_createGMatrix u)), u, 0%Z) /\
     (econ_queued st <> 0%Z ->
        economy_execQueued st u
        = (mkEconState true (econ_queued st) (Some (econ_createGMatrix u)), u, 0%Z))) /\
  (econ_initialized st = false ->
     (economy_init st u).2 = 0%Z /\
     (economy_init st u).1.1
     = mkEconState true (econ_queued st) (Some (econ_createGMatrix u)) /\
     prices_all 0 (economy_init st u).1.2).
Proof.
  intros Hm. split; intros Hi.
  - split_and!; [by apply update_refused|by apply refresh_refused|].
    intros Hq. unfold economy_execQueued. rewrite decide_True by done.
    by apply refresh_refused.
  - rewrite init_refused by done. split_and!; [done..|].
    unfold prices_all. cbn. by apply Forall_fmap, Forall_true.
Qed.

(** ** The theorems on the sample map *)

Lemma priced_well_connected (p : R) : well_connected (priced_two_systems p).
Proof.
  split_and!.
  - intros [|[|[|i]]] s Hs; by simplify_eq/=.
  - intros [|[|[|i]]] s Hs; simplify_eq/=; repeat constructor; cbn; lia.
  - unfold nebula_nonneg. cbn. repeat (constructor; [cbn; lra|]). constructor.
  - intros i. unfold incoming_jumps. etrans; [apply length_filter|]. cbn. lia.
Qed.

Lemma priced_allocated (p : R) : prices_allocated (priced_two_systems p).
Proof. repeat (constructor; [by exists [p]|]). constructor. Qed.

Lemma running_inv (u : Universe) :
  prices_all 1 u -> @econ_inv no_factions u (running u, u).
Proof. intros Hp. split; [apply same_world_refl|]. by cbn. Qed.

Lemma priced_one_all : prices_all 1 (priced_two_systems 1).
Proof. repeat (constructor; [done|]). constructor. Qed.

(** With the solver that always gives up, the prices 5 are replaced by 1:
    a failed solve does not keep the prices that were there. *)
Lemma economy_update_prices_witness :
  prices_all 1
    (@economy_update failing_solver (running (priced_two_systems 5))
       (priced_two_systems 5) 0).1.2.
Proof.
  apply (@economy_update_prices failing_solver failing_solver_spec no_factions
           (running (priced_two_systems 5)) (priced_two_systems 5) 0);
    [apply priced_well_connected | reflexivity | reflexivity | apply priced_allocated].
Defined.

(** With the allocator that refuses, the game starts with an economy that
    calls itself initialised and prices every good of every system at 0. *)
Lemma economy_update_no_memory_witness :
  (@economy_init no_memory no_factions econ_start (priced_two_systems 5)).2 = 0%Z /\
  econ_initialized
    (@economy_init no_memory no_factions econ_start (priced_two_systems 5)).1.1 = true /\
  prices_all 0 (@economy_init no_memory no_factions econ_start (priced_two_systems 5)).1.2.
Proof.
  destruct (@economy_update_no_memory no_memory no_factions econ_start
              (priced_two_systems 5) 0) as [_ Hinit]; [reflexivity|].
  destruct Hinit as (Hr & Hst & Hp); [reflexivity|]. by rewrite Hst.
Defined.

Lemma economy_init_spec_witness :
  (@economy_init null_solver no_factions econ_start (priced_two_systems 5)).1.1
  = mkEconState true 0 (Some (@econ_createGMatrix no_factions (priced_two_systems 5))).
Proof.
  apply (@economy_init_spec null_solver null_solver_spec no_factions econ_start
           (priced_two_systems 5)); [apply priced_well_connected | reflexivity].
Defined.

Lemma economy_init_initialized_witness :
  @economy_init null_solver no_factions (running two_systems) two_systems
  = (running two_systems, two_systems, 0%Z).
Proof. apply (@economy_init_initialized null_solver no_factions); reflexivity. Defined.

Lemma economy_uninitialized_witness :
  @economy_update null_solver econ_start two_systems 7 = (econ_start, two_systems, 0%Z).
Proof.
  apply (@economy_uninitialized null_solver no_factions econ_start two_systems 7);
    reflexivity.
Defined.

Lemma economy_destroy_spec_witness :
  (economy_destroy (running two_systems) two_systems).1 = mkEconState false 1 None.
Proof. apply (economy_destroy_spec (running two_systems) two_systems); reflexivity. Defined.

Lemma econ_reachable_inv_witness :
  @econ_inv no_factions (priced_two_systems 5)
    (@econ_step null_solver no_factions CallInit (econ_start, priced_two_systems 5)).
Proof.
  apply (@econ_reachable_inv null_solver null_solver_spec no_factions
           (priced_two_systems 5) _ (priced_well_connected 5)).
  apply reach_step, reach_start.
Defined.

Lemma economy_execQueued_spec_witness :
  (@economy_execQueued null_solver no_factions (running (priced_two_systems 1))
     (priced_two_systems 1)).1.1
  = mkEconState true 0 (Some (@econ_createGMatrix no_factions (priced_two_systems 1))).
Proof.
  apply (@economy_execQueued_spec null_solver null_solver_spec no_factions
           (priced_two_systems 1) (priced_well_connected 1)
           (running (priced_two_systems 1)) (priced_two_systems 1));
    [apply running_inv, priced_one_all | reflexivity | cbn; lia].
Defined.

Lemma economy_queue_coalesce_witness :
  (@econ_run null_solver no_factions
     (replicate 3 CallAddQueuedUpdate ++ [CallExecQueued])
     (running (priced_two_systems 1), priced_two_systems 1)).1
  = mkEconState true 0 (Some (@econ_createGMatrix no_factions (priced_two_systems 1))).
Proof.
  apply (@economy_queue_coalesce null_solver null_solver_spec no_factions
           (priced_two_systems 1) 3);
    [apply priced_well_connected | apply running_inv, priced_one_all | reflexivity
    | cbn; lia | lia | cbn; unfold INT_MAX; lia].
Defined.

Lemma econ_createGMatrix_star_map_witness :
  @econ_createGMatrix no_factions (priced_two_systems 5)
  = @econ_createGMatrix no_factions two_systems.
Proof. apply (@econ_createGMatrix_star_map no_factions); reflexivity. Defined.

(** The queue counter is an [int]: at -1 one more mark brings it to zero,
    and the update it stood for is not carried out. *)
Example queue_counter_wraps :
  econ_queued (economy_addQueuedUpdate (mkEconState true (-1) None)) = 0%Z /\
  econ_queued (economy_addQueuedUpdate (mkEconState true INT_MAX None))
  = (- 2147483648)%Z.
Proof. by vm_compute. Qed.


