(* ===== verification/Initializer.v ===== *)
(** * Initializer: the four passes that set up the price fields

    [economy_calcPrice], [economy_modifySystemCommodityPrice],
    [economy_smoothCommodityPrice], [economy_calcUpdatedCommodityPrice] and
    [economy_initialiseCommodityPrices] of economy.c.

    A function of the code that takes a [StarSystem*] takes here the
    universe and the index of the system, and returns the universe: the
    planets a system points to live in [planet_stack], so a planet listed
    twice, or by two systems, is one cell written twice, as in the code.
    The table [avprice] is a list in the order in which the names were first
    met.  What the code takes from outside economy.c ([faction_name] of
    faction.c, the macro [PLANET_GFX_EXTERIOR_PATH]) is the class
    [GameData]. *)

From Stdlib Require Import Reals Lra Lia ZArith.
From stdpp Require Import base tactics option list strings.
From S2P Require Import Prelude World.

#[local] Open Scope R_scope.

(** ** What the initialiser takes from the rest of the game *)

Class GameData : Type := {
  faction_name : Z -> string;
  PLANET_GFX_EXTERIOR_PATH : string
}.

(** [strlen]. *)
Definition strlen (s : string) : Z := Z.of_nat (String.length s).

(** ** Pass 1: the price field of one good at one planet *)

(** The walk along a chain of modifiers: the value of the first link with
    the name, 1 when there is none. *)
Fixpoint find_modifier (name : string) (cm : list CommodityModifier) : R :=
  match cm with
  | [] => 1
  | c :: next =>
      if decide (name = cm_name c) then cm_value c else find_modifier name next
  end.

(** The factor of the population: [tanh] of half the distance, on a log
    scale, to a population of 1e8; -1 for a planet without population. *)
Definition population_factor (planet : Planet) : R :=
  if decide (0 < pl_population planet)%Z
  then tanh ((ln (IZR (pl_population planet)) - ln 100000000) / 2)
  else -1.

(** The scale the length of the name of the exterior graphic gives: the
    difference of the lengths is computed in [size_t]. *)
Definition exterior_scale `{GameData} (planet : Planet) : R :=
  1 + IZR (size_t (strlen (pl_gfx_exterior planet)
                   - strlen PLANET_GFX_EXTERIOR_PATH - 19)) / 100.

Definition economy_calcPrice `{GameData} (planet : Planet) (commodity : Commodity)
  (commodityPrice : CommodityPrice) : CommodityPrice :=
  let scale := find_modifier (pl_class planet) (com_planet_modifier commodity) in
  let price := cp_price commodityPrice * scale in
  let planetVariation := 0.5 in
  let base := 100 in
  let planetPeriod := com_period commodity + base in
  let planetPeriod := planetPeriod * exterior_scale planet in
  let factor := population_factor planet in
  let base := com_population_modifier commodity in
  let price := price * (1 + factor * base) in
  let planetVariation := planetVariation * (0.5 - factor * 0.25) in
  let planetPeriod := planetPeriod * (1 + factor * 0.5) in
  let scale := find_modifier (faction_name (pl_faction planet))
                 (com_planet_modifier commodity) in
  let price := price * scale in
  let price := price * (1 - IZR (pl_presenceRange planet) / 30) in
  let planetPeriod := planetPeriod * (1 / (1 - IZR (pl_presenceRange planet) / 30)) in
  mkCommodityPrice (cp_name commodityPrice) price planetPeriod
    (cp_sysPeriod commodityPrice) planetVariation 0 0 0 0 0.

(** ** Pass 2: the attributes of the system, and the average over its planets *)

(** The first half of the body of the loop over the goods of a planet.
    [sys->njumps + 1] is a sum of [int]s. *)
Definition system_adjust (sys : StarSystem) (cp : CommodityPrice) : CommodityPrice :=
  let price := cp_price cp * (1 + sys_radius sys / 200000) in
  let planetPeriod := cp_planetPeriod cp * (1 / (1 - sys_radius sys / 200000)) in
  let planetVariation := cp_planetVariation cp * (1 / (1 - sys_radius sys / 300000)) in
  let price := price * (1 + sys_nebu_volatility sys / 6000) in
  let price := price * (1 + sys_interference sys / 10000) in
  let sysPeriod := 2000 / IZR (int32 (Z.of_nat (length (sys_jumps sys)) + 1)) in
  mkCommodityPrice (cp_name cp) price planetPeriod sysPeriod planetVariation
    (cp_sysVariation cp) (cp_updateTime cp) (cp_sum cp) (cp_sum2 cp) (cp_cnt cp).

(** A new line of the table; [updateTime] counts the planets.  The cells
    the code leaves as [realloc] returned them are 0 here. *)
Definition avprice_new (name : string) (cp : CommodityPrice) : CommodityPrice :=
  mkCommodityPrice name (cp_price cp) (cp_planetPeriod cp) (cp_sysPeriod cp)
    (cp_planetVariation cp) (cp_sysVariation cp) 1 0 0 0.

Definition avprice_acc (a cp : CommodityPrice) : CommodityPrice :=
  mkCommodityPrice (cp_name a) (cp_price a + cp_price cp)
    (cp_planetPeriod a + cp_planetPeriod cp) (cp_sysPeriod a + cp_sysPeriod cp)
    (cp_planetVariation a + cp_planetVariation cp)
    (cp_sysVariation a + cp_sysVariation cp)
    (int64 (cp_updateTime a + 1)) (cp_sum a) (cp_sum2 a) (cp_cnt a).

(** The search of the table for the name, the update of the line found or
    the new line at the end. *)
Fixpoint avprice_add (name : string) (cp : CommodityPrice) (avprice : list CommodityPrice)
  : list CommodityPrice :=
  match avprice with
  | [] => [avprice_new name cp]
  | a :: rest =>
      if decide (name = cp_name a) then avprice_acc a cp :: rest
      else a :: avprice_add name cp rest
  end.

Definition avprice_mean (a : CommodityPrice) : CommodityPrice :=
  let n := IZR (cp_updateTime a) in
  mkCommodityPrice (cp_name a) (cp_price a / n) (cp_planetPeriod a / n)
    (cp_sysPeriod a / n) (cp_planetVariation a / n) (cp_sysVariation a / n)
    (cp_updateTime a) (cp_sum a) (cp_sum2 a) (cp_cnt a).

(** One good of one planet in the first loop: adjusted, then added to the
    table. *)
Definition modify_good (u : Universe) (sys : StarSystem)
  (acc : list (nat * CommodityPrice) * list CommodityPrice) (g : nat * CommodityPrice)
  : list (nat * CommodityPrice) * list CommodityPrice :=
  let cp := system_adjust sys g.2 in
  (acc.1 ++ [(g.1, cp)], avprice_add (commodity_name u g.1) cp acc.2).

Definition modify_planet (u : Universe) (sys : StarSystem)
  (acc : list Planet * list CommodityPrice) (pi : nat)
  : list Planet * list CommodityPrice :=
  match acc.1 !! pi with
  | Some planet =>
      let r := foldl (modify_good u sys) ([], acc.2) (pl_goods planet) in
      (<[pi := set_pl_goods r.1 planet]> acc.1, r.2)
  | None => acc
  end.

(** The body of the innermost loop of the third loop nest; that loop has
    no [break]. *)
Definition apply_average (name : string) (cp a : CommodityPrice) : CommodityPrice :=
  if decide (name = cp_name a)
  then mkCommodityPrice (cp_name cp) (cp_price cp * 0.25 + 0.75 * cp_price a)
         (cp_planetPeriod cp) (cp_sysPeriod cp) (cp_planetVariation cp)
         (0.2 * cp_planetVariation a) (cp_updateTime cp) (cp_sum cp) (cp_sum2 cp)
         (cp_cnt cp)
  else cp.

Definition blend_good (u : Universe) (avprice : list CommodityPrice)
  (g : nat * CommodityPrice) : nat * CommodityPrice :=
  map_cp (fun cp => foldl (apply_average (commodity_name u g.1)) cp avprice) g.

Definition blend_planet (u : Universe) (avprice : list CommodityPrice)
  (ps : list Planet) (pi : nat) : list Planet :=
  alter (fun p => set_pl_goods (blend_good u avprice <$> pl_goods p) p) pi ps.

Definition economy_modifySystemCommodityPrice (u : Universe) (i : nat) : Universe :=
  match systems_stack u !! i with
  | Some sys =>
      let r := foldl (modify_planet u sys) (planet_stack u, []) (sys_planets sys) in
      let avprice := avprice_mean <$> r.2 in
      let ps := foldl (blend_planet u avprice) r.1 (sys_planets sys) in
      set_planet_stack ps
        (set_systems_stack (<[i := set_sys_averagePrice avprice sys]> (systems_stack u)) u)
  | None => u
  end.

(** ** Pass 3: the mean over the neighbouring systems *)

Definition set_cp_sum (v : R) (a : CommodityPrice) : CommodityPrice :=
  mkCommodityPrice (cp_name a) (cp_price a) (cp_planetPeriod a) (cp_sysPeriod a)
    (cp_planetVariation a) (cp_sysVariation a) (cp_updateTime a) v (cp_sum2 a) (cp_cnt a).

(** One neighbour: the price of its first line with the name, if any. *)
Definition neighbour_step (u : Universe) (name : string) (acc : R * Z) (jp : JumpPoint)
  : R * Z :=
  match systems_stack u !! jp_target jp with
  | Some neighbour =>
      match list_find (fun a => cp_name a = name) (sys_averagePrice neighbour) with
      | Some ka => (acc.1 + cp_price ka.2, int32 (acc.2 + 1))
      | None => acc
      end
  | None => acc
  end.

Definition smooth_entry (u : Universe) (sys : StarSystem) (a : CommodityPrice)
  : CommodityPrice :=
  let r := foldl (neighbour_step u (cp_name a)) (0, 0%Z) (sys_jumps sys) in
  if decide (r.2 <> 0%Z) then set_cp_sum (r.1 / IZR r.2) a else set_cp_sum (cp_price a) a.

Definition economy_smoothCommodityPrice (u : Universe) (i : nat) : Universe :=
  match systems_stack u !! i with
  | Some sys =>
      let avprice := smooth_entry u sys <$> sys_averagePrice sys in
      set_systems_stack (<[i := set_sys_averagePrice avprice sys]> (systems_stack u)) u
  | None => u
  end.

(** ** Pass 4: the final blend *)

Definition updated_average (a : CommodityPrice) : CommodityPrice :=
  mkCommodityPrice (cp_name a) (0.5 * (cp_price a + cp_sum a)) (cp_planetPeriod a)
    (cp_sysPeriod a) (cp_planetVariation a) (cp_sysVariation a) (cp_updateTime a)
    (cp_sum a) (cp_sum2 a) (cp_cnt a).

Definition updated_price (a cp : CommodityPrice) : CommodityPrice :=
  let price := 0.25 * cp_price cp + 0.75 * cp_price a in
  let planetVariation :=
    0.1 * (0.5 * cp_planetVariation a + 0.5 * cp_planetVariation cp) in
  let planetVariation := planetVariation * price in
  let sysVariation := cp_sysVariation cp * price in
  mkCommodityPrice (cp_name cp) price (cp_planetPeriod cp) (cp_sysPeriod cp)
    planetVariation sysVariation (cp_updateTime cp) (cp_sum cp) (cp_sum2 cp) (cp_cnt cp).

Definition update_good (u : Universe) (avprice : list CommodityPrice)
  (g : nat * CommodityPrice) : nat * CommodityPrice :=
  match list_find (fun a => cp_name a = commodity_name u g.1) avprice with
  | Some ka => map_cp (updated_price ka.2) g
  | None => g
  end.

Definition update_planet (u : Universe) (avprice : list CommodityPrice)
  (ps : list Planet) (pi : nat) : list Planet :=
  alter (fun p => set_pl_goods (update_good u avprice <$> pl_goods p) p) pi ps.

Definition economy_calcUpdatedCommodityPrice (u : Universe) (i : nat) : Universe :=
  match systems_stack u !! i with
  | Some sys =>
      let avprice := updated_average <$> sys_averagePrice sys in
      let ps := foldl (update_planet u avprice) (planet_stack u) (sys_planets sys) in
      set_planet_stack ps
        (set_systems_stack (<[i := set_sys_averagePrice [] sys]> (systems_stack u)) u)
  | None => u
  end.

(** ** The whole initialisation *)

(** [economy_calcPrice] on every good of the planet [pi]. *)
Definition calcPrice_good `{GameData} (u : Universe) (planet : Planet)
  (g : nat * CommodityPrice) : nat * CommodityPrice :=
  match commodity_stack u !! g.1 with
  | Some commodity => (g.1, economy_calcPrice planet commodity g.2)
  | None => g
  end.

Definition calcPrice_planet `{GameData} (u : Universe) (ps : list Planet) (pi : nat)
  : list Planet :=
  alter (fun p => set_pl_goods (calcPrice_good u p <$> pl_goods p) p) pi ps.

Definition calcPrice_all `{GameData} (u : Universe) : Universe :=
  set_planet_stack
    (foldl (fun ps sys => foldl (calcPrice_planet u) ps (sys_planets sys))
       (planet_stack u) (systems_stack u)) u.

(** One pass: the function on every system in order. *)
Definition for_systems (f : Universe -> nat -> Universe) (u : Universe) : Universe :=
  foldl f u (seq 0 (length (systems_stack u))).

Definition free_modifiers (u : Universe) : Universe :=
  set_commodity_stack (set_com_modifiers [] [] <$> commodity_stack u) u.

Definition economy_initialiseCommodityPrices `{GameData} (u : Universe) : Universe :=
  let u := calcPrice_all u in
  let u := for_systems economy_modifySystemCommodityPrice u in
  let u := for_systems economy_smoothCommodityPrice u in
  let u := for_systems economy_calcUpdatedCommodityPrice u in
  free_modifiers u.

(** ** Reference descriptions *)

(** The price a neighbour contributes to the mean of pass 3: that of its
    first line with the name. *)
Definition neighbour_price (u : Universe) (name : string) (jp : JumpPoint) : option R :=
  neighbour ← systems_stack u !! jp_target jp;
  ka ← list_find (fun a => cp_name a = name) (sys_averagePrice neighbour);
  Some (cp_price ka.2).

(** The table after the first loop nest of pass 2. *)
Definition avprice_table (u : Universe) (sys : StarSystem) : list CommodityPrice :=
  (foldl (modify_planet u sys) (planet_stack u, []) (sys_planets sys)).2.

(** The third loop nest of pass 2 with a [break] at the first match. *)
Definition blend_first (name : string) (avprice : list CommodityPrice)
  (cp : CommodityPrice) : CommodityPrice :=
  match list_find (fun a => cp_name a = name) avprice with
  | Some ka => apply_average name cp ka.2
  | None => cp
  end.

(** ** Conditions on the input *)

(** The attributes of a planet and a commodity for which pass 1 gives a
    positive price, period and variation. *)
Definition calcPrice_input_ok `{GameData} (planet : Planet) (commodity : Commodity) : Prop :=
  0 < find_modifier (pl_class planet) (com_planet_modifier commodity) /\
  0 < find_modifier (faction_name (pl_faction planet)) (com_planet_modifier commodity) /\
  Rabs (com_population_modifier commodity) < 1 /\
  0 <= com_period commodity /\
  (pl_presenceRange planet < 30)%Z.

(** ** Sample data *)

Definition sample_game : GameData :=
  {| faction_name := fun f => if decide (f = 1)%Z then "Empire" else "Independent";
     PLANET_GFX_EXTERIOR_PATH := "gfx/planet/exterior/" |}.

Definition ore : Commodity :=
  mkCommodity "Ore" 100 0 0
    [mkCommodityModifier "M" 2; mkCommodityModifier "Empire" 3]
    [mkCommodityModifier "Empire" 5] 0 "" None None.

Definition ore_field : CommodityPrice :=
  mkCommodityPrice "Ore" 100 0 0 0 0 9 9 9 9.

Definition mining_world (presence : Z) : Planet :=
  mkPlanet "Mine" "M" 1 0 presence "gfx/planet/space/M00.png"
    "gfx/planet/exterior/abcdefghijklmno.png" [(0%nat, ore_field)].

(** Two systems joined by a jump, one planet each, one good of price 100
    without modifiers, no nebula, no radius, no faction. *)
Definition plain_ore : Commodity :=
  mkCommodity "Ore" 100 0 0 [] [] 0 "" None None.

Definition plain_field : CommodityPrice :=
  mkCommodityPrice "Ore" 100 0 0 0 0 0 0 0 0.

Definition plain_world (name : string) : Planet :=
  mkPlanet name "M" 0 0 0 "gfx/planet/space/M00.png"
    "gfx/planet/exterior/abcdefghijklmno.png" [(0%nat, plain_field)].

Definition twin_A : StarSystem :=
  mkStarSystem "A" 0 [mkJumpPoint 1] [0%nat] 0 0 0 0 (-1) None [].
Definition twin_B : StarSystem :=
  mkStarSystem "B" 1 [mkJumpPoint 0] [1%nat] 0 0 0 0 (-1) None [].

Definition twin_systems : Universe :=
  mkUniverse [plain_ore] [0%nat] [twin_A; twin_B]
    [plain_world "P0"; plain_world "P1"].

(** The price field both planets end with. *)
Definition twin_field : CommodityPrice :=
  mkCommodityPrice "Ore" 100 50 1000 3.75 7.5 0 0 0 0.

(** * Theorems *)

(** ** Pass 1 *)

Lemma size_t_nonneg (x : Z) : (0 <= size_t x)%Z.
Proof. unfold size_t, wrap_unsigned. apply Z.mod_pos_bound. lia. Qed.

Lemma population_factor_bounds (planet : Planet) :
  -1 <= population_factor planet < 1.
Proof.
  unfold population_factor. case_decide; [|lra].
  pose proof (tanh_bound ((ln (IZR (pl_population planet)) - ln 100000000) / 2)). lra.
Qed.

Section calcPrice.
Context `{GD : GameData}.

Lemma exterior_scale_ge_1 (planet : Planet) : 1 <= exterior_scale planet.
Proof.
  unfold exterior_scale.
  pose proof (IZR_le _ _ (size_t_nonneg (strlen (pl_gfx_exterior planet)
                                        - strlen PLANET_GFX_EXTERIOR_PATH - 19))).
  cbn in *. lra.
Qed.

Lemma presence_factor_pos (planet : Planet) :
  (pl_presenceRange planet < 30)%Z -> 0 < 1 - IZR (pl_presenceRange planet) / 30.
Proof. intros Hp%IZR_lt. lra. Qed.

Lemma population_term_pos (planet : Planet) (b : R) :
  Rabs b < 1 -> 0 < 1 + population_factor planet * b.
Proof.
  intros Hb. pose proof (population_factor_bounds planet) as Hf.
  assert (-1 < b < 1) as Hb'.
  { unfold Rabs in Hb. destruct (Rcase_abs b); lra. }
  nra.
Qed.

(** Pass 1 gives a positive price, a positive planet period and a
    planet variation between 1/8 and 3/8, and resets the system variation
    and the observation accumulators, whenever the base price and the two
    modifiers found are positive, the population modifier is below 1 in
    absolute value, the period of the commodity is not negative and the
    presence range is below 30. *)
Theorem economy_calcPrice_positive (planet : Planet) (commodity : Commodity)
    (cp : CommodityPrice) :
  calcPrice_input_ok planet commodity -> 0 < cp_price cp ->
  let r := economy_calcPrice planet commodity cp in
  0 < cp_price r /\ 0 < cp_planetPeriod r /\
  1 / 8 <= cp_planetVariation r <= 3 / 8 /\
  cp_sysVariation r = 0 /\ cp_sum r = 0 /\ cp_sum2 r = 0 /\
  cp_cnt r = 0%Z /\ cp_updateTime r = 0%Z.
Proof.
  intros (Hc & Hf & Hb & Hper & Hpr) Hp. cbn.
  pose proof (population_factor_bounds planet) as Hpf.
  pose proof (population_term_pos planet _ Hb) as Hpt.
  pose proof (presence_factor_pos planet Hpr) as Hpres.
  pose proof (exterior_scale_ge_1 planet) as Hext.
  split_and!; try done; try lra.
  - repeat apply Rmult_lt_0_compat; done.
  - repeat apply Rmult_lt_0_compat; try lra.
    by apply Rinv_0_lt_compat.
Qed.

End calcPrice.

Lemma ore_input_ok : @calcPrice_input_ok sample_game (mining_world 0) ore.
Proof.
  unfold calcPrice_input_ok. cbn. rewrite Rabs_R0.
  repeat case_decide; try done; split_and!; try lra; lia.
Qed.

Lemma economy_calcPrice_positive_witness :
  0 < cp_price (@economy_calcPrice sample_game (mining_world 0) ore ore_field).
Proof.
  apply (@economy_calcPrice_positive sample_game (mining_world 0) ore ore_field);
    [exact ore_input_ok | cbn; lra].
Defined.

(** The Empire pays 5 times the price by the faction table and 3 times by
    the planet table; the price of the mining world is 100 * 2 * 3. *)
Example ore_price_planet_table :
  cp_price (@economy_calcPrice sample_game (mining_world 0) ore ore_field) = 600.
Proof.
  cbn. unfold population_factor. cbn.
  repeat case_decide; try done; try lia. lra.
Qed.

(** The presence range is not limited: at 60 the price is negative. *)
Example ore_price_presence_60 :
  cp_price (@economy_calcPrice sample_game (mining_world 60) ore ore_field) = -600.
Proof.
  cbn. unfold population_factor. cbn.
  repeat case_decide; try done; try lia. lra.
Qed.

(** ** Pass 2: the table has one line per name *)

Lemma avprice_add_names (name : string) (cp : CommodityPrice) (av : list CommodityPrice) :
  cp_name <$> avprice_add name cp av
  = if decide (name ∈ cp_name <$> av) then cp_name <$> av else (cp_name <$> av) ++ [name].
Proof.
  induction av as [|a av IH]; cbn.
  - by rewrite decide_False by apply not_elem_of_nil.
  - destruct (decide (name = cp_name a)) as [Hn|Hn]; cbn.
    + rewrite decide_True; [done|]. rewrite Hn. apply list_elem_of_here.
    + rewrite IH. destruct (decide (name ∈ cp_name <$> av)) as [H1|H1].
      * rewrite decide_True; [done|]. by apply list_elem_of_further.
      * rewrite decide_False; [done|]. by apply not_elem_of_cons.
Qed.

Lemma avprice_add_NoDup (name : string) (cp : CommodityPrice) (av : list CommodityPrice) :
  NoDup (cp_name <$> av) -> NoDup (cp_name <$> avprice_add name cp av).
Proof.
  intros Hnd. rewrite avprice_add_names. case_decide; [done|].
  apply NoDup_app. split_and!; [done| |apply NoDup_singleton].
  intros x Hx ->%list_elem_of_singleton. done.
Qed.

Lemma avprice_table_NoDup (u : Universe) (sys : StarSystem) :
  NoDup (cp_name <$> avprice_table u sys).
Proof.
  unfold avprice_table.
  apply (foldl_inv (fun acc => NoDup (cp_name <$> acc.2))); [apply NoDup_nil_2|].
  intros acc pi Hacc _. unfold modify_planet.
  destruct (acc.1 !! pi) as [p|]; [|done]. cbn [snd].
  apply (foldl_inv (fun r => NoDup (cp_name <$> r.2))); [done|].
  intros r g Hr _. by apply avprice_add_NoDup.
Qed.

Lemma apply_average_other (name : string) (cp : CommodityPrice) (av : list CommodityPrice) :
  name ∉ cp_name <$> av -> foldl (apply_average name) cp av = cp.
Proof.
  revert cp. induction av as [|a av IH]; intros cp Hn; [done|]. cbn in *.
  apply not_elem_of_cons in Hn as [Hna Hn].
  unfold apply_average at 2. rewrite decide_False by done. by apply IH.
Qed.

(** The loop of pass 2 that applies the averages has no [break]; on
    the table the pass has built, which holds every name once, it does what
    the loop with a [break] at the first match does. *)
Theorem blend_good_first_match (u : Universe) (sys : StarSystem) (g : nat * CommodityPrice) :
  blend_good u (avprice_mean <$> avprice_table u sys) g
  = map_cp (blend_first (commodity_name u g.1) (avprice_mean <$> avprice_table u sys)) g.
Proof.
  unfold blend_good, map_cp, blend_first. f_equal.
  assert (NoDup (cp_name <$> (avprice_mean <$> avprice_table u sys))) as Hnd.
  { rewrite <- list_fmap_compose. apply avprice_table_NoDup. }
  revert Hnd. generalize (avprice_mean <$> avprice_table u sys) (g.2) (commodity_name u g.1).
  intros av cp name. revert cp. induction av as [|a av IH]; intros cp Hnd; [done|].
  apply NoDup_cons in Hnd as [Ha Hnd]. cbn [foldl list_find fmap list_fmap].
  case_decide as Hn; cbn.
  - rewrite apply_average_other by by rewrite <- Hn.
    unfold apply_average. by rewrite !decide_True.
  - unfold apply_average at 2. rewrite decide_False by congruence. rewrite IH by done.
    by destruct (list_find _ av) as [[k a']|].
Qed.

(** ** Pass 3: the mean over the neighbours that carry the good *)

Lemma neighbour_step_spec (u : Universe) (name : string) (acc : R * Z) (jp : JumpPoint) :
  (- 2147483648 <= acc.2 + 1 <= INT_MAX)%Z ->
  neighbour_step u name acc jp
  = match neighbour_price u name jp with
    | Some p => (acc.1 + p, (acc.2 + 1)%Z)
    | None => acc
    end.
Proof.
  intros Hn. unfold neighbour_step, neighbour_price.
  destruct (systems_stack u !! jp_target jp) as [nb|]; cbn; [|done].
  destruct (list_find _ (sys_averagePrice nb)) as [ka|]; cbn; [|done].
  by rewrite int32_small.
Qed.

Lemma neighbour_fold (u : Universe) (name : string) (js : list JumpPoint) (acc : R * Z) :
  (0 <= acc.2)%Z -> (acc.2 + Z.of_nat (length js) <= INT_MAX)%Z ->
  foldl (neighbour_step u name) acc js
  = (acc.1 + Rsum (omap (neighbour_price u name) js),
     (acc.2 + Z.of_nat (length (omap (neighbour_price u name) js)))%Z).
Proof.
  revert acc. induction js as [|jp js IH]; intros [p n] H0 Hn.
  - cbn. f_equal; [lra|lia].
  - cbn [foldl length fst snd] in *.
    rewrite neighbour_step_spec by (cbn; unfold INT_MAX in *; lia).
    cbn [omap list_omap]. fold (omap (neighbour_price u name) js).
    destruct (neighbour_price u name jp) as [q|];
      rewrite IH by (cbn [fst snd]; lia); rewrite ?Rsum_cons;
      cbn [fst snd length]; f_equal; lra || lia.
Qed.

(** C35.  In a system with at most [INT_MAX] jumps, pass 3 stores in [sum]
    the unweighted mean of the average prices of the good in the
    neighbouring systems that carry it, one term per jump,
    and the system's own average price when none does; nothing else of the
    line changes. *)
Theorem smooth_entry_mean (u : Universe) (sys : StarSystem) (a : CommodityPrice) :
  (Z.of_nat (length (sys_jumps sys)) <= INT_MAX)%Z ->
  let ps := omap (neighbour_price u (cp_name a)) (sys_jumps sys) in
  smooth_entry u sys a
  = set_cp_sum (if decide (ps = []) then cp_price a else Rsum ps / INR (length ps)) a.
Proof.
  intros Hn ps. unfold smooth_entry. rewrite neighbour_fold by (cbn; lia).
  fold ps. cbn [fst snd]. rewrite Z.add_0_l, Rplus_0_l.
  destruct ps as [|p ps'] eqn:Hps; [done|].
  rewrite decide_True, decide_False by (cbn; done || lia).
  by rewrite <- INR_IZR_INZ.
Qed.

Lemma smooth_entry_mean_witness :
  smooth_entry twin_systems twin_A plain_field
  = set_cp_sum
      (if decide (omap (neighbour_price twin_systems (cp_name plain_field))
                    (sys_jumps twin_A) = [])
       then cp_price plain_field
       else Rsum (omap (neighbour_price twin_systems (cp_name plain_field))
                    (sys_jumps twin_A))
            / INR (length (omap (neighbour_price twin_systems (cp_name plain_field))
                             (sys_jumps twin_A))))
      plain_field.
Proof.
  apply (smooth_entry_mean twin_systems twin_A plain_field). cbn. unfold INT_MAX. lia.
Defined.

(** ** The whole initialisation *)

Lemma for_systems_commodity_stack (f : Universe -> nat -> Universe) (u : Universe) :
  (forall u i, commodity_stack (f u i) = commodity_stack u) ->
  commodity_stack (for_systems f u) = commodity_stack u.
Proof.
  intros Hf. unfold for_systems.
  apply (foldl_inv (fun u' => commodity_stack u' = commodity_stack u)); [done|].
  intros u' i Hu' _. by rewrite Hf.
Qed.

Lemma modify_commodity_stack (u : Universe) (i : nat) :
  commodity_stack (economy_modifySystemCommodityPrice u i) = commodity_stack u.
Proof. unfold economy_modifySystemCommodityPrice. by destruct (systems_stack u !! i). Qed.

Lemma smooth_commodity_stack (u : Universe) (i : nat) :
  commodity_stack (economy_smoothCommodityPrice u i) = commodity_stack u.
Proof. unfold economy_smoothCommodityPrice. by destruct (systems_stack u !! i). Qed.

Lemma calcUpdated_commodity_stack (u : Universe) (i : nat) :
  commodity_stack (economy_calcUpdatedCommodityPrice u i) = commodity_stack u.
Proof. unfold economy_calcUpdatedCommodityPrice. by destruct (systems_stack u !! i). Qed.

(** The initialisation leaves the catalogue as it was but for the
    modifier tables, which are empty afterwards: no pass changes a
    commodity, and the last loop frees both chains of each. *)
Theorem economy_initialiseCommodityPrices_catalogue `{GameData} (u : Universe) :
  commodity_stack (economy_initialiseCommodityPrices u)
  = set_com_modifiers [] [] <$> commodity_stack u.
Proof.
  unfold economy_initialiseCommodityPrices, free_modifiers. cbn [commodity_stack set_commodity_stack].
  rewrite (for_systems_commodity_stack _ _ calcUpdated_commodity_stack).
  rewrite (for_systems_commodity_stack _ _ smooth_commodity_stack).
  by rewrite (for_systems_commodity_stack _ _ modify_commodity_stack).
Qed.

(** Two systems joined by one jump, one planet each, one good of
    reference price 100, no modifiers, no nebula, no radius, no faction: the
    four passes leave both planets with the same price field, of price 100,
    planet period 50, system period 1000 and variations 3.75 and 7.5. *)
Theorem twin_systems_prices :
  planet_stack (@economy_initialiseCommodityPrices sample_game twin_systems)
  = [set_pl_goods [(0%nat, twin_field)] (plain_world "P0");
     set_pl_goods [(0%nat, twin_field)] (plain_world "P1")].
Proof. real_compute. Qed.
