(* ===== verification/Unassigned.v ===== *)
(** * Unassigned: the cells of a table line that pass 2 does not assign

    [economy_modifySystemCommodityPrice] takes a new line of its table
    [avprice] from [realloc] and assigns the name, the price, the two
    periods, the two variations and the counter [updateTime]; the cells
    [sum], [sum2] and [cnt] of the line hold what the allocator left there.
    [avprice_new] of the model puts 0 in them.

    This file shows that the choice does not matter.  Pass 2 copies the
    three cells and does not read them; pass 3 reads the name and the price
    of a line and assigns [sum]; pass 4 reads the name, the price, the
    planet variation and the [sum] that pass 3 assigned, and frees the
    table.  [veil b] overwrites, in the table of system [i], every line [a]
    with [b i a]; two universes are [alike b] when they are equal under the
    veil.  The stages of passes 3 and 4 are veils that depend on how many
    systems are done, and the passes take universes that are alike to
    universes that are alike at the next stage.  After pass 4 no table is
    left, and the universes are equal. *)

From Stdlib Require Import Reals Lra Lia ZArith.
From stdpp Require Import base tactics option list strings.
From S2P Require Import Prelude World Initializer.

#[local] Open Scope R_scope.

(** ** Veils *)

(** The line [a] with other contents in the three cells. *)
Definition refill (s s2 : R) (c : Z) (a : CommodityPrice) : CommodityPrice :=
  mkCommodityPrice (cp_name a) (cp_price a) (cp_planetPeriod a) (cp_sysPeriod a)
    (cp_planetVariation a) (cp_sysVariation a) (cp_updateTime a) s s2 c.

(** What a line holds that pass 2 assigned, and what it holds once pass 3
    has assigned [sum]. *)
Definition blank3 (a : CommodityPrice) : CommodityPrice := refill 0 0 0 a.
Definition blank2 (a : CommodityPrice) : CommodityPrice := refill (cp_sum a) 0 0 a.

Definition veil (b : nat -> CommodityPrice -> CommodityPrice) (u : Universe) : Universe :=
  set_systems_stack
    (imap (fun i s => set_sys_averagePrice (b i <$> sys_averagePrice s) s)
       (systems_stack u)) u.

Definition alike (b : nat -> CommodityPrice -> CommodityPrice) (u u' : Universe) : Prop :=
  veil b u = veil b u'.

(** A veil that leaves the name and the price of a line. *)
Definition keeps_price (f : CommodityPrice -> CommodityPrice) : Prop :=
  forall a, cp_name (f a) = cp_name a /\ cp_price (f a) = cp_price a.

(** The stage of pass 3 with [k] systems done: their lines have their
    [sum]. *)
Definition smoothing (k i : nat) : CommodityPrice -> CommodityPrice :=
  if decide (i < k)%nat then blank2 else blank3.

(** The stage of pass 4 with [k] systems done: they have no table, and
    those to come have lines with their [sum]. *)
Definition updating (k i : nat) : CommodityPrice -> CommodityPrice :=
  if decide (i < k)%nat then (fun a => a) else blank2.

(** Passes 3 and 4. *)
Definition smooth_and_update (u : Universe) : Universe :=
  for_systems economy_calcUpdatedCommodityPrice
    (for_systems economy_smoothCommodityPrice u).

(** A table of one line whose cells hold other numbers. *)
Definition twin_spoiled : Universe :=
  set_systems_stack
    ((fun s => set_sys_averagePrice (refill 7 (-3) 42 <$> sys_averagePrice s) s)
       <$> systems_stack
             (for_systems economy_modifySystemCommodityPrice
                (@calcPrice_all sample_game twin_systems)))
    (for_systems economy_modifySystemCommodityPrice
       (@calcPrice_all sample_game twin_systems)).

(** * Theorems *)

(** ** The relation *)

#[export] Instance alike_equivalence (b : nat -> CommodityPrice -> CommodityPrice) :
  Equivalence (alike b).
Proof. unfold alike. split; [intros ?|intros ? ?|intros ? ? ?]; congruence. Qed.

Lemma alike_fields b (u u' : Universe) :
  alike b u u' ->
  commodity_stack u = commodity_stack u' /\ econ_comm u = econ_comm u' /\
  planet_stack u = planet_stack u' /\
  length (systems_stack u) = length (systems_stack u').
Proof.
  unfold alike, veil. intros H. split_and!.
  - by apply (f_equal commodity_stack) in H.
  - by apply (f_equal econ_comm) in H.
  - by apply (f_equal planet_stack) in H.
  - apply (f_equal (fun x => length (systems_stack x))) in H. cbn in H.
    by rewrite !length_imap in H.
Qed.

Lemma alike_lookup b (u u' : Universe) (i : nat) (s : StarSystem) :
  alike b u u' -> systems_stack u !! i = Some s ->
  exists s', systems_stack u' !! i = Some s' /\
    set_sys_averagePrice [] s = set_sys_averagePrice [] s' /\
    b i <$> sys_averagePrice s = b i <$> sys_averagePrice s'.
Proof.
  unfold alike, veil. intros H Hs.
  apply (f_equal (fun x => systems_stack x !! i)) in H. cbn in H.
  rewrite !list_lookup_imap, Hs in H.
  destruct (systems_stack u' !! i) as [s'|]; [|done]. exists s'.
  destruct s, s'. by simplify_eq/=.
Qed.

Lemma frame_table (s s' : StarSystem) (t t' : list CommodityPrice) :
  set_sys_averagePrice [] s = set_sys_averagePrice [] s' -> t = t' ->
  set_sys_averagePrice t s = set_sys_averagePrice t' s'.
Proof.
  destruct s, s'. unfold set_sys_averagePrice. cbn. intros [=] ->. congruence.
Qed.

Lemma alike_intro b (u u' : Universe) :
  commodity_stack u = commodity_stack u' -> econ_comm u = econ_comm u' ->
  planet_stack u = planet_stack u' ->
  (forall i,
     (fun s => set_sys_averagePrice (b i <$> sys_averagePrice s) s) <$> systems_stack u !! i
     = (fun s => set_sys_averagePrice (b i <$> sys_averagePrice s) s)
         <$> systems_stack u' !! i) ->
  alike b u u'.
Proof.
  intros Hc He Hp Hs. unfold alike, veil, set_systems_stack. rewrite Hc, He, Hp.
  f_equal. apply list_eq. intros i. by rewrite !list_lookup_imap.
Qed.

Lemma veil_ext b b' (u : Universe) :
  (forall i a, (i < length (systems_stack u))%nat -> b i a = b' i a) ->
  veil b u = veil b' u.
Proof.
  intros Hb. unfold veil. f_equal. apply imap_ext. intros i s Hs. f_equal.
  apply list_fmap_ext. intros _ a _. apply Hb. by eapply lookup_lt_Some.
Qed.

Lemma alike_ext b b' (u u' : Universe) :
  (forall i a, (i < length (systems_stack u))%nat -> b i a = b' i a) ->
  alike b u u' -> alike b' u u'.
Proof.
  intros Hb H. destruct (alike_fields _ _ _ H) as (_ & _ & _ & Hl). unfold alike.
  rewrite <- (veil_ext b b' u), <- (veil_ext b b' u'); [done| |done].
  intros i a Hi. apply Hb. by rewrite Hl.
Qed.

Lemma veil_id b (u : Universe) :
  (forall i a, (i < length (systems_stack u))%nat -> b i a = a) -> veil b u = u.
Proof.
  intros Hb. rewrite (veil_ext b (fun _ a => a)) by done. unfold veil.
  destruct u as [c e ss ps]. unfold set_systems_stack. cbn. f_equal.
  apply list_eq. intros i. rewrite list_lookup_imap.
  destruct (ss !! i) as [s|]; [|done]. cbn. rewrite list_fmap_id. by destruct s.
Qed.

(** ** What the passes read of a line *)

Lemma find_veiled (f : CommodityPrice -> CommodityPrice) (n : string)
    (t : list CommodityPrice) :
  keeps_price f ->
  list_find (fun a => cp_name a = n) (f <$> t)
  = prod_map (fun i : nat => i) f <$> list_find (fun a => cp_name a = n) t.
Proof.
  intros Hf. rewrite list_find_fmap. f_equal. apply list_find_ext.
  intros a. cbn. by rewrite (proj1 (Hf a)).
Qed.

Lemma find_alike (f : CommodityPrice -> CommodityPrice) (n : string)
    (t t' : list CommodityPrice) :
  keeps_price f -> f <$> t = f <$> t' ->
  (cp_price ∘ snd) <$> list_find (fun a => cp_name a = n) t
  = (cp_price ∘ snd) <$> list_find (fun a => cp_name a = n) t'.
Proof.
  intros Hf Ht. pose proof (find_veiled f n t Hf) as H1.
  pose proof (find_veiled f n t' Hf) as H2. rewrite Ht, H2 in H1.
  destruct (list_find _ t) as [[i a]|], (list_find _ t') as [[i' a']|];
    simplify_eq/=; [|done].
  f_equal. rewrite <- (proj2 (Hf a)), <- (proj2 (Hf a')). congruence.
Qed.

Lemma blank2_keeps : keeps_price blank2.
Proof. by intros []. Qed.

Lemma blank3_keeps : keeps_price blank3.
Proof. by intros []. Qed.

Lemma smoothing_keeps (k i : nat) : keeps_price (smoothing k i).
Proof. unfold smoothing. case_decide; [apply blank2_keeps|apply blank3_keeps]. Qed.

(** Pass 2 copies the cells and does not read them. *)
Lemma pass2_copies (s s2 : R) (c : Z) (a cp : CommodityPrice) (name : string) :
  avprice_acc (refill s s2 c a) cp = refill s s2 c (avprice_acc a cp) /\
  avprice_mean (refill s s2 c a) = refill s s2 c (avprice_mean a) /\
  apply_average name cp (refill s s2 c a) = apply_average name cp a.
Proof. by destruct a. Qed.

(** Pass 3 reads the name and the price of the lines of a neighbour. *)
Lemma neighbour_step_alike b (u u' : Universe) (name : string) (acc : R * Z)
    (jp : JumpPoint) :
  (forall i, keeps_price (b i)) -> alike b u u' ->
  neighbour_step u name acc jp = neighbour_step u' name acc jp.
Proof.
  intros Hb H. unfold neighbour_step.
  destruct (systems_stack u !! jp_target jp) as [s|] eqn:Hs.
  - destruct (alike_lookup _ _ _ _ _ H Hs) as (s' & -> & _ & Ht).
    pose proof (find_alike _ name _ _ (Hb _) Ht) as Hf.
    destruct (list_find _ (sys_averagePrice s)) as [[? ?]|],
      (list_find _ (sys_averagePrice s')) as [[? ?]|]; simplify_eq/=; [|done].
    by rewrite Hf.
  - destruct (alike_fields _ _ _ H) as (_ & _ & _ & Hl).
    apply lookup_ge_None in Hs. rewrite Hl in Hs. apply lookup_ge_None in Hs.
    by rewrite Hs.
Qed.

(** Pass 3 assigns [sum] from the name and the price of the line. *)
Lemma smooth_entry_alike b (u u' : Universe) (sys sys' : StarSystem)
    (a : CommodityPrice) :
  (forall i, keeps_price (b i)) -> alike b u u' -> sys_jumps sys = sys_jumps sys' ->
  blank2 (smooth_entry u sys a) = blank2 (smooth_entry u' sys' (blank3 a)).
Proof.
  intros Hb H Hj. unfold smooth_entry. rewrite <- Hj.
  change (cp_name (blank3 a)) with (cp_name a).
  rewrite (foldl_ext_in (neighbour_step u' (cp_name a)) (neighbour_step u (cp_name a)))
    by (intros acc jp _; symmetry; by apply (neighbour_step_alike b)).
  case_decide; by destruct a.
Qed.

(** Pass 4 reads the name, the price, the planet variation and [sum]. *)
Lemma updated_average_blank (a : CommodityPrice) :
  blank2 (updated_average a) = updated_average (blank2 a).
Proof. by destruct a. Qed.

Lemma update_good_blank (u : Universe) (avprice : list CommodityPrice)
    (g : nat * CommodityPrice) :
  update_good u (blank2 <$> avprice) g = update_good u avprice g.
Proof.
  unfold update_good. rewrite (find_veiled blank2) by apply blank2_keeps.
  destruct (list_find _ avprice) as [[i a]|]; [|done]. cbn. by destruct a.
Qed.

Lemma update_planets_alike (u u' : Universe) (t t' : list CommodityPrice)
    (ps : list Planet) (js : list nat) :
  commodity_stack u = commodity_stack u' -> blank2 <$> t = blank2 <$> t' ->
  foldl (update_planet u (updated_average <$> t)) ps js
  = foldl (update_planet u' (updated_average <$> t')) ps js.
Proof.
  intros Hc Ht. apply foldl_ext_in. intros qs j _. unfold update_planet.
  apply list_alter_ext; [|done]. intros p _. f_equal.
  apply list_fmap_ext. intros _ g _.
  rewrite <- (update_good_blank u), <- (update_good_blank u').
  rewrite <- !list_fmap_compose.
  rewrite (list_fmap_ext (blank2 ∘ updated_average) (updated_average ∘ blank2) t)
    by (intros; apply updated_average_blank).
  rewrite (list_fmap_ext (blank2 ∘ updated_average) (updated_average ∘ blank2) t')
    by (intros; apply updated_average_blank).
  rewrite !list_fmap_compose, Ht. unfold update_good, commodity_name. by rewrite Hc.
Qed.

(** ** One system of pass 3, one of pass 4 *)

Lemma stage_next (b : nat -> nat -> CommodityPrice -> CommodityPrice) (k i : nat)
    (ss ss' : list StarSystem) (s s' : StarSystem) :
  (forall j, j <> k -> b (S k) j = b k j) ->
  (k < length ss)%nat -> length ss = length ss' ->
  (forall j x, ss !! j = Some x -> exists x', ss' !! j = Some x' /\
     set_sys_averagePrice [] x = set_sys_averagePrice [] x' /\
     b k j <$> sys_averagePrice x = b k j <$> sys_averagePrice x') ->
  set_sys_averagePrice (b (S k) k <$> sys_averagePrice s) s
  = set_sys_averagePrice (b (S k) k <$> sys_averagePrice s') s' ->
  (fun x => set_sys_averagePrice (b (S k) i <$> sys_averagePrice x) x) <$> <[k := s]> ss !! i
  = (fun x => set_sys_averagePrice (b (S k) i <$> sys_averagePrice x) x)
      <$> <[k := s']> ss' !! i.
Proof.
  intros Hb Hk Hl Hss Hs. destruct (decide (i = k)) as [->|Hi].
  - rewrite !list_lookup_insert_eq by lia. cbn. by f_equal.
  - rewrite !list_lookup_insert_ne, Hb by done.
    destruct (ss !! i) as [x|] eqn:Hx.
    + destruct (Hss i x Hx) as (x' & -> & Hf & Ht). cbn. f_equal.
      by apply frame_table.
    + apply lookup_ge_None in Hx. rewrite Hl in Hx. apply lookup_ge_None in Hx.
      by rewrite Hx.
Qed.

Lemma smooth_alike (k : nat) (u u' : Universe) :
  (k < length (systems_stack u))%nat -> alike (smoothing k) u u' ->
  alike (smoothing (S k)) (economy_smoothCommodityPrice u k)
    (economy_smoothCommodityPrice u' k).
Proof.
  intros Hk H. destruct (alike_fields _ _ _ H) as (Hc & He & Hp & Hl).
  destruct (lookup_lt_is_Some_2 _ _ Hk) as [sys Hs].
  destruct (alike_lookup _ _ _ _ _ H Hs) as (sys' & Hs' & Hf & Ht).
  unfold economy_smoothCommodityPrice. rewrite Hs, Hs'.
  apply alike_intro; try done. intros i. cbn [systems_stack set_systems_stack].
  apply (stage_next smoothing); try done.
  - intros j Hj. unfold smoothing. repeat case_decide; done || lia.
  - intros j x Hx. by apply (alike_lookup _ u u').
  - unfold smoothing in *. rewrite decide_True by lia. rewrite decide_False in Ht by lia.
    cbn [sys_averagePrice set_sys_averagePrice]. rewrite <- !list_fmap_compose.
    rewrite (list_fmap_ext (blank2 ∘ smooth_entry u sys)
               (blank2 ∘ smooth_entry u' sys' ∘ blank3) (sys_averagePrice sys)).
    + rewrite (list_fmap_ext (blank2 ∘ smooth_entry u' sys')
                 (blank2 ∘ smooth_entry u' sys' ∘ blank3) (sys_averagePrice sys')).
      * rewrite !(list_fmap_compose blank3), Ht.
        apply frame_table; [|done]. destruct sys, sys'. by simplify_eq/=.
      * intros _ a _. apply (smooth_entry_alike (smoothing k)); [|done..].
        apply smoothing_keeps.
    + intros _ a _. apply (smooth_entry_alike (smoothing k)).
      * apply smoothing_keeps.
      * done.
      * destruct sys, sys'. by simplify_eq/=.
Qed.

Lemma update_alike (k : nat) (u u' : Universe) :
  (k < length (systems_stack u))%nat -> alike (updating k) u u' ->
  alike (updating (S k)) (economy_calcUpdatedCommodityPrice u k)
    (economy_calcUpdatedCommodityPrice u' k).
Proof.
  intros Hk H. destruct (alike_fields _ _ _ H) as (Hc & He & Hp & Hl).
  destruct (lookup_lt_is_Some_2 _ _ Hk) as [sys Hs].
  destruct (alike_lookup _ _ _ _ _ H Hs) as (sys' & Hs' & Hf & Ht).
  unfold updating in Ht. rewrite decide_False in Ht by lia.
  unfold economy_calcUpdatedCommodityPrice. rewrite Hs, Hs'.
  assert (sys_planets sys = sys_planets sys') as Hpl by (destruct sys, sys'; by simplify_eq/=).
  apply alike_intro; try done.
  - cbn. rewrite Hp, Hpl. by apply update_planets_alike.
  - intros i. cbn [systems_stack set_systems_stack set_planet_stack].
    apply (stage_next updating); try done.
    + intros j Hj. unfold updating. repeat case_decide; done || lia.
    + intros j x Hx. by apply (alike_lookup _ u u').
Qed.

(** ** The passes *)

Lemma smooth_length (u : Universe) (k : nat) :
  length (systems_stack (economy_smoothCommodityPrice u k)) = length (systems_stack u).
Proof.
  unfold economy_smoothCommodityPrice.
  destruct (systems_stack u !! k); [|done]. cbn. by rewrite length_insert.
Qed.

Lemma update_length (u : Universe) (k : nat) :
  length (systems_stack (economy_calcUpdatedCommodityPrice u k)) = length (systems_stack u).
Proof.
  unfold economy_calcUpdatedCommodityPrice.
  destruct (systems_stack u !! k); [|done]. cbn. by rewrite length_insert.
Qed.

Lemma pass_alike (f : Universe -> nat -> Universe)
    (b : nat -> nat -> CommodityPrice -> CommodityPrice) (u u' : Universe) (n : nat) :
  (forall u k, length (systems_stack (f u k)) = length (systems_stack u)) ->
  (forall k u u', (k < length (systems_stack u))%nat ->
     alike (b k) u u' -> alike (b (S k)) (f u k) (f u' k)) ->
  (n <= length (systems_stack u))%nat -> alike (b 0%nat) u u' ->
  alike (b n) (foldl f u (seq 0 n)) (foldl f u' (seq 0 n)) /\
  length (systems_stack (foldl f u (seq 0 n))) = length (systems_stack u).
Proof.
  intros Hlen Hstep Hn H. induction n as [|n IH]; [done|].
  destruct IH as [IH Hl]; [lia|]. rewrite seq_S, !foldl_app. cbn [foldl Nat.add].
  split; [apply Hstep; [lia|done]|by rewrite Hlen].
Qed.

(** Whatever the cells [sum], [sum2] and [cnt] of the lines hold when pass
    2 is over, passes 3 and 4 give the same universe. *)
Theorem unassigned_cells_unread (u u' : Universe) :
  alike (fun _ => blank3) u u' -> smooth_and_update u = smooth_and_update u'.
Proof.
  intros H. destruct (alike_fields _ _ _ H) as (_ & _ & _ & Hl).
  unfold smooth_and_update, for_systems at 2 4. rewrite <- Hl.
  destruct (pass_alike economy_smoothCommodityPrice smoothing u u'
              (length (systems_stack u))) as [H3 Hl3];
    [apply smooth_length|apply smooth_alike|done|by apply (alike_ext (fun _ => blank3))|].
  set (v := foldl _ u _) in *. set (v' := foldl _ u' _) in *.
  destruct (alike_fields _ _ _ H3) as (_ & _ & _ & Hlv).
  unfold for_systems. rewrite <- Hlv.
  destruct (pass_alike economy_calcUpdatedCommodityPrice updating v v'
              (length (systems_stack v))) as [H4 Hl4];
    [apply update_length|apply update_alike|done| |].
  - apply (alike_ext (smoothing (length (systems_stack u)))); [|done].
    intros i a Hi. unfold smoothing, updating. rewrite Hl3 in Hi.
    by rewrite decide_True, decide_False by lia.
  - destruct (alike_fields _ _ _ H4) as (_ & _ & _ & Hlw). unfold alike in H4.
    rewrite !veil_id in H4; [done|..]; intros i a Hi; unfold updating;
      rewrite decide_True; done || lia.
Qed.

(** The initialisation is the same whatever the allocator left in the
    lines of the tables: from any universe that is alike the one pass 2
    leaves, passes 3 and 4 and the release of the modifiers give what
    [economy_initialiseCommodityPrices] gives. *)
Corollary initialise_unassigned `{GD : GameData} (u0 u' : Universe) :
  alike (fun _ => blank3)
    (for_systems economy_modifySystemCommodityPrice (calcPrice_all u0)) u' ->
  free_modifiers (smooth_and_update u') = economy_initialiseCommodityPrices u0.
Proof.
  intros H. unfold economy_initialiseCommodityPrices.
  by rewrite <- (unassigned_cells_unread _ _ H).
Qed.

Lemma refill_alike (s s2 : R) (c : Z) (u : Universe) :
  alike (fun _ => blank3) u
    (set_systems_stack
       ((fun x => set_sys_averagePrice (refill s s2 c <$> sys_averagePrice x) x)
          <$> systems_stack u) u).
Proof.
  apply alike_intro; try done. intros i.
  cbn [systems_stack set_systems_stack]. rewrite list_lookup_fmap.
  destruct (systems_stack u !! i) as [x|]; [|done]. cbn. f_equal.
  by rewrite <- list_fmap_compose.
Qed.

Lemma twin_spoiled_alike :
  alike (fun _ => blank3)
    (for_systems economy_modifySystemCommodityPrice
       (@calcPrice_all sample_game twin_systems)) twin_spoiled.
Proof. apply refill_alike. Qed.

(** The twin systems with 7, -3 and 42 in the cells of their tables are
    initialised as with 0. *)
Example twin_spoiled_initialised :
  free_modifiers (smooth_and_update twin_spoiled)
  = @economy_initialiseCommodityPrices sample_game twin_systems.
Proof. apply (@initialise_unassigned sample_game), twin_spoiled_alike. Qed.
