(* ===== verification/Pipeline.v ===== *)
(** * Pipeline: what the four passes of the initialiser establish together

    [economy_initialiseCommodityPrices] runs [economy_calcPrice] on every
    good, then three loops over the systems.  A pass on a system writes the
    planets of that system and the table [averagePrice] of that system, and
    reads the tables of its neighbours.  When every planet belongs to one
    system, listed once, the state between two rounds of a loop is [staged]:
    the systems before the round hold what the pass leaves, the others what
    the previous pass left.  The predicates [priced], [adjusted], [line_ok],
    [smoothed] and [final] say what each pass leaves in a price field or in a
    line of a table; [init_input_ok] is what the passes need of the data the
    game loads. *)

From Stdlib Require Import Reals Lra Lia ZArith.
From stdpp Require Import base tactics option list strings.
From S2P Require Import Prelude World Price Initializer.

#[local] Open Scope R_scope.

(** ** The parts of the state a pass leaves alone *)

(** A system without its table. *)
Definition sys_frame (s : StarSystem) : StarSystem := set_sys_averagePrice [] s.

Definition frames (u : Universe) : list StarSystem := sys_frame <$> systems_stack u.

(** The planet pointers of all systems, in the order the loops visit them. *)
Definition all_planets (u : Universe) : list nat := systems_stack u ≫= sys_planets.

(** The commodity pointers of every planet. *)
Definition shape (ps : list Planet) : list (list nat) := pl_commodities <$> ps.

(** The goods behind a planet pointer. *)
Definition goods_at (ps : list Planet) (pi : nat) : list (nat * CommodityPrice) :=
  from_option pl_goods [] (ps !! pi).

(** ** What each pass does to one planet *)

Definition calcPrice_cell `{GameData} (u : Universe) (p : Planet) : Planet :=
  set_pl_goods (calcPrice_good u p <$> pl_goods p) p.

Definition adjust_cell (sys : StarSystem) (p : Planet) : Planet :=
  set_pl_goods (map_cp (system_adjust sys) <$> pl_goods p) p.

Definition blend_cell (u : Universe) (avprice : list CommodityPrice) (p : Planet) : Planet :=
  set_pl_goods (blend_good u avprice <$> pl_goods p) p.

Definition update_cell (u : Universe) (avprice : list CommodityPrice) (p : Planet) : Planet :=
  set_pl_goods (update_good u avprice <$> pl_goods p) p.

(** One good entering the table of pass 2. *)
Definition table_add (u : Universe) (sys : StarSystem) (avprice : list CommodityPrice)
  (g : nat * CommodityPrice) : list CommodityPrice :=
  avprice_add (commodity_name u g.1) (system_adjust sys g.2) avprice.

(** The table pass 2 builds for a system whose planets are all different:
    the goods of its planets, in order, added to the empty table, then the
    means. *)
Definition system_table (u : Universe) (sys : StarSystem) : list CommodityPrice :=
  avprice_mean <$>
    foldl (table_add u sys) [] (sys_planets sys ≫= goods_at (planet_stack u)).

(** ** What each pass leaves *)

(** A price field after pass 1. *)
Definition priced (cp : CommodityPrice) : Prop :=
  0 < cp_price cp /\ 0 < cp_planetPeriod cp /\
  1 / 8 <= cp_planetVariation cp <= 3 / 8 /\ cp_sysVariation cp = 0.

(** A price field after pass 2, and after pass 3: the variations are still
    relative to the price. *)
Definition adjusted (cp : CommodityPrice) : Prop :=
  0 < cp_price cp /\ 0 < cp_planetPeriod cp /\ 0 < cp_sysPeriod cp /\
  0 < cp_planetVariation cp <= 9 / 8 /\ 0 <= cp_sysVariation cp <= 9 / 40.

(** A line of the table while pass 2 adds to it: [updateTime] counts the
    goods added, at most [c] so far. *)
Definition line_acc (c : Z) (a : CommodityPrice) : Prop :=
  (1 <= cp_updateTime a <= c)%Z /\ 0 < cp_price a /\
  0 < cp_planetVariation a <= 9 / 8 * IZR (cp_updateTime a).

(** A line of the table after pass 2. *)
Definition line_ok (a : CommodityPrice) : Prop :=
  0 < cp_price a /\ 0 < cp_planetVariation a <= 9 / 8.

(** A line of the table after pass 3. *)
Definition smoothed (a : CommodityPrice) : Prop := line_ok a /\ 0 < cp_sum a.

(** A good of a planet after pass 2: its table has a line with its name. *)
Definition blended (u : Universe) (avprice : list CommodityPrice)
  (g : nat * CommodityPrice) : Prop :=
  adjusted g.2 /\ commodity_name u g.1 ∈ cp_name <$> avprice.

(** A price field after pass 4: the two amplitudes together are at most
    27/80 of the price. *)
Definition final (cp : CommodityPrice) : Prop :=
  0 < cp_price cp /\ 0 < cp_planetPeriod cp /\ 0 < cp_sysPeriod cp /\
  0 < cp_planetVariation cp /\ 0 <= cp_sysVariation cp /\
  cp_sysVariation cp + cp_planetVariation cp <= 27 / 80 * cp_price cp.

(** ** What the passes need of the data *)

Definition system_ok (ps : list Planet) (sys : StarSystem) : Prop :=
  - 200000 < sys_radius sys < 200000 /\
  - 6000 < sys_nebu_volatility sys /\ - 10000 < sys_interference sys /\
  (Z.of_nat (length (sys_jumps sys)) < INT_MAX)%Z /\
  (Z.of_nat (length (sys_planets sys ≫= goods_at ps)) <= INT64_MAX)%Z.

Definition good_ok `{GameData} (u : Universe) (p : Planet) (g : nat * CommodityPrice) : Prop :=
  0 < cp_price g.2 /\
  exists c, commodity_stack u !! g.1 = Some c /\ calcPrice_input_ok p c.

Definition init_input_ok `{GameData} (u : Universe) : Prop :=
  NoDup (all_planets u) /\
  Forall (system_ok (planet_stack u)) (systems_stack u) /\
  Forall (fun p => Forall (good_ok u p) (pl_goods p)) (planet_stack u).

(** ** The state between two rounds of a loop over the systems

    [k] systems are done.  [SPre] and [Pre] hold of the tables and planets
    of the systems still to do, [SPost] and [Post] of those done; the frames
    of the systems, the catalogue and the commodity pointers of the planets
    are those of [u0], the universe the initialisation started from. *)
Record staged (u0 : Universe) (SPre SPost : StarSystem -> Prop)
    (Pre Post : StarSystem -> Planet -> Prop) (k : nat) (u : Universe) : Prop := mk_staged {
  st_frames : frames u = frames u0;
  st_catalogue : commodity_stack u = commodity_stack u0;
  st_shape : shape (planet_stack u) = shape (planet_stack u0);
  st_sys : forall i sys, systems_stack u !! i = Some sys ->
    if decide (i < k)%nat then SPost sys else SPre sys;
  st_planet : forall i sys pi p,
    systems_stack u !! i = Some sys -> pi ∈ sys_planets sys ->
    planet_stack u !! pi = Some p ->
    if decide (i < k)%nat then Post sys p else Pre sys p
}.

(** The predicates of the four stages. *)
Definition any_system (sys : StarSystem) : Prop := True.
Definition table_ok (sys : StarSystem) : Prop := Forall line_ok (sys_averagePrice sys).
Definition table_smoothed (sys : StarSystem) : Prop := Forall smoothed (sys_averagePrice sys).

Definition planet_priced (sys : StarSystem) (p : Planet) : Prop :=
  Forall (fun g => priced g.2) (pl_goods p).
Definition planet_blended (u0 : Universe) (sys : StarSystem) (p : Planet) : Prop :=
  Forall (blended u0 (sys_averagePrice sys)) (pl_goods p).
Definition planet_final (sys : StarSystem) (p : Planet) : Prop :=
  Forall (fun g => final g.2) (pl_goods p).

(** ** Sample data *)

Definition twin_P0_final : Planet := set_pl_goods [(0%nat, twin_field)] (plain_world "P0").

(** * Theorems *)

(** ** Frames *)

Lemma sys_frame_fields (s s' : StarSystem) :
  sys_frame s = sys_frame s' ->
  sys_planets s = sys_planets s' /\ sys_jumps s = sys_jumps s' /\
  sys_radius s = sys_radius s' /\ sys_nebu_volatility s = sys_nebu_volatility s' /\
  sys_interference s = sys_interference s'.
Proof. destruct s, s'. unfold sys_frame, set_sys_averagePrice. cbn. by intros [=]. Qed.

Lemma frames_lookup (u u0 : Universe) (i : nat) (sys : StarSystem) :
  frames u = frames u0 -> systems_stack u !! i = Some sys ->
  exists sys0, systems_stack u0 !! i = Some sys0 /\ sys_frame sys = sys_frame sys0.
Proof.
  intros Hf Hi. assert (frames u !! i = Some (sys_frame sys)) as Hl.
  { unfold frames. by rewrite list_lookup_fmap, Hi. }
  rewrite Hf in Hl. unfold frames in Hl. rewrite list_lookup_fmap in Hl.
  destruct (systems_stack u0 !! i) as [sys0|]; [|done].
  exists sys0. split; [done|].
  change (Some (sys_frame sys0) = Some (sys_frame sys)) in Hl. congruence.
Qed.

Lemma frames_length (u u0 : Universe) :
  frames u = frames u0 -> length (systems_stack u) = length (systems_stack u0).
Proof. intros Hf. apply (f_equal length) in Hf. unfold frames in Hf. by rewrite !length_fmap in Hf. Qed.

Lemma all_planets_frames (u : Universe) : all_planets u = frames u ≫= sys_planets.
Proof.
  unfold all_planets, frames. induction (systems_stack u) as [|s l IH]; [done|].
  cbn. by rewrite IH.
Qed.

Lemma frames_insert (u : Universe) (k : nat) (sys : StarSystem) (T : list CommodityPrice) :
  systems_stack u !! k = Some sys ->
  sys_frame <$> <[k := set_sys_averagePrice T sys]> (systems_stack u) = frames u.
Proof.
  intros Hk. rewrite list_fmap_insert. apply list_insert_id.
  unfold frames. by rewrite list_lookup_fmap, Hk.
Qed.

Lemma system_ok_frame (ps : list Planet) (s s' : StarSystem) :
  sys_frame s = sys_frame s' -> system_ok ps s -> system_ok ps s'.
Proof.
  intros (Hp & Hj & Hr & Hv & Hi)%sys_frame_fields. unfold system_ok.
  by rewrite Hp, Hj, Hr, Hv, Hi.
Qed.

Lemma commodity_name_catalogue (u u0 : Universe) (k : nat) :
  commodity_stack u = commodity_stack u0 -> commodity_name u k = commodity_name u0 k.
Proof. unfold commodity_name. by intros ->. Qed.

(** ** Shapes *)

Lemma goods_at_length (ps ps' : list Planet) (pi : nat) :
  shape ps = shape ps' -> length (goods_at ps pi) = length (goods_at ps' pi).
Proof.
  intros Hs. apply (f_equal (fun l => l !! pi)) in Hs. unfold shape in Hs.
  rewrite !list_lookup_fmap in Hs. unfold goods_at.
  destruct (ps !! pi) as [p|], (ps' !! pi) as [p'|]; simplify_eq/=; [|done].
  by rewrite <- !pl_commodities_length, Hs.
Qed.

Lemma goods_count_shape (ps ps' : list Planet) (pis : list nat) :
  shape ps = shape ps' ->
  length (pis ≫= goods_at ps) = length (pis ≫= goods_at ps').
Proof.
  intros Hs. induction pis as [|pi pis IH]; [done|].
  cbn. by rewrite !length_app, IH, (goods_at_length ps ps').
Qed.

(** Cells written through some pointers by a function that keeps the
    commodity pointers: the shape stays. *)
Lemma shape_written (F : Planet -> Planet) (js : list nat) (ps ps' : list Planet) :
  (forall pi, ps' !! pi = if decide (pi ∈ js) then F <$> ps !! pi else ps !! pi) ->
  (forall p, pl_commodities (F p) = pl_commodities p) ->
  shape ps' = shape ps.
Proof.
  intros Hl HF. apply list_eq. intros pi. unfold shape.
  rewrite !list_lookup_fmap, Hl. case_decide; [|done].
  destruct (ps !! pi); cbn; by rewrite ?HF.
Qed.

(** ** Rounds *)

Section staged.
Context (u0 : Universe) (SPre SPost : StarSystem -> Prop).
Context (Pre Post : StarSystem -> Planet -> Prop).
Context (Hpart : NoDup (all_planets u0)).

Lemma staged_NoDup (k : nat) (u : Universe) (i : nat) (sys : StarSystem) :
  staged u0 SPre SPost Pre Post k u -> systems_stack u !! i = Some sys ->
  NoDup (sys_planets sys).
Proof.
  intros Hst Hi. destruct (frames_lookup _ _ _ _ (st_frames _ _ _ _ _ _ _ Hst) Hi)
    as (sys0 & Hi0 & (-> & _)%sys_frame_fields).
  apply (NoDup_bind_each sys_planets (systems_stack u0)); [done|].
  by eapply list_elem_of_lookup_2.
Qed.

Lemma staged_disjoint (k : nat) (u : Universe) (i j : nat) (si sj : StarSystem) (pi : nat) :
  staged u0 SPre SPost Pre Post k u ->
  systems_stack u !! i = Some si -> systems_stack u !! j = Some sj -> i <> j ->
  pi ∈ sys_planets si -> pi ∉ sys_planets sj.
Proof.
  intros Hst Hi Hj Hij.
  destruct (frames_lookup _ _ _ _ (st_frames _ _ _ _ _ _ _ Hst) Hi)
    as (si0 & Hi0 & (-> & _)%sys_frame_fields).
  destruct (frames_lookup _ _ _ _ (st_frames _ _ _ _ _ _ _ Hst) Hj)
    as (sj0 & Hj0 & (-> & _)%sys_frame_fields).
  by apply (NoDup_bind_disjoint sys_planets (systems_stack u0) i j).
Qed.

(** One round: the pass replaces the table of system [k] by [T] and writes
    [F] to its planets. *)
Lemma staged_step (k : nat) (u u' : Universe) (sys : StarSystem)
    (T : list CommodityPrice) (F : Planet -> Planet) :
  staged u0 SPre SPost Pre Post k u ->
  systems_stack u !! k = Some sys ->
  systems_stack u' = <[k := set_sys_averagePrice T sys]> (systems_stack u) ->
  commodity_stack u' = commodity_stack u ->
  (forall pi, planet_stack u' !! pi
     = if decide (pi ∈ sys_planets sys) then F <$> planet_stack u !! pi
       else planet_stack u !! pi) ->
  (forall p, pl_commodities (F p) = pl_commodities p) ->
  (SPre sys -> SPost (set_sys_averagePrice T sys)) ->
  (forall pi p, pi ∈ sys_planets sys -> planet_stack u !! pi = Some p -> Pre sys p ->
     Post (set_sys_averagePrice T sys) (F p)) ->
  staged u0 SPre SPost Pre Post (S k) u'.
Proof.
  intros Hst Hk Hsys Hcat Hpl HF HS HP.
  pose proof (st_sys _ _ _ _ _ _ _ Hst k sys Hk) as Hsk.
  rewrite decide_False in Hsk by lia.
  split.
  - rewrite <- (st_frames _ _ _ _ _ _ _ Hst). unfold frames at 1.
    rewrite Hsys. by apply frames_insert.
  - by rewrite Hcat, (st_catalogue _ _ _ _ _ _ _ Hst).
  - rewrite <- (st_shape _ _ _ _ _ _ _ Hst). by eapply shape_written.
  - intros i si Hi. rewrite Hsys in Hi. destruct (decide (i = k)) as [->|Hik].
    + rewrite list_lookup_insert_eq in Hi by by eapply lookup_lt_Some.
      simplify_eq. rewrite decide_True by lia. auto.
    + rewrite list_lookup_insert_ne in Hi by done.
      pose proof (st_sys _ _ _ _ _ _ _ Hst i si Hi) as Hsi.
      repeat case_decide; done || lia.
  - intros i si pi p Hi Hpi Hp. rewrite Hsys in Hi. rewrite Hpl in Hp.
    destruct (decide (i = k)) as [->|Hik].
    + rewrite list_lookup_insert_eq in Hi by by eapply lookup_lt_Some.
      simplify_eq. rewrite decide_True in Hp by done. rewrite decide_True by lia.
      apply fmap_Some in Hp as (q & Hq & ->). apply (HP pi); [done..|].
      pose proof (st_planet _ _ _ _ _ _ _ Hst k sys pi q Hk Hpi Hq) as Hpre.
      by rewrite decide_False in Hpre by lia.
    + rewrite list_lookup_insert_ne in Hi by done.
      rewrite decide_False in Hp by by eapply (staged_disjoint k u i k si sys).
      pose proof (st_planet _ _ _ _ _ _ _ Hst i si pi p Hi Hpi Hp) as Hsi.
      repeat case_decide; done || lia.
Qed.

(** A loop over the systems: every round moves one system on. *)
Lemma for_systems_staged (f : Universe -> nat -> Universe) (u : Universe) :
  staged u0 SPre SPost Pre Post 0 u ->
  (forall k u' sys, staged u0 SPre SPost Pre Post k u' ->
     systems_stack u' !! k = Some sys -> staged u0 SPre SPost Pre Post (S k) (f u' k)) ->
  staged u0 SPre SPost Pre Post (length (systems_stack u0)) (for_systems f u).
Proof.
  intros H0 Hstep. unfold for_systems.
  rewrite <- (frames_length u u0) by apply (st_frames _ _ _ _ _ _ _ H0).
  apply (foldl_seq_inv (staged u0 SPre SPost Pre Post)); [done|].
  intros k u' Hk Hst. rewrite (frames_length u u0) in Hk by apply (st_frames _ _ _ _ _ _ _ H0).
  rewrite <- (frames_length u' u0) in Hk by apply (st_frames _ _ _ _ _ _ _ Hst).
  apply lookup_lt_is_Some_2 in Hk as [sys Hsys]. by eapply Hstep.
Qed.

(** After the last round every system is done: the next loop starts from
    what this one leaves. *)
Lemma staged_all (SPost' : StarSystem -> Prop) (Post' : StarSystem -> Planet -> Prop)
    (u : Universe) :
  staged u0 SPre SPost Pre Post (length (systems_stack u0)) u ->
  staged u0 SPost SPost' Post Post' 0 u.
Proof.
  intros Hst. pose proof (frames_length _ _ (st_frames _ _ _ _ _ _ _ Hst)) as Hlen.
  split; try apply Hst.
  - intros i sys Hi. pose proof (st_sys _ _ _ _ _ _ _ Hst i sys Hi) as H.
    apply lookup_lt_Some in Hi as Hlt. rewrite decide_True in H by lia. done.
  - intros i sys pi p Hi Hpi Hp.
    pose proof (st_planet _ _ _ _ _ _ _ Hst i sys pi p Hi Hpi Hp) as H.
    apply lookup_lt_Some in Hi as Hlt. rewrite decide_True in H by lia. done.
Qed.

End staged.

(** ** Price fields and lines of the table, one step at a time *)

Lemma Rinv_between (d lo : R) : 0 < lo -> lo <= d -> 0 < / d <= / lo.
Proof.
  intros Hlo Hd. split; [apply Rinv_0_lt_compat; lra|].
  apply Rinv_le_contravar; lra.
Qed.

Lemma system_adjust_adjusted (ps : list Planet) (sys : StarSystem) (cp : CommodityPrice) :
  system_ok ps sys -> priced cp -> adjusted (system_adjust sys cp).
Proof.
  intros (Hr & Hv & Hi & Hn & _) (Hp & Hpp & Hpv & Hsv). unfold adjusted. cbn.
  rewrite int32_small by (unfold INT_MAX in *; lia).
  pose proof (Rinv_between (1 - sys_radius sys / 200000) (1 - sys_radius sys / 200000)) as H2.
  pose proof (Rinv_between (1 - sys_radius sys / 300000) (/ 3)) as H3.
  rewrite Rinv_inv in H3.
  assert (0 < IZR (Z.of_nat (length (sys_jumps sys)) + 1)) as Hj by (apply IZR_lt; lia).
  apply Rinv_0_lt_compat in Hj. unfold Rdiv at 3 4 5. rewrite !Rmult_1_l.
  split_and!; try nra.
  repeat apply Rmult_lt_0_compat; lra.
Qed.

Lemma line_acc_mono (c c' : Z) (a : CommodityPrice) :
  (c <= c')%Z -> line_acc c a -> line_acc c' a.
Proof. unfold line_acc. intros ? (? & ? & ?). split; [lia|done]. Qed.

Lemma avprice_add_acc (name : string) (cp : CommodityPrice) (av : list CommodityPrice) (c : Z) :
  adjusted cp -> (0 <= c < INT64_MAX)%Z ->
  Forall (line_acc c) av -> Forall (line_acc (c + 1)) (avprice_add name cp av).
Proof.
  intros (Hp & _ & _ & Hpv & _) Hc Hav.
  induction Hav as [|a av (Hut & Hap & Hapv) Hav IH]; cbn.
  - constructor; [|constructor]. unfold line_acc. cbn. split_and!; lia || lra.
  - case_decide.
    + constructor;
        [|apply (Forall_impl _ _ _ Hav); intros ?; apply line_acc_mono; lia].
      unfold line_acc. cbn. rewrite int64_small by (unfold INT64_MAX in *; lia).
      rewrite plus_IZR. split_and!; lia || lra.
    + constructor; [|done]. apply (line_acc_mono c); [lia|done].
Qed.

Lemma table_fold_acc (u : Universe) (ps : list Planet) (sys : StarSystem)
    (gs : list (nat * CommodityPrice)) (av : list CommodityPrice) (c : Z) :
  system_ok ps sys -> Forall (fun g => priced g.2) gs ->
  (0 <= c)%Z -> (c + Z.of_nat (length gs) <= INT64_MAX)%Z ->
  Forall (line_acc c) av ->
  Forall (line_acc (c + Z.of_nat (length gs))) (foldl (table_add u sys) av gs).
Proof.
  intros Hsys Hgs. revert av c.
  induction Hgs as [|g gs Hg Hgs IH]; intros av c Hc Hlen Hav.
  - cbn. by rewrite Z.add_0_r.
  - cbn [foldl length] in *. rewrite Nat2Z.inj_succ, <- Z.add_succ_comm.
    apply IH; [lia..|]. apply avprice_add_acc; [|lia|done].
    by eapply system_adjust_adjusted.
Qed.

Lemma table_fold_names_keep (u : Universe) (sys : StarSystem)
    (gs : list (nat * CommodityPrice)) (av : list CommodityPrice) (name : string) :
  name ∈ cp_name <$> av -> name ∈ cp_name <$> foldl (table_add u sys) av gs.
Proof.
  intros Hn. apply (foldl_inv (fun av => name ∈ cp_name <$> av)); [done|].
  intros av' g Hav' _. unfold table_add. rewrite avprice_add_names.
  case_decide; [done|]. apply elem_of_app. by left.
Qed.

Lemma table_fold_names (u : Universe) (sys : StarSystem)
    (gs : list (nat * CommodityPrice)) (av : list CommodityPrice) (g : nat * CommodityPrice) :
  g ∈ gs -> commodity_name u g.1 ∈ cp_name <$> foldl (table_add u sys) av gs.
Proof.
  revert av. induction gs as [|g' gs IH]; intros av Hg; [by apply elem_of_nil in Hg|].
  cbn. apply elem_of_cons in Hg as [->|Hg]; [|by apply IH].
  apply table_fold_names_keep. unfold table_add. rewrite avprice_add_names.
  case_decide; [done|]. apply elem_of_app. right. apply list_elem_of_singleton. done.
Qed.

Lemma avprice_mean_ok (c : Z) (a : CommodityPrice) : line_acc c a -> line_ok (avprice_mean a).
Proof.
  intros (Hut & Hp & Hpv). unfold line_ok. cbn.
  assert (1 <= IZR (cp_updateTime a)) as Hn by (apply IZR_le; lia).
  pose proof (Rinv_between (IZR (cp_updateTime a)) 1 ltac:(lra) Hn) as Hi.
  assert (IZR (cp_updateTime a) * / IZR (cp_updateTime a) = 1) as Hone by (field; lra).
  unfold Rdiv. split_and!; nra.
Qed.

Lemma apply_average_adjusted (name : string) (cp : CommodityPrice) (av : list CommodityPrice) :
  Forall line_ok av -> adjusted cp -> adjusted (foldl (apply_average name) cp av).
Proof.
  intros Hav Hcp. apply (foldl_inv adjusted); [done|].
  intros cp' a (Hp & Hpp & Hsp & Hpv & Hsv) Ha.
  rewrite Forall_forall in Hav. destruct (Hav a Ha) as (Hap & Hapv).
  unfold apply_average. case_decide; [|done]. unfold adjusted. cbn. split_and!; lra.
Qed.

Lemma updated_price_final (a cp : CommodityPrice) :
  smoothed a -> adjusted cp -> final (updated_price (updated_average a) cp).
Proof.
  intros ((Hap & Hapv) & Hsum) (Hp & Hpp & Hsp & Hpv & Hsv). unfold final. cbn.
  set (price := 0.25 * cp_price cp + 0.75 * (0.5 * (cp_price a + cp_sum a))).
  assert (0 < price) by (unfold price; lra).
  split_and!; try done; nra.
Qed.

(** Whether a field is [final] is a matter of its five parameters. *)
Lemma final_params (a b : CommodityPrice) : cp_params_eq a b -> final b -> final a.
Proof.
  intros (Hp & Hsv & Hsp & Hpv & Hpp). unfold final.
  by rewrite Hp, Hsv, Hsp, Hpv, Hpp.
Qed.

(** The rounded price of a [final] field. *)
Lemma final_price_bounds (cp : CommodityPrice) (t : R) :
  final cp ->
  (0 <= Ztrunc (price_at cp t + 0.5))%Z /\
  Rabs (IZR (Ztrunc (price_at cp t + 0.5)) - cp_price cp)
  <= 27 / 80 * cp_price cp + / 2.
Proof.
  intros (Hpr & _ & _ & Hpv & Hsv & Hsum).
  pose proof (price_round_bounds cp t) as Hb.
  rewrite !Rabs_pos_eq in Hb by lra. split; [apply Hb; lra|].
  etransitivity; [apply Hb|]; lra.
Qed.

(** ** The passes as writes through the planet pointers *)

Lemma goods_keep (f : nat * CommodityPrice -> nat * CommodityPrice) (p : Planet) :
  (forall g, (f g).1 = g.1) ->
  pl_commodities (set_pl_goods (f <$> pl_goods p) p) = pl_commodities p.
Proof.
  intros Hf. unfold pl_commodities. cbn. rewrite <- list_fmap_compose.
  apply list_fmap_ext. intros _ g _. apply Hf.
Qed.

Lemma adjust_cell_commodities (sys : StarSystem) (p : Planet) :
  pl_commodities (adjust_cell sys p) = pl_commodities p.
Proof. by apply goods_keep. Qed.

Lemma blend_cell_commodities (u : Universe) (av : list CommodityPrice) (p : Planet) :
  pl_commodities (blend_cell u av p) = pl_commodities p.
Proof. by apply goods_keep. Qed.

Lemma update_cell_commodities (u : Universe) (av : list CommodityPrice) (p : Planet) :
  pl_commodities (update_cell u av p) = pl_commodities p.
Proof.
  apply goods_keep. intros g. unfold update_good. by destruct (list_find _ av).
Qed.

Lemma modify_goods_fold (u : Universe) (sys : StarSystem) (goods l : list (nat * CommodityPrice))
    (av : list CommodityPrice) :
  foldl (modify_good u sys) (l, av) goods
  = (l ++ (map_cp (system_adjust sys) <$> goods), foldl (table_add u sys) av goods).
Proof.
  revert l av. induction goods as [|g goods IH]; intros l av; cbn.
  - by rewrite app_nil_r.
  - unfold modify_good at 2. cbn [fst snd]. rewrite IH. by rewrite <- app_assoc.
Qed.

Lemma modify_planet_spec (u : Universe) (sys : StarSystem) (ps : list Planet)
    (av : list CommodityPrice) (pi : nat) :
  modify_planet u sys (ps, av) pi
  = (alter (adjust_cell sys) pi ps, foldl (table_add u sys) av (goods_at ps pi)).
Proof.
  unfold modify_planet, goods_at. cbn [fst snd].
  destruct (ps !! pi) as [p|] eqn:Hp; cbn [from_option].
  - rewrite modify_goods_fold. cbn [fst snd app]. f_equal.
    apply list_eq. intros j. destruct (decide (j = pi)) as [->|Hj].
    + rewrite list_lookup_insert_eq by by eapply lookup_lt_Some.
      by rewrite list_lookup_alter_eq, Hp.
    + by rewrite list_lookup_insert_ne, list_lookup_alter_ne.
  - cbn. f_equal. apply list_eq. intros j. destruct (decide (j = pi)) as [->|Hj].
    + by rewrite list_lookup_alter_eq, Hp.
    + by rewrite list_lookup_alter_ne.
Qed.

Lemma goods_at_alter_ne (f : Planet -> Planet) (ps : list Planet) (pi pj : nat) :
  pi <> pj -> goods_at (alter f pi ps) pj = goods_at ps pj.
Proof. intros Hne. unfold goods_at. by rewrite list_lookup_alter_ne. Qed.

(** The first loop nest of pass 2 on planets that are all different: every
    good is read as the previous pass left it. *)
Lemma modify_fold (u : Universe) (sys : StarSystem) (pis : list nat) (ps : list Planet)
    (av : list CommodityPrice) :
  NoDup pis ->
  foldl (modify_planet u sys) (ps, av) pis
  = (foldl (fun q j => alter (adjust_cell sys) j q) ps pis,
     foldl (table_add u sys) av (pis ≫= goods_at ps)).
Proof.
  intros Hnd. revert ps av. induction Hnd as [|pi pis Hpi Hnd IH]; intros ps av; [done|].
  cbn [foldl]. rewrite modify_planet_spec, IH. cbn. rewrite foldl_app. do 2 f_equal.
  apply Forall_bind_ext, Forall_forall. intros pj Hpj.
  apply goods_at_alter_ne. by intros ->.
Qed.

Lemma modify_systems (u : Universe) (k : nat) (sys : StarSystem) :
  systems_stack u !! k = Some sys -> NoDup (sys_planets sys) ->
  systems_stack (economy_modifySystemCommodityPrice u k)
  = <[k := set_sys_averagePrice (system_table u sys) sys]> (systems_stack u).
Proof.
  intros Hk Hnd. unfold economy_modifySystemCommodityPrice. rewrite Hk.
  by rewrite modify_fold.
Qed.

Lemma modify_planets (u : Universe) (k : nat) (sys : StarSystem) (pi : nat) :
  systems_stack u !! k = Some sys -> NoDup (sys_planets sys) ->
  planet_stack (economy_modifySystemCommodityPrice u k) !! pi
  = if decide (pi ∈ sys_planets sys)
    then (fun p => blend_cell u (system_table u sys) (adjust_cell sys p)) <$> planet_stack u !! pi
    else planet_stack u !! pi.
Proof.
  intros Hk Hnd. unfold economy_modifySystemCommodityPrice. rewrite Hk.
  rewrite modify_fold by done. cbn [fst snd planet_stack set_planet_stack].
  rewrite (foldl_alter_lookup_NoDup (blend_cell u (system_table u sys))) by done.
  rewrite (foldl_alter_lookup_NoDup (adjust_cell sys)) by done.
  case_decide; [|done]. by destruct (planet_stack u !! pi).
Qed.

Lemma calcUpdated_planets (u : Universe) (k : nat) (sys : StarSystem) (pi : nat) :
  systems_stack u !! k = Some sys -> NoDup (sys_planets sys) ->
  planet_stack (economy_calcUpdatedCommodityPrice u k) !! pi
  = if decide (pi ∈ sys_planets sys)
    then update_cell u (updated_average <$> sys_averagePrice sys) <$> planet_stack u !! pi
    else planet_stack u !! pi.
Proof.
  intros Hk Hnd. unfold economy_calcUpdatedCommodityPrice. rewrite Hk.
  cbn [planet_stack set_planet_stack].
  by apply (foldl_alter_lookup_NoDup
              (update_cell u (updated_average <$> sys_averagePrice sys))).
Qed.

(** ** Pass 3 and pass 4 on one line and one good *)

Lemma Rsum_pos (l : list R) : Forall (fun x => 0 < x) l -> l <> [] -> 0 < Rsum l.
Proof.
  intros Hl Hne. destruct Hl as [|x l Hx Hl]; [done|].
  rewrite Rsum_cons. assert (0 <= Rsum l); [|lra].
  apply Rsum_nonneg. eapply Forall_impl; [exact Hl|]. intros; cbn in *; lra.
Qed.

Lemma neighbour_price_pos (u : Universe) (name : string) (jp : JumpPoint) (q : R) :
  (forall i s, systems_stack u !! i = Some s -> table_ok s) ->
  neighbour_price u name jp = Some q -> 0 < q.
Proof.
  unfold neighbour_price. intros Hall H.
  destruct (systems_stack u !! jp_target jp) as [nb|] eqn:Hnb; cbn in H; [|done].
  destruct (list_find _ (sys_averagePrice nb)) as [[j a]|] eqn:Hf; cbn in H; [|done].
  simplify_eq. apply list_find_Some in Hf as (Hj & _).
  by destruct (Forall_lookup_1 _ _ _ _ (Hall _ _ Hnb) Hj).
Qed.

Lemma smooth_entry_name (u : Universe) (sys : StarSystem) (a : CommodityPrice) :
  cp_name (smooth_entry u sys a) = cp_name a.
Proof. unfold smooth_entry. by case_decide. Qed.

Lemma smooth_entry_smoothed (u : Universe) (sys : StarSystem) (a : CommodityPrice) :
  (forall i s, systems_stack u !! i = Some s -> table_ok s) ->
  (Z.of_nat (length (sys_jumps sys)) <= INT_MAX)%Z ->
  line_ok a -> smoothed (smooth_entry u sys a).
Proof.
  intros Hall Hj (Hp & Hpv). unfold smooth_entry.
  rewrite neighbour_fold by (cbn; lia). cbn [fst snd].
  set (ps := omap (neighbour_price u (cp_name a)) (sys_jumps sys)).
  assert (Forall (fun x => 0 < x) ps) as Hps.
  { apply Forall_forall. intros q (jp & _ & Hq)%list_elem_of_omap.
    by eapply neighbour_price_pos. }
  unfold smoothed, line_ok. case_decide as Hn; cbn; [|done].
  split; [done|].
  assert (ps <> []) as Hne by (intros E; rewrite E in Hn; cbn in Hn; lia).
  pose proof (Rsum_pos ps Hps Hne).
  assert (0 < IZR (0 + Z.of_nat (length ps))) by (apply IZR_lt; destruct ps; cbn; done || lia).
  apply Rdiv_lt_0_compat; lra.
Qed.

Lemma update_good_final (u : Universe) (av : list CommodityPrice) (g : nat * CommodityPrice) :
  Forall smoothed av -> blended u av g ->
  final (update_good u (updated_average <$> av) g).2.
Proof.
  intros Hav (Hadj & Hn). unfold update_good.
  destruct (list_find _ _) as [[j a']|] eqn:Hf.
  - apply list_find_Some in Hf as (Hj & _ & _). rewrite list_lookup_fmap in Hj.
    apply fmap_Some in Hj as (a & Ha & ->). cbn.
    apply updated_price_final; [|done]. by eapply Forall_lookup_1.
  - apply list_find_None in Hf. rewrite Forall_fmap, Forall_forall in Hf.
    apply list_elem_of_fmap in Hn as (a & Hname & Ha). by destruct (Hf a Ha).
Qed.

(** ** The four passes move the stages *)

Section passes.
Context `{GD : GameData} (u0 : Universe) (Hin : init_input_ok u0).

Lemma input_partition : NoDup (all_planets u0).
Proof. apply Hin. Qed.

Lemma staged_system_ok SPre SPost Pre Post (k : nat) (u : Universe) (i : nat)
    (sys : StarSystem) :
  staged u0 SPre SPost Pre Post k u -> systems_stack u !! i = Some sys ->
  system_ok (planet_stack u) sys.
Proof.
  intros Hst Hi.
  destruct (frames_lookup _ _ _ _ (st_frames _ _ _ _ _ _ _ Hst) Hi) as (sys0 & Hi0 & Hf).
  destruct Hin as (_ & Hsys & _).
  destruct (Forall_lookup_1 _ _ _ _ Hsys Hi0) as (? & ? & ? & ? & Hc).
  apply (system_ok_frame _ sys0); [done|]. split_and!; try done; try lra.
  by rewrite (goods_count_shape _ (planet_stack u0)) by apply (st_shape _ _ _ _ _ _ _ Hst).
Qed.

Lemma calcPrice_good_priced (q : Planet) (g : nat * CommodityPrice) :
  good_ok u0 q g -> priced (calcPrice_good u0 q g).2.
Proof.
  intros (Hp & c & Hc & Hok). unfold calcPrice_good. rewrite Hc. cbn [snd].
  pose proof (economy_calcPrice_positive q c g.2 Hok Hp) as H. cbv zeta in H.
  unfold priced. tauto.
Qed.

Lemma calcPrice_all_lookup (pi : nat) :
  planet_stack (calcPrice_all u0) !! pi
  = if decide (pi ∈ all_planets u0) then calcPrice_cell u0 <$> planet_stack u0 !! pi
    else planet_stack u0 !! pi.
Proof.
  unfold calcPrice_all. cbn [planet_stack set_planet_stack].
  rewrite (foldl_foldl_bind (calcPrice_planet u0) sys_planets).
  apply (foldl_alter_lookup_NoDup (calcPrice_cell u0)), input_partition.
Qed.

Lemma calcPrice_all_staged SPost Post :
  staged u0 any_system SPost planet_priced Post 0 (calcPrice_all u0).
Proof.
  split; try done.
  - apply (shape_written (calcPrice_cell u0) (all_planets u0)); [apply calcPrice_all_lookup|].
    intros p. apply goods_keep. intros g. unfold calcPrice_good.
    by destruct (commodity_stack u0 !! g.1).
  - intros i sys pi p Hi Hpi Hp. rewrite decide_False by lia.
    rewrite calcPrice_all_lookup, decide_True in Hp
      by (apply list_elem_of_bind; eauto using list_elem_of_lookup_2).
    apply fmap_Some in Hp as (q & Hq & ->). unfold planet_priced. cbn.
    apply Forall_fmap. destruct Hin as (_ & _ & Hgoods).
    eapply Forall_impl; [exact (Forall_lookup_1 _ _ _ _ Hgoods Hq)|].
    intros g. apply calcPrice_good_priced.
Qed.

Lemma staged_goods_priced SPre SPost Post (k : nat) (u : Universe) (sys : StarSystem) :
  staged u0 SPre SPost planet_priced Post k u -> systems_stack u !! k = Some sys ->
  Forall (fun g => priced g.2) (sys_planets sys ≫= goods_at (planet_stack u)).
Proof.
  intros Hst Hk. apply Forall_forall. intros g (pi & Hg & Hpi)%list_elem_of_bind.
  unfold goods_at in Hg.
  destruct (planet_stack u !! pi) as [p|] eqn:Hp; [|by apply elem_of_nil in Hg].
  pose proof (st_planet _ _ _ _ _ _ _ Hst k sys pi p Hk Hpi Hp) as H.
  rewrite decide_False in H by lia. unfold planet_priced in H.
  rewrite Forall_forall in H. auto.
Qed.

Lemma system_table_ok SPre SPost Post (k : nat) (u : Universe) (sys : StarSystem) :
  staged u0 SPre SPost planet_priced Post k u -> systems_stack u !! k = Some sys ->
  Forall line_ok (system_table u sys).
Proof.
  intros Hst Hk. pose proof (staged_system_ok _ _ _ _ _ _ _ _ Hst Hk) as Hok.
  pose proof (table_fold_acc u _ sys _ [] 0 Hok (staged_goods_priced _ _ _ _ _ _ Hst Hk)
                ltac:(lia)) as H.
  unfold system_table. apply Forall_fmap.
  eapply Forall_impl; [apply H; [apply Hok|constructor]|].
  intros a. apply avprice_mean_ok.
Qed.

Lemma system_table_names (u : Universe) (sys : StarSystem) (pi : nat) (p : Planet)
    (g : nat * CommodityPrice) :
  pi ∈ sys_planets sys -> planet_stack u !! pi = Some p -> g ∈ pl_goods p ->
  commodity_name u g.1 ∈ cp_name <$> system_table u sys.
Proof.
  intros Hpi Hp Hg. unfold system_table. rewrite <- list_fmap_compose.
  apply table_fold_names, list_elem_of_bind. exists pi. split; [|done].
  unfold goods_at. by rewrite Hp.
Qed.

(** Pass 2 on system [k]. *)
Lemma modify_staged (k : nat) (u : Universe) (sys : StarSystem) :
  staged u0 any_system table_ok planet_priced (planet_blended u0) k u ->
  systems_stack u !! k = Some sys ->
  staged u0 any_system table_ok planet_priced (planet_blended u0) (S k)
    (economy_modifySystemCommodityPrice u k).
Proof.
  intros Hst Hk. pose proof (staged_NoDup _ _ _ _ _ input_partition _ _ _ _ Hst Hk) as Hnd.
  pose proof (system_table_ok _ _ _ _ _ _ Hst Hk) as HT.
  apply (staged_step u0 _ _ _ _ input_partition k u _ sys (system_table u sys)
           (fun p => blend_cell u (system_table u sys) (adjust_cell sys p))); try done.
  - by apply modify_systems.
  - apply modify_commodity_stack.
  - intros pi. by apply modify_planets.
  - intros p. by rewrite blend_cell_commodities, adjust_cell_commodities.
  - intros pi p Hpi Hp Hpre. unfold planet_blended, blend_cell, adjust_cell. cbn.
    rewrite <- list_fmap_compose. apply Forall_fmap, Forall_forall. intros g Hg.
    unfold planet_priced in Hpre. rewrite Forall_forall in Hpre. split; cbn.
    + apply apply_average_adjusted; [done|].
      eapply system_adjust_adjusted; [by eapply staged_system_ok|auto].
    + rewrite <- (commodity_name_catalogue u u0) by apply (st_catalogue _ _ _ _ _ _ _ Hst).
      by eapply system_table_names.
Qed.

Lemma staged_tables_ok Pre Post (k : nat) (u : Universe) (i : nat) (s : StarSystem) :
  staged u0 table_ok table_smoothed Pre Post k u -> systems_stack u !! i = Some s ->
  table_ok s.
Proof.
  intros Hst Hi. pose proof (st_sys _ _ _ _ _ _ _ Hst i s Hi) as H.
  case_decide; [|done]. eapply Forall_impl; [exact H|]. by intros a [? _].
Qed.

(** Pass 3 on system [k]. *)
Lemma smooth_staged (k : nat) (u : Universe) (sys : StarSystem) :
  staged u0 table_ok table_smoothed (planet_blended u0) (planet_blended u0) k u ->
  systems_stack u !! k = Some sys ->
  staged u0 table_ok table_smoothed (planet_blended u0) (planet_blended u0) (S k)
    (economy_smoothCommodityPrice u k).
Proof.
  intros Hst Hk.
  destruct (staged_system_ok _ _ _ _ _ _ _ _ Hst Hk) as (_ & _ & _ & Hj%Z.lt_le_incl & _).
  apply (staged_step u0 _ _ _ _ input_partition k u _ sys
           (smooth_entry u sys <$> sys_averagePrice sys) (fun p => p)); try done.
  - unfold economy_smoothCommodityPrice. by rewrite Hk.
  - unfold economy_smoothCommodityPrice. by rewrite Hk.
  - intros pi. unfold economy_smoothCommodityPrice. rewrite Hk. cbn.
    case_decide; [|done]. by destruct (planet_stack u !! pi).
  - intros Hpre. unfold table_smoothed. cbn. apply Forall_fmap.
    eapply Forall_impl; [exact Hpre|]. intros a Ha.
    apply smooth_entry_smoothed; [|done..]. intros i s.
    exact (staged_tables_ok _ _ k u i s Hst).
  - intros pi p Hpi Hp Hpre. unfold planet_blended in *. cbn.
    eapply Forall_impl; [exact Hpre|]. intros g [Ha Hn]. split; [done|].
    rewrite <- list_fmap_compose.
    rewrite (list_fmap_ext (cp_name ∘ smooth_entry u sys) cp_name); [done|].
    intros _ a _. apply smooth_entry_name.
Qed.

(** Pass 4 on system [k]. *)
Lemma calcUpdated_staged (k : nat) (u : Universe) (sys : StarSystem) :
  staged u0 table_smoothed any_system (planet_blended u0) planet_final k u ->
  systems_stack u !! k = Some sys ->
  staged u0 table_smoothed any_system (planet_blended u0) planet_final (S k)
    (economy_calcUpdatedCommodityPrice u k).
Proof.
  intros Hst Hk. pose proof (staged_NoDup _ _ _ _ _ input_partition _ _ _ _ Hst Hk) as Hnd.
  pose proof (st_sys _ _ _ _ _ _ _ Hst k sys Hk) as HT. rewrite decide_False in HT by lia.
  apply (staged_step u0 _ _ _ _ input_partition k u _ sys []
           (update_cell u (updated_average <$> sys_averagePrice sys))); try done.
  - unfold economy_calcUpdatedCommodityPrice. by rewrite Hk.
  - apply calcUpdated_commodity_stack.
  - intros pi. by apply calcUpdated_planets.
  - apply update_cell_commodities.
  - intros pi p Hpi Hp Hpre. unfold planet_final, update_cell. cbn.
    apply Forall_fmap. eapply Forall_impl; [exact Hpre|]. intros g [Ha Hn].
    apply update_good_final; [done|]. split; [done|].
    by rewrite (commodity_name_catalogue u u0) by apply (st_catalogue _ _ _ _ _ _ _ Hst).
Qed.

(** The state after the fourth pass. *)
Lemma initialised_staged :
  staged u0 table_smoothed any_system (planet_blended u0) planet_final
    (length (systems_stack u0))
    (for_systems economy_calcUpdatedCommodityPrice
       (for_systems economy_smoothCommodityPrice
          (for_systems economy_modifySystemCommodityPrice (calcPrice_all u0)))).
Proof.
  apply for_systems_staged; [|apply calcUpdated_staged].
  apply (staged_all u0 table_ok table_smoothed (planet_blended u0) (planet_blended u0)).
  apply for_systems_staged; [|apply smooth_staged].
  apply (staged_all u0 any_system table_ok planet_priced (planet_blended u0)).
  apply for_systems_staged; [|apply modify_staged].
  apply calcPrice_all_staged.
Qed.

Lemma initialised_final (pi : nat) (p : Planet) :
  pi ∈ all_planets u0 ->
  planet_stack (economy_initialiseCommodityPrices u0) !! pi = Some p ->
  Forall (fun g => final g.2) (pl_goods p).
Proof.
  intros (sys0 & Hpi & (i & Hi0)%list_elem_of_lookup_1)%list_elem_of_bind Hp.
  pose proof initialised_staged as Hst.
  destruct (frames_lookup u0 _ i sys0 (eq_sym (st_frames _ _ _ _ _ _ _ Hst)) Hi0)
    as (sys & Hi & (Hpl & _)%sys_frame_fields).
  rewrite Hpl in Hpi.
  pose proof (st_planet _ _ _ _ _ _ _ Hst i sys pi p Hi Hpi Hp) as H.
  apply lookup_lt_Some in Hi0. by rewrite decide_True in H by lia.
Qed.

(** After the initialisation every price the evaluator answers for a
    planet of a system is non-negative and within 27/80 of the base price of
    the field, and the half unit of rounding, at every time. *)
Theorem economy_initialised_price_bounds (pi : nat) (p : Planet) (com : nat) (tme : Z)
    (cp : CommodityPrice) :
  pi ∈ all_planets u0 ->
  planet_stack (economy_initialiseCommodityPrices u0) !! pi = Some p ->
  find_commodityPrice (economy_initialiseCommodityPrices u0) com p = inr cp ->
  (0 <= economy_getPriceAtTime (economy_initialiseCommodityPrices u0) com p tme)%Z /\
  Rabs (IZR (economy_getPriceAtTime (economy_initialiseCommodityPrices u0) com p tme)
        - cp_price cp)
  <= 27 / 80 * cp_price cp + / 2.
Proof.
  intros Hpi Hp Hf. pose proof (initialised_final pi p Hpi Hp) as H.
  destruct (find_commodityPrice_inr _ _ _ _ Hf) as (_ & i & c & Hi & _).
  unfold economy_getPriceAtTime. rewrite Hf. apply final_price_bounds.
  exact (Forall_lookup_1 _ _ _ _ H Hi).
Qed.

End passes.

(** C4.  After [economy_initialiseCommodityPrices] on data that meets
    [init_input_ok], every price field of every planet of a system has a
    positive price, positive periods, a positive planet amplitude and a
    system amplitude that is not negative, and the two amplitudes together
    are at most 27/80 of the price.  [init_input_ok] asks that no planet is
    listed twice, by one system or by two; that every system has a radius
    below 200000 in absolute value, a nebula volatility above -6000, an
    interference above -10000, fewer than [INT_MAX] jumps and at most
    [INT64_MAX] goods on its planets; and that every good of every planet
    has a positive base price and a commodity of the catalogue whose
    modifiers found for the class and the faction of the planet are
    positive, whose population modifier is below 1 in absolute value and
    whose period is not negative, on a planet with a presence range below
    30. *)
Theorem economy_initialiseCommodityPrices_fields `{GD : GameData} (u0 : Universe)
    (pi : nat) (p : Planet) (c : nat) (cp : CommodityPrice) :
  init_input_ok u0 ->
  pi ∈ all_planets u0 ->
  planet_stack (economy_initialiseCommodityPrices u0) !! pi = Some p ->
  (c, cp) ∈ pl_goods p ->
  0 < cp_price cp /\ 0 < cp_planetPeriod cp /\ 0 < cp_sysPeriod cp /\
  0 < cp_planetVariation cp /\ 0 <= cp_sysVariation cp /\
  cp_sysVariation cp + cp_planetVariation cp <= 27 / 80 * cp_price cp.
Proof.
  intros Hin Hpi Hp Hg. pose proof (initialised_final u0 Hin pi p Hpi Hp) as H.
  rewrite Forall_forall in H. exact (H (c, cp) Hg).
Qed.

(** ** The twin systems satisfy the conditions *)

Lemma twin_input_ok : @init_input_ok sample_game twin_systems.
Proof.
  split_and!.
  - by apply (bool_decide_unpack _).
  - repeat (constructor; [unfold system_ok, INT_MAX, INT64_MAX; cbn; split_and!; lra || lia|]).
    constructor.
  - repeat (constructor; [repeat constructor; cbn; try lra|]); try constructor.
    all: exists plain_ore; split; [done|]; unfold calcPrice_input_ok; cbn;
      rewrite Rabs_R0; split_and!; lra || lia.
Qed.

Lemma twin_P0_initialised :
  planet_stack (@economy_initialiseCommodityPrices sample_game twin_systems) !! 0%nat
  = Some twin_P0_final.
Proof. real_compute. Qed.

Lemma economy_initialiseCommodityPrices_fields_witness :
  0 < cp_price twin_field /\ 0 < cp_planetPeriod twin_field /\
  0 < cp_sysPeriod twin_field /\ 0 < cp_planetVariation twin_field /\
  0 <= cp_sysVariation twin_field /\
  cp_sysVariation twin_field + cp_planetVariation twin_field
  <= 27 / 80 * cp_price twin_field.
Proof.
  apply (@economy_initialiseCommodityPrices_fields sample_game twin_systems
           0%nat twin_P0_final 0%nat twin_field).
  - exact twin_input_ok.
  - by apply (bool_decide_unpack _).
  - exact twin_P0_initialised.
  - apply list_elem_of_here.
Defined.

Lemma economy_initialised_price_bounds_witness :
  (0 <= economy_getPriceAtTime (@economy_initialiseCommodityPrices sample_game twin_systems)
          0 twin_P0_final 12345678)%Z /\
  Rabs (IZR (economy_getPriceAtTime
               (@economy_initialiseCommodityPrices sample_game twin_systems)
               0 twin_P0_final 12345678) - 100)
  <= 27 / 80 * 100 + / 2.
Proof.
  apply (@economy_initialised_price_bounds sample_game twin_systems twin_input_ok
           0%nat twin_P0_final 0%nat 12345678 twin_field).
  - by apply (bool_decide_unpack _).
  - exact twin_P0_initialised.
  - reflexivity.
Defined.
