(* ===== verification/Frame.v ===== *)
(** * Frame: what the four passes of the initialisation do not write

    The passes write the price fields of the planets and the tables of
    averages of the systems, and free the modifiers of the commodities;
    everything else of the universe is as the data of the game gave it.

    [same_frame h] relates two universes with the same priced set, the same
    systems but for their tables, and planets that [h] reads alike, for any
    reading [h] of a planet that does not look at its price fields
    ([price_blind]): the name, the commodity pointers.  So the shape of the
    universe ([same_shape]), the conditions on the star map
    ([well_connected]) and the names are those of the data. *)

From Stdlib Require Import Reals Lra Lia ZArith.
From stdpp Require Import base tactics option list strings.
From S2P Require Import Prelude World Price Observation Network Economy.
From S2P Require Import Initializer Pipeline.

#[local] Open Scope R_scope.

(** ** What the passes of the initialisation leave alone *)

(** [h] reads nothing of the price fields of a planet: rewriting them,
    with the commodity pointers kept, does not change it. *)
Definition price_blind {A : Type} (h : Planet -> A) : Prop :=
  forall (f : nat * CommodityPrice -> nat * CommodityPrice) (p : Planet),
    (forall g, (f g).1 = g.1) -> h (set_pl_goods (f <$> pl_goods p) p) = h p.

(** Two universes with the same priced set, the same systems but for their
    tables of averages, and planets that [h] reads alike. *)
Definition same_frame {A : Type} (h : Planet -> A) (u u' : Universe) : Prop :=
  econ_comm u' = econ_comm u /\ frames u' = frames u /\
  h <$> planet_stack u' = h <$> planet_stack u.

(** * Theorems *)

(** ** Universes with the same frame *)

#[global] Instance same_frame_preorder {A : Type} (h : Planet -> A) : PreOrder (same_frame h).
Proof.
  split; [by intros u|].
  intros u1 u2 u3 (He & Hf & Hp) (He' & Hf' & Hp'). split_and!; congruence.
Qed.

Lemma frames_links (u u' : Universe) :
  frames u' = frames u -> sys_links <$> systems_stack u' = sys_links <$> systems_stack u.
Proof.
  intros Hf. apply (f_equal (fmap sys_links)) in Hf. unfold frames in Hf.
  by rewrite <- !list_fmap_compose in Hf.
Qed.

Lemma sys_frame_net (s s' : StarSystem) :
  sys_frame s = sys_frame s' ->
  sys_id s = sys_id s' /\ sys_jumps s = sys_jumps s' /\
  sys_nebu_density s = sys_nebu_density s' /\
  sys_nebu_volatility s = sys_nebu_volatility s'.
Proof. destruct s, s'. unfold sys_frame, set_sys_averagePrice. cbn. by intros [=]. Qed.

Lemma bind_frames {B : Type} (g : StarSystem -> list B) (u : Universe) :
  (forall s, g (sys_frame s) = g s) -> frames u ≫= g = systems_stack u ≫= g.
Proof.
  intros Hg. unfold frames. induction (systems_stack u) as [|s l IH]; [done|].
  cbn. by rewrite Hg, IH.
Qed.

(** The conditions on the star map read the frames of the systems only. *)
Lemma well_connected_frames (u u' : Universe) :
  frames u' = frames u -> well_connected u -> well_connected u'.
Proof.
  intros Hf (Hid & Hself & Hneb & Hin). split_and!.
  - intros i s Hs.
    destruct (frames_lookup _ _ _ _ Hf Hs) as (s0 & Hs0 & (Hi & _)%sys_frame_net).
    rewrite Hi. by apply Hid.
  - intros i s Hs.
    destruct (frames_lookup _ _ _ _ Hf Hs) as (s0 & Hs0 & (_ & Hj & _)%sys_frame_net).
    rewrite Hj. by apply (Hself i).
  - apply Forall_lookup. intros i s Hs.
    destruct (frames_lookup _ _ _ _ Hf Hs) as (s0 & Hs0 & (_ & _ & Hd & Hv)%sys_frame_net).
    rewrite Hd, Hv. exact (Forall_lookup_1 _ _ _ _ Hneb Hs0).
  - intros i. unfold incoming_jumps.
    rewrite <- (bind_frames sys_jumps u'), Hf, bind_frames by (by intros []). apply Hin.
Qed.

Lemma price_blind_commodities : price_blind pl_commodities.
Proof. intros f p Hf. by apply goods_keep. Qed.

Lemma price_blind_name : price_blind pl_name.
Proof. by intros f p Hf. Qed.

(** ** The four passes keep the frame *)

Section passes.
Context `{GD : GameData} {A : Type} (h : Planet -> A) (Hh : price_blind h).

Lemma calcPrice_all_frame (u : Universe) : same_frame h u (calcPrice_all u).
Proof.
  split_and!; try done. unfold calcPrice_all. cbn [planet_stack set_planet_stack].
  rewrite (foldl_foldl_bind (calcPrice_planet u) sys_planets).
  apply (fmap_foldl_alter_fixed h (calcPrice_cell u)). intros p. apply Hh.
  intros g. unfold calcPrice_good. by destruct (commodity_stack u !! g.1).
Qed.

Lemma modify_fold_frame (u : Universe) (sys : StarSystem) (pis : list nat)
    (acc : list Planet * list CommodityPrice) :
  h <$> (foldl (modify_planet u sys) acc pis).1 = h <$> acc.1.
Proof.
  apply (foldl_inv (fun a => h <$> a.1 = h <$> acc.1)); [done|].
  intros [ps av] pi Hps _. rewrite modify_planet_spec. cbn [fst] in *.
  rewrite <- Hps. apply fmap_alter_fixed. intros p. by apply Hh.
Qed.

Lemma modifySystem_frame (u : Universe) (i : nat) :
  same_frame h u (economy_modifySystemCommodityPrice u i).
Proof.
  unfold economy_modifySystemCommodityPrice.
  destruct (systems_stack u !! i) as [sys|] eqn:Hi; [|done].
  split_and!; [done|by apply frames_insert|]. cbn.
  etrans; [apply (fmap_foldl_alter_fixed h (blend_cell u _)); intros p; by apply Hh|].
  apply modify_fold_frame.
Qed.

Lemma smooth_frame (u : Universe) (i : nat) :
  same_frame h u (economy_smoothCommodityPrice u i).
Proof.
  unfold economy_smoothCommodityPrice.
  destruct (systems_stack u !! i) as [sys|] eqn:Hi; [|done].
  split_and!; [done|by apply frames_insert|done].
Qed.

Lemma calcUpdated_frame (u : Universe) (i : nat) :
  same_frame h u (economy_calcUpdatedCommodityPrice u i).
Proof.
  unfold economy_calcUpdatedCommodityPrice.
  destruct (systems_stack u !! i) as [sys|] eqn:Hi; [|done].
  split_and!; [done|by apply frames_insert|]. cbn.
  apply (fmap_foldl_alter_fixed h (update_cell u _)). intros p. apply Hh.
  intros g. unfold update_good. by destruct (list_find _ _).
Qed.

Lemma for_systems_frame (f : Universe -> nat -> Universe) (u : Universe) :
  (forall u i, same_frame h u (f u i)) -> same_frame h u (for_systems f u).
Proof.
  intros Hf. unfold for_systems. apply (foldl_inv (same_frame h u)); [done|].
  intros u' i Hu' _. by etrans.
Qed.

(** The initialisation writes price fields and tables of averages, and
    frees the modifiers: the frame is the one it started with. *)
Lemma initialise_frame (u : Universe) :
  same_frame h u (economy_initialiseCommodityPrices u).
Proof.
  unfold economy_initialiseCommodityPrices.
  etrans; [apply calcPrice_all_frame|].
  etrans; [apply for_systems_frame, modifySystem_frame|].
  etrans; [apply for_systems_frame, smooth_frame|].
  etrans; [apply for_systems_frame, calcUpdated_frame|].
  done.
Qed.

End passes.

Lemma initialise_shape `{GD : GameData} (u : Universe) :
  same_shape u (economy_initialiseCommodityPrices u).
Proof.
  destruct (initialise_frame pl_commodities price_blind_commodities u) as (He & Hf & Hp).
  split_and!; [|done|symmetry; by apply frames_links|done].
  by rewrite economy_initialiseCommodityPrices_catalogue, length_fmap.
Qed.
