(* ===== verification/Tables.v ===== *)
(** * Tables: the averages of pass 2 in closed form

    [economy_modifySystemCommodityPrice] builds the table [avprice] of a
    system with a search loop: every good of every planet of the system is
    looked up by name, added to the line found or appended as a new line,
    and the sums are divided by the count that the code keeps in
    [updateTime].

    Here the table is given without the loop ([table_means]): one line per
    name in the order in which the names first occur, holding the
    arithmetic means, over the goods of that name, of the five parameters the
    first half of the pass has left in their price fields.  The loop
    computes it as long as the count fits an [int64_t]. *)

From Stdlib Require Import Reals Lra Lia ZArith.
From stdpp Require Import base tactics option list strings.
From S2P Require Import Prelude World Price Initializer Pipeline.

#[local] Open Scope R_scope.

(** ** The reference *)

(** What the loop adds to the table, one entry per good: the name of the
    good and its price field after [system_adjust]. *)
Definition system_entries (u : Universe) (sys : StarSystem) : list (string * CommodityPrice) :=
  (fun g => (commodity_name u g.1, system_adjust sys g.2))
    <$> (sys_planets sys ≫= goods_at (planet_stack u)).

(** The search loop on a list of entries. *)
Definition table_fold (es : list (string * CommodityPrice)) : list CommodityPrice :=
  foldl (fun av e => avprice_add e.1 e.2 av) [] es.

(** The names in the order of their first occurrence. *)
Definition names_order (es : list (string * CommodityPrice)) : list string :=
  foldl (fun ns e => if decide (e.1 ∈ ns) then ns else ns ++ [e.1]) [] es.

(** The fields entered under a name, in their order. *)
Definition named (n : string) (es : list (string * CommodityPrice)) : list CommodityPrice :=
  snd <$> filter (fun e => e.1 = n) es.

(** A line of sums, and a line of means. *)
Definition line_total (n : string) (cps : list CommodityPrice) : CommodityPrice :=
  mkCommodityPrice n (Rsum (cp_price <$> cps)) (Rsum (cp_planetPeriod <$> cps))
    (Rsum (cp_sysPeriod <$> cps)) (Rsum (cp_planetVariation <$> cps))
    (Rsum (cp_sysVariation <$> cps)) (Z.of_nat (length cps)) 0 0 0.

Definition mean_over (f : CommodityPrice -> R) (cps : list CommodityPrice) : R :=
  Rsum (f <$> cps) / INR (length cps).

Definition line_mean (n : string) (cps : list CommodityPrice) : CommodityPrice :=
  mkCommodityPrice n (mean_over cp_price cps) (mean_over cp_planetPeriod cps)
    (mean_over cp_sysPeriod cps) (mean_over cp_planetVariation cps)
    (mean_over cp_sysVariation cps) (Z.of_nat (length cps)) 0 0 0.

Definition table_totals (es : list (string * CommodityPrice)) : list CommodityPrice :=
  (fun n => line_total n (named n es)) <$> names_order es.

Definition table_means (es : list (string * CommodityPrice)) : list CommodityPrice :=
  (fun n => line_mean n (named n es)) <$> names_order es.

(** * Theorems *)

(** ** Names and the fields under a name *)

Lemma names_order_snoc (es : list (string * CommodityPrice)) (e : string * CommodityPrice) :
  names_order (es ++ [e])
  = if decide (e.1 ∈ names_order es) then names_order es else names_order es ++ [e.1].
Proof. unfold names_order. by rewrite foldl_snoc. Qed.

Lemma names_order_elem (n : string) (es : list (string * CommodityPrice)) :
  n ∈ names_order es <-> n ∈ es.*1.
Proof.
  induction es as [|e es IH] using rev_ind; [done|].
  rewrite names_order_snoc, fmap_app, elem_of_app. cbn.
  rewrite list_elem_of_singleton, <- IH.
  case_decide; [|rewrite elem_of_app, list_elem_of_singleton; tauto].
  split; [tauto|]. by intros [?| ->].
Qed.

Lemma names_order_NoDup (es : list (string * CommodityPrice)) : NoDup (names_order es).
Proof.
  induction es as [|e es IH] using rev_ind; [constructor|].
  rewrite names_order_snoc. case_decide; [done|].
  apply NoDup_app. split_and!; [done| |apply NoDup_singleton].
  intros m Hm ->%list_elem_of_singleton. done.
Qed.

Lemma named_snoc (n : string) (es : list (string * CommodityPrice)) (e : string * CommodityPrice) :
  named n (es ++ [e]) = named n es ++ (if decide (e.1 = n) then [e.2] else []).
Proof.
  unfold named. rewrite filter_app, fmap_app. f_equal.
  rewrite (filter_singleton _ e es). by case_decide.
Qed.

Lemma named_none (n : string) (es : list (string * CommodityPrice)) :
  n ∉ es.*1 -> named n es = [].
Proof.
  intros Hn. unfold named. induction es as [|e es IH]; [done|].
  rewrite fmap_cons, not_elem_of_cons in Hn. destruct Hn as [Hne Hn].
  rewrite filter_cons, decide_False by done. by apply IH.
Qed.

Lemma named_length (n : string) (es : list (string * CommodityPrice)) :
  (length (named n es) <= length es)%nat.
Proof. unfold named. rewrite length_fmap. apply length_filter. Qed.

(** ** Lines *)

Lemma avprice_new_total (n : string) (cp : CommodityPrice) :
  avprice_new n cp = line_total n [cp].
Proof. unfold avprice_new, line_total. cbn. f_equal; lra. Qed.

Lemma avprice_acc_total (n : string) (cps : list CommodityPrice) (cp : CommodityPrice) :
  (Z.of_nat (length cps) < INT64_MAX)%Z ->
  avprice_acc (line_total n cps) cp = line_total n (cps ++ [cp]).
Proof.
  intros Hn. unfold avprice_acc, line_total. cbn.
  rewrite int64_small by (unfold INT64_MAX in *; lia).
  rewrite !fmap_app, !Rsum_app, length_app. cbn.
  f_equal; lra || lia.
Qed.

Lemma avprice_mean_total (n : string) (cps : list CommodityPrice) :
  avprice_mean (line_total n cps) = line_mean n cps.
Proof.
  unfold avprice_mean, line_total, line_mean, mean_over. cbn.
  by rewrite <- INR_IZR_INZ.
Qed.

(** ** The search loop on a table with one line per name *)

Lemma avprice_add_fmap (L : string -> CommodityPrice) (n : string) (cp : CommodityPrice)
    (ns : list string) :
  (forall m, cp_name (L m) = m) -> NoDup ns ->
  avprice_add n cp (L <$> ns)
  = if decide (n ∈ ns)
    then (fun m => if decide (m = n) then avprice_acc (L m) cp else L m) <$> ns
    else (L <$> ns) ++ [avprice_new n cp].
Proof.
  intros HL. induction 1 as [|m ns Hm Hnd IH]; cbn.
  { by rewrite decide_False by apply not_elem_of_nil. }
  rewrite HL. destruct (decide (n = m)) as [->|Hne].
  - rewrite decide_True by apply list_elem_of_here. cbn.
    rewrite decide_True by done. f_equal.
    apply list_fmap_ext. intros i m' Hi. rewrite decide_False; [done|].
    intros ->. by apply list_elem_of_lookup_2 in Hi.
  - rewrite IH. destruct (decide (n ∈ ns)) as [Hin|Hin].
    + rewrite decide_True by (by apply list_elem_of_further). cbn.
      by rewrite decide_False by done.
    + rewrite decide_False by (by apply not_elem_of_cons). done.
Qed.

(** The loop computes the sums. *)
Lemma table_fold_totals (es : list (string * CommodityPrice)) :
  (Z.of_nat (length es) <= INT64_MAX)%Z -> table_fold es = table_totals es.
Proof.
  induction es as [|e es IH] using rev_ind; [done|]. intros Hlen.
  rewrite length_app in Hlen. cbn in Hlen.
  unfold table_fold. rewrite foldl_snoc. fold (table_fold es).
  rewrite IH by lia. unfold table_totals at 1.
  rewrite (avprice_add_fmap (fun n => line_total n (named n es)))
    by (done || apply names_order_NoDup).
  unfold table_totals. rewrite names_order_snoc.
  destruct (decide (e.1 ∈ names_order es)) as [Hin|Hin].
  - apply list_fmap_ext. intros i m _. rewrite named_snoc.
    destruct (decide (m = e.1)) as [->|Hne].
    + rewrite decide_True by done. apply avprice_acc_total.
      pose proof (named_length e.1 es). lia.
    + rewrite decide_False by done. by rewrite app_nil_r.
  - rewrite fmap_app. cbn. f_equal.
    + apply list_fmap_ext. intros i m Hi. rewrite named_snoc.
      rewrite decide_False; [by rewrite app_nil_r|].
      intros <-. by apply list_elem_of_lookup_2 in Hi.
    + rewrite named_snoc, decide_True by done.
      rewrite named_none by (by rewrite <- names_order_elem).
      by rewrite avprice_new_total.
Qed.

Lemma table_fold_entries (u : Universe) (sys : StarSystem) (gs : list (nat * CommodityPrice)) :
  foldl (table_add u sys) [] gs
  = table_fold ((fun g => (commodity_name u g.1, system_adjust sys g.2)) <$> gs).
Proof. unfold table_fold. by rewrite foldl_fmap. Qed.

(** The table of a system is the table of means of its entries. *)
Lemma system_table_means (u : Universe) (sys : StarSystem) :
  (Z.of_nat (length (system_entries u sys)) <= INT64_MAX)%Z ->
  system_table u sys = table_means (system_entries u sys).
Proof.
  intros Hlen. unfold system_table. rewrite table_fold_entries.
  fold (system_entries u sys). rewrite table_fold_totals by done.
  unfold table_totals, table_means. rewrite <- list_fmap_compose.
  apply list_fmap_ext. intros i n _. apply avprice_mean_total.
Qed.

(** A line of the table of means: the name occurs among the entries, and
    the line holds the means over the fields entered under it. *)
Lemma table_means_line (es : list (string * CommodityPrice)) (a : CommodityPrice) :
  a ∈ table_means es ->
  cp_name a ∈ es.*1 /\ named (cp_name a) es <> [] /\
  a = line_mean (cp_name a) (named (cp_name a) es).
Proof.
  unfold table_means. intros (n & -> & Hn)%list_elem_of_fmap. cbn.
  apply names_order_elem in Hn. split_and!; [done| |done].
  apply list_elem_of_fmap in Hn as ([n' cp] & -> & He). unfold named.
  intros Hnil%fmap_nil_inv.
  exact (filter_nil_not_elem_of _ es (n', cp) Hnil eq_refl He).
Qed.

(** C20.  Pass 2 on the system [k], whose planets are all different and
    hold no more goods than an [int64_t] counts: the table it leaves in
    [averagePrice] has one line per name of a good of the system, in the
    order in which the names first occur, and the line of a name holds the
    arithmetic means of price, periods and variations over the goods of that
    name, as [system_adjust] has left them. *)
Theorem economy_modifySystemCommodityPrice_table (u : Universe) (k : nat) (sys : StarSystem) :
  systems_stack u !! k = Some sys -> NoDup (sys_planets sys) ->
  (Z.of_nat (length (system_entries u sys)) <= INT64_MAX)%Z ->
  sys_averagePrice <$> systems_stack (economy_modifySystemCommodityPrice u k) !! k
  = Some (table_means (system_entries u sys)) /\
  cp_name <$> table_means (system_entries u sys) = names_order (system_entries u sys) /\
  Forall (fun a => named (cp_name a) (system_entries u sys) <> [] /\
                   a = line_mean (cp_name a) (named (cp_name a) (system_entries u sys)))
    (table_means (system_entries u sys)).
Proof.
  intros Hk Hnd Hlen. split_and!.
  - rewrite (modify_systems u k sys) by done.
    rewrite list_lookup_insert_eq by (by eapply lookup_lt_Some). cbn.
    by rewrite system_table_means.
  - unfold table_means. rewrite <- list_fmap_compose. apply list_fmap_id.
  - apply Forall_forall. intros a Ha. by destruct (table_means_line _ a Ha) as (_ & ? & ?).
Qed.

(** ** The twin systems *)

Lemma economy_modifySystemCommodityPrice_table_witness :
  sys_averagePrice <$> systems_stack (economy_modifySystemCommodityPrice twin_systems 0) !! 0%nat
  = Some (table_means (system_entries twin_systems twin_A)) /\
  cp_name <$> table_means (system_entries twin_systems twin_A)
  = names_order (system_entries twin_systems twin_A) /\
  Forall (fun a => named (cp_name a) (system_entries twin_systems twin_A) <> [] /\
                   a = line_mean (cp_name a)
                         (named (cp_name a) (system_entries twin_systems twin_A)))
    (table_means (system_entries twin_systems twin_A)).
Proof.
  apply (economy_modifySystemCommodityPrice_table twin_systems 0 twin_A).
  - reflexivity.
  - apply NoDup_singleton.
  - cbn. unfold INT64_MAX. lia.
Defined.
