(* ===== verification/Catalog.v ===== *)
(** * Catalog: the commodity stack and the priced set

    [commodity_get], [commodity_getW], [commodity_freeOne],
    [commodity_compareTech], [commodity_parse], [commodity_load] and
    [commodity_free] of economy.c.

    The XML document the loader walks is a value: a file is missing, not
    XML, or a root name with a list of nodes, and a commodity node is the
    list of its children, one constructor per element the parser knows.
    A [NULL] name is the empty string, and [strcmp] is its sign.

    The textures are references into the store of opengl_tex.c, which
    counts the uses of every image: the store is a multiset of paths
    ([GlStore]), [gl_newImage] adds one reference when the image loads and
    [gl_freeTexture] takes one away.  Which images load, and the directory
    [COMMODITY_GFX_PATH], are the class [Gl].  The loader and the release
    thread the store through their calls, so the theorems can say which
    references the stack holds ([held_all]) and which are lost. *)

From stdpp Require Import gmap gmultiset.
From Stdlib Require Import Reals Lra Lia ZArith.
From stdpp Require Import base tactics option list strings.
From S2P Require Import Prelude World Price.

#[local] Open Scope R_scope.

(* The operations on the store are left folded by [cbn]. *)
#[local] Arguments disj_union : simpl never.
#[local] Arguments difference : simpl never.
#[local] Arguments singletonMS : simpl never.
#[local] Arguments empty : simpl never.

(** ** The document *)

(** The children of a commodity node; the two image elements carry their
    text ([xml_get]), [None] for an element without text. *)
Inductive CommodityNode : Type :=
  | NodeText
  | NodeName (s : string)
  | NodeDescription (s : string)
  | NodePrice (v : Z)
  | NodeGfxSpace (file : option string)
  | NodeGfxStore (file : option string)
  | NodePopulationModifier (v : R)
  | NodePeriod (v : R)
  | NodePlanetModifier (ty : string) (v : R)
  | NodeFactionModifier (ty : string) (v : R)
  | NodeUnknown.

Inductive DataNode : Type :=
  | DataText
  | DataCommodity (children : list CommodityNode)
  | DataUnknown (name : string).

Inductive DataFile : Type :=
  | FileMissing
  | FileNotXml
  | FileXml (root : string) (nodes : list DataNode).

Inductive load_error : Type :=
  | LoadNoFile
  | LoadNotXml
  | LoadBadRoot
  | LoadNoElements.

Definition XML_COMMODITY_ID : string := "Commodities".

(** ** Lookup by name *)

Definition commodity_get (u : Universe) (name : string) : option nat :=
  fst <$> list_find (fun c => com_name c = name) (commodity_stack u).

(** The same search, without the warning. *)
Definition commodity_getW (u : Universe) (name : string) : option nat :=
  fst <$> list_find (fun c => com_name c = name) (commodity_stack u).

(** ** Order of the commodities in a tech group *)

(** The sign of [strcmp]. *)
Definition strcmp (a b : string) : Z :=
  match String.compare a b with
  | Lt => (-1)%Z
  | Eq => 0%Z
  | Gt => 1%Z
  end.

Definition commodity_compareTech (c1 c2 : Commodity) : Z :=
  if Rlt_dec (com_price c1) (com_price c2) then 1%Z
  else if Rlt_dec (com_price c2) (com_price c1) then (-1)%Z
  else strcmp (com_name c1) (com_name c2).

(** ** Textures *)

(** The references to textures in use: one element for every use of an
    image, as opengl_tex.c counts them. *)
Definition GlStore : Type := gmultiset Texture.

(** What the catalogue needs of opengl_tex.c and ndata.h: the directory of
    the images of the commodities and whether the image of a path loads. *)
Class Gl : Type := {
  COMMODITY_GFX_PATH : string;
  gl_loads : string -> bool
}.

(** [gl_freeTexture]: one use less. *)
Definition gl_freeTexture (t : Texture) (tex : GlStore) : GlStore := tex ∖ {[+ t +]}.

(** [if (t) gl_freeTexture (t)]. *)
Definition free_texture (t : option Texture) (tex : GlStore) : GlStore :=
  from_option (fun t => gl_freeTexture t tex) tex t.

(** ** Parsing one commodity *)

(** [memset (temp, 0, sizeof (Commodity))]. *)
Definition commodity_zero : Commodity := mkCommodity "" 0 0 0 [] [] 0 "" None None.

Definition set_com_name (v : string) (c : Commodity) : Commodity :=
  mkCommodity v (com_price c) (com_period c) (com_population_modifier c)
    (com_planet_modifier c) (com_faction_modifier c) (com_lastPurchasePrice c)
    (com_description c) (com_gfx_store c) (com_gfx_space c).

Definition set_com_description (v : string) (c : Commodity) : Commodity :=
  mkCommodity (com_name c) (com_price c) (com_period c) (com_population_modifier c)
    (com_planet_modifier c) (com_faction_modifier c) (com_lastPurchasePrice c)
    v (com_gfx_store c) (com_gfx_space c).

Definition set_com_price (v : R) (c : Commodity) : Commodity :=
  mkCommodity (com_name c) v (com_period c) (com_population_modifier c)
    (com_planet_modifier c) (com_faction_modifier c) (com_lastPurchasePrice c)
    (com_description c) (com_gfx_store c) (com_gfx_space c).

Definition set_com_period (v : R) (c : Commodity) : Commodity :=
  mkCommodity (com_name c) (com_price c) v (com_population_modifier c)
    (com_planet_modifier c) (com_faction_modifier c) (com_lastPurchasePrice c)
    (com_description c) (com_gfx_store c) (com_gfx_space c).

Definition set_com_population_modifier (v : R) (c : Commodity) : Commodity :=
  mkCommodity (com_name c) (com_price c) (com_period c) v
    (com_planet_modifier c) (com_faction_modifier c) (com_lastPurchasePrice c)
    (com_description c) (com_gfx_store c) (com_gfx_space c).

Section Loader.
Context `{GL : Gl}.

(** [gl_newImage]: the texture of the image and one more use of it, or
    [NULL] when the image does not load. *)
Definition gl_newImage (path : string) (tex : GlStore) : option Texture * GlStore :=
  if gl_loads path then (Some path, tex ⊎ {[+ path +]}) else (None, tex).

(** [xml_parseTexture (node, dir "%s.png", 1, 1, flags)] of nxml.c: the
    image named by the text of the node, [NULL] for a node without text. *)
Definition xml_parseTexture (file : option string) (dir : string) (tex : GlStore)
  : option Texture * GlStore :=
  match file with
  | None => (None, tex)
  | Some buf => gl_newImage (dir +:+ buf +:+ ".png") tex
  end.

Definition space_dir : string := COMMODITY_GFX_PATH +:+ "space/".

(** [temp->gfx_store = gl_newImage (COMMODITY_GFX_PATH "_default.png", 0)]. *)
Definition default_store (s : Commodity * GlStore) : Commodity * GlStore :=
  let '(t, tex) := gl_newImage (COMMODITY_GFX_PATH +:+ "_default.png") s.2 in
  (set_com_gfx_store t s.1, tex).

(** [temp->gfx_space = gl_newImage (COMMODITY_GFX_PATH "space/_default.png", 0)]. *)
Definition default_space (s : Commodity * GlStore) : Commodity * GlStore :=
  let '(t, tex) := gl_newImage (space_dir +:+ "_default.png") s.2 in
  (set_com_gfx_space t s.1, tex).

(** One round of the loop over the children of a commodity node, on the
    commodity being filled and the store of textures. *)
Definition parse_node (s : Commodity * GlStore) (node : CommodityNode)
  : Commodity * GlStore :=
  match node with
  | NodeName v => (set_com_name v s.1, s.2)
  | NodeDescription v => (set_com_description v s.1, s.2)
  | NodePrice v => (set_com_price (IZR v) s.1, s.2)
  | NodeGfxSpace file =>
      let '(t, tex) := xml_parseTexture file space_dir s.2 in
      (set_com_gfx_space t s.1, tex)
  | NodeGfxStore file =>
      let '(t, tex) := xml_parseTexture file COMMODITY_GFX_PATH s.2 in
      let s' := (set_com_gfx_store t s.1, tex) in
      if t is Some _ then s' else default_store s'
  | NodePopulationModifier v => (set_com_population_modifier v s.1, s.2)
  | NodePeriod v => (set_com_period v s.1, s.2)
  | NodePlanetModifier ty v =>
      (set_com_modifiers (mkCommodityModifier ty v :: com_planet_modifier s.1)
         (com_faction_modifier s.1) s.1, s.2)
  | NodeFactionModifier ty v =>
      (set_com_modifiers (com_planet_modifier s.1)
         (mkCommodityModifier ty v :: com_faction_modifier s.1) s.1, s.2)
  | NodeText | NodeUnknown => s
  end.

(** The images a commodity with a price gets when the node names none. *)
Definition parse_defaults (s : Commodity * GlStore) : Commodity * GlStore :=
  if Rlt_dec 0 (com_price s.1) then
    let s := if com_gfx_store s.1 is Some _ then s else default_store s in
    if com_gfx_space s.1 is Some _ then s else default_space s
  else s.

Definition commodity_parse (parent : list CommodityNode) (tex : GlStore)
  : Commodity * GlStore :=
  let temp := mkCommodity "" 0 200 0 [] [] 0 "" None None in
  parse_defaults (foldl parse_node (temp, tex) parent).

(** ** Loading and freeing the stack *)

(** One round of the loop over the nodes of the document: a commodity is
    appended to the stack, and to the priced set when its price is
    positive. *)
Definition load_node (s : Universe * GlStore) (node : DataNode) : Universe * GlStore :=
  match node with
  | DataCommodity children =>
      let '(c, tex) := commodity_parse children s.2 in
      let k := length (commodity_stack s.1) in
      (mkUniverse (commodity_stack s.1 ++ [c])
         (if Rlt_dec 0 (com_price c) then econ_comm s.1 ++ [k] else econ_comm s.1)
         (systems_stack s.1) (planet_stack s.1), tex)
  | DataText | DataUnknown _ => s
  end.

Definition commodity_load (file : DataFile) (s : Universe * GlStore)
  : load_error + Universe * GlStore :=
  match file with
  | FileMissing => inl LoadNoFile
  | FileNotXml => inl LoadNotXml
  | FileXml root nodes =>
      if decide (root = XML_COMMODITY_ID) then
        match nodes with
        | [] => inl LoadNoElements
        | _ => inr (foldl load_node s nodes)
        end
      else inl LoadBadRoot
  end.

End Loader.

(** The two textures are released, the chains are freed link by link and
    the struct is cleared. *)
Definition commodity_freeOne (com : Commodity) (tex : GlStore) : Commodity * GlStore :=
  (commodity_zero, free_texture (com_gfx_space com) (free_texture (com_gfx_store com) tex)).

(** The stack is freed; [econ_comm] is freed too, but [econ_nprices] and
    the pointer keep their values: the priced set still names what it
    named. *)
Definition commodity_free (s : Universe * GlStore) : Universe * GlStore :=
  (mkUniverse [] (econ_comm s.1) (systems_stack s.1) (planet_stack s.1),
   foldl (fun tex com => (commodity_freeOne com tex).2) s.2 (commodity_stack s.1)).

(** ** Reference descriptions *)

(** [econ_comm] names exactly the commodities of positive price, each
    once, in the order of the stack. *)
Definition priced_set (stack : list Commodity) : list nat :=
  (imap pair stack ≫= fun kc => if Rlt_dec 0 (com_price kc.2) then [kc.1] else []).

(** The catalogue as a finite map from the names to the positions in the
    stack, counted from [k]; of two commodities of one name the first is
    the one the map holds. *)
Fixpoint catalogue_from (k : nat) (stack : list Commodity) : gmap string nat :=
  match stack with
  | [] => ∅
  | c :: stack => <[com_name c := k]> (catalogue_from (S k) stack)
  end.

Definition catalogue (stack : list Commodity) : gmap string nat := catalogue_from 0 stack.

(** Two commodities of one name. *)
Definition food_twice : list DataNode :=
  [DataCommodity [NodeName "Food"; NodePrice 100];
   DataCommodity [NodeName "Food"; NodePrice 45]].

(** What the elements of one kind say, in the order of the document. *)
Definition node_name (n : CommodityNode) : option string :=
  match n with NodeName s => Some s | _ => None end.
Definition node_price (n : CommodityNode) : option R :=
  match n with NodePrice v => Some (IZR v) | _ => None end.
Definition node_period (n : CommodityNode) : option R :=
  match n with NodePeriod v => Some v | _ => None end.
Definition node_population (n : CommodityNode) : option R :=
  match n with NodePopulationModifier v => Some v | _ => None end.
Definition node_planet (n : CommodityNode) : option CommodityModifier :=
  match n with NodePlanetModifier ty v => Some (mkCommodityModifier ty v) | _ => None end.
Definition node_faction (n : CommodityNode) : option CommodityModifier :=
  match n with NodeFactionModifier ty v => Some (mkCommodityModifier ty v) | _ => None end.

(** The last element of a kind, or the default. *)
Definition last_node {A : Type} (f : CommodityNode -> option A) (d : A)
  (nodes : list CommodityNode) : A :=
  default d (last (omap f nodes)).

Definition node_description (n : CommodityNode) : option string :=
  match n with NodeDescription s => Some s | _ => None end.
Definition node_store (n : CommodityNode) : option (option string) :=
  match n with NodeGfxStore file => Some file | _ => None end.
Definition node_space (n : CommodityNode) : option (option string) :=
  match n with NodeGfxSpace file => Some file | _ => None end.

(** The texture of the last image element of a kind, [None] without one. *)
Definition last_image (f : CommodityNode -> option (option string))
  (image : option string -> option Texture) (nodes : list CommodityNode) : option Texture :=
  last (omap f nodes) ≫= image.

(** The references a commodity holds, and those the whole stack holds. *)
Definition held_one (t : option Texture) : GlStore :=
  from_option (fun t => {[+ t +]}) ∅ t.

Definition held (c : Commodity) : GlStore :=
  held_one (com_gfx_store c) ⊎ held_one (com_gfx_space c).

Definition held_all (stack : list Commodity) : GlStore :=
  foldr (fun c m => held c ⊎ m) ∅ stack.

(** A commodity with a price has its two images. *)
Definition imaged (c : Commodity) : Prop :=
  0 < com_price c -> is_Some (com_gfx_store c) /\ is_Some (com_gfx_space c).

(** A commodity node with at most one element for each of the two images,
    and a document of such nodes. *)
Definition single_gfx (nodes : list CommodityNode) : Prop :=
  (length (omap node_store nodes) <= 1)%nat /\ (length (omap node_space nodes) <= 1)%nat.

Definition data_single_gfx (node : DataNode) : Prop :=
  match node with
  | DataCommodity children => single_gfx children
  | DataText | DataUnknown _ => True
  end.

Section Images.
Context `{GL : Gl}.

(** The texture of a path: the path when its image loads. *)
Definition loaded (path : string) : option Texture :=
  if gl_loads path then Some path else None.

(** The texture an element for the image in space gives, and the one an
    element for the image in the store gives, which falls back on the
    default image. *)
Definition space_image (file : option string) : option Texture :=
  file ≫= fun buf => loaded (space_dir +:+ buf +:+ ".png").

Definition store_image (file : option string) : option Texture :=
  match file ≫= fun buf => loaded (COMMODITY_GFX_PATH +:+ buf +:+ ".png") with
  | Some t => Some t
  | None => loaded (COMMODITY_GFX_PATH +:+ "_default.png")
  end.

(** The image of a commodity with price [price], given what the elements
    of the node gave: the default image takes the place of a missing one
    when the price is positive. *)
Definition with_default (price : R) (path : string) (t : option Texture) : option Texture :=
  if Rlt_dec 0 price then (if t is Some _ then t else loaded path) else t.

End Images.

(** ** Sample data *)

Definition sample_nodes : list DataNode :=
  [DataText;
   DataCommodity [NodeName "Food"; NodePrice 100; NodePeriod 250;
                  NodeGfxStore (Some "food"); NodeGfxSpace (Some "food");
                  NodePlanetModifier "M" 2; NodePlanetModifier "H" 0.5;
                  NodeFactionModifier "Empire" 3];
   DataCommodity [NodeName "Dust"; NodeDescription "Space dust"];
   DataUnknown "note";
   DataCommodity [NodeName "Ore"; NodePrice 45; NodeGfxStore (Some "ore")]].

Definition sample_file : DataFile := FileXml "Commodities" sample_nodes.

(** A commodity whose node names the image in the store twice. *)
Definition twice_store : DataFile :=
  FileXml "Commodities"
    [DataCommodity [NodeName "Food"; NodeGfxStore (Some "food");
                    NodeGfxStore (Some "meal")]].

Definition empty_universe : Universe := mkUniverse [] [] [] [].

(** Every image loads but that of the ore in the store. *)
Definition sample_gl : Gl :=
  {| COMMODITY_GFX_PATH := "gfx/commodity/";
     gl_loads := fun path => bool_decide (path <> "gfx/commodity/ore.png") |}.

(** The registries and the store when the sample file has been loaded. *)
Definition sample_loaded : Universe * GlStore :=
  foldl (load_node (GL := sample_gl)) (empty_universe, ∅) sample_nodes.

(** * Theorems *)

(** ** Parsing *)

Lemma last_node_snoc {A : Type} (f : CommodityNode -> option A) (d : A)
    (nodes : list CommodityNode) (n : CommodityNode) :
  last_node f d (nodes ++ [n]) = from_option Datatypes.id (last_node f d nodes) (f n).
Proof.
  unfold last_node. rewrite omap_app. cbn. destruct (f n) as [x|]; cbn.
  - by rewrite last_snoc.
  - by rewrite app_nil_r.
Qed.

Lemma omap_rev_snoc {A : Type} (f : CommodityNode -> option A)
    (nodes : list CommodityNode) (n : CommodityNode) :
  rev (omap f (nodes ++ [n]))
  = from_option (fun x => [x]) [] (f n) ++ rev (omap f nodes).
Proof.
  rewrite omap_app. cbn. destruct (f n) as [x|]; cbn.
  - by rewrite rev_unit.
  - by rewrite app_nil_r.
Qed.

Lemma last_image_snoc (f : CommodityNode -> option (option string))
    (image : option string -> option Texture) (nodes : list CommodityNode)
    (n : CommodityNode) :
  last_image f image (nodes ++ [n]) = from_option image (last_image f image nodes) (f n).
Proof.
  unfold last_image. rewrite omap_app. cbn. destruct (f n) as [x|]; cbn.
  - by rewrite last_snoc.
  - by rewrite app_nil_r.
Qed.

Lemma last_image_none (f : CommodityNode -> option (option string))
    (image : option string -> option Texture) (nodes : list CommodityNode) :
  omap f nodes = [] -> last_image f image nodes = None.
Proof. unfold last_image. by intros ->. Qed.

Lemma single_gfx_snoc (nodes : list CommodityNode) (n : CommodityNode) :
  single_gfx (nodes ++ [n]) ->
  single_gfx nodes /\
  (is_Some (node_store n) -> omap node_store nodes = []) /\
  (is_Some (node_space n) -> omap node_space nodes = []).
Proof.
  unfold single_gfx. rewrite !omap_app, !length_app. cbn. intros [Hst Hsp].
  split_and!; try lia.
  - intros [x Hx]. rewrite Hx in Hst. cbn in Hst. apply nil_length_inv. lia.
  - intros [x Hx]. rewrite Hx in Hsp. cbn in Hsp. apply nil_length_inv. lia.
Qed.

(** ** The references the stack holds *)

Lemma held_all_snoc (l : list Commodity) (c : Commodity) :
  held_all (l ++ [c]) = held_all l ⊎ held c.
Proof.
  unfold held_all. induction l as [|c' l IH]; cbn; [multiset_solver|].
  rewrite IH. multiset_solver.
Qed.

Lemma commodity_freeOne_held (c : Commodity) (tex : GlStore) :
  (commodity_freeOne c (tex ⊎ held c)).2 = tex.
Proof.
  unfold commodity_freeOne, free_texture, gl_freeTexture, held, held_one. cbn.
  destruct (com_gfx_store c), (com_gfx_space c); cbn; multiset_solver.
Qed.

(** Releasing a stack whose references are in the store leaves what the
    stack did not hold. *)
Lemma free_held_all (l : list Commodity) (base : GlStore) :
  foldl (fun tex com => (commodity_freeOne com tex).2) (base ⊎ held_all l) l = base.
Proof.
  revert base. induction l as [|c l IH]; intros base; cbn [foldl].
  - unfold held_all. cbn. multiset_solver.
  - replace (base ⊎ held_all (c :: l)) with ((base ⊎ held_all l) ⊎ held c)
      by (unfold held_all; cbn; multiset_solver).
    by rewrite commodity_freeOne_held.
Qed.

Section Parse.
Context `{GL : Gl}.
Implicit Types (s : Commodity * GlStore) (tex base : GlStore).
Implicit Types (nodes : list CommodityNode) (n : CommodityNode).

(** The commodity holds references that are in the store, and the store
    holds no other reference than those of [base]. *)
Definition balanced (base : GlStore) (s : Commodity * GlStore) : Prop :=
  s.2 = base ⊎ held s.1.

Lemma gl_newImage_spec (path : string) tex :
  gl_newImage path tex = (loaded path, tex ⊎ held_one (loaded path)).
Proof.
  unfold gl_newImage, loaded. destruct (gl_loads path); cbn; [done|].
  f_equal. multiset_solver.
Qed.

Lemma xml_parseTexture_spec (file : option string) (dir : string) tex :
  xml_parseTexture file dir tex
  = (file ≫= (fun buf => loaded (dir +:+ buf +:+ ".png")),
     tex ⊎ held_one (file ≫= fun buf => loaded (dir +:+ buf +:+ ".png"))).
Proof.
  destruct file as [buf|]; cbn; [apply gl_newImage_spec|]. f_equal. multiset_solver.
Qed.

Lemma parse_node_space s (file : option string) :
  parse_node s (NodeGfxSpace file)
  = (set_com_gfx_space (space_image file) s.1, s.2 ⊎ held_one (space_image file)).
Proof. cbn. by rewrite xml_parseTexture_spec. Qed.

Lemma parse_node_store s (file : option string) :
  parse_node s (NodeGfxStore file)
  = (set_com_gfx_store (store_image file) s.1, s.2 ⊎ held_one (store_image file)).
Proof.
  cbn. rewrite xml_parseTexture_spec. unfold store_image, default_store.
  destruct (file ≫= _) as [t|]; [done|]. cbn. rewrite gl_newImage_spec.
  f_equal. multiset_solver.
Qed.

(** The loop over the children, field by field. *)
Lemma parse_loop_fst nodes tex :
  (foldl parse_node (mkCommodity "" 0 200 0 [] [] 0 "" None None, tex) nodes).1
  = mkCommodity (last_node node_name "" nodes) (last_node node_price 0 nodes)
      (last_node node_period 200 nodes) (last_node node_population 0 nodes)
      (rev (omap node_planet nodes)) (rev (omap node_faction nodes)) 0
      (last_node node_description "" nodes)
      (last_image node_store store_image nodes)
      (last_image node_space space_image nodes).
Proof.
  induction nodes as [|n nodes IH] using rev_ind; [done|].
  rewrite foldl_app, !last_node_snoc, !omap_rev_snoc, !last_image_snoc. cbn [foldl].
  destruct n; rewrite ?parse_node_space, ?parse_node_store; cbn [parse_node fst];
    by rewrite IH.
Qed.

Lemma parse_defaults_fst s :
  (parse_defaults s).1
  = set_com_gfx_space
      (with_default (com_price s.1) (space_dir +:+ "_default.png") (com_gfx_space s.1))
      (set_com_gfx_store
         (with_default (com_price s.1) (COMMODITY_GFX_PATH +:+ "_default.png")
            (com_gfx_store s.1)) s.1).
Proof.
  destruct s as [[name price per pop pm fm lp d st sp] tex].
  unfold parse_defaults, with_default, default_store, default_space. cbn.
  destruct (Rlt_dec 0 price); [|done].
  destruct st, sp; cbn; rewrite ?gl_newImage_spec; cbn; by rewrite ?gl_newImage_spec.
Qed.

(** *** The store during the parse *)

Lemma balanced_start tex : balanced tex (mkCommodity "" 0 200 0 [] [] 0 "" None None, tex).
Proof. unfold balanced, held. cbn. multiset_solver. Qed.

Lemma parse_node_balanced base s n :
  (is_Some (node_store n) -> com_gfx_store s.1 = None) ->
  (is_Some (node_space n) -> com_gfx_space s.1 = None) ->
  balanced base s -> balanced base (parse_node s n).
Proof.
  unfold balanced, held. intros Hst Hsp Hb.
  destruct n; rewrite ?parse_node_space, ?parse_node_store; cbn in *; try done.
  - rewrite Hsp in Hb by done.
    destruct (com_gfx_store s.1), (space_image file); cbn in *; multiset_solver.
  - rewrite Hst in Hb by done.
    destruct (com_gfx_space s.1), (store_image file); cbn in *; multiset_solver.
Qed.

Lemma parse_node_live base s n :
  base ⊎ held s.1 ⊆ s.2 -> base ⊎ held (parse_node s n).1 ⊆ (parse_node s n).2.
Proof.
  unfold held. intros Hb.
  destruct n; rewrite ?parse_node_space, ?parse_node_store; cbn in *; try done.
  - destruct (com_gfx_store s.1), (com_gfx_space s.1), (space_image file); cbn in *;
      multiset_solver.
  - destruct (com_gfx_store s.1), (com_gfx_space s.1), (store_image file); cbn in *;
      multiset_solver.
Qed.

Lemma parse_defaults_balanced base s :
  balanced base s -> balanced base (parse_defaults s).
Proof.
  destruct s as [[name price per pop pm fm lp d st sp] tex].
  unfold balanced, held, parse_defaults, default_store, default_space. cbn.
  intros ->. destruct (Rlt_dec 0 price); [|done].
  destruct st, sp; cbn; rewrite ?gl_newImage_spec; cbn; rewrite ?gl_newImage_spec; cbn;
    destruct (loaded (COMMODITY_GFX_PATH +:+ "_default.png")),
      (loaded (space_dir +:+ "_default.png")); cbn; multiset_solver.
Qed.

Lemma parse_defaults_live base s :
  base ⊎ held s.1 ⊆ s.2 -> base ⊎ held (parse_defaults s).1 ⊆ (parse_defaults s).2.
Proof.
  destruct s as [[name price per pop pm fm lp d st sp] tex].
  unfold held, parse_defaults, default_store, default_space. cbn.
  intros Hb. destruct (Rlt_dec 0 price); [|done].
  destruct st, sp; cbn in *; rewrite ?gl_newImage_spec; cbn; rewrite ?gl_newImage_spec; cbn;
    destruct (loaded (COMMODITY_GFX_PATH +:+ "_default.png")),
      (loaded (space_dir +:+ "_default.png")); cbn; multiset_solver.
Qed.

Lemma parse_loop_balanced nodes tex :
  single_gfx nodes ->
  balanced tex (foldl parse_node (mkCommodity "" 0 200 0 [] [] 0 "" None None, tex) nodes).
Proof.
  induction nodes as [|n nodes IH] using rev_ind; intros Hs; [apply balanced_start|].
  apply single_gfx_snoc in Hs as (Hs & Hst & Hsp). rewrite foldl_app. cbn [foldl].
  apply parse_node_balanced; [| |by apply IH]; intros Hn; rewrite parse_loop_fst; cbn.
  - by apply last_image_none, Hst.
  - by apply last_image_none, Hsp.
Qed.

(** What [commodity_parse] leaves in the store when the node names each
    image once at most: the references the commodity holds, added to what
    was there. *)
Lemma commodity_parse_balanced nodes tex :
  single_gfx nodes ->
  (commodity_parse nodes tex).2 = tex ⊎ held (commodity_parse nodes tex).1.
Proof. intros Hs. by apply parse_defaults_balanced, parse_loop_balanced. Qed.

(** Whatever the node, the references the commodity holds are in the
    store. *)
Lemma commodity_parse_live nodes tex :
  tex ⊎ held (commodity_parse nodes tex).1 ⊆ (commodity_parse nodes tex).2.
Proof.
  apply parse_defaults_live.
  apply (foldl_inv (fun s => tex ⊎ held s.1 ⊆ s.2)).
  - unfold held. cbn. multiset_solver.
  - intros s n Hb _. by apply parse_node_live.
Qed.

(** C34.  What [commodity_parse] returns, field by field: the last name,
    description, price, period and population modifier the node gives, or
    the defaults (no name, price 0, period 200, modifier 0); the two chains
    of modifiers with the link parsed last at the head; the images of the
    last elements that name them, with the default images in place of the
    missing ones when the price is positive; everything else zero. *)
Theorem commodity_parse_spec nodes tex :
  (commodity_parse nodes tex).1
  = mkCommodity (last_node node_name "" nodes) (last_node node_price 0 nodes)
      (last_node node_period 200 nodes) (last_node node_population 0 nodes)
      (rev (omap node_planet nodes)) (rev (omap node_faction nodes)) 0
      (last_node node_description "" nodes)
      (with_default (last_node node_price 0 nodes) (COMMODITY_GFX_PATH +:+ "_default.png")
         (last_image node_store store_image nodes))
      (with_default (last_node node_price 0 nodes) (space_dir +:+ "_default.png")
         (last_image node_space space_image nodes)).
Proof. unfold commodity_parse. by rewrite parse_defaults_fst, parse_loop_fst. Qed.

(** A commodity with a price has both images when the default images
    load. *)
Lemma commodity_parse_images nodes tex :
  gl_loads (COMMODITY_GFX_PATH +:+ "_default.png") = true ->
  gl_loads (space_dir +:+ "_default.png") = true ->
  0 < com_price (commodity_parse nodes tex).1 ->
  is_Some (com_gfx_store (commodity_parse nodes tex).1) /\
  is_Some (com_gfx_space (commodity_parse nodes tex).1).
Proof.
  rewrite commodity_parse_spec. cbn. unfold with_default, loaded. intros -> -> Hp.
  destruct (Rlt_dec 0 _); [|done]. split.
  - by destruct (last_image node_store _ _).
  - by destruct (last_image node_space _ _).
Qed.

End Parse.

(** ** The priced set *)

Lemma priced_set_snoc (stack : list Commodity) (c : Commodity) :
  priced_set (stack ++ [c])
  = priced_set stack ++ (if Rlt_dec 0 (com_price c) then [length stack] else []).
Proof.
  unfold priced_set. rewrite imap_app, bind_app. cbn.
  by rewrite Nat.add_0_r, app_nil_r.
Qed.

Lemma elem_of_priced_set (stack : list Commodity) (k : nat) :
  k ∈ priced_set stack <-> exists c, stack !! k = Some c /\ 0 < com_price c.
Proof.
  induction stack as [|c stack IH] using rev_ind.
  - split; [by intros ?%elem_of_nil|by intros (c & ? & _)].
  - rewrite priced_set_snoc, elem_of_app, IH. split.
    + intros [(c' & Hc & Hp)|Hk].
      * exists c'. split; [|done]. by apply lookup_app_l_Some.
      * destruct (Rlt_dec 0 (com_price c)); [|by apply elem_of_nil in Hk].
        apply list_elem_of_singleton in Hk as ->. exists c.
        by rewrite list_lookup_middle.
    + intros (c' & Hc & Hp). apply lookup_app_Some in Hc as [Hc|[Hl Hc]]; [left; eauto|].
      right. apply list_lookup_singleton_Some in Hc as [Hk <-].
      destruct (Rlt_dec 0 (com_price c)) as [_|Hn]; [|by destruct Hn].
      apply list_elem_of_singleton. lia.
Qed.

Section Load.
Context `{GL : Gl}.
Implicit Types (s : Universe * GlStore) (base : GlStore).

(** What the loader keeps true of the registries and the store. *)
Definition priced_ok s : Prop := econ_comm s.1 = priced_set (commodity_stack s.1).
Definition store_ok base s : Prop := s.2 = base ⊎ held_all (commodity_stack s.1).
Definition store_live base s : Prop := base ⊎ held_all (commodity_stack s.1) ⊆ s.2.

(** The round of the loader for a commodity node, with the result of the
    parser named. *)
Lemma load_node_commodity s (children : list CommodityNode) :
  load_node s (DataCommodity children)
  = let c := (commodity_parse children s.2).1 in
    (mkUniverse (commodity_stack s.1 ++ [c])
       (if Rlt_dec 0 (com_price c) then econ_comm s.1 ++ [length (commodity_stack s.1)]
        else econ_comm s.1)
       (systems_stack s.1) (planet_stack s.1), (commodity_parse children s.2).2).
Proof. cbn [load_node]. by destruct (commodity_parse children s.2). Qed.

Lemma load_node_priced s (node : DataNode) : priced_ok s -> priced_ok (load_node s node).
Proof.
  unfold priced_ok. intros Hu. destruct node as [|children|]; [done| |done].
  rewrite load_node_commodity. cbn [fst snd econ_comm commodity_stack].
  rewrite priced_set_snoc, Hu.
  by destruct (Rlt_dec 0 _); rewrite ?app_nil_r.
Qed.

Lemma load_node_store base s (node : DataNode) :
  data_single_gfx node -> store_ok base s -> store_ok base (load_node s node).
Proof.
  unfold store_ok. intros Hn Hs. destruct node as [|children|]; [done| |done].
  rewrite load_node_commodity. cbn [fst snd commodity_stack].
  rewrite held_all_snoc, (commodity_parse_balanced children s.2 Hn), Hs. multiset_solver.
Qed.

Lemma load_node_live base s (node : DataNode) :
  store_live base s -> store_live base (load_node s node).
Proof.
  unfold store_live. intros Hs. destruct node as [|children|]; [done| |done].
  rewrite load_node_commodity. cbn [fst snd commodity_stack]. rewrite held_all_snoc.
  pose proof (commodity_parse_live children s.2). multiset_solver.
Qed.

(** The loader is the loop over the nodes, or an error. *)
Lemma commodity_load_inr (file : DataFile) s s' :
  commodity_load file s = inr s' ->
  exists root nodes, file = FileXml root nodes /\ s' = foldl load_node s nodes.
Proof.
  destruct file as [| |root nodes]; try done. cbn.
  case_decide; [|done]. destruct nodes; [done|]. intros [= <-]. eauto.
Qed.

Lemma commodity_load_inv (I : Universe * GlStore -> Prop) (file : DataFile) s s' :
  (forall s node, I s -> I (load_node s node)) ->
  I s -> commodity_load file s = inr s' -> I s'.
Proof.
  intros Hstep Hs (root & nodes & -> & ->)%commodity_load_inr.
  apply (foldl_inv I); [done|]. intros ? ? ? _. by apply Hstep.
Qed.

(** When the default images load, the loader leaves no commodity with a
    price without its images. *)
Lemma commodity_load_imaged (file : DataFile) s s' :
  gl_loads (COMMODITY_GFX_PATH +:+ "_default.png") = true ->
  gl_loads (space_dir +:+ "_default.png") = true ->
  Forall imaged (commodity_stack s.1) -> commodity_load file s = inr s' ->
  Forall imaged (commodity_stack s'.1).
Proof.
  intros Hst Hsp. apply (commodity_load_inv (fun s => Forall imaged (commodity_stack s.1))).
  intros s0 [|children|] Hs0; try done. rewrite load_node_commodity.
  cbn [fst commodity_stack]. apply Forall_app. split; [done|].
  constructor; [|done]. intros Hp. by apply commodity_parse_images.
Qed.

Lemma commodity_free_store base s : store_ok base s -> (commodity_free s).2 = base.
Proof. unfold store_ok, commodity_free. cbn. intros ->. apply free_held_all. Qed.

(** [commodity_load] keeps [econ_comm] the list, in the order of the
    stack, of the commodities whose price is positive; a commodity the file
    gives no price, or a price that is not positive, is in the stack and not
    in the priced set, and every query for its price answers 0. *)
Theorem commodity_load_priced (file : DataFile) (s s' : Universe * GlStore) :
  econ_comm s.1 = priced_set (commodity_stack s.1) ->
  commodity_load file s = inr s' ->
  econ_comm s'.1 = priced_set (commodity_stack s'.1) /\
  forall k c p tme,
    commodity_stack s'.1 !! k = Some c -> com_price c <= 0 ->
    economy_getPriceAtTime s'.1 k p tme = 0%Z.
Proof.
  intros Hu Hload.
  assert (priced_ok s') as Hu' by (by eapply commodity_load_inv, Hload; [apply load_node_priced|]).
  split; [done|]. intros k c p tme Hk Hp. apply getPriceAtTime_unpriced.
  rewrite Hu', elem_of_priced_set. intros (c' & Hc' & Hp'). simplify_eq. lra.
Qed.

(** C24.  Every texture the loader takes for the commodities is released by
    [commodity_free], when no commodity node names an image twice: the
    references the store holds after the load are those it held before and
    those the stack holds, and after the release they are those it held
    before; the stack is empty then. *)
Theorem commodity_load_free_balanced (file : DataFile) (base : GlStore)
    (s s' : Universe * GlStore) :
  s.2 = base ⊎ held_all (commodity_stack s.1) ->
  (forall root nodes, file = FileXml root nodes -> Forall data_single_gfx nodes) ->
  commodity_load file s = inr s' ->
  s'.2 = base ⊎ held_all (commodity_stack s'.1) /\
  (commodity_free s').2 = base /\ commodity_stack (commodity_free s').1 = [].
Proof.
  intros Hs Hfile (root & nodes & -> & ->)%commodity_load_inr.
  specialize (Hfile root nodes eq_refl).
  assert (store_ok base (foldl load_node s nodes)) as Hok.
  { revert s Hs. induction Hfile as [|node nodes Hn _ IH]; intros s Hs; [done|].
    cbn [foldl]. by apply IH, load_node_store. }
  split_and!; [done|by apply commodity_free_store|done].
Qed.

(** Whatever the document, the references the stack holds are in the
    store: no commodity holds a texture that was released. *)
Lemma commodity_load_live (file : DataFile) (base : GlStore) (s s' : Universe * GlStore) :
  store_live base s -> commodity_load file s = inr s' -> store_live base s'.
Proof. intros Hs. by apply commodity_load_inv; [apply load_node_live|]. Qed.

End Load.

Lemma commodity_load_priced_witness :
  econ_comm (foldl (load_node (GL := sample_gl)) (empty_universe, ∅)
               [DataCommodity [NodeName "Dust"]; DataCommodity [NodePrice 45]]).1
  = priced_set (commodity_stack (foldl (load_node (GL := sample_gl)) (empty_universe, ∅)
               [DataCommodity [NodeName "Dust"]; DataCommodity [NodePrice 45]]).1).
Proof.
  apply (commodity_load_priced (GL := sample_gl)
           (FileXml "Commodities"
              [DataCommodity [NodeName "Dust"]; DataCommodity [NodePrice 45]])
           (empty_universe, ∅)); reflexivity.
Defined.

Lemma sample_file_single :
  forall root nodes, sample_file = FileXml root nodes -> Forall data_single_gfx nodes.
Proof. intros root nodes [= _ <-]. repeat constructor; cbn; lia. Qed.

Lemma commodity_load_free_balanced_witness :
  sample_loaded.2 = ∅ ⊎ held_all (commodity_stack sample_loaded.1) /\
  (commodity_free sample_loaded).2 = ∅ /\
  commodity_stack (commodity_free sample_loaded).1 = [].
Proof.
  apply (commodity_load_free_balanced (GL := sample_gl) sample_file ∅ (empty_universe, ∅));
    [cbn; multiset_solver|exact sample_file_single|reflexivity].
Defined.

(** The sample file: three commodities, of which the second has no price
    and is left out of the priced set, and has no images; the image of the
    ore does not load, and its place is taken by the default image. *)
Lemma sample_file_loaded :
  commodity_load (GL := sample_gl) sample_file (empty_universe, ∅) = inr sample_loaded /\
  com_name <$> commodity_stack sample_loaded.1 = ["Food"; "Dust"; "Ore"] /\
  econ_comm sample_loaded.1 = [0; 2]%nat /\
  com_gfx_store <$> commodity_stack sample_loaded.1
  = [Some "gfx/commodity/food.png"; None; Some "gfx/commodity/_default.png"] /\
  com_gfx_space <$> commodity_stack sample_loaded.1
  = [Some "gfx/commodity/space/food.png"; None; Some "gfx/commodity/space/_default.png"].
Proof.
  split; [reflexivity|]. unfold sample_loaded. cbn [sample_nodes foldl].
  rewrite !load_node_commodity. cbn zeta. rewrite !commodity_parse_spec.
  unfold with_default, last_image, last_node. cbn. by repeat case_Rlt.
Qed.

(** A node that names the image in the store twice: the first texture is
    overwritten, and is still in the store when the stack has been
    released. *)
Example twice_store_leaks :
  exists s, commodity_load (GL := sample_gl) twice_store (empty_universe, ∅) = inr s /\
    (commodity_free s).2 = {[+ "gfx/commodity/food.png" +]}.
Proof.
  eexists. split; [reflexivity|]. cbn [twice_store foldl].
  rewrite load_node_commodity. unfold commodity_free, commodity_parse. cbn [foldl].
  rewrite !parse_node_store. unfold parse_defaults. cbn. case_Rlt.
  unfold commodity_freeOne, free_texture, gl_freeTexture. cbn. multiset_solver.
Qed.

(** The errors of the loader. *)
Example commodity_load_errors `{GL : Gl} (s : Universe * GlStore) :
  commodity_load FileMissing s = inl LoadNoFile /\
  commodity_load FileNotXml s = inl LoadNotXml /\
  commodity_load (FileXml "Outfits" [DataText]) s = inl LoadBadRoot /\
  commodity_load (FileXml "Commodities" []) s = inl LoadNoElements.
Proof. done. Qed.


(** ** Lookup *)

Lemma commodity_get_Some (u : Universe) (name : string) (k : nat) :
  commodity_get u name = Some k ->
  exists c, commodity_stack u !! k = Some c /\ com_name c = name /\
    forall j c', commodity_stack u !! j = Some c' -> (j < k)%nat -> com_name c' <> name.
Proof.
  unfold commodity_get. intros ([k' c] & Hf & [= ->])%fmap_Some.
  apply list_find_Some in Hf as (? & ? & ?). eauto.
Qed.

Lemma commodity_get_None (u : Universe) (name : string) :
  commodity_get u name = None <-> Forall (fun c => com_name c <> name) (commodity_stack u).
Proof. unfold commodity_get. by rewrite fmap_None, list_find_None. Qed.

(** *** The stack as a map from names to positions *)

Lemma catalogue_from_lookup (k : nat) (stack : list Commodity) (name : string) :
  catalogue_from k stack !! name
  = (fun i => (k + i)%nat) <$> (fst <$> list_find (fun c => com_name c = name) stack).
Proof.
  revert k. induction stack as [|c stack IH]; intros k; [done|].
  cbn [catalogue_from list_find]. case_decide as Hc.
  - rewrite Hc, lookup_insert_eq. cbn. f_equal. lia.
  - rewrite lookup_insert_ne, IH by done.
    destruct (list_find _ stack) as [[i c']|]; cbn; [f_equal; lia|done].
Qed.

(** [commodity_get] and [commodity_getW] are the lookup in the map. *)
Lemma commodity_get_catalogue (u : Universe) (name : string) :
  commodity_get u name = catalogue (commodity_stack u) !! name /\
  commodity_getW u name = catalogue (commodity_stack u) !! name.
Proof.
  unfold commodity_get, commodity_getW, catalogue. rewrite catalogue_from_lookup.
  by destruct (list_find _ _) as [[i c]|].
Qed.

(** A commodity more on the stack gives the map one name more, unless the
    name is there already: then the map stays as it is, and the new
    commodity is one that no lookup finds. *)
Lemma catalogue_from_snoc (k : nat) (stack : list Commodity) (c : Commodity) :
  catalogue_from k (stack ++ [c])
  = if catalogue_from k stack !! com_name c is Some _ then catalogue_from k stack
    else <[com_name c := (k + length stack)%nat]> (catalogue_from k stack).
Proof.
  revert k. induction stack as [|c' stack IH]; intros k; cbn [app catalogue_from length].
  - by rewrite lookup_empty, Nat.add_0_r.
  - rewrite IH. destruct (decide (com_name c' = com_name c)) as [Hc|Hc].
    + rewrite Hc, lookup_insert_eq.
      destruct (catalogue_from (S k) stack !! com_name c); [done|].
      by rewrite insert_insert_eq.
    + rewrite lookup_insert_ne by done.
      destruct (catalogue_from (S k) stack !! com_name c); [done|].
      rewrite insert_insert_ne by done. by rewrite Nat.add_succ_r.
Qed.

Lemma catalogue_snoc_subseteq (stack : list Commodity) (c : Commodity) :
  catalogue stack ⊆ catalogue (stack ++ [c]).
Proof.
  unfold catalogue. rewrite catalogue_from_snoc.
  destruct (catalogue_from 0 stack !! com_name c) eqn:Hc; [done|].
  by apply insert_subseteq.
Qed.

(** The names the catalogue knows keep their positions when more
    commodities are loaded: what [commodity_get] found before the load it
    finds after it. *)
Lemma commodity_load_catalogue `{GL : Gl} (file : DataFile) (s s' : Universe * GlStore) :
  commodity_load file s = inr s' ->
  catalogue (commodity_stack s.1) ⊆ catalogue (commodity_stack s'.1).
Proof.
  apply (commodity_load_inv
           (fun t => catalogue (commodity_stack s.1) ⊆ catalogue (commodity_stack t.1)));
    [|done].
  intros t [|children|] Ht; try done. rewrite load_node_commodity.
  cbn [fst commodity_stack]. etrans; [exact Ht|apply catalogue_snoc_subseteq].
Qed.

Lemma commodity_load_get `{GL : Gl} (file : DataFile) (s s' : Universe * GlStore)
    (name : string) (k : nat) :
  commodity_load file s = inr s' ->
  commodity_get s.1 name = Some k -> commodity_get s'.1 name = Some k.
Proof.
  intros Hload. rewrite !(proj1 (commodity_get_catalogue _ _)).
  intros Hk. eapply lookup_weaken; [exact Hk|]. by apply (commodity_load_catalogue file).
Qed.

(** C37.  The stack the loader leaves is a map from names to commodities,
    and [commodity_get] and [commodity_getW] are its lookup: both answer
    with the position the map holds for the name, the first of that name in
    the stack, where a commodity of that name is; and the load extends the
    map it found, so a position that was found before the load is found
    after it. *)
Theorem commodity_get_refines `{GL : Gl} (file : DataFile) (s s' : Universe * GlStore)
    (name : string) :
  commodity_load file s = inr s' ->
  commodity_get s'.1 name = catalogue (commodity_stack s'.1) !! name /\
  commodity_getW s'.1 name = catalogue (commodity_stack s'.1) !! name /\
  catalogue (commodity_stack s.1) ⊆ catalogue (commodity_stack s'.1) /\
  (forall k, commodity_get s.1 name = Some k -> commodity_get s'.1 name = Some k) /\
  (forall k, commodity_get s'.1 name = Some k ->
     exists c, commodity_stack s'.1 !! k = Some c /\ com_name c = name /\
       forall j c', commodity_stack s'.1 !! j = Some c' -> (j < k)%nat ->
                    com_name c' <> name).
Proof.
  intros Hload. split_and!.
  - apply commodity_get_catalogue.
  - apply commodity_get_catalogue.
  - by apply (commodity_load_catalogue file).
  - intros k. by apply (commodity_load_get file).
  - intros k. apply commodity_get_Some.
Qed.

Lemma commodity_get_refines_witness :
  commodity_get sample_loaded.1 "Ore" = catalogue (commodity_stack sample_loaded.1) !! "Ore" /\
  commodity_getW sample_loaded.1 "Ore" = catalogue (commodity_stack sample_loaded.1) !! "Ore" /\
  catalogue (commodity_stack empty_universe) ⊆ catalogue (commodity_stack sample_loaded.1) /\
  (forall k, commodity_get empty_universe "Ore" = Some k ->
             commodity_get sample_loaded.1 "Ore" = Some k) /\
  (forall k, commodity_get sample_loaded.1 "Ore" = Some k ->
     exists c, commodity_stack sample_loaded.1 !! k = Some c /\ com_name c = "Ore" /\
       forall j c', commodity_stack sample_loaded.1 !! j = Some c' -> (j < k)%nat ->
                    com_name c' <> "Ore").
Proof.
  exact (commodity_get_refines (GL := sample_gl) sample_file (empty_universe, ∅)
           sample_loaded "Ore" (proj1 sample_file_loaded)).
Defined.

(** Two commodities of one name: the loader takes both, the second is in
    the priced set, and no lookup by name finds it. *)
Example food_twice_shadowed (name : string) :
  let s := foldl (load_node (GL := sample_gl)) (empty_universe, ∅) food_twice in
  length (commodity_stack s.1) = 2%nat /\ econ_comm s.1 = [0; 1]%nat /\
  commodity_get s.1 name <> Some 1%nat.
Proof.
  cbn zeta. cbn [food_twice foldl]. rewrite !load_node_commodity. cbn zeta.
  rewrite !commodity_parse_spec. unfold last_node. cbn.
  repeat case_Rlt. split_and!; [done..|].
  unfold commodity_get. cbn. by case_decide.
Qed.

(** After [commodity_free] the priced set still names commodities, and the
    stack holds none: the registries are no longer well formed. *)
Lemma commodity_free_stale (s : Universe * GlStore) :
  econ_comm s.1 <> [] -> ~ wf_universe (commodity_free s).1.
Proof.
  intros Hne [Hc _]. destruct (econ_comm s.1) as [|k l] eqn:He; [done|].
  cbn in Hc. rewrite He in Hc. apply Forall_cons in Hc as [Hk _]. cbn in Hk. lia.
Qed.

(** ** The order of [commodity_compareTech] *)

Lemma ascii_compare_spec (a b : Ascii.ascii) :
  CompareSpec (a = b) (Ascii.N_of_ascii a < Ascii.N_of_ascii b)%N
    (Ascii.N_of_ascii b < Ascii.N_of_ascii a)%N (Ascii.compare a b).
Proof.
  unfold Ascii.compare.
  destruct (N.compare_spec (Ascii.N_of_ascii a) (Ascii.N_of_ascii b)) as [H|H|H];
    constructor; try done.
  by rewrite <- (Ascii.ascii_N_embedding a), H, Ascii.ascii_N_embedding.
Qed.

Lemma string_compare_refl (s : string) : String.compare s s = Eq.
Proof.
  pose proof (String.compare_antisym s s) as H.
  by destruct (String.compare s s).
Qed.

Lemma string_compare_trans (a b c : string) :
  String.compare a b <> Gt -> String.compare b c <> Gt -> String.compare a c <> Gt.
Proof.
  revert b c. induction a as [|x a IH]; intros [|y b] [|z c]; cbn; try done.
  destruct (ascii_compare_spec x y), (ascii_compare_spec y z), (ascii_compare_spec x z);
    subst; try done; try (exfalso; lia). apply IH.
Qed.

Lemma compareTech_le (a b : Commodity) :
  (commodity_compareTech a b <= 0)%Z <->
  com_price b < com_price a \/
  (com_price a = com_price b /\ String.compare (com_name a) (com_name b) <> Gt).
Proof.
  unfold commodity_compareTech, strcmp.
  destruct (Rlt_dec (com_price a) (com_price b)), (Rlt_dec (com_price b) (com_price a)),
    (String.compare (com_name a) (com_name b)); split; intros H;
    try lia; try (left; lra); try (right; split; [lra|done]);
    destruct H as [H|[H1 H2]]; try lra; done.
Qed.

(** [commodity_compareTech] is a comparison as [qsort] needs one:
    swapping the arguments negates the result, the relation "not after" is
    transitive, the result is 0 for equal price and name only, and the
    commodity of higher price comes first. *)
Theorem commodity_compareTech_order (a b c : Commodity) :
  commodity_compareTech a b = (- commodity_compareTech b a)%Z /\
  ((commodity_compareTech a b <= 0)%Z -> (commodity_compareTech b c <= 0)%Z ->
   (commodity_compareTech a c <= 0)%Z) /\
  (commodity_compareTech a b = 0%Z <->
   com_price a = com_price b /\ com_name a = com_name b) /\
  (com_price b < com_price a -> commodity_compareTech a b = (-1)%Z).
Proof.
  split_and!.
  - unfold commodity_compareTech, strcmp. rewrite (String.compare_antisym (com_name b)).
    destruct (Rlt_dec (com_price a) (com_price b)), (Rlt_dec (com_price b) (com_price a));
      try lra; try done. by destruct (String.compare (com_name a) (com_name b)).
  - rewrite !compareTech_le. intros [?|[? ?]] [?|[? ?]]; try (left; lra).
    right. split; [lra|]. by eapply string_compare_trans.
  - unfold commodity_compareTech, strcmp.
    destruct (Rlt_dec (com_price a) (com_price b)), (Rlt_dec (com_price b) (com_price a));
      try (split; [done|lra]).
    destruct (String.compare (com_name a) (com_name b)) eqn:Hc.
    + apply String.compare_eq_iff in Hc. split; [|done]. intros _. split; [lra|done].
    + split; [done|]. intros [_ He]. by rewrite He, string_compare_refl in Hc.
    + split; [done|]. intros [_ He]. by rewrite He, string_compare_refl in Hc.
  - intros Hp. unfold commodity_compareTech.
    destruct (Rlt_dec (com_price a) (com_price b)); [lra|].
    by destruct (Rlt_dec (com_price b) (com_price a)).
Qed.
