(* ===== verification/Xml.v ===== *)
(** * Xml: the saved game as a document, and the text of its numbers

    What [economy_sysSave] and [economy_sysLoad] take from libxml2 and from
    the C library.  The writer is the sequence of calls made on it
    ([xmlw_startElem], [xmlw_attr], [xmlw_str], [xmlw_endElem]); the document
    the loader walks is a tree of elements and text nodes.  [xml_write] is the
    sequence of calls that writes a tree and [xml_read] the tree a sequence
    of calls stands for.

    Integers are printed in decimal ([printf_d] for [%d], [printf_u64] for
    [PRIu64], which takes its argument as unsigned) and read back by
    [atoi] and [atol].  The text of a [double] is behind the interface
    [RealText]: [%f] keeps six decimals, so reading it back gives the value
    to within half a millionth, and exactly when the value is an integer. *)

From Stdlib Require Import Reals Lra Lia ZArith.
From Stdlib Require Import Decimal DecimalPos DecimalZ DecimalString.
From stdpp Require Import base tactics option list strings.
From S2P Require Import Prelude.

#[local] Open Scope R_scope.

(** ** The document *)

#[local] Unset Elimination Schemes.
Inductive xml : Type :=
  | xml_text (content : string)
  | xml_elem (name : string) (attrs : list (string * string)) (children : list xml).
#[local] Set Elimination Schemes.

(** [node->xmlChildrenNode] and the walk along [next]. *)
Definition xml_children (n : xml) : list xml :=
  match n with
  | xml_text _ => []
  | xml_elem _ _ ch => ch
  end.

Definition xml_isNode (n : xml) (s : string) : bool :=
  match n with
  | xml_text _ => false
  | xml_elem name _ _ => bool_decide (name = s)
  end.

(** [xmlr_attr]: the value of the first attribute of that name, or [NULL]. *)
Definition xmlr_attr (n : xml) (s : string) : option string :=
  match n with
  | xml_text _ => None
  | xml_elem _ attrs _ => (fun x => x.2.2) <$> list_find (fun kv => kv.1 = s) attrs
  end.

(** [xml_raw]: the content of the first child; [None] when there is no first
    child or it is not text. *)
Definition xml_raw (n : xml) : option string :=
  match xml_children n with
  | xml_text s :: _ => Some s
  | _ => None
  end.

(** ** The writer *)

Inductive xmlw_call : Type :=
  | xmlw_startElem (name : string)
  | xmlw_attr (name value : string)
  | xmlw_str (s : string)
  | xmlw_endElem.

Definition xmlTextWriter : Type := list xmlw_call.

(** The calls that write a tree. *)
Fixpoint xml_write (n : xml) : xmlTextWriter :=
  match n with
  | xml_text s => [xmlw_str s]
  | xml_elem name attrs ch =>
      xmlw_startElem name :: (uncurry xmlw_attr <$> attrs)
        ++ (ch ≫= xml_write) ++ [xmlw_endElem]
  end.

(** ** The reader

    An element under construction; the stack of the reader holds the open
    elements, innermost first, above a root frame that collects the
    documents. *)
Record frame : Type := mkFrame {
  fr_name : string;
  fr_attrs : list (string * string);
  fr_children : list xml
}.

Definition fr_close (f : frame) : xml :=
  xml_elem (fr_name f) (fr_attrs f) (fr_children f).

Definition fr_child (c : xml) (f : frame) : frame :=
  mkFrame (fr_name f) (fr_attrs f) (fr_children f ++ [c]).

Definition fr_attr (k v : string) (f : frame) : frame :=
  mkFrame (fr_name f) (fr_attrs f ++ [(k, v)]) (fr_children f).

(** One call; [None] when the call is not allowed there (an attribute after
    the content, a call outside every element, an end without a start). *)
Definition xml_read_step (st : option (list frame)) (c : xmlw_call) : option (list frame) :=
  match c, st with
  | xmlw_startElem name, Some stack => Some (mkFrame name [] [] :: stack)
  | xmlw_attr k v, Some (f :: g :: stack) =>
      match fr_children f with
      | [] => Some (fr_attr k v f :: g :: stack)
      | _ => None
      end
  | xmlw_str s, Some (f :: stack) => Some (fr_child (xml_text s) f :: stack)
  | xmlw_endElem, Some (f :: g :: stack) => Some (fr_child (fr_close f) g :: stack)
  | _, _ => None
  end.

Definition fr_root : frame := mkFrame "" [] [].

(** The documents a complete sequence of calls has written. *)
Definition xml_read (w : xmlTextWriter) : option (list xml) :=
  match foldl xml_read_step (Some [fr_root]) w with
  | Some [f] => Some (fr_children f)
  | _ => None
  end.

(** ** Integers as text *)

Definition LONG_MAX : Z := INT64_MAX.
Definition LONG_MIN : Z := (- INT64_MAX - 1)%Z.

(** [%d]. *)
Definition printf_d (z : Z) : string := NilZero.string_of_int (Z.to_int z).

(** [PRIu64]: the argument is converted to [uint64_t]. *)
Definition printf_u64 (z : Z) : string := printf_d (wrap_unsigned 64 z).

(** [strtol (s, NULL, 10)] on a text that is a number throughout: the value,
    brought into the range of [long]; 0 for any other text. *)
Definition strtol (s : string) : Z :=
  match NilZero.int_of_string s with
  | Some d => Z.max LONG_MIN (Z.min LONG_MAX (Z.of_int d))
  | None => 0%Z
  end.

Definition atol (s : string) : Z := strtol s.

(** [atoi] is [(int) strtol (s, NULL, 10)]. *)
Definition atoi (s : string) : Z := int32 (strtol s).

(** ** Reals as text *)

Class RealText : Type := {
  printf_f : R -> string;
  atof : string -> R
}.

(** What [%f] and [atof] promise of a [double], read as a real. *)
Class RealTextSpec (T : RealText) : Prop := {
  atof_printf_f_near (x : R) : Rabs (atof (printf_f x) - x) <= / 2000000;
  atof_printf_f_IZR (z : Z) : atof (printf_f (IZR z)) = IZR z
}.

(** A text that satisfies the interface: the number of millionths, as an
    integer in decimal. *)
Definition millionths (x : R) : Z := Zfloor (x * 1000000 + / 2).

Definition of_millionths (s : string) : R :=
  match NilZero.int_of_string s with
  | Some d => IZR (Z.of_int d) / 1000000
  | None => 0
  end.

#[export] Instance millionths_text : RealText :=
  {| printf_f x := printf_d (millionths x); atof := of_millionths |}.

(** * Theorems *)

(** ** Induction on documents *)

Lemma xml_ind (P : xml -> Prop) :
  (forall s, P (xml_text s)) ->
  (forall name attrs ch, Forall P ch -> P (xml_elem name attrs ch)) ->
  forall n, P n.
Proof.
  intros Ht He. fix IH 1. intros [s|name attrs ch]; [apply Ht|].
  apply He. induction ch as [|c ch IHch]; constructor; [apply IH|apply IHch].
Qed.

(** ** Reading what was written *)

Lemma xml_read_attrs (attrs a : list (string * string)) (name : string) (stack : list frame) (g : frame) :
  foldl xml_read_step (Some (mkFrame name a [] :: g :: stack)) (uncurry xmlw_attr <$> attrs)
  = Some (mkFrame name (a ++ attrs) [] :: g :: stack).
Proof.
  revert a. induction attrs as [|[k v] attrs IH]; intros a; cbn.
  - by rewrite app_nil_r.
  - unfold fr_attr. cbn. by rewrite IH, <- app_assoc.
Qed.

Lemma xml_read_list (ch : list xml) (f : frame) (stack : list frame) :
  Forall (fun n => forall f stack,
            foldl xml_read_step (Some (f :: stack)) (xml_write n)
            = Some (fr_child n f :: stack)) ch ->
  foldl xml_read_step (Some (f :: stack)) (ch ≫= xml_write)
  = Some (mkFrame (fr_name f) (fr_attrs f) (fr_children f ++ ch) :: stack).
Proof.
  intros H. revert f. induction H as [|c ch Hc _ IH]; intros f; cbn.
  - rewrite app_nil_r. by destruct f.
  - rewrite foldl_app, Hc, IH. cbn. by rewrite <- app_assoc.
Qed.

Lemma xml_read_write (n : xml) (f : frame) (stack : list frame) :
  foldl xml_read_step (Some (f :: stack)) (xml_write n)
  = Some (fr_child n f :: stack).
Proof.
  revert f stack. induction n as [s|name attrs ch IH] using xml_ind; intros f stack; [done|].
  cbn. by rewrite foldl_app, (xml_read_attrs attrs []), foldl_app, (xml_read_list ch).
Qed.

(** The reader recovers the documents the writer was given. *)
Lemma xml_read_xml_write (docs : list xml) :
  xml_read (docs ≫= xml_write) = Some docs.
Proof.
  unfold xml_read. rewrite xml_read_list; [done|].
  apply Forall_true. intros n. apply xml_read_write.
Qed.

(** ** Loops that write *)

Lemma xml_write_not_nil (n : xml) : xml_write n <> [].
Proof. by destruct n. Qed.

Lemma bind_xml_write_nil (l : list xml) : l ≫= xml_write = [] -> l = [].
Proof.
  destruct l as [|n l]; [done|]. cbn. intros [H _]%app_eq_nil.
  by apply xml_write_not_nil in H.
Qed.

(** A loop that appends to the writer in every round. *)
Lemma foldl_write {A : Type} (body : A -> xmlTextWriter) (l : list A) (w : xmlTextWriter) :
  foldl (fun w x => w ++ body x) w l = w ++ (l ≫= body).
Proof.
  revert w. induction l as [|x l IH]; intros w; cbn.
  - by rewrite app_nil_r.
  - by rewrite IH, app_assoc.
Qed.

(** A loop with a flag that writes an opening before the first round that
    writes at all: [pre fl] is what is still to be opened in state [fl], and
    nothing is in state [opened]. *)
Lemma foldl_open_once {A F : Type} (opened : F) (pre : F -> xmlTextWriter)
    (body : A -> xmlTextWriter) (l : list A) (fl : F) (w : xmlTextWriter) :
  pre opened = [] ->
  foldl (fun st x => match body x with
                     | [] => st
                     | _ => (opened, st.2 ++ pre st.1 ++ body x)
                     end) (fl, w) l
  = match l ≫= body with
    | [] => (fl, w)
    | _ => (opened, w ++ pre fl ++ (l ≫= body))
    end.
Proof.
  intros Hpre. revert fl w. induction l as [|x l IH]; intros fl w; [done|].
  cbn. destruct (body x) as [|c b] eqn:Hb; [by rewrite IH|].
  rewrite IH, Hpre. cbn. destruct (l ≫= body).
  - by rewrite app_nil_r.
  - by rewrite <- !app_assoc.
Qed.

(** What [elem_unless_empty]-style elements write: nothing, or the children
    between the opening and the end. *)
Lemma xml_write_elem (name : string) (attrs : list (string * string)) (ch : list xml) :
  xml_write (xml_elem name attrs ch)
  = xmlw_startElem name :: (uncurry xmlw_attr <$> attrs) ++ (ch ≫= xml_write) ++ [xmlw_endElem].
Proof. done. Qed.

(** ** Integers *)

Lemma strtol_printf_d (z : Z) :
  strtol (printf_d z) = Z.max LONG_MIN (Z.min LONG_MAX z).
Proof.
  unfold strtol, printf_d. rewrite NilZero.isi, of_to; [done| |];
    destruct z; cbn; try done; intros [=H]; by apply Unsigned.to_uint_nonnil in H.
Qed.

Lemma atoi_printf_d (z : Z) : int32 z = z -> atoi (printf_d z) = z.
Proof.
  intros Hz. unfold atoi. rewrite strtol_printf_d.
  assert (- 2147483648 <= z <= INT_MAX)%Z as H.
  { rewrite <- Hz. unfold int32, wrap_signed, INT_MAX.
    pose proof (Z.mod_pos_bound (z + 2 ^ (32 - 1)) (2 ^ 32)). lia. }
  unfold LONG_MIN, LONG_MAX, INT64_MAX, INT_MAX in *.
  rewrite Z.min_r, Z.max_r by lia. done.
Qed.

Lemma atol_printf_u64 (z : Z) : (0 <= z <= LONG_MAX)%Z -> atol (printf_u64 z) = z.
Proof.
  unfold atol, printf_u64, wrap_unsigned, LONG_MAX, INT64_MAX. intros Hz.
  rewrite strtol_printf_d, Z.mod_small by lia.
  unfold LONG_MIN, LONG_MAX, INT64_MAX. lia.
Qed.

(** A negative value is printed as a number above [LONG_MAX], and read back
    as [LONG_MAX]. *)
Lemma atol_printf_u64_negative (z : Z) :
  (LONG_MIN <= z < 0)%Z -> atol (printf_u64 z) = LONG_MAX.
Proof.
  unfold atol, printf_u64, wrap_unsigned, LONG_MIN, LONG_MAX, INT64_MAX. intros Hz.
  rewrite strtol_printf_d.
  replace (z mod 2 ^ 64)%Z with (z + 2 ^ 64)%Z.
  - unfold LONG_MIN, LONG_MAX, INT64_MAX. lia.
  - apply Z.mod_unique with (q := (-1)%Z); lia.
Qed.

(** ** The sample text of reals satisfies the interface *)

Lemma of_millionths_printf_d (z : Z) : of_millionths (printf_d z) = IZR z / 1000000.
Proof.
  unfold of_millionths, printf_d. rewrite NilZero.isi, of_to; [done| |];
    destruct z; cbn; try done; intros [=H]; by apply Unsigned.to_uint_nonnil in H.
Qed.

#[export] Instance millionths_text_spec : RealTextSpec millionths_text.
Proof.
  split; intros; cbn; rewrite of_millionths_printf_d; unfold millionths.
  - pose proof (Zfloor_bound (x * 1000000 + / 2)). apply Rabs_le. lra.
  - rewrite (Zfloor_eq (z * 1000000)); rewrite mult_IZR; [field|lra].
Qed.
