(* ===== verification/Persistence.v ===== *)
(** * Persistence: what the player has seen, in the saved game

    [economy_sysSave] and [economy_sysLoad] of economy.c.

    The save routine is the sequence of calls it makes on the XML writer,
    with its two flags [doneSys] and [donePlanet] that open the element of a
    system and of a planet at the first good seen there.  [saved_economy] is
    the document these calls write.  The loader walks a document: it starts
    with [economy_clearKnown] and then stores what each element gives.  It
    returns [None] where the C code dereferences a [NULL] pointer: a good of
    a planet [planet_get] does not know, a last purchase of a commodity
    [commodity_get] does not know or without text.  At a system element it
    calls [system_get] on the name and drops the result, as the code does:
    the planets of the element are found by their own names.

    [restored] is the state a load of a saved game must produce: the planets
    the systems point to and the commodities, with the numbers as their text
    reads. *)

From Stdlib Require Import Reals Lra Lia ZArith.
From stdpp Require Import base tactics option list strings.
From S2P Require Import Prelude World Price Observation Catalog Xml.

#[local] Open Scope R_scope.

(** ** Lookup of a planet and of a system by name ([planet_get] and
    [system_get] of space.c) *)

Definition planet_get (u : Universe) (name : string) : option nat :=
  fst <$> list_find (fun p => pl_name p = name) (planet_stack u).

Definition system_get (u : Universe) (name : string) : option nat :=
  fst <$> list_find (fun s => sys_name s = name) (systems_stack u).

(** ** Stores into a price field *)

Definition store_sum (v : R) (cp : CommodityPrice) : CommodityPrice :=
  mkCommodityPrice (cp_name cp) (cp_price cp) (cp_planetPeriod cp)
    (cp_sysPeriod cp) (cp_planetVariation cp) (cp_sysVariation cp)
    (cp_updateTime cp) v (cp_sum2 cp) (cp_cnt cp).

Definition store_sum2 (v : R) (cp : CommodityPrice) : CommodityPrice :=
  mkCommodityPrice (cp_name cp) (cp_price cp) (cp_planetPeriod cp)
    (cp_sysPeriod cp) (cp_planetVariation cp) (cp_sysVariation cp)
    (cp_updateTime cp) (cp_sum cp) v (cp_cnt cp).

Definition store_cnt (v : Z) (cp : CommodityPrice) : CommodityPrice :=
  mkCommodityPrice (cp_name cp) (cp_price cp) (cp_planetPeriod cp)
    (cp_sysPeriod cp) (cp_planetVariation cp) (cp_sysVariation cp)
    (cp_updateTime cp) (cp_sum cp) (cp_sum2 cp) v.

Definition store_updateTime (v : Z) (cp : CommodityPrice) : CommodityPrice :=
  mkCommodityPrice (cp_name cp) (cp_price cp) (cp_planetPeriod cp)
    (cp_sysPeriod cp) (cp_planetVariation cp) (cp_sysVariation cp)
    v (cp_sum cp) (cp_sum2 cp) (cp_cnt cp).

(** [xmlr_attr (node, s, str); if (str) { ... }] *)
Definition with_attr {A : Type} (n : xml) (s : string) (f : string -> A -> A) (a : A) : A :=
  match xmlr_attr n s with
  | Some str => f str a
  | None => a
  end.

Section Persistence.
Context `{T : RealText}.

(** ** Loading *)

(** The four attributes of a commodity element, each stored when present. *)
Definition load_fields (nodeCommodity : xml) (cp : CommodityPrice) : CommodityPrice :=
  let cp1 := with_attr nodeCommodity "sum" (fun str => store_sum (atof str)) cp in
  let cp2 := with_attr nodeCommodity "sum2" (fun str => store_sum2 (atof str)) cp1 in
  let cp3 := with_attr nodeCommodity "cnt" (fun str => store_cnt (atoi str)) cp2 in
  with_attr nodeCommodity "time" (fun str => store_updateTime (atol str)) cp3.

(** One child of a planet element.  [planet] is what [planet_get] returned;
    the search for the good reads [planet->ncommodities], and compares the
    name, which is [NULL] when the attribute is missing. *)
Definition load_commodity (planet : option nat) (st : option Universe) (nodeCommodity : xml)
  : option Universe :=
  u ← st;
  if xml_isNode nodeCommodity "commodity" then
    k ← planet;
    p ← planet_stack u !! k;
    match xmlr_attr nodeCommodity "name" with
    | None => match pl_goods p with [] => Some u | _ => None end
    | Some str =>
        match list_find (fun g => commodity_name u g.1 = str) (pl_goods p) with
        | Some (i, _) =>
            Some (set_planet_stack
                    (alter (upd_cp (load_fields nodeCommodity) i) k (planet_stack u)) u)
        | None => Some u
        end
    end
  else Some u.

(** One child of a system element. *)
Definition load_planet (st : option Universe) (nodeAsset : xml) : option Universe :=
  u ← st;
  if xml_isNode nodeAsset "planet" then
    let planet := xmlr_attr nodeAsset "name" ≫= planet_get u in
    foldl (load_commodity planet) (Some u) (xml_children nodeAsset)
  else Some u.

Definition load_lastPurchase (u : Universe) (cur : xml) : option Universe :=
  match xmlr_attr cur "name" with
  | Some str =>
      c ← commodity_get u str;
      raw ← xml_raw cur;
      Some (set_commodity_stack
              (alter (set_com_lastPurchasePrice (atol raw)) c (commodity_stack u)) u)
  | None => Some u
  end.

(** One child of the economy element.  The system the element names is
    looked up and not used: the planets of the element are found by their
    own names. *)
Definition load_entry (st : option Universe) (cur : xml) : option Universe :=
  u ← st;
  if xml_isNode cur "system" then
    let sys := xmlr_attr cur "name" ≫= system_get u in
    foldl load_planet (Some u) (xml_children cur)
  else if xml_isNode cur "lastPurchase" then load_lastPurchase u cur
  else Some u.

Definition load_economy (st : option Universe) (node : xml) : option Universe :=
  u ← st;
  if xml_isNode node "economy" then foldl load_entry (Some u) (xml_children node)
  else Some u.

Definition economy_sysLoad (parent : xml) (u : Universe) : option Universe :=
  foldl load_economy (Some (economy_clearKnown u)) (xml_children parent).

(** ** Saving *)

Definition save_lastPurchase (w : xmlTextWriter) (c : Commodity) : xmlTextWriter :=
  if decide (com_lastPurchasePrice c > 0)%Z then
    w ++ [xmlw_startElem "lastPurchase";
          xmlw_attr "name" (com_name c);
          xmlw_str (printf_u64 (com_lastPurchasePrice c));
          xmlw_endElem]
  else w.

(** One round of the loop over the goods of a planet; the state is
    [(doneSys, donePlanet, writer)]. *)
Definition save_good (u : Universe) (sys : StarSystem) (p : Planet)
  (st : bool * bool * xmlTextWriter) (g : nat * CommodityPrice) : bool * bool * xmlTextWriter :=
  if decide (cp_cnt g.2 > 0)%Z then
    let w1 := if st.1.1 then st.2
              else st.2 ++ [xmlw_startElem "system"; xmlw_attr "name" (sys_name sys)] in
    let w2 := if st.1.2 then w1
              else w1 ++ [xmlw_startElem "planet"; xmlw_attr "name" (pl_name p)] in
    (true, true,
     w2 ++ [xmlw_startElem "commodity";
            xmlw_attr "name" (commodity_name u g.1);
            xmlw_attr "sum" (printf_f (cp_sum g.2));
            xmlw_attr "sum2" (printf_f (cp_sum2 g.2));
            xmlw_attr "cnt" (printf_d (cp_cnt g.2));
            xmlw_attr "time" (printf_u64 (cp_updateTime g.2));
            xmlw_endElem])
  else st.

(** One round of the loop over the planets of a system; the state is
    [(doneSys, writer)]. *)
Definition save_planet (u : Universe) (sys : StarSystem)
  (st : bool * xmlTextWriter) (j : nat) : bool * xmlTextWriter :=
  match planet_stack u !! j with
  | Some p =>
      let r := foldl (save_good u sys p) (st.1, false, st.2) (pl_goods p) in
      (r.1.1, if r.1.2 then r.2 ++ [xmlw_endElem] else r.2)
  | None => st
  end.

Definition save_system (u : Universe) (w : xmlTextWriter) (sys : StarSystem) : xmlTextWriter :=
  let r := foldl (save_planet u sys) (false, w) (sys_planets sys) in
  if r.1 then r.2 ++ [xmlw_endElem] else r.2.

Definition economy_sysSave (u : Universe) (writer : xmlTextWriter) : xmlTextWriter :=
  let w1 := writer ++ [xmlw_startElem "economy"] in
  let w2 := foldl save_lastPurchase w1 (commodity_stack u) in
  let w3 := foldl (save_system u) w2 (systems_stack u) in
  w3 ++ [xmlw_endElem].

(** ** The document of a saved game *)

Definition seen (g : nat * CommodityPrice) : Prop := (cp_cnt g.2 > 0)%Z.

#[global] Instance seen_dec (g : nat * CommodityPrice) : Decision (seen g).
Proof. unfold seen. apply _. Defined.

Definition commodity_elem (u : Universe) (g : nat * CommodityPrice) : xml :=
  xml_elem "commodity"
    [("name", commodity_name u g.1);
     ("sum", printf_f (cp_sum g.2));
     ("sum2", printf_f (cp_sum2 g.2));
     ("cnt", printf_d (cp_cnt g.2));
     ("time", printf_u64 (cp_updateTime g.2))] [].

(** An element with its children, or nothing when there are none. *)
Definition elem_unless_empty (name : string) (attrs : list (string * string))
  (ch : list xml) : list xml :=
  match ch with
  | [] => []
  | _ => [xml_elem name attrs ch]
  end.

Definition planet_elems (u : Universe) (p : Planet) : list xml :=
  elem_unless_empty "planet" [("name", pl_name p)]
    (commodity_elem u <$> filter seen (pl_goods p)).

Definition system_planets (u : Universe) (s : StarSystem) : list Planet :=
  omap (fun j => planet_stack u !! j) (sys_planets s).

Definition system_elems (u : Universe) (s : StarSystem) : list xml :=
  elem_unless_empty "system" [("name", sys_name s)]
    (system_planets u s ≫= planet_elems u).

Definition lastPurchase_elems (c : Commodity) : list xml :=
  if decide (com_lastPurchasePrice c > 0)%Z then
    [xml_elem "lastPurchase" [("name", com_name c)]
       [xml_text (printf_u64 (com_lastPurchasePrice c))]]
  else [].

Definition saved_economy (u : Universe) : xml :=
  xml_elem "economy" []
    ((commodity_stack u ≫= lastPurchase_elems) ++ (systems_stack u ≫= system_elems u)).

(** The calls of the save routine, round by round: what is still to be
    opened in the state [(doneSys, donePlanet)], and what a good and a planet
    add. *)
Definition sys_open (sys : StarSystem) : xmlTextWriter :=
  [xmlw_startElem "system"; xmlw_attr "name" (sys_name sys)].

Definition planet_open (p : Planet) : xmlTextWriter :=
  [xmlw_startElem "planet"; xmlw_attr "name" (pl_name p)].

Definition pending (sys : StarSystem) (p : Planet) (fl : bool * bool) : xmlTextWriter :=
  (if fl.1 then [] else sys_open sys) ++ (if fl.2 then [] else planet_open p).

Definition good_calls (u : Universe) (g : nat * CommodityPrice) : xmlTextWriter :=
  if decide (seen g) then xml_write (commodity_elem u g) else [].

Definition planet_calls (u : Universe) (j : nat) : xmlTextWriter :=
  match planet_stack u !! j with
  | Some p => planet_elems u p ≫= xml_write
  | None => []
  end.

(** ** The state a load of the saved game restores *)

(** The field [tgt] with the numbers of [src], as their text reads. *)
Definition overwrite (src tgt : CommodityPrice) : CommodityPrice :=
  mkCommodityPrice (cp_name tgt) (cp_price tgt) (cp_planetPeriod tgt)
    (cp_sysPeriod tgt) (cp_planetVariation tgt) (cp_sysVariation tgt)
    (atol (printf_u64 (cp_updateTime src)))
    (atof (printf_f (cp_sum src))) (atof (printf_f (cp_sum2 src)))
    (atoi (printf_d (cp_cnt src))).

(** What one commodity element does to the planet it is loaded into. *)
Definition load_into (u : Universe) (n : xml) (q : Planet) : Planet :=
  match xmlr_attr n "name" with
  | Some str =>
      match list_find (fun g => commodity_name u g.1 = str) (pl_goods q) with
      | Some (i, _) => upd_cp (load_fields n) i q
      | None => q
      end
  | None => q
  end.

Definition restore_cp (cp : CommodityPrice) : CommodityPrice :=
  if decide (cp_cnt cp > 0)%Z then overwrite cp cp else clear_cp cp.

(** A field as it was when it has been seen, cleared when not. *)
Definition keep_seen (cp : CommodityPrice) : CommodityPrice :=
  if decide (cp_cnt cp > 0)%Z then cp else clear_cp cp.

Definition restore_planet (p : Planet) : Planet :=
  set_pl_goods (map_cp restore_cp <$> pl_goods p) p.

Definition restore_commodity (c : Commodity) : Commodity :=
  set_com_lastPurchasePrice
    (if decide (com_lastPurchasePrice c > 0)%Z
     then atol (printf_u64 (com_lastPurchasePrice c)) else 0%Z) c.

(** The planet heap when the planets [js] have been loaded: the others are
    as [economy_clearKnown] left them. *)
Definition planets_after (u : Universe) (js : list nat) : list Planet :=
  imap (fun k p => if decide (k ∈ js) then restore_planet p
                   else if decide (k ∈ reachable_planets u) then clearKnown_planet p
                   else p) (planet_stack u).

Definition loaded (u : Universe) (cs : list Commodity) (js : list nat) : Universe :=
  mkUniverse cs (econ_comm u) (systems_stack u) (planets_after u js).

Definition restored (u : Universe) : Universe :=
  loaded u (restore_commodity <$> commodity_stack u) (reachable_planets u).

(** ** What the round trip needs of a universe *)

(** Names identify: the planets of the heap, the commodities of the stack and
    the goods of each planet have distinct names, and the pointers of the
    systems and planets are in range. *)
Definition good_names (u : Universe) (gs : list (nat * CommodityPrice)) : list string :=
  (fun g => commodity_name u g.1) <$> gs.

Definition names_distinct (u : Universe) : Prop :=
  NoDup (pl_name <$> planet_stack u) /\
  NoDup (com_name <$> commodity_stack u) /\
  Forall (fun p => NoDup (good_names u (pl_goods p))) (planet_stack u) /\
  Forall (fun s => Forall (fun j => j < length (planet_stack u))%nat (sys_planets s))
    (systems_stack u).

(** The numbers of a field are kept by their text: the count is an [int],
    the time is not negative, the sums are whole numbers. *)
Definition storable (cp : CommodityPrice) : Prop :=
  int32 (cp_cnt cp) = cp_cnt cp /\
  (0 <= cp_updateTime cp <= LONG_MAX)%Z /\
  (exists a b : Z, cp_sum cp = IZR a /\ cp_sum2 cp = IZR b).

End Persistence.

(** ** Sample data: saved games that name what the universe does not hold *)

Definition stray_commodity : xml :=
  xml_elem "commodity" [("name", "Food"); ("cnt", "1")] [].

Definition stray_planet_save : xml :=
  xml_elem "save" []
    [xml_elem "economy" []
       [xml_elem "system" [("name", "Sol")]
          [xml_elem "planet" [("name", "Nowhere")] [stray_commodity]]]].

Definition stray_purchase_save : xml :=
  xml_elem "save" []
    [xml_elem "economy" [] [xml_elem "lastPurchase" [("name", "Gold")] [xml_text "12"]]].

(** * Theorems *)

Section Writer.
Context `{T : RealText}.

(** ** The save routine writes [saved_economy] *)

Lemma save_good_open (u : Universe) (sys : StarSystem) (p : Planet)
    (st : bool * bool * xmlTextWriter) (g : nat * CommodityPrice) :
  save_good u sys p st g
  = match good_calls u g with
    | [] => st
    | _ => (true, true, st.2 ++ pending sys p st.1 ++ good_calls u g)
    end.
Proof.
  unfold save_good, good_calls. destruct (decide (seen g)) as [Hs|Hs].
  - rewrite decide_True by done.
    destruct st as [[[] []] w]; cbn; by rewrite <- ?app_assoc.
  - by rewrite decide_False.
Qed.

Lemma goods_calls (u : Universe) (gs : list (nat * CommodityPrice)) :
  gs ≫= good_calls u = (commodity_elem u <$> filter seen gs) ≫= xml_write.
Proof.
  induction gs as [|g gs IH]; [done|].
  cbn [mbind list_bind]. rewrite filter_cons. unfold good_calls at 1.
  case_decide; [|done]. rewrite fmap_cons. cbn [mbind list_bind]. by f_equal.
Qed.

Lemma elem_unless_empty_write (name : string) (attrs : list (string * string)) (ch : list xml) :
  elem_unless_empty name attrs ch ≫= xml_write
  = match ch ≫= xml_write with
    | [] => []
    | b => xmlw_startElem name :: (uncurry xmlw_attr <$> attrs) ++ b ++ [xmlw_endElem]
    end.
Proof.
  destruct ch as [|c ch]; [done|].
  destruct ((c :: ch) ≫= xml_write) eqn:E; [by apply bind_xml_write_nil in E|].
  cbn [elem_unless_empty mbind list_bind]. by rewrite app_nil_r, xml_write_elem, E.
Qed.

Lemma save_planet_open (u : Universe) (sys : StarSystem) (st : bool * xmlTextWriter) (j : nat) :
  save_planet u sys st j
  = match planet_calls u j with
    | [] => st
    | _ => (true, st.2 ++ (if st.1 then [] else sys_open sys) ++ planet_calls u j)
    end.
Proof.
  unfold save_planet, planet_calls. destruct (planet_stack u !! j) as [p|]; [|done].
  rewrite (foldl_ext_in _ _ _ _ (fun st g _ => save_good_open u sys p st g)).
  rewrite (foldl_open_once (true, true) (pending sys p)) by done.
  unfold planet_elems. rewrite elem_unless_empty_write, goods_calls.
  destruct (_ ≫= xml_write) as [|c b]; [by destruct st|].
  destruct st as [[] w]; cbn; by rewrite <- ?app_assoc.
Qed.

Lemma planets_calls (u : Universe) (s : StarSystem) :
  sys_planets s ≫= planet_calls u = (system_planets u s ≫= planet_elems u) ≫= xml_write.
Proof.
  unfold system_planets. induction (sys_planets s) as [|j js IH]; [done|].
  cbn. rewrite IH. unfold planet_calls.
  destruct (planet_stack u !! j) as [p|]; [|done].
  cbn. by rewrite bind_app.
Qed.

Lemma save_system_write (u : Universe) (w : xmlTextWriter) (s : StarSystem) :
  save_system u w s = w ++ (system_elems u s ≫= xml_write).
Proof.
  unfold save_system.
  rewrite (foldl_ext_in _ _ _ _ (fun st j _ => save_planet_open u s st j)).
  rewrite (foldl_open_once true (fun fl : bool => if fl then [] else sys_open s)) by done.
  unfold system_elems. rewrite elem_unless_empty_write, planets_calls.
  destruct (_ ≫= xml_write) as [|c b]; cbn; [by rewrite app_nil_r|].
  by rewrite <- !app_assoc.
Qed.

Lemma save_lastPurchase_write (w : xmlTextWriter) (c : Commodity) :
  save_lastPurchase w c = w ++ (lastPurchase_elems c ≫= xml_write).
Proof.
  unfold save_lastPurchase, lastPurchase_elems. case_decide; [done|].
  by rewrite app_nil_r.
Qed.

Lemma economy_sysSave_write (u : Universe) (w : xmlTextWriter) :
  economy_sysSave u w = w ++ xml_write (saved_economy u).
Proof.
  unfold economy_sysSave.
  rewrite (foldl_ext_in _ _ _ _ (fun w c _ => save_lastPurchase_write w c)), foldl_write.
  rewrite (foldl_ext_in _ _ _ _ (fun w s _ => save_system_write u w s)), foldl_write.
  unfold saved_economy. rewrite xml_write_elem, bind_app, !list_bind_assoc.
  cbn. by rewrite <- !app_assoc.
Qed.

End Writer.

Section Loader.
Context `{T : RealText}.

(** ** One commodity element *)

Lemma load_fields_elem (u : Universe) (g : nat * CommodityPrice) (cp : CommodityPrice) :
  load_fields (commodity_elem u g) cp = overwrite g.2 cp.
Proof. done. Qed.

Lemma commodity_elem_isNode (u : Universe) (g : nat * CommodityPrice) :
  xml_isNode (commodity_elem u g) "commodity" = true.
Proof. done. Qed.

Lemma commodity_elem_name (u : Universe) (g : nat * CommodityPrice) :
  xmlr_attr (commodity_elem u g) "name" = Some (commodity_name u g.1).
Proof. done. Qed.

Lemma set_planet_stack_id (u : Universe) : set_planet_stack (planet_stack u) u = u.
Proof. by destruct u. Qed.

Lemma load_commodity_elem (st u : Universe) (g : nat * CommodityPrice) (k : nat) (q : Planet) :
  planet_stack st !! k = Some q ->
  load_commodity (Some k) (Some st) (commodity_elem u g)
  = Some (set_planet_stack
            (alter (load_into st (commodity_elem u g)) k (planet_stack st)) st).
Proof.
  intros Hq. unfold load_commodity. cbn [mbind option_bind].
  rewrite commodity_elem_isNode, Hq, commodity_elem_name. cbn [mbind option_bind].
  destruct (list_find _ (pl_goods q)) as [[i x]|] eqn:Hf.
  - do 2 f_equal. apply list_alter_ext; [|done]. intros q' Hq' . simplify_eq.
    unfold load_into. by rewrite commodity_elem_name, Hf.
  - rewrite <- (set_planet_stack_id st) at 1. do 2 f_equal.
    symmetry. etrans; [|apply (list_alter_id (fun q : Planet => q)); done].
    apply list_alter_ext; [|done]. intros q' Hq'. simplify_eq.
    unfold load_into. by rewrite commodity_elem_name, Hf.
Qed.

Lemma load_commodities (u : Universe) (gs : list (nat * CommodityPrice))
    (st : Universe) (k : nat) (q : Planet) :
  planet_stack st !! k = Some q ->
  foldl (load_commodity (Some k)) (Some st) (commodity_elem u <$> gs)
  = Some (set_planet_stack
            (alter (fun q => foldl (fun q n => load_into st n q) q (commodity_elem u <$> gs))
               k (planet_stack st)) st).
Proof.
  revert st q. induction gs as [|g gs IH]; intros st q Hq.
  - cbn. by rewrite (list_alter_id (fun q => q)), set_planet_stack_id.
  - cbn [fmap list_fmap foldl]. rewrite (load_commodity_elem _ _ _ _ q Hq).
    rewrite (IH _ (load_into st (commodity_elem u g) q)).
    + cbn [planet_stack set_planet_stack]. by rewrite alter_alter_same.
    + cbn [planet_stack set_planet_stack]. by rewrite list_lookup_alter_eq, Hq.
Qed.

(** ** The goods of one planet *)

Lemma good_names_fmap (u u' : Universe) (h : nat * CommodityPrice -> nat * CommodityPrice)
    (gs : list (nat * CommodityPrice)) :
  (forall k, commodity_name u' k = commodity_name u k) ->
  (forall g, (h g).1 = g.1) ->
  good_names u' (h <$> gs) = good_names u gs.
Proof.
  intros Hn Hh. unfold good_names. rewrite <- list_fmap_compose.
  apply list_fmap_ext. intros _ g _. cbn. by rewrite Hn, Hh.
Qed.

Lemma good_names_app (u : Universe) (l1 l2 : list (nat * CommodityPrice)) :
  good_names u (l1 ++ l2) = good_names u l1 ++ good_names u l2.
Proof. apply fmap_app. Qed.

Lemma load_into_good (u u' : Universe) (l1 l2 : list (nat * CommodityPrice))
    (g x : nat * CommodityPrice) (q : Planet) :
  NoDup (good_names u' (l1 ++ x :: l2)) ->
  commodity_name u' x.1 = commodity_name u g.1 ->
  load_into u' (commodity_elem u g) (set_pl_goods (l1 ++ x :: l2) q)
  = set_pl_goods (l1 ++ map_cp (overwrite g.2) x :: l2) q.
Proof.
  intros Hnd Hx. unfold load_into. rewrite commodity_elem_name, set_pl_goods_goods.
  rewrite (list_find_key_middle (fun y => commodity_name u' y.1)) by done.
  unfold upd_cp. by rewrite set_pl_goods_goods, set_pl_goods_twice, alter_middle.
Qed.

Lemma load_goods (u u' : Universe) (h : nat * CommodityPrice -> nat * CommodityPrice)
    (done rest : list (nat * CommodityPrice)) (q : Planet) :
  (forall k, commodity_name u' k = commodity_name u k) ->
  NoDup (good_names u (done ++ rest)) ->
  (forall g, (h g).1 = g.1) ->
  (forall g, ~ seen g -> h g = map_cp restore_cp g) ->
  (forall g, seen g -> map_cp (overwrite g.2) (h g) = map_cp restore_cp g) ->
  foldl (fun q n => load_into u' n q)
    (set_pl_goods ((map_cp restore_cp <$> done) ++ (h <$> rest)) q)
    (commodity_elem u <$> filter seen rest)
  = set_pl_goods (map_cp restore_cp <$> (done ++ rest)) q.
Proof.
  intros Hn Hnd Hh Hu Hs. revert done Hnd.
  induction rest as [|g rest IH]; intros done Hnd; [by rewrite !app_nil_r|].
  assert (map_cp restore_cp <$> done ++ [g] = (map_cp restore_cp <$> done) ++ [map_cp restore_cp g])
    as Hsnoc by (by rewrite fmap_app).
  assert (NoDup (good_names u' ((map_cp restore_cp <$> done) ++ h g :: (h <$> rest)))) as Hnd'.
  { change (h g :: (h <$> rest)) with (h <$> (g :: rest)).
    rewrite good_names_app, (good_names_fmap u u' (map_cp restore_cp)),
      (good_names_fmap u u' h), <- good_names_app; done. }
  rewrite (cons_middle g done rest), app_assoc in Hnd |- *.
  rewrite filter_cons, fmap_cons. destruct (decide (seen g)) as [Hg|Hg].
  - rewrite fmap_cons. cbn [foldl]. rewrite load_into_good, Hs by (by rewrite ?Hn, ?Hh).
    rewrite <- IH, Hsnoc, <- app_assoc by done. done.
  - rewrite Hu by done. rewrite <- IH, Hsnoc, <- app_assoc by done. done.
Qed.

Lemma overwrite_clear (cp : CommodityPrice) : overwrite cp (clear_cp cp) = overwrite cp cp.
Proof. done. Qed.

Lemma restore_cp_seen (cp : CommodityPrice) : (cp_cnt cp > 0)%Z -> restore_cp cp = overwrite cp cp.
Proof. intros H. unfold restore_cp. by rewrite decide_True. Qed.

Lemma restore_cp_unseen (cp : CommodityPrice) : ~ (cp_cnt cp > 0)%Z -> restore_cp cp = clear_cp cp.
Proof. intros H. unfold restore_cp. by rewrite decide_False. Qed.

(** Loading the commodity elements of a planet into the planet as
    [economy_clearKnown] left it, or as an earlier load left it. *)
Lemma load_planet_goods (u u' : Universe) (p q : Planet) :
  (forall k, commodity_name u' k = commodity_name u k) ->
  NoDup (good_names u (pl_goods p)) ->
  q = clearKnown_planet p \/ q = restore_planet p ->
  foldl (fun q n => load_into u' n q) q (commodity_elem u <$> filter seen (pl_goods p))
  = restore_planet p.
Proof.
  intros Hn Hnd [->| ->].
  - apply (load_goods u u' (map_cp clear_cp) [] (pl_goods p) p); try done.
    + intros g Hg. unfold map_cp. by rewrite restore_cp_unseen.
    + intros g Hg. unfold map_cp. cbn. by rewrite restore_cp_seen.
  - apply (load_goods u u' (map_cp restore_cp) [] (pl_goods p) p); try done.
    intros g Hg. unfold map_cp. cbn. by rewrite restore_cp_seen.
Qed.

Lemma restore_planet_unseen (p : Planet) :
  filter seen (pl_goods p) = [] -> restore_planet p = clearKnown_planet p.
Proof.
  intros Hf. unfold restore_planet, clearKnown_planet. f_equal.
  apply list_fmap_ext. intros i g Hg. unfold map_cp. f_equal.
  apply restore_cp_unseen. intros Hs.
  assert (g ∈ filter seen (pl_goods p)) as Hin
    by (apply list_elem_of_filter; split; [done|by apply list_elem_of_lookup_2 in Hg]).
  rewrite Hf in Hin. by apply not_elem_of_nil in Hin.
Qed.

End Loader.

Section Planets.
Context `{T : RealText} (u : Universe) (Hu : names_distinct u).
Context (cs : list Commodity) (Hcs : com_name <$> cs = com_name <$> commodity_stack u).

(** ** The planet heap while the systems are loaded *)

Lemma loaded_name (js : list nat) (k : nat) :
  commodity_name (loaded u cs js) k = commodity_name u k.
Proof.
  unfold commodity_name. cbn [loaded commodity_stack].
  apply (f_equal (fun l => l !! k)) in Hcs. rewrite !list_lookup_fmap in Hcs.
  destruct (cs !! k), (commodity_stack u !! k); by simplify_eq/=.
Qed.

Lemma planets_after_lookup (js : list nat) (k : nat) :
  planets_after u js !! k
  = (fun p => if decide (k ∈ js) then restore_planet p
              else if decide (k ∈ reachable_planets u) then clearKnown_planet p
              else p) <$> planet_stack u !! k.
Proof. apply list_lookup_imap. Qed.

Lemma planets_after_names (js : list nat) :
  pl_name <$> planets_after u js = pl_name <$> planet_stack u.
Proof.
  apply list_eq. intros k. rewrite !list_lookup_fmap, planets_after_lookup.
  destruct (planet_stack u !! k); [|done]. cbn. by repeat case_decide.
Qed.

(** The planet in the cell of a planet some system points to. *)
Lemma planets_after_reachable (js : list nat) (j : nat) (p : Planet) :
  planet_stack u !! j = Some p -> j ∈ reachable_planets u ->
  exists q, planets_after u js !! j = Some q /\ pl_name q = pl_name p /\
            (q = clearKnown_planet p \/ q = restore_planet p).
Proof.
  intros Hp Hj. rewrite planets_after_lookup, Hp. cbn.
  rewrite (decide_True (P := j ∈ reachable_planets u)) by done.
  case_decide; eexists; (split; [done|]); auto.
Qed.

Lemma planets_after_snoc (js : list nat) (j : nat) (p : Planet) :
  planet_stack u !! j = Some p ->
  alter (fun _ => restore_planet p) j (planets_after u js) = planets_after u (js ++ [j]).
Proof.
  intros Hp. apply list_eq. intros k. destruct (decide (j = k)) as [<-|Hjk].
  - rewrite list_lookup_alter_eq, !planets_after_lookup, Hp. cbn.
    rewrite decide_True; [done|]. apply elem_of_app. right. by left.
  - rewrite list_lookup_alter_ne, !planets_after_lookup by done.
    destruct (planet_stack u !! k); [|done]. cbn.
    destruct (decide (k ∈ js)) as [Hk|Hk].
    + rewrite (decide_True (P := k ∈ js ++ [j])); [done|]. apply elem_of_app. by left.
    + rewrite (decide_False (P := k ∈ js ++ [j])); [done|].
      intros [?|?%list_elem_of_singleton]%elem_of_app; done.
Qed.

Lemma planet_get_loaded (js : list nat) (j : nat) (p : Planet) :
  planet_stack u !! j = Some p -> j ∈ reachable_planets u ->
  planet_get (loaded u cs js) (pl_name p) = Some j.
Proof.
  intros Hp Hj. destruct (planets_after_reachable js j p Hp Hj) as (q & Hq & Hname & _).
  unfold planet_get. cbn [loaded planet_stack].
  rewrite (list_find_key pl_name _ j q); [done| |done..].
  rewrite planets_after_names. apply Hu.
Qed.

Lemma planet_goods_distinct (j : nat) (p : Planet) :
  planet_stack u !! j = Some p -> NoDup (good_names u (pl_goods p)).
Proof.
  intros Hp. destruct Hu as (_ & _ & Hg & _).
  by apply (Forall_lookup_1 _ _ _ _ Hg Hp).
Qed.

(** ** Loading the element of a planet, of a system, of all systems *)

Lemma planet_step (js : list nat) (j : nat) (p : Planet) :
  planet_stack u !! j = Some p -> j ∈ reachable_planets u ->
  foldl load_planet (Some (loaded u cs js)) (planet_elems u p)
  = Some (loaded u cs (js ++ [j])).
Proof.
  intros Hp Hj.
  replace (loaded u cs (js ++ [j]))
    with (set_planet_stack (alter (fun _ => restore_planet p) j (planets_after u js))
            (loaded u cs js))
    by (unfold loaded; cbn; by rewrite planets_after_snoc).
  destruct (planets_after_reachable js j p Hp Hj) as (q & Hq & Hname & Hcase).
  unfold planet_elems, elem_unless_empty.
  destruct (commodity_elem u <$> filter seen (pl_goods p)) as [|c ch] eqn:E.
  - apply fmap_nil_inv in E. cbn [foldl].
    rewrite <- (set_planet_stack_id (loaded u cs js)) at 1. do 2 f_equal.
    cbn [loaded planet_stack].
    rewrite <- (list_alter_id (fun q : Planet => q) (planets_after u js) j) at 1 by done.
    apply list_alter_ext; [|done]. intros q' Hq'. simplify_eq.
    destruct Hcase as [->| ->]; [|done]. by rewrite restore_planet_unseen.
  - cbn [foldl]. unfold load_planet. cbn [mbind option_bind].
    change (xml_isNode (xml_elem "planet" _ _) "planet") with true.
    change (xmlr_attr (xml_elem "planet" _ _) "name") with (Some (pl_name p)).
    cbn [mbind option_bind xml_children]. rewrite (planet_get_loaded js j p), <- E by done.
    rewrite (load_commodities u _ _ j q) by done. do 2 f_equal.
    cbn [loaded planet_stack].
    apply list_alter_ext; [|done]. intros q' Hq'. simplify_eq.
    apply load_planet_goods; [apply loaded_name|by apply (planet_goods_distinct j)|done].
Qed.

Lemma planets_step (js' js : list nat) :
  Forall (fun j => j < length (planet_stack u))%nat js' ->
  (forall j, j ∈ js' -> j ∈ reachable_planets u) ->
  foldl load_planet (Some (loaded u cs js))
    (omap (fun j => planet_stack u !! j) js' ≫= planet_elems u)
  = Some (loaded u cs (js ++ js')).
Proof.
  revert js. induction js' as [|j js' IH]; intros js Hlen Hreach; [by rewrite app_nil_r|].
  apply Forall_cons in Hlen as [Hj Hlen].
  apply lookup_lt_is_Some in Hj as [p Hp]. cbn [omap list_omap]. rewrite Hp.
  cbn [mbind list_bind]. rewrite foldl_app, (planet_step js j p), IH, <- app_assoc; try done.
  - intros k Hk. apply Hreach. by right.
  - apply Hreach. by left.
Qed.

Lemma system_step (js : list nat) (s : StarSystem) :
  s ∈ systems_stack u ->
  foldl load_entry (Some (loaded u cs js)) (system_elems u s)
  = Some (loaded u cs (js ++ sys_planets s)).
Proof.
  intros Hs. rewrite <- planets_step.
  - unfold system_elems, system_planets, elem_unless_empty.
    by destruct (_ ≫= planet_elems u).
  - destruct Hu as (_ & _ & _ & Hr). by apply (proj1 (Forall_forall _ _) Hr).
  - intros j Hj. apply list_elem_of_bind. by exists s.
Qed.

Lemma systems_step (ss : list StarSystem) (js : list nat) :
  ss ⊆ systems_stack u ->
  foldl load_entry (Some (loaded u cs js)) (ss ≫= system_elems u)
  = Some (loaded u cs (js ++ (ss ≫= sys_planets))).
Proof.
  revert js. induction ss as [|s ss IH]; intros js Hss; [by rewrite app_nil_r|].
  cbn [mbind list_bind]. rewrite foldl_app, system_step, IH, <- app_assoc; try done.
  - intros x Hx. apply Hss. by right.
  - apply Hss. by left.
Qed.

End Planets.

Section Document.
Context `{T : RealText}.

(** ** The last purchases *)

Lemma names_fmap (f : Commodity -> Commodity) (l : list Commodity) :
  (forall c, com_name (f c) = com_name c) -> com_name <$> (f <$> l) = com_name <$> l.
Proof.
  intros Hf. rewrite <- list_fmap_compose. apply list_fmap_ext. intros _ c _. apply Hf.
Qed.

Lemma restore_commodity_seen (c : Commodity) :
  (com_lastPurchasePrice c > 0)%Z ->
  restore_commodity c
  = set_com_lastPurchasePrice (atol (printf_u64 (com_lastPurchasePrice c)))
      (set_com_lastPurchasePrice 0 c).
Proof. intros H. unfold restore_commodity. by rewrite decide_True. Qed.

Lemma restore_commodity_unseen (c : Commodity) :
  ~ (com_lastPurchasePrice c > 0)%Z -> restore_commodity c = set_com_lastPurchasePrice 0 c.
Proof. intros H. unfold restore_commodity. by rewrite decide_False. Qed.

Lemma lastPurchase_entry (u : Universe) (l1 l2 : list Commodity) (c : Commodity) (v : Z) :
  NoDup (com_name <$> (l1 ++ c :: l2)) ->
  commodity_stack u = l1 ++ c :: l2 ->
  load_entry (Some u)
    (xml_elem "lastPurchase" [("name", com_name c)] [xml_text (printf_u64 v)])
  = Some (set_commodity_stack
            (l1 ++ set_com_lastPurchasePrice (atol (printf_u64 v)) c :: l2) u).
Proof.
  intros Hnd Hu. unfold load_entry, load_lastPurchase, commodity_get.
  cbn [mbind option_bind].
  change (xml_isNode (xml_elem "lastPurchase" _ _) "system") with false.
  change (xml_isNode (xml_elem "lastPurchase" _ _) "lastPurchase") with true.
  change (xmlr_attr (xml_elem "lastPurchase" _ _) "name") with (Some (com_name c)).
  cbn iota. rewrite Hu, (list_find_key_middle com_name) by done.
  cbn. by rewrite alter_middle.
Qed.

Lemma lastPurchase_step (e : list nat) (ss : list StarSystem) (ps : list Planet)
    (done rest : list Commodity) :
  NoDup (com_name <$> (done ++ rest)) ->
  foldl load_entry
    (Some (mkUniverse ((restore_commodity <$> done) ++ (set_com_lastPurchasePrice 0 <$> rest))
             e ss ps))
    (rest ≫= lastPurchase_elems)
  = Some (mkUniverse (restore_commodity <$> (done ++ rest)) e ss ps).
Proof.
  revert done. induction rest as [|c rest IH]; intros done Hnd; [by rewrite !app_nil_r|].
  assert (restore_commodity <$> done ++ [c]
          = (restore_commodity <$> done) ++ [restore_commodity c]) as Hsnoc
    by (by rewrite fmap_app).
  assert (NoDup (com_name <$> ((restore_commodity <$> done)
            ++ set_com_lastPurchasePrice 0 c :: (set_com_lastPurchasePrice 0 <$> rest)))) as Hnd'.
  { change (set_com_lastPurchasePrice 0 c :: (set_com_lastPurchasePrice 0 <$> rest))
      with (set_com_lastPurchasePrice 0 <$> (c :: rest)).
    by rewrite fmap_app, !names_fmap, <- fmap_app. }
  rewrite (cons_middle c done rest), app_assoc in Hnd |- *.
  cbn [mbind list_bind fmap list_fmap]. rewrite foldl_app, <- IH, Hsnoc, <- app_assoc by done.
  f_equal. unfold lastPurchase_elems.
  destruct (decide (com_lastPurchasePrice c > 0)%Z) as [Hc|Hc]; cbn [foldl].
  - rewrite (lastPurchase_entry _ _ _ _ _ Hnd') by done.
    by rewrite (restore_commodity_seen c Hc).
  - by rewrite (restore_commodity_unseen c Hc).
Qed.

(** ** The whole document *)

Lemma economy_clearKnown_loaded (u : Universe) :
  economy_clearKnown u = loaded u (set_com_lastPurchasePrice 0 <$> commodity_stack u) [].
Proof.
  unfold loaded. rewrite <- (set_planet_stack_id (economy_clearKnown u)).
  unfold set_planet_stack. f_equal. apply list_eq. intros k.
  rewrite economy_clearKnown_planet_lookup, planets_after_lookup.
  destruct (planet_stack u !! k); cbn; [|by case_decide].
  rewrite (decide_False (P := k ∈ [])) by apply not_elem_of_nil.
  by case_decide.
Qed.

Lemma load_economy_skip (l : list xml) (st : Universe) :
  Forall (fun n => xml_isNode n "economy" = false) l ->
  foldl load_economy (Some st) l = Some st.
Proof.
  induction 1 as [|n l Hn _ IH]; [done|]. cbn. by rewrite Hn.
Qed.

Lemma sysLoad_saved (u u' : Universe) (name : string) (attrs : list (string * string))
    (before after : list xml) :
  names_distinct u ->
  economy_clearKnown u' = economy_clearKnown u ->
  Forall (fun n => xml_isNode n "economy" = false) (before ++ after) ->
  economy_sysLoad (xml_elem name attrs (before ++ saved_economy u :: after)) u'
  = Some (restored u).
Proof.
  intros Hu Heq [Hb Ha]%Forall_app. unfold economy_sysLoad. cbn [xml_children].
  rewrite Heq, foldl_app, load_economy_skip by done. cbn [foldl].
  replace (load_economy (Some (economy_clearKnown u)) (saved_economy u))
    with (Some (restored u)); [by apply load_economy_skip|].
  unfold load_economy, saved_economy. cbn [mbind option_bind].
  change (xml_isNode (xml_elem "economy" _ _) "economy") with true.
  cbn [xml_children]. rewrite foldl_app, economy_clearKnown_loaded.
  unfold loaded at 1.
  rewrite (lastPurchase_step (econ_comm u) (systems_stack u) (planets_after u []) []
             (commodity_stack u)) by apply Hu.
  symmetry. apply (systems_step u Hu); [|done].
  by rewrite names_fmap.
Qed.

Lemma sysSave_written (u : Universe) :
  xml_read (economy_sysSave u []) = Some [saved_economy u].
Proof.
  rewrite economy_sysSave_write. cbn [app].
  rewrite <- (app_nil_r (xml_write _)).
  change (xml_write (saved_economy u) ++ []) with ([saved_economy u] ≫= xml_write).
  apply xml_read_xml_write.
Qed.

Lemma sysSave_read (u : Universe) (docs : list xml) :
  xml_read (economy_sysSave u []) = Some docs -> docs = [saved_economy u].
Proof. rewrite sysSave_written. congruence. Qed.

(** ** Names the universe does not hold *)

Lemma foldl_None {A B : Type} (f : option A -> B -> option A) (l : list B) :
  (forall x, f None x = None) -> foldl f None l = None.
Proof. intros Hf. induction l as [|x l IH]; [done|]. cbn. by rewrite Hf. Qed.

Lemma planet_get_clearKnown (u : Universe) (name : string) :
  planet_get u name = None -> planet_get (economy_clearKnown u) name = None.
Proof.
  unfold planet_get. rewrite !fmap_None, !list_find_None, !Forall_forall.
  intros H p (k & Hp)%list_elem_of_lookup.
  rewrite economy_clearKnown_planet_lookup in Hp.
  case_decide.
  - apply fmap_Some in Hp as (q & Hq & ->).
    apply list_elem_of_lookup_2 in Hq. by apply (H q).
  - apply list_elem_of_lookup_2 in Hp. by apply H.
Qed.

Lemma commodity_get_clearKnown (u : Universe) (name : string) :
  commodity_get u name = None -> commodity_get (economy_clearKnown u) name = None.
Proof.
  unfold commodity_get, economy_clearKnown. cbn [commodity_stack].
  rewrite !fmap_None, !list_find_None, !Forall_forall.
  intros H c (c' & -> & Hc)%list_elem_of_fmap. by apply (H c').
Qed.

(** C28.  The calls [economy_sysSave] makes on the writer are appended to
    what was written before, and they write one document: the element
    [economy] with one [lastPurchase] per commodity bought, then one
    [system] per system with a planet where something was seen, holding one
    [planet] per such planet and one [commodity] per good seen. *)
Theorem economy_sysSave_document (u : Universe) (writer : xmlTextWriter) :
  economy_sysSave u writer = writer ++ economy_sysSave u [] /\
  xml_read (economy_sysSave u []) = Some [saved_economy u].
Proof.
  split; [by rewrite !economy_sysSave_write|apply sysSave_written].
Qed.

(** C5.  In a universe whose planets have different names, whose
    commodities have different names, whose planets each hold goods of
    different names, and whose systems point to planets that exist
    ([names_distinct]): loading what [economy_sysSave] wrote, beside
    whatever else the saved game holds that is not an [economy] element,
    into a universe that differs from the saved one only in what the player
    has seen, never fails and gives [restored]: every
    planet a system points to has the count, time and sums of each good seen
    as their text reads and the others cleared, and every commodity its last
    purchase price or 0. *)
Theorem economy_sysLoad_sysSave (u u' : Universe) (name : string)
    (attrs : list (string * string)) (before docs after : list xml) :
  names_distinct u ->
  economy_clearKnown u' = economy_clearKnown u ->
  Forall (fun n => xml_isNode n "economy" = false) (before ++ after) ->
  xml_read (economy_sysSave u []) = Some docs ->
  economy_sysLoad (xml_elem name attrs (before ++ docs ++ after)) u' = Some (restored u).
Proof.
  intros Hu Heq Hskip ->%sysSave_read. by apply sysLoad_saved.
Qed.

(** C38.  A saved game that names a planet or a commodity the universe
    does not hold makes the loader dereference the [NULL] that [planet_get]
    or [commodity_get] returned: at the first good of the unknown planet,
    and at the last purchase of the unknown commodity. *)
Theorem economy_sysLoad_unknown (u : Universe) (pname cname raw : string)
    (sattrs cattrs : list (string * string)) (ch : list xml) :
  (planet_get u pname = None ->
   economy_sysLoad
     (xml_elem "save" []
        [xml_elem "economy" []
           [xml_elem "system" sattrs
              [xml_elem "planet" [("name", pname)] (xml_elem "commodity" cattrs [] :: ch)]]]) u
   = None) /\
  (commodity_get u cname = None ->
   economy_sysLoad
     (xml_elem "save" []
        [xml_elem "economy" []
           [xml_elem "lastPurchase" [("name", cname)] [xml_text raw]]]) u
   = None).
Proof.
  split; intros H; unfold economy_sysLoad, load_economy, load_entry; cbn [xml_children foldl mbind option_bind].
  - apply planet_get_clearKnown in H.
    change (xml_isNode (xml_elem "economy" _ _) "economy") with true.
    change (xml_isNode (xml_elem "system" _ _) "system") with true.
    cbn [xml_children foldl mbind option_bind]. unfold load_planet at 1.
    cbn [mbind option_bind].
    change (xml_isNode (xml_elem "planet" _ _) "planet") with true.
    change (xmlr_attr (xml_elem "planet" _ _) "name") with (Some pname).
    cbn [xml_children foldl mbind option_bind]. rewrite H.
    by apply foldl_None.
  - apply commodity_get_clearKnown in H.
    change (xml_isNode (xml_elem "economy" _ _) "economy") with true.
    change (xml_isNode (xml_elem "lastPurchase" _ _) "system") with false.
    change (xml_isNode (xml_elem "lastPurchase" _ _) "lastPurchase") with true.
    cbn [xml_children foldl mbind option_bind]. unfold load_lastPurchase.
    change (xmlr_attr (xml_elem "lastPurchase" _ _) "name") with (Some cname).
    cbn iota. by rewrite H.
Qed.

End Document.

Section Exact.
Context `{T : RealText} `{!RealTextSpec T}.

(** ** Numbers that their text keeps *)

Lemma overwrite_storable (cp : CommodityPrice) : storable cp -> overwrite cp cp = cp.
Proof.
  destruct cp. unfold storable, overwrite. cbn.
  intros (Hc & Ht & a & b & -> & ->).
  by rewrite atol_printf_u64, !atof_printf_f_IZR, atoi_printf_d.
Qed.

Lemma restore_planet_exact (p : Planet) :
  (forall g, g ∈ pl_goods p -> seen g -> storable g.2) ->
  restore_planet p = set_pl_goods (map_cp keep_seen <$> pl_goods p) p.
Proof.
  intros Hs. unfold restore_planet. f_equal. apply list_fmap_ext. intros i g Hg.
  unfold map_cp, restore_cp, keep_seen. f_equal. case_decide; [|done].
  apply overwrite_storable, Hs; [by apply list_elem_of_lookup_2 in Hg|done].
Qed.

Lemma restored_planet_lookup (u : Universe) (k : nat) (p : Planet) :
  k ∈ reachable_planets u -> planet_stack u !! k = Some p ->
  planet_stack (restored u) !! k = Some (restore_planet p).
Proof.
  intros Hk Hp. unfold restored. cbn [loaded planet_stack].
  rewrite planets_after_lookup, Hp. cbn. by rewrite decide_True.
Qed.

Lemma restored_name (u : Universe) (k : nat) :
  commodity_name (restored u) k = commodity_name u k.
Proof. apply loaded_name. by rewrite names_fmap. Qed.

(** The statistics of a planet do not tell a field never seen from a
    cleared one. *)
Lemma getAveragePlanetPrice_keep_seen (u u' : Universe) (com : nat) (p : Planet) :
  econ_comm u' = econ_comm u ->
  (forall k, commodity_name u' k = commodity_name u k) ->
  economy_getAveragePlanetPrice u' com (set_pl_goods (map_cp keep_seen <$> pl_goods p) p)
  = economy_getAveragePlanetPrice u com p.
Proof.
  intros He Hn. unfold economy_getAveragePlanetPrice.
  rewrite (find_commodityPrice_universe u' u), find_commodityPrice_fmap by done.
  unfold find_commodityPrice.
  destruct (econ_comm_index u com); [|done].
  destruct (planet_commodity_index u p com) as [i|]; [|done].
  rewrite pl_commodityPrice_lookup. destruct (pl_goods p !! i) as [[c cp]|]; [|done].
  cbn. unfold keep_seen. by repeat (case_decide; try done).
Qed.

(** The round trip keeps the statistics: when the counts, times and
    sums of the goods seen are numbers their text keeps, every planet a
    system points to comes back with the fields of the goods seen as they
    were and the others cleared, and [economy_getAveragePlanetPrice] answers
    for every good as before the save. *)
Theorem economy_sysLoad_statistics (u u' : Universe) (name : string)
    (attrs : list (string * string)) (before docs after : list xml) :
  names_distinct u ->
  economy_clearKnown u' = economy_clearKnown u ->
  Forall (fun n => xml_isNode n "economy" = false) (before ++ after) ->
  (forall p g, p ∈ planet_stack u -> g ∈ pl_goods p -> seen g -> storable g.2) ->
  xml_read (economy_sysSave u []) = Some docs ->
  exists u'',
    economy_sysLoad (xml_elem name attrs (before ++ docs ++ after)) u' = Some u'' /\
    forall k p, k ∈ reachable_planets u -> planet_stack u !! k = Some p ->
      exists p', planet_stack u'' !! k = Some p' /\
        pl_goods p' = map_cp keep_seen <$> pl_goods p /\
        forall com, economy_getAveragePlanetPrice u'' com p'
                    = economy_getAveragePlanetPrice u com p.
Proof.
  intros Hu Heq Hskip Hst ->%sysSave_read. exists (restored u).
  split; [by apply sysLoad_saved|]. intros k p Hk Hp.
  exists (restore_planet p). split; [by apply restored_planet_lookup|].
  rewrite restore_planet_exact
    by (intros g; apply Hst; by apply list_elem_of_lookup_2 in Hp).
  split; [done|]. intros com.
  apply getAveragePlanetPrice_keep_seen; [done|apply restored_name].
Qed.

End Exact.

(** ** The round trip of a sample universe

    [seen_universe] of Observation: one system, one planet, one good seen
    twice, one commodity bought; the text of reals is [millionths_text]. *)

Lemma seen_universe_names : names_distinct seen_universe.
Proof.
  repeat split; by apply (bool_decide_unpack _).
Qed.

Lemma seen_universe_storable (p : Planet) (g : nat * CommodityPrice) :
  p ∈ planet_stack seen_universe -> g ∈ pl_goods p -> seen g -> storable g.2.
Proof.
  intros ->%list_elem_of_singleton ->%list_elem_of_singleton _.
  split_and!; [done|done|done|]. by exists 202%Z, 20404%Z.
Qed.

Lemma economy_sysLoad_sysSave_witness :
  economy_sysLoad (xml_elem "save" [] [saved_economy seen_universe]) seen_universe
  = Some (restored seen_universe).
Proof.
  apply (economy_sysLoad_sysSave seen_universe seen_universe "save" [] []
           [saved_economy seen_universe] []).
  - apply seen_universe_names.
  - reflexivity.
  - constructor.
  - apply sysSave_written.
Defined.

Lemma economy_sysLoad_statistics_witness :
  exists u'',
    economy_sysLoad (xml_elem "save" [] [saved_economy seen_universe]) seen_universe
    = Some u'' /\
    forall k p, k ∈ reachable_planets seen_universe -> planet_stack seen_universe !! k = Some p ->
      exists p', planet_stack u'' !! k = Some p' /\
        pl_goods p' = map_cp keep_seen <$> pl_goods p /\
        forall com, economy_getAveragePlanetPrice u'' com p'
                    = economy_getAveragePlanetPrice seen_universe com p.
Proof.
  apply (economy_sysLoad_statistics seen_universe seen_universe "save" [] []
           [saved_economy seen_universe] []).
  - apply seen_universe_names.
  - reflexivity.
  - constructor.
  - apply seen_universe_storable.
  - apply sysSave_written.
Defined.

Lemma economy_sysLoad_unknown_witness :
  economy_sysLoad stray_planet_save seen_universe = None /\
  economy_sysLoad stray_purchase_save seen_universe = None.
Proof.
  split.
  - by apply (proj1 (economy_sysLoad_unknown seen_universe "Nowhere" "" ""
                       [("name", "Sol")] [("name", "Food"); ("cnt", "1")] [])).
  - by apply (proj2 (economy_sysLoad_unknown seen_universe "" "Gold" "12" [] [] [])).
Defined.
