(* ===== verification/Game.v ===== *)
(** * Game: the economy as the rest of the game drives it

    The functions of economy.c that change the state of a running game, as
    the calls of one machine: the life cycle of the solver ([econ_call]),
    the recording of the prices seen at a planet
    ([economy_averageSeenPrices], [economy_averageSeenPricesAtTime]), the
    reset of what the player knows ([economy_clearKnown]) and the loading of
    a saved game ([economy_sysLoad]), which fails where the code
    dereferences [NULL].  The machine starts where
    [economy_initialiseCommodityPrices] leaves the universe, with the
    economy not initialised.

    [same_prices] relates two universes that every price query answers
    alike; [game_inv] adds what the solver keeps.  Both are proved of every
    reachable state by induction on the calls. *)

From Stdlib Require Import Reals Lra Lia ZArith.
From stdpp Require Import base tactics option list strings.
From S2P Require Import Prelude World Price Observation Network Economy.
From S2P Require Import Initializer Pipeline Frame Catalog Xml Persistence.

#[local] Open Scope R_scope.

(** ** The calls *)

Inductive game_call : Type :=
  | GEcon (c : econ_call)
  | GSeen (pi : nat) (now : Z)
  | GSeenAtTime (pi : nat) (now tupdate : Z)
  | GClearKnown
  | GLoad (parent : xml).

(** A function of economy.c that takes a [Planet*], on the planet [pi]. *)
Definition on_planet (f : Planet -> Planet) (pi : nat) (u : Universe) : Universe :=
  set_planet_stack (alter f pi (planet_stack u)) u.

Section Game.
Context `{Sv : Solver} `{F : Factions} `{GD : GameData} `{T : RealText}.

Definition game_step (c : game_call) (su : EconState * Universe)
  : option (EconState * Universe) :=
  match c with
  | GEcon c => Some (econ_step c su)
  | GSeen pi now =>
      Some (su.1, on_planet (fun p => economy_averageSeenPrices su.2 p now) pi su.2)
  | GSeenAtTime pi now tupdate =>
      Some (su.1,
            on_planet (fun p => economy_averageSeenPricesAtTime su.2 p now tupdate) pi su.2)
  | GClearKnown => Some (su.1, economy_clearKnown su.2)
  | GLoad parent => u ← economy_sysLoad parent su.2; Some (su.1, u)
  end.

(** A sequence of calls; [None] when one of them fails. *)
Fixpoint game_run (cs : list game_call) (su : EconState * Universe)
  : option (EconState * Universe) :=
  match cs with
  | [] => Some su
  | c :: cs => su' ← game_step c su; game_run cs su'
  end.

Inductive game_reachable (u0 : Universe) : EconState * Universe -> Prop :=
  | game_start :
      game_reachable u0 (econ_start, economy_initialiseCommodityPrices u0)
  | game_next (c : game_call) (su su' : EconState * Universe) :
      game_reachable u0 su -> game_step c su = Some su' -> game_reachable u0 su'.

End Game.

(** The calls of the solver. *)
Definition is_econ (c : game_call) : bool :=
  match c with
  | GEcon _ => true
  | _ => false
  end.

(** ** What the calls keep *)

(** Two universes every price query answers alike: the priced set, the
    names of the commodities, the star map, and the price parameters of
    every planet. *)
Definition same_prices (u u' : Universe) : Prop :=
  econ_comm u' = econ_comm u /\ star_map u' = star_map u /\
  commodity_names u' = commodity_names u /\
  Forall2 planet_equiv (planet_stack u') (planet_stack u).

(** The same with the systems untouched: the universes differ in what the
    player has seen and bought only. *)
Definition same_but_seen (u u' : Universe) : Prop :=
  econ_comm u' = econ_comm u /\ systems_stack u' = systems_stack u /\
  commodity_names u' = commodity_names u /\
  Forall2 planet_equiv (planet_stack u') (planet_stack u).

Definition opt_seen (u : Universe) (st : option Universe) : Prop :=
  from_option (same_but_seen u) True st.

(** The universe [u1] with the catalogue and the planets of [u]. *)
Definition rebase (u1 u : Universe) : Universe :=
  mkUniverse (commodity_stack u) (econ_comm u1) (systems_stack u1) (planet_stack u).

(** The invariant of the machine, [u1] being the universe after the
    initialisation of the prices. *)
Definition game_inv `{Factions} (u1 : Universe) (su : EconState * Universe) : Prop :=
  same_prices u1 su.2 /\
  if econ_initialized su.1
  then econ_G su.1 = Some (econ_createGMatrix u1) /\ prices_all 1 su.2
  else econ_G su.1 = None.

(** ** Sample data: a game on the twin systems *)

Definition twin_calls : list game_call :=
  [GEcon CallInit; GSeen 0 5; GEcon (CallUpdate 1); GClearKnown; GSeenAtTime 1 7 3].

Definition twin_initialised : Universe :=
  @economy_initialiseCommodityPrices sample_game twin_systems.

(** The twin systems after [economy_init]. *)
Definition twin_started : EconState * Universe :=
  @econ_step null_solver no_factions CallInit (econ_start, twin_initialised).

(** * Theorems *)

(** ** The relations *)

Lemma same_prices_refl (u : Universe) : same_prices u u.
Proof. by split_and!. Qed.

Lemma same_prices_trans (u1 u2 u3 : Universe) :
  same_prices u1 u2 -> same_prices u2 u3 -> same_prices u1 u3.
Proof.
  intros (He & Hm & Hn & Hp) (He' & Hm' & Hn' & Hp').
  split_and!; [congruence..|by etransitivity].
Qed.

Lemma same_but_seen_refl (u : Universe) : same_but_seen u u.
Proof. by split_and!. Qed.

Lemma same_but_seen_trans (u1 u2 u3 : Universe) :
  same_but_seen u1 u2 -> same_but_seen u2 u3 -> same_but_seen u1 u3.
Proof.
  intros (He & Hm & Hn & Hp) (He' & Hm' & Hn' & Hp').
  split_and!; [congruence..|by etransitivity].
Qed.

#[export] Instance same_prices_preorder : PreOrder same_prices.
Proof. split; [exact same_prices_refl|exact same_prices_trans]. Qed.

#[export] Instance same_but_seen_preorder : PreOrder same_but_seen.
Proof. split; [exact same_but_seen_refl|exact same_but_seen_trans]. Qed.

Lemma same_but_seen_prices (u u' : Universe) : same_but_seen u u' -> same_prices u u'.
Proof. intros (He & Hm & Hn & Hp). split_and!; try done. unfold star_map. by rewrite Hm. Qed.

Lemma same_world_prices (u u' : Universe) : same_world u u' -> same_prices u u'.
Proof.
  intros (Hc & He & Hp & Hm). split_and!; try done.
  - unfold commodity_names. by rewrite Hc.
  - by rewrite Hp.
Qed.

(** The planets of the systems are read from the star map. *)
Lemma reachable_star_map (u : Universe) : reachable_planets u = star_map u ≫= sys_planets.
Proof.
  unfold reachable_planets, star_map.
  induction (systems_stack u) as [|s l IH]; [done|]. cbn. by rewrite IH.
Qed.

Lemma same_prices_reachable (u u' : Universe) :
  same_prices u u' -> reachable_planets u' = reachable_planets u.
Proof. intros (_ & Hm & _). by rewrite !reachable_star_map, Hm. Qed.

(** ** The tracker and the reset *)

Lemma on_planet_seen (f : Planet -> Planet) (pi : nat) (u : Universe) :
  (forall p, planet_equiv (f p) p) -> same_but_seen u (on_planet f pi u).
Proof.
  intros Hf. split_and!; try done. cbn.
  apply Forall2_alter_l; [done|]. intros p q _ _ Hpq. by rewrite Hf.
Qed.

Lemma averageSeenPricesAtTime_equiv (u : Universe) (p : Planet) (now tupdate : Z) :
  planet_equiv (economy_averageSeenPricesAtTime u p now tupdate) p.
Proof. rewrite averageSeenPricesAtTime_loop. apply averageSeen_spec_equiv. Qed.

Lemma clearKnown_seen (u : Universe) : same_but_seen u (economy_clearKnown u).
Proof.
  split_and!; try done; [apply economy_clearKnown_names|].
  apply Forall2_lookup. intros k. rewrite economy_clearKnown_planet_lookup.
  case_decide; destruct (planet_stack u !! k); constructor; try done.
  apply clearKnown_planet_equiv.
Qed.

(** ** The loader *)

Lemma lastPurchase_seen (v : Z) (c : nat) (u : Universe) :
  same_but_seen u
    (set_commodity_stack (alter (set_com_lastPurchasePrice v) c (commodity_stack u)) u).
Proof.
  split_and!; try done. apply commodity_names_alter. by intros [].
Qed.

Section loader.
Context `{T : RealText}.

Lemma load_fields_params (n : xml) (cp : CommodityPrice) :
  cp_params_eq (load_fields n cp) cp.
Proof.
  unfold load_fields, with_attr.
  by destruct (xmlr_attr n "sum"), (xmlr_attr n "sum2"), (xmlr_attr n "cnt"),
    (xmlr_attr n "time").
Qed.

Lemma load_commodity_seen (u0 : Universe) (planet : option nat) (st : option Universe)
    (n : xml) :
  opt_seen u0 st -> opt_seen u0 (load_commodity planet st n).
Proof.
  destruct st as [u|]; [|done]. intros Hu. unfold load_commodity. cbn.
  destruct (xml_isNode n "commodity"); [|done].
  destruct planet as [k|]; [|done]. cbn.
  destruct (planet_stack u !! k) as [p|]; [|done]. cbn.
  destruct (xmlr_attr n "name") as [str|]; [|by destruct (pl_goods p)].
  destruct (list_find _ _) as [[i g]|]; [|done]. cbn.
  eapply same_but_seen_trans; [exact Hu|].
  apply (on_planet_seen (upd_cp (load_fields n) i)). intros q.
  apply planet_equiv_upd_cp, load_fields_params.
Qed.

Lemma load_planet_seen (u0 : Universe) (st : option Universe) (n : xml) :
  opt_seen u0 st -> opt_seen u0 (load_planet st n).
Proof.
  destruct st as [u|]; [|done]. intros Hu. unfold load_planet. cbn.
  destruct (xml_isNode n "planet"); [|done].
  apply (foldl_inv (opt_seen u0)); [done|].
  intros st' c Hst' _. by apply load_commodity_seen.
Qed.

Lemma load_lastPurchase_seen (u0 u : Universe) (cur : xml) :
  same_but_seen u0 u -> opt_seen u0 (load_lastPurchase u cur).
Proof.
  intros Hu. unfold load_lastPurchase.
  destruct (xmlr_attr cur "name") as [str|]; [|done].
  destruct (commodity_get u str) as [c|]; [|done]. cbn.
  destruct (xml_raw cur) as [raw|]; [|done]. cbn.
  eapply same_but_seen_trans; [exact Hu|]. apply lastPurchase_seen.
Qed.

Lemma load_entry_seen (u0 : Universe) (st : option Universe) (cur : xml) :
  opt_seen u0 st -> opt_seen u0 (load_entry st cur).
Proof.
  destruct st as [u|]; [|done]. intros Hu. unfold load_entry. cbn.
  destruct (xml_isNode cur "system").
  - apply (foldl_inv (opt_seen u0)); [done|].
    intros st' c Hst' _. by apply load_planet_seen.
  - destruct (xml_isNode cur "lastPurchase"); [|done]. by apply load_lastPurchase_seen.
Qed.

Lemma load_economy_seen (u0 : Universe) (st : option Universe) (node : xml) :
  opt_seen u0 st -> opt_seen u0 (load_economy st node).
Proof.
  destruct st as [u|]; [|done]. intros Hu. unfold load_economy. cbn.
  destruct (xml_isNode node "economy"); [|done].
  apply (foldl_inv (opt_seen u0)); [done|].
  intros st' c Hst' _. by apply load_entry_seen.
Qed.

(** A saved game, whatever it holds, changes what was seen and bought and
    nothing else. *)
Lemma economy_sysLoad_seen (parent : xml) (u u' : Universe) :
  economy_sysLoad parent u = Some u' -> same_but_seen u u'.
Proof.
  intros Hl. assert (opt_seen u (economy_sysLoad parent u)) as H; [|by rewrite Hl in H].
  unfold economy_sysLoad. apply (foldl_inv (opt_seen u)); [apply clearKnown_seen|].
  intros st' c Hst' _. by apply load_economy_seen.
Qed.

End loader.

(** ** Every call keeps the prices *)

Section prices.
Context `{Sv : Solver} `{F : Factions} `{GD : GameData} `{T : RealText}.

(** A call of the solver changes the price vectors of the systems only. *)
Lemma econ_call_world (c : game_call) (su su' : EconState * Universe) :
  is_econ c = true -> game_step c su = Some su' -> same_world su.2 su'.2.
Proof.
  intros Hc Hs. destruct c; try done. cbn in Hs. simplify_eq.
  apply econ_step_same_world.
Qed.

(** Every other call leaves the economy alone and changes only what the
    player has seen and bought. *)
Lemma tracker_step_seen (c : game_call) (su su' : EconState * Universe) :
  is_econ c = false -> game_step c su = Some su' ->
  su'.1 = su.1 /\ same_but_seen su.2 su'.2.
Proof.
  intros Hc Hs. destruct c; try done; cbn in Hs; simplify_option_eq; (split; [done|]).
  - apply on_planet_seen. intros p. apply averageSeenPricesAtTime_equiv.
  - apply on_planet_seen. intros p. apply averageSeenPricesAtTime_equiv.
  - apply clearKnown_seen.
  - by eapply economy_sysLoad_seen.
Qed.

Lemma game_step_prices (c : game_call) (su su' : EconState * Universe) :
  game_step c su = Some su' -> same_prices su.2 su'.2.
Proof.
  intros Hs. destruct (is_econ c) eqn:Hc.
  - by apply same_world_prices, (econ_call_world c).
  - by apply same_but_seen_prices, (tracker_step_seen c).
Qed.

Lemma game_reachable_prices (u0 : Universe) (su : EconState * Universe) :
  game_reachable u0 su -> same_prices (economy_initialiseCommodityPrices u0) su.2.
Proof.
  induction 1 as [|c su su' _ IH Hs]; [apply same_prices_refl|].
  eapply same_prices_trans; [exact IH|]. by eapply game_step_prices.
Qed.

(** The answers of the evaluator on universes with the same prices. *)
Lemma same_prices_query (u1 u : Universe) (pi : nat) (p : Planet) :
  same_prices u1 u -> planet_stack u !! pi = Some p ->
  exists p1, planet_stack u1 !! pi = Some p1 /\ planet_equiv p p1 /\
    forall com tme,
      economy_getPriceAtTime u com p tme = economy_getPriceAtTime u1 com p1 tme.
Proof.
  intros (He & _ & Hn & Hps) Hp.
  destruct (Forall2_lookup_l _ _ _ _ _ Hps Hp) as (p1 & Hp1 & Hpp).
  exists p1. split_and!; [done..|]. intros com tme.
  rewrite (economy_getPriceAtTime_universe u u1)
    by (done || by apply commodity_names_name).
  by apply economy_getPriceAtTime_proper.
Qed.

(** C15.  No call changes a price: in every state the game reaches after the
    initialisation of the prices, by calls of the solver, recordings of
    prices seen, resets and loads of saved games in any order, every planet
    answers every price query at every time as it did right after the
    initialisation. *)
Theorem game_prices_fixed (u0 : Universe) (su : EconState * Universe) (pi : nat)
    (p : Planet) :
  game_reachable u0 su -> planet_stack su.2 !! pi = Some p ->
  exists p1, planet_stack (economy_initialiseCommodityPrices u0) !! pi = Some p1 /\
    forall com tme,
      economy_getPriceAtTime su.2 com p tme
      = economy_getPriceAtTime (economy_initialiseCommodityPrices u0) com p1 tme.
Proof.
  intros Hr Hp.
  destruct (same_prices_query _ _ _ _ (game_reachable_prices _ _ Hr) Hp)
    as (p1 & Hp1 & _ & Hq).
  eauto.
Qed.

(** C14.  On data that satisfy [init_input_ok], every price the evaluator
    answers for a planet of a system, in every state the game reaches, is
    not negative and within 27/80 of the base price of the field, and the
    half unit of rounding. *)
Theorem game_prices_bounded (u0 : Universe) (su : EconState * Universe) (pi : nat)
    (p : Planet) (com : nat) (tme : Z) (cp : CommodityPrice) :
  init_input_ok u0 -> game_reachable u0 su ->
  pi ∈ all_planets u0 -> planet_stack su.2 !! pi = Some p ->
  find_commodityPrice su.2 com p = inr cp ->
  (0 <= economy_getPriceAtTime su.2 com p tme)%Z /\
  Rabs (IZR (economy_getPriceAtTime su.2 com p tme) - cp_price cp)
  <= 27 / 80 * cp_price cp + / 2.
Proof.
  intros Hin Hr Hpi Hp Hf.
  destruct (same_prices_query _ _ _ _ (game_reachable_prices _ _ Hr) Hp)
    as (p1 & Hp1 & Hpp & _).
  destruct (find_commodityPrice_inr _ _ _ _ Hf) as (_ & i & c & Hi & _).
  destruct (Forall2_lookup_l _ _ _ _ _ Hpp Hi) as ([c1 cp1] & Hi1 & _ & Hcp).
  unfold economy_getPriceAtTime. rewrite Hf. apply final_price_bounds.
  apply (final_params cp cp1 Hcp).
  exact (Forall_lookup_1 _ _ _ _ (initialised_final u0 Hin pi p1 Hpi Hp1) Hi1).
Qed.

(** A run of calls that succeeds is a path of the machine. *)
Lemma game_run_reachable (u0 : Universe) (cs : list game_call)
    (su su' : EconState * Universe) :
  game_reachable u0 su -> game_run cs su = Some su' -> game_reachable u0 su'.
Proof.
  revert su. induction cs as [|c cs IH]; intros su Hr Hrun; cbn in Hrun.
  - by simplify_eq.
  - destruct (game_step c su) as [su1|] eqn:Hs; [|done].
    apply (IH su1); [|done]. by eapply game_next.
Qed.

(** Induction on a run: what every call of [P] takes from one count to the
    next holds after a run of such calls, at the count of the calls. *)
Lemma game_run_invariant (I : nat -> EconState * Universe -> Prop) (P : game_call -> Prop) :
  (forall n c su su', P c -> I n su -> game_step c su = Some su' -> I (S n) su') ->
  forall cs n su su',
    Forall P cs -> I n su -> game_run cs su = Some su' -> I (n + length cs)%nat su'.
Proof.
  intros Hstep cs. induction cs as [|c cs IH]; intros n su su' Hcs Hsu Hrun; cbn in Hrun.
  - simplify_eq. by rewrite Nat.add_0_r.
  - apply Forall_cons in Hcs as [Hc Hcs].
    destruct (game_step c su) as [su1|] eqn:Hs; [|done].
    replace (n + length (c :: cs))%nat with (S n + length cs)%nat by (cbn; lia).
    apply (IH (S n) su1); [done| |done]. by eapply Hstep.
Qed.

End prices.

(** ** Every call keeps what the solver holds *)

Lemma createGMatrix_systems `{Factions} (u u' : Universe) :
  systems_stack u = systems_stack u' -> econ_createGMatrix u = econ_createGMatrix u'.
Proof.
  intros Hs. transitivity (econ_createGMatrix (set_systems_stack (star_map u) u)).
  - symmetry. by apply createGMatrix_strip.
  - apply createGMatrix_strip. cbn. unfold star_map. by rewrite Hs.
Qed.

Section solver.
Context `{Sv : Solver} `{!SolverSpec Sv} `{F : Factions} `{GD : GameData} `{T : RealText}.
Context (u1 : Universe) (Hwc : well_connected u1).

Lemma rebase_well_connected (u : Universe) : well_connected (rebase u1 u).
Proof. exact Hwc. Qed.

Lemma game_inv_econ (st : EconState) (u : Universe) :
  game_inv u1 (st, u) -> econ_inv (rebase u1 u) (st, u).
Proof.
  intros [(He & Hm & Hn & Hp) Hinv]. split; [by split_and!|].
  cbn [fst snd] in *. destruct (econ_initialized st); [|done].
  destruct Hinv as [HG Hpa]. split; [|done]. rewrite HG.
  by rewrite (createGMatrix_systems (rebase u1 u) u1).
Qed.

Lemma econ_game_inv (u : Universe) (su' : EconState * Universe) :
  same_prices u1 u -> econ_inv (rebase u1 u) su' -> game_inv u1 su'.
Proof.
  intros (He & Hm & Hn & Hp) [(Hc' & He' & Hp' & Hm') Hinv]. split.
  - split_and!; [done..| |by rewrite Hp'].
    unfold commodity_names. by rewrite Hc'.
  - destruct (econ_initialized su'.1); [|done].
    destruct Hinv as [HG Hpa]. split; [|done]. rewrite HG.
    by rewrite (createGMatrix_systems (rebase u1 u) u1).
Qed.

Lemma seen_game_inv (st : EconState) (u u' : Universe) :
  same_but_seen u u' -> game_inv u1 (st, u) -> game_inv u1 (st, u').
Proof.
  intros Hs [Hp Hinv].
  split; [eapply same_prices_trans; [exact Hp|by apply same_but_seen_prices]|].
  cbn [fst snd] in *. destruct (econ_initialized st); [|done].
  destruct Hinv as [HG Hpa]. split; [done|]. destruct Hs as (He & Hsys & _).
  unfold prices_all, econ_nprices in *. by rewrite Hsys, He.
Qed.

Lemma game_step_inv (c : game_call) (su su' : EconState * Universe) :
  game_inv u1 su -> game_step c su = Some su' -> game_inv u1 su'.
Proof.
  destruct su as [st u]. intros Hinv Hs. destruct (is_econ c) eqn:Hc.
  - destruct c; try done. cbn in Hs. simplify_eq. eapply econ_game_inv; [apply Hinv|].
    apply (step_inv _ (rebase_well_connected u)), game_inv_econ, Hinv.
  - destruct (tracker_step_seen c _ _ Hc Hs) as [Hst Hseen]. destruct su' as [st' u'].
    cbn in Hst, Hseen. subst st'. by eapply seen_game_inv.
Qed.

End solver.

(** The conditions on the star map are conditions on the data of the game:
    the passes do not write what they read. *)
Lemma initialised_well_connected `{GD : GameData} (u0 : Universe) :
  well_connected u0 -> well_connected (economy_initialiseCommodityPrices u0).
Proof.
  apply well_connected_frames. apply (initialise_frame pl_name price_blind_name).
Qed.

(** C11.  Every state the game reaches after the initialisation of the
    prices, by calls of the solver, recordings, resets and loads in any
    order, on a star map that is well connected, with an allocator and a
    solver that meet the contract [SolverSpec]: the prices, the priced
    set, the names and the star map are those the initialisation left; an
    economy that is not initialised holds no matrix; an initialised one holds
    the matrix of the star map and the price 1 in every cell of every
    system. *)
Theorem game_reachable_inv `{Sv : Solver} `{!SolverSpec Sv} `{F : Factions}
    `{GD : GameData} `{T : RealText} (u0 : Universe) (su : EconState * Universe) :
  well_connected u0 ->
  game_reachable u0 su ->
  game_inv (economy_initialiseCommodityPrices u0) su.
Proof.
  intros Hwc%initialised_well_connected. induction 1 as [|c su su' _ IH Hs].
  - split; [apply same_prices_refl|done].
  - by eapply game_step_inv.
Qed.

(** ** The twin systems *)

Lemma twin_initialised_systems : systems_stack twin_initialised = [twin_A; twin_B].
Proof. real_compute. Qed.

Lemma twin_connected : well_connected twin_systems.
Proof.
  unfold well_connected, ids_positions, no_self_jump, nebula_nonneg, incoming_jumps.
  cbn [systems_stack twin_systems]. split_and!.
  - intros [|[|i]] s Hs; by simplify_eq/=.
  - intros [|[|i]] s Hs; simplify_eq/=; repeat constructor; cbn; lia.
  - repeat (constructor; [cbn; lra|]). constructor.
  - intros i. etrans; [apply length_filter|]. cbn. lia.
Qed.

Lemma twin_started_reachable :
  @game_reachable null_solver no_factions sample_game millionths_text
    twin_systems twin_started.
Proof. by apply (game_next _ (GEcon CallInit) _ _ (game_start _)). Qed.

Lemma twin_started_P0 : planet_stack twin_started.2 !! 0%nat = Some twin_P0_final.
Proof.
  destruct (@econ_step_same_world null_solver no_factions CallInit
              (econ_start, twin_initialised)) as (_ & _ & Hp & _).
  unfold twin_started. rewrite Hp. exact twin_P0_initialised.
Qed.

Lemma twin_started_field :
  find_commodityPrice twin_started.2 0 twin_P0_final = inr twin_field.
Proof.
  destruct (@econ_step_same_world null_solver no_factions CallInit
              (econ_start, twin_initialised)) as (Hc & He & _ & _).
  unfold twin_started.
  rewrite (find_commodityPrice_universe _ twin_initialised); [reflexivity|done|].
  intros k. unfold commodity_name. by rewrite Hc.
Qed.

Lemma game_reachable_inv_witness :
  exists su,
    @game_run null_solver no_factions millionths_text twin_calls
      (econ_start, twin_initialised) = Some su /\
    @game_inv no_factions twin_initialised su.
Proof.
  eexists. split; [reflexivity|].
  apply (@game_reachable_inv null_solver null_solver_spec no_factions sample_game
           millionths_text twin_systems _ twin_connected).
  eapply (game_run_reachable _ twin_calls); [apply game_start|reflexivity].
Defined.

Lemma game_prices_fixed_witness :
  exists p1, planet_stack twin_initialised !! 0%nat = Some p1 /\
    forall com tme,
      economy_getPriceAtTime twin_started.2 com twin_P0_final tme
      = economy_getPriceAtTime twin_initialised com p1 tme.
Proof.
  apply (@game_prices_fixed null_solver no_factions sample_game millionths_text
           twin_systems twin_started 0%nat twin_P0_final
           twin_started_reachable twin_started_P0).
Defined.

Lemma game_prices_bounded_witness :
  (0 <= economy_getPriceAtTime twin_started.2 0 twin_P0_final 12345678)%Z /\
  Rabs (IZR (economy_getPriceAtTime twin_started.2 0 twin_P0_final 12345678) - 100)
  <= 27 / 80 * 100 + / 2.
Proof.
  apply (@game_prices_bounded null_solver no_factions sample_game millionths_text
           twin_systems twin_started 0%nat twin_P0_final 0%nat 12345678 twin_field
           twin_input_ok twin_started_reachable).
  - by apply (bool_decide_unpack _).
  - exact twin_started_P0.
  - exact twin_started_field.
Defined.
