(* ===== verification/Wellformed.v ===== *)
(** * Wellformed: the pointers stay in range

    [wf_universe] of World.v says that every pointer of the registries is in
    range: the priced set and the goods of the planets point into the
    catalogue, the systems point to planets and, by their jumps, to systems,
    and the [id] of a system is its position.  The loaders of the game
    establish it; no function of economy.c checks it.

    Here: every function of economy.c that writes to the registries keeps
    the shape ([same_shape]) of the universe, the four passes of the
    initialisation and every call of the running game, so a universe that
    is well formed when the game starts is well formed in every state the
    game reaches, and every pointer the loops follow finds its target. *)

From Stdlib Require Import Reals Lra Lia ZArith.
From stdpp Require Import base tactics option list strings.
From S2P Require Import Prelude World Price Observation Network Economy.
From S2P Require Import Initializer Pipeline Frame Catalog Xml Persistence Game.

#[local] Open Scope R_scope.

(** ** What the loops find behind the pointers *)

(** The planets behind the pointers of the systems, with [None] for a
    pointer out of range. *)
Definition planet_targets (u : Universe) : list (option Planet) :=
  (fun pi => planet_stack u !! pi) <$> all_planets u.

(** The commodities behind the pointers of a planet. *)
Definition commodity_targets (u : Universe) (p : Planet) : list (option Commodity) :=
  (fun k => commodity_stack u !! k) <$> pl_commodities p.

(** Every pointer the loops of economy.c follow has a target: the planets
    of the systems, the goods of these planets, the priced set and the
    targets of the jumps. *)
Definition derefs_ok (u : Universe) : Prop :=
  Forall is_Some (planet_targets u) /\
  Forall (fun p => Forall is_Some (commodity_targets u p)) (galaxy_planets u) /\
  Forall (fun k => is_Some (commodity_stack u !! k)) (econ_comm u) /\
  Forall (fun s => Forall (fun j => is_Some (systems_stack u !! jp_target j)) (sys_jumps s))
    (systems_stack u).

(** * Theorems *)

(** ** The calls of the game keep the shape *)

Lemma star_map_links (u : Universe) :
  sys_links <$> star_map u = sys_links <$> systems_stack u.
Proof. unfold star_map. by rewrite <- list_fmap_compose. Qed.

Lemma same_prices_shape (u u' : Universe) : same_prices u u' -> same_shape u u'.
Proof.
  intros (He & Hm & Hn & Hp). split_and!.
  - symmetry. by apply commodity_names_length.
  - done.
  - by rewrite <- !star_map_links, Hm.
  - symmetry. induction Hp as [|p q ps qs Hpq _ IH]; [done|].
    cbn. by rewrite IH, (planet_equiv_commodities p q).
Qed.

Section game.
Context `{Sv : Solver} `{F : Factions} `{GD : GameData} `{T : RealText}.

Lemma game_reachable_shape (u0 : Universe) (su : EconState * Universe) :
  game_reachable u0 su -> same_shape u0 su.2.
Proof.
  intros Hr. etrans; [apply initialise_shape|].
  by apply same_prices_shape, game_reachable_prices.
Qed.

(** ** Well-formed universes: every pointer has a target *)

Lemma wf_derefs (u : Universe) : wf_universe u -> derefs_ok u.
Proof.
  intros (Hwe & Hwp & Hws).
  assert (Forall is_Some (planet_targets u)) as Hpl.
  { unfold planet_targets, all_planets. apply Forall_fmap, Forall_forall.
    intros pi (s & Hpi & (i & Hs)%list_elem_of_lookup)%list_elem_of_bind.
    destruct (Hws i s Hs) as (_ & _ & Hp).
    apply lookup_lt_is_Some_2, (proj1 (Forall_forall _ _) Hp pi Hpi). }
  split_and!; [done|..].
  - unfold galaxy_planets. apply Forall_forall.
    intros p (s & (pi & _ & Hp)%list_elem_of_omap & _)%list_elem_of_bind.
    apply list_elem_of_lookup_2, (proj1 (Forall_forall _ _) Hwp) in Hp.
    unfold commodity_targets. apply Forall_fmap.
    eapply Forall_impl; [exact Hp|]. intros k Hk. by apply lookup_lt_is_Some_2.
  - eapply Forall_impl; [exact Hwe|]. intros k Hk. by apply lookup_lt_is_Some_2.
  - apply Forall_lookup. intros i s Hs. destruct (Hws i s Hs) as (_ & Hj & _).
    eapply Forall_impl; [exact Hj|]. intros j Hlt. by apply lookup_lt_is_Some_2.
Qed.

(** C19.  A universe that is well formed when the prices are initialised is
    well formed in every state the game reaches, whatever the calls and
    their order: the initialisation, the solver, the recordings, the reset
    and the loading of a saved game write no pointer, so the shape of the
    universe is the one it started with and every pointer the loops follow
    (planets of systems, goods of planets, the priced set, the targets of
    jumps) has a target. *)
Theorem game_reachable_wf (u0 : Universe) (su : EconState * Universe) :
  wf_universe u0 -> game_reachable u0 su ->
  same_shape u0 su.2 /\ wf_universe su.2 /\ derefs_ok su.2.
Proof.
  intros Hwf Hr. pose proof (game_reachable_shape u0 su Hr) as Hs.
  assert (wf_universe su.2) by (by rewrite <- Hs).
  split_and!; [done..|by apply wf_derefs].
Qed.

End game.

(** ** The loader of the catalogue *)

Section catalogue.
Context `{GL : Gl}.

(** A commodity more on the stack leaves the pointers in range, and the
    pointer added to the priced set is the one of the new commodity. *)
Lemma load_node_wf (s : Universe * GlStore) (node : DataNode) :
  wf_universe s.1 -> wf_universe (load_node s node).1.
Proof.
  intros (He & Hp & Hs). destruct node as [|children|]; [done| |done].
  rewrite load_node_commodity. unfold wf_universe, wf_planet.
  cbn [fst commodity_stack econ_comm planet_stack systems_stack].
  rewrite length_app. cbn [length]. split_and!; [| |exact Hs].
  - assert (Forall (fun k => k < length (commodity_stack s.1) + 1)%nat (econ_comm s.1))
      by (eapply Forall_impl; [exact He|]; intros k Hk; cbn in *; lia).
    destruct (Rlt_dec 0 _); [|done]. apply Forall_app. split; [done|].
    constructor; [lia|done].
  - eapply Forall_impl; [exact Hp|]. intros p Hpl.
    eapply Forall_impl; [exact Hpl|]. intros k Hk. cbn in *. lia.
Qed.

(** [commodity_load] keeps the registries well formed: what it appends to
    the stack and to the priced set is in range, and the pointers that were
    there stay so. *)
Lemma commodity_load_wf (file : DataFile) (s s' : Universe * GlStore) :
  wf_universe s.1 -> commodity_load file s = inr s' -> wf_universe s'.1.
Proof. apply (commodity_load_inv (fun s => wf_universe s.1)), load_node_wf. Qed.

End catalogue.

(** ** The twin systems *)

Lemma twin_systems_wf : wf_universe twin_systems.
Proof.
  split_and!.
  - repeat constructor.
  - repeat constructor.
  - intros [|[|i]] s Hs; simplify_eq/=; split_and!; repeat constructor.
Qed.

Lemma game_reachable_wf_witness :
  same_shape twin_systems twin_started.2 /\ wf_universe twin_started.2 /\
  derefs_ok twin_started.2.
Proof.
  exact (@game_reachable_wf null_solver no_factions sample_game millionths_text
           twin_systems twin_started twin_systems_wf twin_started_reachable).
Defined.
