(* ===== verification/Statistics.v ===== *)
(** * Statistics: what the accumulators hold while the game runs

    The tracker keeps, for every good of every planet, a count, a sum and a
    sum of squares; [economy_getAveragePlanetPrice] reads a mean and a
    deviation from them.  They are statistics only as long as the three
    numbers are the count, the sum and the sum of squares of one list of
    prices ([observed]).

    Here this is followed through the game: the four passes of the
    initialisation leave the accumulators as they find them or at zero, and
    every call of the running game other than the loading of a saved game
    (which writes what the file holds) keeps them the statistics of a list
    that is at most one price longer per call.  The bounds are those of the
    machine integers: fewer than [INT_MAX] calls, for [cnt++], and price
    fields below [PRICE_MAX], the root of [INT64_MAX], for
    [price * price].  With them the reports are what they are meant to be:
    the mean and deviation of a planet are those of the list of prices
    recorded there, and the galaxy average is [galaxy_report] of the means
    of the planets where the good was seen. *)

From Stdlib Require Import Reals Lra Lia ZArith.
From stdpp Require Import base tactics option list strings.
From S2P Require Import Prelude World Price Observation Network Economy.
From S2P Require Import Initializer Pipeline Frame Catalog Xml Persistence Game.

#[local] Open Scope R_scope.

(** ** The conditions *)

(** The largest integer whose square is an [int64_t]. *)
Definition PRICE_MAX : Z := 3037000499.

(** A price field whose prices, at any time, are below [PRICE_MAX] in
    absolute value. *)
Definition field_small (cp : CommodityPrice) : Prop :=
  Rabs (cp_price cp) + Rabs (cp_sysVariation cp) + Rabs (cp_planetVariation cp) + / 2
  <= IZR PRICE_MAX.

Definition planet_small (p : Planet) : Prop :=
  Forall (fun g => field_small g.2) (pl_goods p).

Definition fields_small (u : Universe) : Prop := Forall planet_small (planet_stack u).

(** What the tracker keeps of a field: the count, the two sums and the
    time. *)
Definition accumulators (cp : CommodityPrice) : Z * R * R * Z :=
  (cp_cnt cp, cp_sum cp, cp_sum2 cp, cp_updateTime cp).

(** [Q] holds of every field of the planet. *)
Definition planet_all (Q : CommodityPrice -> Prop) (p : Planet) : Prop :=
  Forall (fun g => Q g.2) (pl_goods p).

(** A planet of which nothing was seen. *)
Definition planet_unseen (p : Planet) : Prop := planet_all (observed []) p.

(** A planet whose accumulators are the statistics of lists of at most [n]
    prices. *)
Definition counted (n : nat) (p : Planet) : Prop :=
  Forall (fun g => exists l, observed l g.2 /\ (length l <= n)%nat) (pl_goods p).

Definition seen_within (n : nat) (u : Universe) : Prop :=
  Forall (counted n) (planet_stack u).

(** The calls that keep the statistics: all but the loading of a saved
    game. *)
Definition tracked (c : game_call) : Prop :=
  match c with
  | GLoad _ => False
  | _ => True
  end.

(** What is under the square root of [economy_getAveragePlanetPrice], when
    [cnt * cnt] does not wrap. *)
Definition variance_of (cp : CommodityPrice) : R :=
  cp_sum2 cp / IZR (cp_cnt cp)
  - (cp_sum cp / IZR (cp_cnt cp)) * (cp_sum cp / IZR (cp_cnt cp)).

(** ** Sample data: a saved game with a sum and no sum of squares *)

Definition forged_save : xml :=
  xml_elem "save" []
    [xml_elem "economy" []
       [xml_elem "system" [("name", "A")]
          [xml_elem "planet" [("name", "P0")]
             [xml_elem "commodity" [("name", "Ore"); ("sum", "1000000"); ("cnt", "1")] []]]]].

(** * Theorems *)

(** ** Prices whose square is an [int64_t] *)

Lemma price_small (cp : CommodityPrice) (t : R) :
  field_small cp ->
  (Ztrunc (price_at cp t + 0.5) * Ztrunc (price_at cp t + 0.5) <= INT64_MAX)%Z.
Proof.
  unfold field_small. intros Hs. set (z := Ztrunc _).
  pose proof (Ztrunc_abs_le (price_at cp t + 0.5)) as Hz. fold z in Hz.
  pose proof (price_at_deviation cp t) as Hd. apply Rabs_le_inv in Hd.
  assert (Rabs (price_at cp t + 0.5) <= IZR PRICE_MAX) as Hx.
  { pose proof (Rabs_pos (cp_sysVariation cp)). pose proof (Rabs_pos (cp_planetVariation cp)).
    apply Rabs_le_iff. split; destruct (Rle_dec 0 (cp_price cp));
      rewrite ?Rabs_pos_eq, ?Rabs_left1 in Hs by lra; lra. }
  assert (- PRICE_MAX <= z <= PRICE_MAX)%Z as Hb.
  { assert (Rabs (IZR z) <= IZR PRICE_MAX) as Hzb by lra.
    apply Rabs_le_inv in Hzb. split; apply le_IZR; rewrite ?opp_IZR; lra. }
  unfold PRICE_MAX, INT64_MAX in *. nia.
Qed.

(** The cast of [economy_getPriceAtTime] is defined: what a small field
    gives it to convert lies within the range of [credits_t], where the
    conversion of C is the truncation. *)
Lemma price_cast_defined (cp : CommodityPrice) (t : R) :
  field_small cp ->
  - IZR INT64_MAX <= price_at cp t + 0.5 <= IZR INT64_MAX /\
  int64 (Ztrunc (price_at cp t + 0.5)) = Ztrunc (price_at cp t + 0.5).
Proof.
  unfold field_small. intros Hs.
  pose proof (price_at_deviation cp t) as Hd. apply Rabs_le_inv in Hd.
  pose proof (Rabs_pos (cp_sysVariation cp)). pose proof (Rabs_pos (cp_planetVariation cp)).
  assert (Rabs (price_at cp t + 0.5) <= IZR PRICE_MAX) as Hx.
  { apply Rabs_le_iff. split; destruct (Rle_dec 0 (cp_price cp));
      rewrite ?Rabs_pos_eq, ?Rabs_left1 in Hs by lra; lra. }
  assert (IZR PRICE_MAX <= IZR INT64_MAX) as Hm by (apply IZR_le; by vm_compute).
  split; [apply Rabs_le_inv; lra|].
  pose proof (Ztrunc_abs_le (price_at cp t + 0.5)) as Hz.
  assert (Rabs (IZR (Ztrunc (price_at cp t + 0.5))) <= IZR INT64_MAX) as Hzb by lra.
  apply Rabs_le_inv in Hzb. apply int64_small.
  split; apply le_IZR; rewrite ?opp_IZR; unfold INT64_MAX in *; lra.
Qed.

Lemma getPriceAtTime_small (u : Universe) (c : nat) (p : Planet) (tme : Z) :
  planet_small p ->
  (economy_getPriceAtTime u c p tme * economy_getPriceAtTime u c p tme <= INT64_MAX)%Z.
Proof.
  intros Hp. unfold economy_getPriceAtTime.
  destruct (find_commodityPrice u c p) as [e|cp] eqn:Hf; [unfold INT64_MAX; lia|].
  apply price_small.
  destruct (find_commodityPrice_inr _ _ _ _ Hf) as (_ & i & c' & Hi & _).
  exact (Forall_lookup_1 _ _ _ _ Hp Hi).
Qed.

Lemma planet_small_equiv (p q : Planet) : planet_equiv p q -> planet_small q -> planet_small p.
Proof.
  unfold planet_equiv, planet_small. intros Hpq Hq. apply Forall_lookup. intros i g Hg.
  destruct (Forall2_lookup_l _ _ _ _ _ Hpq Hg) as (h & Hh & _ & (H1 & H2 & _ & H4 & _)).
  pose proof (Forall_lookup_1 _ _ _ _ Hq Hh) as Hs. unfold field_small in *.
  by rewrite H1, H2, H4.
Qed.

Lemma fields_small_prices (u u' : Universe) :
  same_prices u u' -> fields_small u -> fields_small u'.
Proof.
  intros (_ & _ & _ & Hp) Hu. unfold fields_small in *. apply Forall_lookup. intros k p' Hk.
  destruct (Forall2_lookup_l _ _ _ _ _ Hp Hk) as (p & Hpk & Hpp).
  eapply planet_small_equiv; [exact Hpp|]. exact (Forall_lookup_1 _ _ _ _ Hu Hpk).
Qed.

(** ** The accumulators of one planet *)

Lemma counted_mono (n m : nat) (p : Planet) : (n <= m)%nat -> counted n p -> counted m p.
Proof.
  intros Hnm Hp. eapply Forall_impl; [exact Hp|]. intros g (l & Hl & Hn).
  exists l. split; [done|lia].
Qed.

Lemma planet_unseen_counted (p : Planet) : planet_unseen p -> counted 0 p.
Proof. intros Hp. eapply Forall_impl; [exact Hp|]. intros g Hg. by exists []. Qed.

Lemma clearKnown_planet_counted (n : nat) (p : Planet) : counted n (clearKnown_planet p).
Proof.
  unfold counted, clearKnown_planet. rewrite set_pl_goods_goods.
  apply Forall_fmap, Forall_true. intros g. exists []. split; [apply observed_clear|cbn; lia].
Qed.

(** A round of recording adds at most one price to every list. *)
Lemma averageSeen_counted (u : Universe) (n : nat) (p : Planet) (now tupdate : Z) :
  counted n p -> planet_small p -> (Z.of_nat n < INT_MAX)%Z ->
  counted (S n) (economy_averageSeenPricesAtTime u p now tupdate).
Proof.
  intros Hp Hs Hn. rewrite averageSeenPricesAtTime_loop.
  unfold counted, averageSeen_spec in *. rewrite set_pl_goods_goods.
  apply Forall_fmap. eapply Forall_impl; [exact Hp|]. intros g (l & Hl & Hlen).
  cbn. unfold seen_entry. case_decide; [|exists l; split; [done|lia]].
  exists (economy_getPriceAtTime u g.1 p tupdate :: l). split; [|cbn; lia]. cbn.
  apply observed_record; [done| |by apply getPriceAtTime_small].
  destruct Hl as (-> & _). lia.
Qed.

(** ** The calls of the game *)

Lemma on_planet_counted (F : Planet -> Planet) (n : nat) (pi : nat) (u : Universe) :
  (forall p, planet_stack u !! pi = Some p -> counted n p -> counted (S n) (F p)) ->
  seen_within n u -> seen_within (S n) (on_planet F pi u).
Proof.
  intros HF Hu. unfold seen_within, on_planet in *. cbn. apply Forall_lookup. intros k p' Hk.
  destruct (decide (pi = k)) as [->|Hne].
  - rewrite list_lookup_alter_eq in Hk. destruct (planet_stack u !! k) as [p|] eqn:Hp; [|done].
    cbn in Hk. simplify_eq. apply HF; [done|]. exact (Forall_lookup_1 _ _ _ _ Hu Hp).
  - rewrite list_lookup_alter_ne in Hk by done.
    apply (counted_mono n); [lia|]. exact (Forall_lookup_1 _ _ _ _ Hu Hk).
Qed.

Lemma clearKnown_counted (n : nat) (u : Universe) :
  seen_within n u -> seen_within n (economy_clearKnown u).
Proof.
  intros Hu. apply economy_clearKnown_Forall; [apply clearKnown_planet_counted|done].
Qed.

Lemma seen_within_mono (n m : nat) (u : Universe) :
  (n <= m)%nat -> seen_within n u -> seen_within m u.
Proof.
  intros Hnm Hu. eapply Forall_impl; [exact Hu|]. intros p. by apply counted_mono.
Qed.

Section game.
Context `{Sv : Solver} `{F : Factions} `{GD : GameData} `{T : RealText}.

Lemma game_step_counted (n : nat) (c : game_call) (su su' : EconState * Universe) :
  tracked c -> game_step c su = Some su' ->
  seen_within n su.2 -> fields_small su.2 -> (Z.of_nat n < INT_MAX)%Z ->
  seen_within (S n) su'.2.
Proof.
  intros Hc Hs Hu Hsmall Hn. destruct c; cbn in Hs; simplify_option_eq; cbn [snd].
  - destruct (econ_step_same_world c su) as (_ & _ & Hp & _).
    unfold seen_within. rewrite Hp. apply (seen_within_mono n); [lia|done].
  - apply on_planet_counted; [|done]. intros p Hp Hcp.
    apply (averageSeen_counted _ n); [done| |done].
    exact (Forall_lookup_1 _ _ _ _ Hsmall Hp).
  - apply on_planet_counted; [|done]. intros p Hp Hcp.
    apply (averageSeen_counted _ n); [done| |done].
    exact (Forall_lookup_1 _ _ _ _ Hsmall Hp).
  - apply (seen_within_mono n); [lia|]. by apply clearKnown_counted.
  - done.
Qed.

Lemma game_run_counted (cs : list game_call) (n : nat) (su su' : EconState * Universe) :
  Forall tracked cs -> game_run cs su = Some su' ->
  seen_within n su.2 -> fields_small su.2 ->
  (Z.of_nat (n + length cs) <= INT_MAX)%Z ->
  seen_within (n + length cs) su'.2.
Proof.
  intros Hcs. revert n su. induction Hcs as [|c cs Hc Hcs IH]; intros n su Hrun Hu Hs Hn;
    cbn in Hrun.
  - simplify_eq. by rewrite Nat.add_0_r.
  - destruct (game_step c su) as [su1|] eqn:Hstep; [|done]. cbn in Hrun, Hn.
    replace (n + length (c :: cs))%nat with (S n + length cs)%nat by (cbn; lia).
    apply (IH (S n) su1); [done| | |lia].
    + eapply game_step_counted; eauto. lia.
    + eapply fields_small_prices; [|exact Hs]. by eapply game_step_prices.
Qed.

End game.

(** ** The four passes leave the accumulators alone

    [economy_calcPrice] sets them to zero and the later passes keep them:
    [Q] is a property of a field that its accumulators decide, and that
    holds of a field whose accumulators are zero. *)

Section passes.
Context `{GD : GameData}.
Context (Q : CommodityPrice -> Prop).
Context (HQ : forall cp cp', accumulators cp' = accumulators cp -> Q cp -> Q cp').
Context (HQ0 : forall cp, accumulators cp = (0%Z, 0, 0, 0%Z) -> Q cp).

Lemma calcPrice_cell_kept (u : Universe) (p : Planet) :
  planet_all Q p -> planet_all Q (calcPrice_cell u p).
Proof.
  unfold planet_all, calcPrice_cell. rewrite set_pl_goods_goods. intros Hp.
  apply Forall_fmap. eapply Forall_impl; [exact Hp|]. intros g Hg. cbn.
  unfold calcPrice_good. destruct (commodity_stack u !! g.1); [|done]. by apply HQ0.
Qed.

Lemma map_cp_kept (f : CommodityPrice -> CommodityPrice) (p : Planet) :
  (forall cp, Q cp -> Q (f cp)) ->
  planet_all Q p -> planet_all Q (set_pl_goods (map_cp f <$> pl_goods p) p).
Proof.
  intros Hf Hp. unfold planet_all. rewrite set_pl_goods_goods.
  apply Forall_fmap. eapply Forall_impl; [exact Hp|]. intros g Hg. by apply Hf.
Qed.

Lemma blend_cell_kept (u : Universe) (av : list CommodityPrice) (p : Planet) :
  planet_all Q p -> planet_all Q (blend_cell u av p).
Proof.
  unfold planet_all, blend_cell. rewrite set_pl_goods_goods. intros Hp.
  apply Forall_fmap. eapply Forall_impl; [exact Hp|]. intros g Hg.
  unfold blend_good. cbn. apply (foldl_inv Q); [done|].
  intros cp a Hcp _. unfold apply_average. case_decide; [by apply (HQ cp)|done].
Qed.

Lemma update_cell_kept (u : Universe) (av : list CommodityPrice) (p : Planet) :
  planet_all Q p -> planet_all Q (update_cell u av p).
Proof.
  unfold planet_all, update_cell. rewrite set_pl_goods_goods. intros Hp.
  apply Forall_fmap. eapply Forall_impl; [exact Hp|]. intros g Hg.
  unfold update_good. cbn. destruct (list_find _ av) as [[i a]|]; [by apply (HQ g.2)|done].
Qed.

Lemma calcPrice_all_kept (u : Universe) :
  Forall (planet_all Q) (planet_stack u) ->
  Forall (planet_all Q) (planet_stack (calcPrice_all u)).
Proof.
  intros Hu. unfold calcPrice_all. cbn [planet_stack set_planet_stack].
  rewrite (foldl_foldl_bind (calcPrice_planet u) sys_planets).
  apply (foldl_alter_Forall _ (calcPrice_cell u)); [apply calcPrice_cell_kept|done].
Qed.

Lemma modifySystem_kept (u : Universe) (i : nat) :
  Forall (planet_all Q) (planet_stack u) ->
  Forall (planet_all Q) (planet_stack (economy_modifySystemCommodityPrice u i)).
Proof.
  intros Hu. unfold economy_modifySystemCommodityPrice.
  destruct (systems_stack u !! i) as [sys|]; [|done]. cbn [planet_stack set_planet_stack].
  apply (foldl_alter_Forall _ (blend_cell u _)); [apply blend_cell_kept|].
  apply (foldl_inv (fun a => Forall (planet_all Q) a.1)); [done|].
  intros [ps av] pi Hps _. rewrite modify_planet_spec. cbn [fst] in *.
  apply Forall_alter; [done|]. intros p _ Hp. apply map_cp_kept; [|done].
  intros cp. by apply HQ.
Qed.

Lemma calcUpdated_kept (u : Universe) (i : nat) :
  Forall (planet_all Q) (planet_stack u) ->
  Forall (planet_all Q) (planet_stack (economy_calcUpdatedCommodityPrice u i)).
Proof.
  intros Hu. unfold economy_calcUpdatedCommodityPrice.
  destruct (systems_stack u !! i) as [sys|]; [|done]. cbn [planet_stack set_planet_stack].
  apply (foldl_alter_Forall _ (update_cell u _)); [apply update_cell_kept|done].
Qed.

Lemma smooth_planet_stack (u : Universe) (i : nat) :
  planet_stack (economy_smoothCommodityPrice u i) = planet_stack u.
Proof.
  unfold economy_smoothCommodityPrice. by destruct (systems_stack u !! i).
Qed.

Lemma for_systems_kept (f : Universe -> nat -> Universe) (u : Universe) :
  (forall u i, Forall (planet_all Q) (planet_stack u) ->
               Forall (planet_all Q) (planet_stack (f u i))) ->
  Forall (planet_all Q) (planet_stack u) ->
  Forall (planet_all Q) (planet_stack (for_systems f u)).
Proof.
  intros Hf Hu. unfold for_systems.
  apply (foldl_inv (fun u => Forall (planet_all Q) (planet_stack u))); [done|].
  intros u' i Hu' _. by apply Hf.
Qed.

(** What holds of the accumulators of every good before the four passes
    holds after them. *)
Lemma initialise_kept (u : Universe) :
  Forall (planet_all Q) (planet_stack u) ->
  Forall (planet_all Q) (planet_stack (economy_initialiseCommodityPrices u)).
Proof.
  intros Hu. unfold economy_initialiseCommodityPrices, free_modifiers.
  cbn [planet_stack set_commodity_stack].
  apply for_systems_kept; [apply calcUpdated_kept|].
  apply for_systems_kept; [intros u' i; by rewrite smooth_planet_stack|].
  apply for_systems_kept; [apply modifySystem_kept|].
  by apply calcPrice_all_kept.
Qed.

End passes.

Lemma observed_accumulators (l : list Z) (cp cp' : CommodityPrice) :
  accumulators cp' = accumulators cp -> observed l cp -> observed l cp'.
Proof. unfold observed. intros [= -> -> -> _]. done. Qed.

Lemma observed_zero (cp : CommodityPrice) :
  accumulators cp = (0%Z, 0, 0, 0%Z) -> observed [] cp.
Proof. unfold observed. intros [= -> -> -> _]. done. Qed.

Lemma initialise_unseen `{GD : GameData} (u : Universe) :
  Forall planet_unseen (planet_stack u) ->
  seen_within 0 (economy_initialiseCommodityPrices u).
Proof.
  intros Hu. unfold seen_within.
  eapply Forall_impl; [|apply planet_unseen_counted].
  by apply (initialise_kept (observed []) (observed_accumulators []) observed_zero).
Qed.

(** ** The statistics of a counted planet *)

Lemma counted_variance (n : nat) (p : Planet) :
  counted n p ->
  Forall (fun g => (0 <= cp_cnt g.2 <= Z.of_nat n)%Z /\
                   ((0 < cp_cnt g.2)%Z -> 0 <= variance_of g.2)) (pl_goods p).
Proof.
  intros Hp. eapply Forall_impl; [exact Hp|].
  intros g (l & Hl & Hn). pose proof Hl as (Hc & _). split; [lia|].
  intros Hpos. apply (observed_variance_nonneg l); [done|]. intros ->. cbn in Hc. lia.
Qed.

(** A run from the initialised universe keeps the accumulators statistics. *)
Lemma game_run_seen `{Sv : Solver} `{F : Factions} `{GD : GameData} `{T : RealText}
    (u0 : Universe) (cs : list game_call) (su : EconState * Universe) :
  Forall planet_unseen (planet_stack u0) ->
  fields_small (economy_initialiseCommodityPrices u0) ->
  Forall tracked cs -> (Z.of_nat (length cs) <= INT_MAX)%Z ->
  game_run cs (econ_start, economy_initialiseCommodityPrices u0) = Some su ->
  seen_within (length cs) su.2.
Proof.
  intros Hu Hs Hcs Hn Hrun.
  apply (game_run_counted cs 0 _ su Hcs Hrun); [by apply initialise_unseen|done|done].
Qed.

Lemma seen_within_counts_small (n : nat) (u : Universe) :
  seen_within n u -> (Z.of_nat n <= 46340)%Z -> counts_small (galaxy_planets u).
Proof.
  intros Hu Hn. apply Forall_forall. intros p Hp%galaxy_planets_heap.
  eapply Forall_impl; [exact (proj1 (Forall_forall _ _) Hu p Hp)|].
  intros g (l & (Hc & _) & Hl). cbn. lia.
Qed.

(** C16.  From a universe of which nothing was seen, through the four passes
    and any sequence of fewer than [INT_MAX] calls of the solver, recordings
    and resets, with price fields below [PRICE_MAX]: the accumulators of
    every good of every planet are the count, the sum and the sum of squares
    of one list of prices, no longer than the number of calls; so the count
    is not negative and what [economy_getAveragePlanetPrice] takes the
    square root of is not negative. *)
Theorem game_statistics `{Sv : Solver} `{F : Factions} `{GD : GameData} `{T : RealText}
    (u0 : Universe) (cs : list game_call) (su : EconState * Universe) :
  Forall planet_unseen (planet_stack u0) ->
  fields_small (economy_initialiseCommodityPrices u0) ->
  Forall tracked cs -> (Z.of_nat (length cs) <= INT_MAX)%Z ->
  game_run cs (econ_start, economy_initialiseCommodityPrices u0) = Some su ->
  seen_within (length cs) su.2 /\
  Forall (fun p => Forall (fun g => (0 <= cp_cnt g.2 <= Z.of_nat (length cs))%Z /\
                                    ((0 < cp_cnt g.2)%Z -> 0 <= variance_of g.2))
                     (pl_goods p)) (planet_stack su.2).
Proof.
  intros Hu Hs Hcs Hn Hrun. pose proof (game_run_seen u0 cs su Hu Hs Hcs Hn Hrun) as Hseen.
  split; [done|]. eapply Forall_impl; [exact Hseen|]. apply counted_variance.
Qed.

(** What a planet whose accumulators are statistics reports. *)
Lemma counted_report (u : Universe) (n : nat) (com : nat) (p : Planet)
    (cp : CommodityPrice) :
  counted n p -> (Z.of_nat n <= 46340)%Z -> find_commodityPrice u com p = inr cp ->
  exists l, (length l <= n)%nat /\
    economy_getAveragePlanetPrice u com p
    = if l is [] then (0%Z, 0%Z, 0)
      else (0%Z, Ztrunc (mean_seen l + 0.5), deviation_seen l).
Proof.
  intros Hp Hn Hf. pose proof Hf as (_ & i & c & Hi & _)%find_commodityPrice_inr.
  apply list_elem_of_lookup_2 in Hi.
  destruct (proj1 (Forall_forall _ _) Hp _ Hi) as (l & Hl & Hlen).
  exists l. split; [done|]. apply (getAveragePlanetPrice_observed u com p cp l); [done..|lia].
Qed.

(** What the player is told: from a universe of which nothing was
    seen, through the four passes and up to 46340 calls of the solver,
    recordings and resets, with price fields below [PRICE_MAX], the mean
    and the deviation [economy_getAveragePlanetPrice] reports for a good of
    a planet are the rounded mean and the standard deviation of one list of
    prices, no longer than the number of calls; for the empty list, a good
    that was never seen, they are 0 and 0, and the return value is 0 as for
    a good that was seen. *)
Theorem game_reports `{Sv : Solver} `{F : Factions} `{GD : GameData} `{T : RealText}
    (u0 : Universe) (cs : list game_call) (su : EconState * Universe)
    (com : nat) (p : Planet) (cp : CommodityPrice) :
  Forall planet_unseen (planet_stack u0) ->
  fields_small (economy_initialiseCommodityPrices u0) ->
  Forall tracked cs -> (Z.of_nat (length cs) <= 46340)%Z ->
  game_run cs (econ_start, economy_initialiseCommodityPrices u0) = Some su ->
  p ∈ planet_stack su.2 -> find_commodityPrice su.2 com p = inr cp ->
  exists l, (length l <= length cs)%nat /\
    economy_getAveragePlanetPrice su.2 com p
    = if l is [] then (0%Z, 0%Z, 0)
      else (0%Z, Ztrunc (mean_seen l + 0.5), deviation_seen l).
Proof.
  intros Hu Hs Hcs Hn Hrun Hp Hf.
  assert (seen_within (length cs) su.2) as Hseen
    by (apply (game_run_seen u0); [done..|unfold INT_MAX; lia|done]).
  apply (counted_report su.2 (length cs) com p cp); [|done..].
  by apply (proj1 (Forall_forall _ _) Hseen).
Qed.

(** C18.  What the player is told of the galaxy: from a universe of which
    nothing was seen, through the four passes and up to 46340 calls of the
    solver, recordings and resets, with price fields below [PRICE_MAX] and at
    most [INT_MAX] pointers from systems to planets, the mean and the
    deviation [economy_getAveragePrice] reports for a priced commodity are
    the rounded mean and the standard deviation of the means of the prices
    seen at the planets that have seen it, 0 and 0 when none has. *)
Theorem game_galaxy_reports `{Sv : Solver} `{F : Factions} `{GD : GameData} `{T : RealText}
    (u0 : Universe) (cs : list game_call) (su : EconState * Universe) (com : nat) :
  Forall planet_unseen (planet_stack u0) ->
  fields_small (economy_initialiseCommodityPrices u0) ->
  Forall tracked cs -> (Z.of_nat (length cs) <= 46340)%Z ->
  (Z.of_nat (length (reachable_planets u0)) <= INT_MAX)%Z ->
  game_run cs (econ_start, economy_initialiseCommodityPrices u0) = Some su ->
  com ∈ econ_comm u0 ->
  economy_getAveragePrice su.2 com = galaxy_report (galaxy_means su.2 com).
Proof.
  intros Hu Hs Hcs Hn Hlen Hrun Hcom.
  assert (seen_within (length cs) su.2) as Hseen
    by (apply (game_run_seen u0); [done..|unfold INT_MAX; lia|done]).
  pose proof (game_reachable_prices u0 su
                (game_run_reachable u0 cs _ su (game_start u0) Hrun)) as Hp.
  destruct (initialise_frame pl_name price_blind_name u0) as (He & Hf & _).
  apply getAveragePrice_means.
  - destruct Hp as (He' & _). by rewrite He', He.
  - by apply (seen_within_counts_small (length cs)).
  - pose proof (galaxy_planets_length su.2) as Hg.
    rewrite (same_prices_reachable _ _ Hp) in Hg.
    change (reachable_planets ?u) with (all_planets u) in *.
    rewrite all_planets_frames, Hf, <- all_planets_frames in Hg. lia.
Qed.

(** ** The twin systems *)

Lemma twin_initialised_planets :
  planet_stack twin_initialised
  = [set_pl_goods [(0%nat, twin_field)] (plain_world "P0");
     set_pl_goods [(0%nat, twin_field)] (plain_world "P1")].
Proof. real_compute. Qed.

Lemma twin_field_small : field_small twin_field.
Proof.
  unfold field_small, PRICE_MAX. cbn. rewrite !Rabs_pos_eq by lra. lra.
Qed.

Lemma twin_fields_small : fields_small twin_initialised.
Proof.
  unfold fields_small, planet_small. rewrite twin_initialised_planets.
  apply Forall_cons; split; [|apply Forall_cons; split; [|constructor]];
    (apply Forall_cons; split; [apply twin_field_small|constructor]).
Qed.

Lemma twin_unseen : Forall planet_unseen (planet_stack twin_systems).
Proof. repeat (constructor; [repeat constructor|]). constructor. Qed.

Lemma game_statistics_witness :
  exists su,
    @game_run null_solver no_factions millionths_text twin_calls
      (econ_start, twin_initialised) = Some su /\
    seen_within (length twin_calls) su.2 /\
    Forall (fun p => Forall (fun g => (0 <= cp_cnt g.2 <= Z.of_nat (length twin_calls))%Z /\
                                      ((0 < cp_cnt g.2)%Z -> 0 <= variance_of g.2))
                       (pl_goods p)) (planet_stack su.2).
Proof.
  eexists. split; [reflexivity|].
  apply (@game_statistics null_solver no_factions sample_game millionths_text
           twin_systems twin_calls _ twin_unseen twin_fields_small).
  - repeat constructor.
  - cbn. unfold INT_MAX. lia.
  - reflexivity.
Defined.

Lemma game_reports_witness :
  exists su p cp,
    @game_run null_solver no_factions millionths_text twin_calls
      (econ_start, twin_initialised) = Some su /\
    p ∈ planet_stack su.2 /\ find_commodityPrice su.2 0 p = inr cp /\
    exists l, (length l <= length twin_calls)%nat /\
      economy_getAveragePlanetPrice su.2 0 p
      = if l is [] then (0%Z, 0%Z, 0)
        else (0%Z, Ztrunc (mean_seen l + 0.5), deviation_seen l).
Proof.
  eexists _, _, _. split; [reflexivity|].
  split; [apply list_elem_of_here|]. split; [reflexivity|].
  eapply (@game_reports null_solver no_factions sample_game millionths_text
            twin_systems twin_calls _ 0%nat _ _ twin_unseen twin_fields_small).
  - repeat constructor.
  - cbn. lia.
  - reflexivity.
  - apply list_elem_of_here.
  - reflexivity.
Defined.

Lemma game_galaxy_reports_witness :
  exists su,
    @game_run null_solver no_factions millionths_text twin_calls
      (econ_start, twin_initialised) = Some su /\
    economy_getAveragePrice su.2 0 = galaxy_report (galaxy_means su.2 0).
Proof.
  eexists. split; [reflexivity|].
  eapply (@game_galaxy_reports null_solver no_factions sample_game millionths_text
            twin_systems twin_calls _ 0%nat twin_unseen twin_fields_small).
  - repeat constructor.
  - cbn. lia.
  - cbn. unfold INT_MAX. lia.
  - reflexivity.
  - apply list_elem_of_here.
Defined.

(** ** A saved game is taken at its word

    [economy_sysLoad] stores the sum, the sum of squares and the count it
    reads without comparing them: after this saved game the first good of
    the first planet has one price seen, of sum 1, and a variance of -1. *)
Lemma atof_million : @atof millionths_text "1000000" = 1.
Proof.
  cbn. unfold of_millionths. cbn.
  match goal with
  | |- IZR ?z / _ = _ => let z' := eval vm_compute in z in change z with z'
  end.
  lra.
Qed.

Example forged_save_variance :
  exists u p g,
    @economy_sysLoad millionths_text forged_save twin_systems = Some u /\
    planet_stack u !! 0%nat = Some p /\ pl_goods p !! 0%nat = Some g /\
    cp_cnt g.2 = 1%Z /\ cp_sum g.2 = 1 /\ variance_of g.2 = -1 /\
    ~ exists l, observed l g.2.
Proof.
  eexists _, _, _. split; [reflexivity|]. split; [reflexivity|]. split; [reflexivity|].
  set (g := map_cp (load_fields _) _).
  assert (cp_cnt g.2 = 1%Z) as Hc by reflexivity.
  assert (cp_sum g.2 = 1) as Hs by (etrans; [|apply atof_million]; reflexivity).
  assert (cp_sum2 g.2 = 0) as Hs2 by reflexivity.
  clearbody g. unfold variance_of, observed. rewrite Hc, Hs, Hs2.
  split_and!; [done|done|lra|].
  intros ([|x [|y l]] & Hl & Hx & Hx2); cbn in *; try lia. nra.
Qed.
