(* ===== verification/Session.v ===== *)
(** * Session: a game that is saved, started again and loaded

    The player lands on planets, time passes, the solver runs; then the game
    is saved ([economy_sysSave]), the program is started again, the universe
    is initialised as before ([economy_initialiseCommodityPrices],
    [economy_init]), some calls may follow, and the saved game is loaded
    ([economy_sysLoad]).  This file follows the universe through both
    sessions and shows that the load puts it in the state the first session
    saved: what the save writes is enough, and nothing the second session
    did before the load shows through.

    It composes the tracker, the solver, the writer and the loader:
    - [forget] is the universe without what the player has seen and bought
      and without the price vectors of the solver; no call of a running game
      changes it, so the two sessions agree on it;
    - an initialised economy on a well connected star map holds the price 1
      in every cell, so the two sessions agree on the price vectors too, and
      [economy_clearKnown], the first thing the loader does, brings both to
      the same universe;
    - in a state the game reaches, the accumulators of every field are
      numbers their text keeps: the count is the length of a list of prices,
      the sums are sums of integers, the time is the time of a recording, 0
      for a field never seen ([timed]).

    A game is not two sessions but any number of them: [honest] is the game
    as a machine whose steps are the calls of a running game and the loading
    of a document that a state of the same game saved.  Its invariant, by
    induction on the rules, is that the universe is one a session without
    loads reaches; so the statistics stay statistics through every save and
    load, and every state saves to a document that brings it back. *)

From Stdlib Require Import Reals Lra Lia ZArith.
From stdpp Require Import base tactics option list strings.
From S2P Require Import Prelude World Price Observation Network Economy.
From S2P Require Import Initializer Pipeline Frame Catalog Xml Persistence Game.
From S2P Require Import Statistics.

#[local] Open Scope R_scope.

(** ** What no call changes *)

(** The universe when the player has seen and bought nothing and the solver
    holds no prices. *)
Definition forget (u : Universe) : Universe :=
  set_systems_stack (star_map u) (economy_clearKnown u).

(** What [names_distinct] reads of a universe. *)
Definition name_sig (u : Universe)
  : list string * list string * list (list string) * list nat :=
  (pl_name <$> planet_stack u, com_name <$> commodity_stack u,
   (fun p => good_names u (pl_goods p)) <$> planet_stack u, reachable_planets u).

(** ** What the text of a saved game keeps *)

(** The time of a field: that of a recording, 0 when nothing was
    recorded. *)
Definition timed (cp : CommodityPrice) : Prop :=
  (0 <= cp_updateTime cp <= LONG_MAX)%Z /\ (cp_cnt cp = 0%Z -> cp_updateTime cp = 0%Z).

(** The price of the last purchase is not negative and a [long]. *)
Definition bought_ok (c : Commodity) : Prop :=
  (0 <= com_lastPurchasePrice c <= LONG_MAX)%Z.

(** A universe the save and the load bring back as it is: the accumulators
    are statistics of at most [n] prices, with the times of their
    recordings. *)
Definition resumable (n : nat) (u : Universe) : Prop :=
  seen_within n u /\ Forall (planet_all timed) (planet_stack u) /\
  Forall bought_ok (commodity_stack u).

(** A universe before anything was seen. *)
Definition fresh (u : Universe) : Prop :=
  Forall (planet_all cleared) (planet_stack u) /\ Forall bought_ok (commodity_stack u).

(** The calls of a running game on the universe [u]: the planet the player
    lands on belongs to a system, the time is an [int64_t]; a saved game is
    not loaded. *)
Definition playable (u : Universe) (c : game_call) : Prop :=
  match c with
  | GSeen pi now | GSeenAtTime pi now _ =>
      pi ∈ reachable_planets u /\ (now <= LONG_MAX)%Z
  | GLoad _ => False
  | _ => True
  end.

(** ** A game with saved games

    The states of a game that loads only what the game has saved.  A call
    of the solver, a recording or a reset takes a state to the next; a load
    takes a state [su2] to the state [su3] that [economy_sysLoad] gives on a
    document that holds, beside nodes of other parts of the game, what
    [economy_sysSave] wrote in a state [su1] of the game; the economy is
    initialised when the game is saved and when it is loaded.  The number is
    the count of the calls behind the state: a load goes back to the count
    of the state that was saved. *)

Section Honest.
Context `{Sv : Solver} `{F : Factions} `{GD : GameData} `{T : RealText}.

Inductive honest (u0 : Universe) : nat -> EconState * Universe -> Prop :=
  | honest_start :
      honest u0 0 (econ_start, economy_initialiseCommodityPrices u0)
  | honest_call (n : nat) (c : game_call) (su su' : EconState * Universe) :
      honest u0 n su -> playable u0 c -> game_step c su = Some su' ->
      honest u0 (S n) su'
  | honest_load (n m : nat) (su1 su2 su3 : EconState * Universe) (name : string)
        (attrs : list (string * string)) (before docs after : list xml) :
      honest u0 n su1 -> honest u0 m su2 ->
      econ_initialized su1.1 = true -> econ_initialized su2.1 = true ->
      Forall (fun x => xml_isNode x "economy" = false) (before ++ after) ->
      xml_read (economy_sysSave su1.2 []) = Some docs ->
      game_step (GLoad (xml_elem name attrs (before ++ docs ++ after))) su2 = Some su3 ->
      honest u0 n su3.

End Honest.

(** ** Sample data: the second session starts the economy and lands once *)

Definition second_calls : list game_call := [GEcon CallInit; GSeen 1 9].

(** A universe whose planet no system points to. *)
Definition unlisted_universe : Universe := set_systems_stack [] seen_universe.

(** * Theorems *)

(** ** The universe without what was seen *)

Lemma forget_unfold (u : Universe) :
  forget u = mkUniverse (set_com_lastPurchasePrice 0 <$> commodity_stack u) (econ_comm u)
               (star_map u) (planet_stack (economy_clearKnown u)).
Proof. reflexivity. Qed.

Lemma clearKnown_forget (u : Universe) :
  economy_clearKnown u = set_systems_stack (systems_stack u) (forget u).
Proof. reflexivity. Qed.

Lemma forget_reachable (u u' : Universe) :
  forget u' = forget u -> reachable_planets u' = reachable_planets u.
Proof.
  intros Hf. rewrite !reachable_star_map.
  change (star_map u') with (systems_stack (forget u')). by rewrite Hf.
Qed.

(** Two universes that differ in what was seen, bought and solved only. *)
Lemma forget_eq (u u' : Universe) :
  set_com_lastPurchasePrice 0 <$> commodity_stack u'
  = set_com_lastPurchasePrice 0 <$> commodity_stack u ->
  econ_comm u' = econ_comm u -> star_map u' = star_map u ->
  (forall k, k ∈ reachable_planets u ->
     clearKnown_planet <$> planet_stack u' !! k = clearKnown_planet <$> planet_stack u !! k) ->
  (forall k, k ∉ reachable_planets u -> planet_stack u' !! k = planet_stack u !! k) ->
  forget u' = forget u.
Proof.
  intros Hc He Hm Hin Hout. rewrite !forget_unfold, Hc, He, Hm. f_equal.
  apply list_eq. intros k. rewrite !economy_clearKnown_planet_lookup.
  rewrite (reachable_star_map u'), Hm, <- reachable_star_map. case_decide; auto.
Qed.

Lemma forget_same_world (u u' : Universe) : same_world u u' -> forget u' = forget u.
Proof.
  intros (Hc & He & Hp & Hm). apply forget_eq; by rewrite ?Hc, ?Hp.
Qed.

Lemma forget_on_planet (f : Planet -> Planet) (pi : nat) (u : Universe) :
  pi ∈ reachable_planets u -> (forall p, clearKnown_planet (f p) = clearKnown_planet p) ->
  forget (on_planet f pi u) = forget u.
Proof.
  intros Hpi Hf. apply forget_eq; try done; cbn [planet_stack on_planet set_planet_stack].
  - intros k _. destruct (decide (pi = k)) as [->|Hne].
    + rewrite list_lookup_alter_eq. destruct (planet_stack u !! k); [|done]. cbn.
      by rewrite Hf.
    + by rewrite list_lookup_alter_ne.
  - intros k Hk. rewrite list_lookup_alter_ne; [done|]. by intros ->.
Qed.

Lemma forget_clearKnown (u : Universe) : forget (economy_clearKnown u) = forget u.
Proof.
  apply forget_eq; try done.
  - cbn [commodity_stack economy_clearKnown]. rewrite <- list_fmap_compose.
    by apply list_fmap_ext.
  - intros k Hk. rewrite economy_clearKnown_planet_lookup, decide_True by done.
    destruct (planet_stack u !! k); [|done]. cbn. by rewrite clearKnown_planet_idem.
  - intros k Hk. by rewrite economy_clearKnown_planet_lookup, decide_False.
Qed.

(** The loader starts both sessions from the same universe. *)
Lemma clearKnown_eq (u u' : Universe) :
  forget u' = forget u -> systems_stack u' = systems_stack u ->
  economy_clearKnown u' = economy_clearKnown u.
Proof. intros Hf Hs. by rewrite !clearKnown_forget, Hf, Hs. Qed.

(** ** The names *)

Lemma good_names_forget (u : Universe) (gs : list (nat * CommodityPrice)) :
  good_names (forget u) gs = good_names u gs.
Proof. apply list_fmap_ext. intros _ g _. apply economy_clearKnown_name. Qed.

Lemma name_sig_forget (u : Universe) : name_sig (forget u) = name_sig u.
Proof.
  unfold name_sig. f_equal; [f_equal; [f_equal|]|].
  - apply list_eq. intros k. rewrite !list_lookup_fmap.
    change (planet_stack (forget u)) with (planet_stack (economy_clearKnown u)).
    rewrite economy_clearKnown_planet_lookup.
    case_decide; by destruct (planet_stack u !! k).
  - apply economy_clearKnown_names.
  - apply list_eq. intros k. rewrite !list_lookup_fmap.
    change (planet_stack (forget u)) with (planet_stack (economy_clearKnown u)).
    rewrite economy_clearKnown_planet_lookup.
    case_decide; destruct (planet_stack u !! k); cbn; try done; f_equal;
      [|apply good_names_forget].
    apply (good_names_fmap u (forget u)); [apply economy_clearKnown_name|done].
  - symmetry. apply reachable_star_map.
Qed.

Lemma names_distinct_sig (u u' : Universe) :
  name_sig u' = name_sig u -> names_distinct u -> names_distinct u'.
Proof.
  intros [= Hp Hc Hg Hr] (H1 & H2 & H3 & H4).
  assert (length (planet_stack u') = length (planet_stack u)) as Hlen.
  { apply (f_equal length) in Hp. by rewrite !length_fmap in Hp. }
  split_and!; [by rewrite Hp|by rewrite Hc| |].
  - apply (Forall_fmap (fun p => good_names u' (pl_goods p)) NoDup). rewrite Hg.
    by apply Forall_fmap.
  - apply (Forall_bind sys_planets (fun j => j < length (planet_stack u'))%nat).
    change (systems_stack u' ≫= sys_planets) with (reachable_planets u').
    rewrite Hr, Hlen. by apply Forall_bind.
Qed.

(** The names identify in one universe when they do in another that differs
    in what was seen, bought and solved only. *)
Lemma names_distinct_forget (u u' : Universe) :
  forget u' = forget u -> names_distinct u -> names_distinct u'.
Proof.
  intros Hf. apply names_distinct_sig.
  by rewrite <- (name_sig_forget u'), Hf, name_sig_forget.
Qed.

(** ** The price vectors *)

Lemma prices_all_systems (v : R) (u u' : Universe) :
  star_map u' = star_map u -> econ_comm u' = econ_comm u ->
  prices_all v u -> prices_all v u' -> systems_stack u' = systems_stack u.
Proof.
  unfold star_map, prices_all, econ_nprices. intros Hm He Hu Hu'. rewrite He in Hu'.
  apply list_eq. intros k. apply (f_equal (.!! k)) in Hm. rewrite !list_lookup_fmap in Hm.
  destruct (systems_stack u' !! k) as [s'|] eqn:Hs', (systems_stack u !! k) as [s|] eqn:Hs;
    try done.
  pose proof (Forall_lookup_1 _ _ _ _ Hu Hs) as Hp.
  pose proof (Forall_lookup_1 _ _ _ _ Hu' Hs') as Hp'.
  destruct s, s'. by simplify_eq/=.
Qed.

(** ** What a recording leaves when it is forgotten, and the time it sets *)

Lemma clearKnown_planet_seen (u : Universe) (p : Planet) (now tupdate : Z) :
  clearKnown_planet (economy_averageSeenPricesAtTime u p now tupdate) = clearKnown_planet p.
Proof.
  rewrite averageSeenPricesAtTime_loop. unfold clearKnown_planet, averageSeen_spec.
  rewrite set_pl_goods_goods, set_pl_goods_twice. f_equal.
  rewrite <- list_fmap_compose. apply list_fmap_ext. intros i g _. cbn.
  unfold seen_entry. by case_decide.
Qed.

Lemma timed_clear (cp : CommodityPrice) : timed (clear_cp cp).
Proof. split; [|done]. cbn. unfold LONG_MAX, INT64_MAX. lia. Qed.

Lemma cleared_timed (cp : CommodityPrice) : cleared cp -> timed cp.
Proof.
  intros (_ & _ & _ & Ht). unfold timed. rewrite Ht. unfold LONG_MAX, INT64_MAX. lia.
Qed.

Lemma averageSeen_timed (u : Universe) (n : nat) (p : Planet) (now tupdate : Z) :
  counted n p -> (Z.of_nat n < INT_MAX)%Z -> (now <= LONG_MAX)%Z ->
  planet_all timed p -> planet_all timed (economy_averageSeenPricesAtTime u p now tupdate).
Proof.
  intros Hc Hn Hnow Ht. rewrite averageSeenPricesAtTime_loop.
  unfold planet_all, averageSeen_spec. rewrite set_pl_goods_goods.
  apply Forall_fmap, Forall_lookup. intros i g Hi.
  destruct (Forall_lookup_1 _ _ _ _ Hc Hi) as (l & (Hcnt & _) & Hlen).
  destruct (Forall_lookup_1 _ _ _ _ Ht Hi) as [Hrange Hz].
  cbn. unfold seen_entry. case_decide; [|done]. split; cbn; [lia|].
  rewrite int32_small by (unfold INT_MAX in *; lia). lia.
Qed.

Lemma clearKnown_planet_timed (p : Planet) : planet_all timed (clearKnown_planet p).
Proof.
  unfold planet_all, clearKnown_planet. rewrite set_pl_goods_goods.
  apply Forall_fmap, Forall_true. intros g. apply timed_clear.
Qed.

(** ** The calls of a running game *)

Lemma playable_tracked (u : Universe) (c : game_call) : playable u c -> tracked c.
Proof. by destruct c. Qed.

Section calls.
Context `{Sv : Solver} `{F : Factions} `{GD : GameData} `{T : RealText}.

Lemma game_step_forget (u1 : Universe) (c : game_call) (su su' : EconState * Universe) :
  playable u1 c -> forget su.2 = forget u1 -> game_step c su = Some su' ->
  forget su'.2 = forget u1.
Proof.
  intros Hc Hf Hs. rewrite <- Hf. pose proof (forget_reachable _ _ Hf) as Hr.
  destruct c; cbn in Hc, Hs; simplify_option_eq; cbn [snd].
  - apply forget_same_world, econ_step_same_world.
  - apply forget_on_planet; [rewrite Hr; apply Hc|]. intros p. apply clearKnown_planet_seen.
  - apply forget_on_planet; [rewrite Hr; apply Hc|]. intros p. apply clearKnown_planet_seen.
  - apply forget_clearKnown.
  - done.
Qed.

Lemma game_step_resumable (u1 : Universe) (n : nat) (c : game_call)
    (su su' : EconState * Universe) :
  playable u1 c -> game_step c su = Some su' -> fields_small su.2 ->
  (Z.of_nat n < INT_MAX)%Z -> resumable n su.2 -> resumable (S n) su'.2.
Proof.
  intros Hc Hs Hsmall Hn (Hseen & Ht & Hb).
  split; [eapply game_step_counted; eauto using playable_tracked|].
  destruct c; cbn in Hc, Hs; simplify_option_eq; cbn [snd].
  - destruct (econ_step_same_world c su) as (Hcs & _ & Hp & _). by rewrite Hcs, Hp.
  - split; [|done]. apply Forall_alter; [done|]. intros p Hp Htp.
    apply (averageSeen_timed _ n); [exact (Forall_lookup_1 _ _ _ _ Hseen Hp)|done|apply Hc|done].
  - split; [|done]. apply Forall_alter; [done|]. intros p Hp Htp.
    apply (averageSeen_timed _ n); [exact (Forall_lookup_1 _ _ _ _ Hseen Hp)|done|apply Hc|done].
  - split; [apply economy_clearKnown_Forall; [apply clearKnown_planet_timed|done]|].
    apply Forall_fmap, Forall_true. intros c. unfold bought_ok. cbn.
    unfold LONG_MAX, INT64_MAX. lia.
  - done.
Qed.

(** A run of a session from [u1]: the universe differs from [u1] in what was
    seen, bought and solved only. *)
Lemma game_run_forget (u1 : Universe) (cs : list game_call) (su : EconState * Universe) :
  Forall (playable u1) cs -> game_run cs (econ_start, u1) = Some su ->
  forget su.2 = forget u1.
Proof.
  intros Hcs Hrun.
  apply (game_run_invariant (fun _ s => forget s.2 = forget u1) (playable u1))
    with (cs := cs) (n := 0%nat) (su := (econ_start, u1)); [|done..].
  intros n c s s' Hc Hf Hs. by eapply game_step_forget.
Qed.

(** The save and the load bring it back, while the count is an [int]. *)
Lemma game_run_resumable (u1 : Universe) (cs : list game_call) (su : EconState * Universe) :
  fields_small u1 -> resumable 0 u1 -> Forall (playable u1) cs ->
  (Z.of_nat (length cs) <= INT_MAX)%Z -> game_run cs (econ_start, u1) = Some su ->
  resumable (length cs) su.2.
Proof.
  intros Hsmall Hres Hcs Hn Hrun.
  pose (I := fun n (su : EconState * Universe) => (Z.of_nat n <= INT_MAX)%Z ->
    same_prices u1 su.2 /\ resumable n su.2).
  assert (I (0 + length cs)%nat su) as HI; [|exact (proj2 (HI Hn))].
  apply (game_run_invariant I (playable u1)) with (cs := cs) (su := (econ_start, u1));
    [|done|by intros _; split_and!|done].
  intros n c su1 su2 Hc Hsu1 Hs Hn'.
  destruct Hsu1 as (Hp & Hr); [lia|]. split.
  - eapply same_prices_trans; [exact Hp|]. by eapply game_step_prices.
  - eapply game_step_resumable; eauto; [|lia]. by eapply fields_small_prices.
Qed.

End calls.

(** ** What the load brings back *)

Section resume.
Context `{Sv : Solver} `{!SolverSpec Sv} `{F : Factions} `{GD : GameData}.
Context `{T : RealText} `{!RealTextSpec T}.

Lemma restore_commodity_ok (c : Commodity) : bought_ok c -> restore_commodity c = c.
Proof.
  unfold bought_ok, restore_commodity, set_com_lastPurchasePrice. intros Hc.
  destruct c; cbn in *. f_equal. case_decide; [apply atol_printf_u64|]; lia.
Qed.

Lemma restore_cp_known (n : nat) (cp : CommodityPrice) :
  (Z.of_nat n <= INT_MAX)%Z -> (exists l, observed l cp /\ (length l <= n)%nat) ->
  timed cp -> restore_cp cp = cp.
Proof.
  intros Hn (l & (Hc & Hs & Hs2) & Hl) [Ht Hz]. unfold restore_cp. case_decide as Hpos.
  - apply overwrite_storable. split; [apply int32_small; lia|split; [done|]].
    exists (foldr Z.add 0%Z ((fun x : Z => x) <$> l)),
      (foldr Z.add 0%Z ((fun x : Z => (x * x)%Z) <$> l)).
    rewrite Hs, Hs2. split; apply Rsum_IZR; [done|]. intros x. by rewrite mult_IZR.
  - destruct l; [|cbn in Hc; lia]. destruct cp. cbn in *. unfold clear_cp. cbn.
    by rewrite Hs, Hs2, Hc, Hz.
Qed.

Lemma restore_planet_known (n : nat) (p : Planet) :
  (Z.of_nat n <= INT_MAX)%Z -> counted n p -> planet_all timed p -> restore_planet p = p.
Proof.
  intros Hn Hc Ht. unfold restore_planet.
  replace (map_cp restore_cp <$> pl_goods p) with (pl_goods p); [apply set_pl_goods_id|].
  symmetry. apply list_fmap_fixed, Forall_lookup. intros i g Hi. destruct g as [c cp].
  unfold map_cp. cbn. f_equal. apply (restore_cp_known n); [done| |].
  - exact (Forall_lookup_1 _ _ _ _ Hc Hi).
  - exact (Forall_lookup_1 _ _ _ _ Ht Hi).
Qed.

(** The universe the round trip gives is the universe that was saved. *)
Lemma resumable_restored (n : nat) (u : Universe) :
  (Z.of_nat n <= INT_MAX)%Z -> resumable n u -> restored u = u.
Proof.
  intros Hn (Hseen & Ht & Hb). unfold restored, loaded.
  replace (restore_commodity <$> commodity_stack u) with (commodity_stack u).
  replace (planets_after u (reachable_planets u)) with (planet_stack u); [by destruct u|].
  - apply list_eq. intros k. rewrite planets_after_lookup.
    destruct (planet_stack u !! k) as [p|] eqn:Hp; [|done]. cbn. f_equal.
    case_decide; [|done]. symmetry. apply (restore_planet_known n); [done| |].
    + exact (Forall_lookup_1 _ _ _ _ Hseen Hp).
    + exact (Forall_lookup_1 _ _ _ _ Ht Hp).
  - symmetry. apply list_fmap_fixed. eapply Forall_impl; [exact Hb|].
    apply restore_commodity_ok.
Qed.

(** Whatever the calls, the machine keeps its invariant. *)
Lemma game_run_priced (u1 : Universe) (cs : list game_call) (su : EconState * Universe) :
  well_connected u1 -> game_run cs (econ_start, u1) = Some su -> game_inv u1 su.
Proof.
  intros Hwc Hrun.
  apply (game_run_invariant (fun _ => game_inv u1) (fun _ => True))
    with (cs := cs) (n := 0%nat) (su := (econ_start, u1)); [|by apply Forall_true| |done].
  - intros n c s s' _ Hinv Hs. by eapply game_step_inv.
  - split; [apply same_prices_refl|done].
Qed.

(** Two initialised economies on the same star map hold the same price
    vectors. *)
Lemma initialised_systems (u1 : Universe) (su1 su2 : EconState * Universe) :
  game_inv u1 su1 -> game_inv u1 su2 ->
  econ_initialized su1.1 = true -> econ_initialized su2.1 = true ->
  systems_stack su2.2 = systems_stack su1.2.
Proof.
  intros [(He1 & Hm1 & _) H1] [(He2 & Hm2 & _) H2] Hi1 Hi2.
  rewrite Hi1 in H1. rewrite Hi2 in H2.
  apply (prices_all_systems 1); [congruence|congruence|apply H1|apply H2].
Qed.

(** What the loader leaves of a saved state differs from it in what was seen
    and bought only. *)
Lemma forget_restored (u : Universe) : forget (restored u) = forget u.
Proof.
  apply forget_eq; try done; cbn [restored loaded commodity_stack planet_stack].
  - rewrite <- list_fmap_compose. by apply list_fmap_ext.
  - intros k Hk. rewrite planets_after_lookup.
    destruct (planet_stack u !! k) as [p|]; [|done]. cbn. rewrite decide_True by done.
    f_equal. unfold clearKnown_planet, restore_planet.
    rewrite set_pl_goods_goods, set_pl_goods_twice. f_equal.
    rewrite <- list_fmap_compose. apply list_fmap_ext. intros i g _. cbn.
    unfold map_cp, restore_cp. cbn. by case_decide.
  - intros k Hk. rewrite planets_after_lookup.
    destruct (planet_stack u !! k) as [p|]; [|done]. cbn. by rewrite !decide_False.
Qed.

(** A state that loads what another state saved, both with the economy
    initialised. *)
Lemma load_saved (u1 : Universe) (su1 su2 : EconState * Universe) (name : string)
    (attrs : list (string * string)) (before after : list xml) :
  names_distinct u1 -> forget su1.2 = forget u1 -> forget su2.2 = forget u1 ->
  game_inv u1 su1 -> game_inv u1 su2 ->
  econ_initialized su1.1 = true -> econ_initialized su2.1 = true ->
  Forall (fun n => xml_isNode n "economy" = false) (before ++ after) ->
  economy_sysLoad (xml_elem name attrs (before ++ saved_economy su1.2 :: after)) su2.2
  = Some (restored su1.2).
Proof.
  intros Hnames Hf1 Hf2 Hinv1 Hinv2 Hi1 Hi2 Hskip.
  apply sysLoad_saved; [by apply (names_distinct_forget u1)| |done].
  apply clearKnown_eq; [congruence|]. by apply (initialised_systems u1).
Qed.

(** The second session, however far it got, loads the first as it was
    saved. *)
Lemma session_load (u1 : Universe) (cs1 cs2 : list game_call)
    (su1 su2 : EconState * Universe) (name : string) (attrs : list (string * string))
    (before after : list xml) :
  well_connected u1 -> names_distinct u1 -> fields_small u1 -> resumable 0 u1 ->
  Forall (playable u1) cs1 -> Forall (playable u1) cs2 ->
  (Z.of_nat (length cs1) <= INT_MAX)%Z ->
  game_run cs1 (econ_start, u1) = Some su1 -> game_run cs2 (econ_start, u1) = Some su2 ->
  econ_initialized su1.1 = true -> econ_initialized su2.1 = true ->
  Forall (fun n => xml_isNode n "economy" = false) (before ++ after) ->
  economy_sysLoad (xml_elem name attrs (before ++ saved_economy su1.2 :: after)) su2.2
  = Some su1.2.
Proof.
  intros Hwc Hnames Hsmall Hres Hcs1 Hcs2 Hn Hrun1 Hrun2 Hi1 Hi2 Hskip.
  rewrite <- (resumable_restored (length cs1) su1.2) at 2
    by (done || by eapply game_run_resumable).
  apply (load_saved u1); eauto using game_run_forget, game_run_priced.
Qed.

End resume.

(** ** From the data of the game *)

Lemma timed_accumulators (cp cp' : CommodityPrice) :
  accumulators cp' = accumulators cp -> timed cp -> timed cp'.
Proof. unfold timed. intros [= -> _ _ ->]. done. Qed.

Lemma timed_zero (cp : CommodityPrice) : accumulators cp = (0%Z, 0, 0, 0%Z) -> timed cp.
Proof. unfold timed. intros [= -> _ _ ->]. unfold LONG_MAX, INT64_MAX. lia. Qed.

(** The four passes leave a universe of which nothing was seen as the save
    and the load keep it. *)
Lemma fresh_resumable `{GD : GameData} (u0 : Universe) :
  fresh u0 -> resumable 0 (economy_initialiseCommodityPrices u0).
Proof.
  intros [Hp Hb]. split_and!.
  - apply initialise_unseen. eapply Forall_impl; [exact Hp|]. intros p Hc.
    eapply Forall_impl; [exact Hc|]. by intros g (Hcnt & Hs & Hs2 & _).
  - apply (initialise_kept timed timed_accumulators timed_zero).
    eapply Forall_impl; [exact Hp|]. intros p Hc.
    eapply Forall_impl; [exact Hc|]. intros g. apply cleared_timed.
  - rewrite economy_initialiseCommodityPrices_catalogue. by apply Forall_fmap.
Qed.

Lemma good_names_commodities (u : Universe) (p : Planet) :
  good_names u (pl_goods p) = commodity_name u <$> pl_commodities p.
Proof. unfold good_names, pl_commodities. by rewrite <- list_fmap_compose. Qed.

Lemma initialise_commodity_name `{GD : GameData} (u : Universe) (k : nat) :
  commodity_name (economy_initialiseCommodityPrices u) k = commodity_name u k.
Proof.
  unfold commodity_name. rewrite economy_initialiseCommodityPrices_catalogue.
  rewrite list_lookup_fmap. by destruct (commodity_stack u !! k).
Qed.

(** The four passes keep every name and every pointer to a planet. *)
Lemma initialise_name_sig `{GD : GameData} (u : Universe) :
  name_sig (economy_initialiseCommodityPrices u) = name_sig u.
Proof.
  destruct (initialise_frame pl_name price_blind_name u) as (_ & Hf & Hn).
  destruct (initialise_frame pl_commodities price_blind_commodities u) as (_ & _ & Hc).
  unfold name_sig. f_equal; [f_equal; [f_equal|]|]; [done| | |].
  - rewrite economy_initialiseCommodityPrices_catalogue, <- list_fmap_compose.
    by apply list_fmap_ext.
  - apply list_eq. intros k. apply (f_equal (.!! k)) in Hc.
    rewrite !list_lookup_fmap in *.
    destruct (planet_stack _ !! k) as [p'|], (planet_stack u !! k) as [p|]; try done.
    cbn in *. f_equal. rewrite !good_names_commodities. simplify_eq. rewrite Hc.
    apply list_fmap_ext. intros _ c _. apply initialise_commodity_name.
  - change (all_planets (economy_initialiseCommodityPrices u) = all_planets u).
    by rewrite !all_planets_frames, Hf.
Qed.

(** The catalogue as [commodity_load] leaves it has no purchase: what the
    session needs of the commodities, the loader gives. *)
Lemma commodity_load_bought `{GL : Gl} (file : DataFile) (s s' : Universe * GlStore) :
  Forall bought_ok (commodity_stack s.1) -> commodity_load file s = inr s' ->
  Forall bought_ok (commodity_stack s'.1).
Proof.
  apply (commodity_load_inv (fun s => Forall bought_ok (commodity_stack s.1))).
  intros s0 node Hs. destruct node as [|children|]; [done| |done].
  rewrite load_node_commodity. cbn [fst commodity_stack].
  apply Forall_app. split; [done|]. constructor; [|done].
  unfold commodity_parse. rewrite parse_defaults_fst, parse_loop_fst.
  unfold bought_ok, LONG_MAX, INT64_MAX. cbn. lia.
Qed.

Lemma initialised_names `{GD : GameData} (u0 : Universe) :
  names_distinct u0 -> names_distinct (economy_initialiseCommodityPrices u0).
Proof. apply names_distinct_sig, initialise_name_sig. Qed.

Lemma initialised_playable `{GD : GameData} (u0 : Universe) (c : game_call) :
  playable u0 c -> playable (economy_initialiseCommodityPrices u0) c.
Proof.
  pose proof (initialise_name_sig u0) as [= _ _ _ Hr].
  destruct c; unfold playable; by rewrite ?Hr.
Qed.

(** C6.  A saved game brings the session back.  The universe is initialised
    from data of which nothing was seen; a first session runs any calls of
    the solver, recordings of prices on planets of the systems and resets,
    fewer than [INT_MAX] of them, and saves; a second session starts from the
    same data, runs any such calls and loads a document that holds what the
    first one wrote; both economies are initialised, the star map is well
    connected, the names of planets and goods identify them
    ([names_distinct]), the price fields are below [PRICE_MAX], and the
    allocator, the solver and the text of the numbers meet their contracts
    ([SolverSpec], [RealTextSpec]).  Then the load succeeds and the universe
    after it is the universe the first session saved: every price, every
    count, sum, sum of squares and time, and so every answer of
    [economy_getPriceAtTime] and [economy_getAveragePlanetPrice]; nothing of
    what the second session saw remains. *)
Theorem economy_session_resumes `{Sv : Solver} `{!SolverSpec Sv} `{F : Factions}
    `{GD : GameData} `{T : RealText} `{!RealTextSpec T} (u0 : Universe)
    (cs1 cs2 : list game_call) (su1 su2 : EconState * Universe) (name : string)
    (attrs : list (string * string)) (before docs after : list xml) :
  fresh u0 -> well_connected u0 -> names_distinct u0 ->
  fields_small (economy_initialiseCommodityPrices u0) ->
  Forall (playable u0) cs1 -> Forall (playable u0) cs2 ->
  (Z.of_nat (length cs1) <= INT_MAX)%Z ->
  game_run cs1 (econ_start, economy_initialiseCommodityPrices u0) = Some su1 ->
  game_run cs2 (econ_start, economy_initialiseCommodityPrices u0) = Some su2 ->
  econ_initialized su1.1 = true -> econ_initialized su2.1 = true ->
  Forall (fun n => xml_isNode n "economy" = false) (before ++ after) ->
  xml_read (economy_sysSave su1.2 []) = Some docs ->
  game_step (GLoad (xml_elem name attrs (before ++ docs ++ after))) su2
  = Some (su2.1, su1.2).
Proof.
  intros Hfresh Hwc Hnames Hsmall Hcs1 Hcs2 Hn Hrun1 Hrun2 Hi1 Hi2 Hskip ->%sysSave_read.
  assert (forall cs, Forall (playable u0) cs ->
            Forall (playable (economy_initialiseCommodityPrices u0)) cs) as Hplay.
  { intros cs Hcs. eapply Forall_impl; [exact Hcs|]. apply initialised_playable. }
  cbn [game_step app].
  by rewrite (session_load (economy_initialiseCommodityPrices u0) cs1 cs2 su1 su2)
    by auto using initialised_well_connected, initialised_names, fresh_resumable.
Qed.

(** ** Every state of a game with saved games *)

Section honest_games.
Context `{Sv : Solver} `{!SolverSpec Sv} `{F : Factions} `{GD : GameData}.
Context `{T : RealText} `{!RealTextSpec T}.
Context (u0 : Universe) (Hfresh : fresh u0) (Hwc : well_connected u0).
Context (Hnames : names_distinct u0).
Context (Hsmall : fields_small (economy_initialiseCommodityPrices u0)).

(** The invariant: the state differs from the initialised universe in what
    was seen, bought and solved only, the solver keeps what it holds, and
    while the count is an [int] the state is one the save and the load bring
    back. *)
Lemma honest_inv (n : nat) (su : EconState * Universe) :
  honest u0 n su ->
  forget su.2 = forget (economy_initialiseCommodityPrices u0) /\
  game_inv (economy_initialiseCommodityPrices u0) su /\
  ((Z.of_nat n <= INT_MAX)%Z -> resumable n su.2).
Proof.
  pose proof (initialised_well_connected u0 Hwc) as Hwc1.
  pose proof (initialised_names u0 Hnames) as Hnames1.
  set (u1 := economy_initialiseCommodityPrices u0) in *.
  induction 1 as [|n c su su' _ (Hf & Hinv & Hres) Hc Hs
                  |n m su1 su2 su3 name attrs before docs after
                     _ (Hf1 & Hinv1 & Hres1) _ (Hf2 & Hinv2 & _) Hi1 Hi2 Hskip Hdocs Hs].
  - split_and!; [done|by split; [apply same_prices_refl|]|]. intros _. by apply fresh_resumable.
  - apply initialised_playable in Hc. fold u1 in Hc.
    split_and!; [by eapply game_step_forget|by eapply game_step_inv|].
    intros Hn. eapply game_step_resumable; eauto; [|lia|apply Hres; lia].
    eapply fields_small_prices; [apply Hinv|done].
  - pose proof (game_step_inv u1 Hwc1 _ _ _ Hinv2 Hs) as Hinv3.
    apply sysSave_read in Hdocs as ->. cbn [game_step app] in Hs.
    rewrite (load_saved u1) in Hs by done.
    cbn in Hs. injection Hs as <-. cbn [fst snd].
    split_and!; [by rewrite forget_restored|done|].
    intros Hn. rewrite (resumable_restored n) by auto. auto.
Qed.

(** A load in a game gives the universe that was saved. *)
Lemma honest_load_restores (n m : nat) (su1 su2 su3 : EconState * Universe)
    (name : string) (attrs : list (string * string)) (before docs after : list xml) :
  honest u0 n su1 -> honest u0 m su2 ->
  econ_initialized su1.1 = true -> econ_initialized su2.1 = true ->
  Forall (fun x => xml_isNode x "economy" = false) (before ++ after) ->
  xml_read (economy_sysSave su1.2 []) = Some docs ->
  game_step (GLoad (xml_elem name attrs (before ++ docs ++ after))) su2 = Some su3 ->
  (Z.of_nat n <= INT_MAX)%Z -> su3 = (su2.1, su1.2).
Proof.
  intros (Hf1 & Hinv1 & Hres1)%honest_inv (Hf2 & Hinv2 & _)%honest_inv Hi1 Hi2 Hskip
    ->%sysSave_read Hs Hn.
  cbn [game_step app] in Hs.
  rewrite (load_saved (economy_initialiseCommodityPrices u0)) in Hs
    by auto using initialised_names.
  cbn in Hs. injection Hs as <-. by rewrite (resumable_restored n) by auto.
Qed.

(** A run of calls is a game. *)
Lemma honest_run (cs : list game_call) (su : EconState * Universe) :
  Forall (playable u0) cs ->
  game_run cs (econ_start, economy_initialiseCommodityPrices u0) = Some su ->
  honest u0 (length cs) su.
Proof.
  intros Hcs Hrun.
  apply (game_run_invariant (honest u0) (playable u0)) with (cs := cs) (n := 0%nat)
    (su := (econ_start, economy_initialiseCommodityPrices u0)); [|done|constructor|done].
  intros n c s s' Hc Hs Hstep. by eapply honest_call.
Qed.

(** A session that loads what another saved is a game. *)
Lemma honest_session (cs1 cs2 : list game_call) (su1 su2 : EconState * Universe) :
  Forall (playable u0) cs1 -> Forall (playable u0) cs2 ->
  (Z.of_nat (length cs1) <= INT_MAX)%Z ->
  game_run cs1 (econ_start, economy_initialiseCommodityPrices u0) = Some su1 ->
  game_run cs2 (econ_start, economy_initialiseCommodityPrices u0) = Some su2 ->
  econ_initialized su1.1 = true -> econ_initialized su2.1 = true ->
  honest u0 (length cs1) (su2.1, su1.2).
Proof.
  intros Hcs1 Hcs2 Hn Hrun1 Hrun2 Hi1 Hi2.
  apply (honest_load u0 _ (length cs2) su1 su2 _ "save" [] [] [saved_economy su1.2] []);
    auto using honest_run, sysSave_written.
  pose proof (session_load (economy_initialiseCommodityPrices u0) cs1 cs2 su1 su2
                "save" [] [] []) as Hl.
  cbn [game_step app] in *.
  by rewrite Hl
    by eauto using initialised_well_connected, initialised_names, fresh_resumable,
         Forall_impl, initialised_playable.
Qed.

(** The names of a state of the game identify. *)
Lemma honest_names (n : nat) (su : EconState * Universe) :
  honest u0 n su -> names_distinct su.2.
Proof.
  intros (Hf & _)%honest_inv.
  eapply names_distinct_forget; [exact Hf|]. by apply initialised_names.
Qed.

End honest_games.

(** C8.  A game with saved games keeps its statistics.  From data of which
    nothing was seen, on a well connected star map with names that identify
    ([names_distinct]) and price fields below [PRICE_MAX], with an
    allocator, a solver and a text of the numbers that meet their contracts
    ([SolverSpec], [RealTextSpec]), in every state of a game of calls of
    the solver, recordings on planets of systems, resets and loads of what
    states of the game saved, with at most [INT_MAX] calls behind the state:
    the accumulators of every good are the count, the sum and the sum of
    squares of one list of at most that many prices, so no count is negative
    and no variance either; and the state is one a saved game keeps: loading
    what it saves gives the state itself. *)
Theorem honest_statistics `{Sv : Solver} `{!SolverSpec Sv} `{F : Factions}
    `{GD : GameData} `{T : RealText} `{!RealTextSpec T} (u0 : Universe) (n : nat)
    (su : EconState * Universe) :
  fresh u0 -> well_connected u0 -> names_distinct u0 ->
  fields_small (economy_initialiseCommodityPrices u0) ->
  honest u0 n su -> (Z.of_nat n <= INT_MAX)%Z ->
  seen_within n su.2 /\
  Forall (fun p => Forall (fun g => (0 <= cp_cnt g.2 <= Z.of_nat n)%Z /\
                                    ((0 < cp_cnt g.2)%Z -> 0 <= variance_of g.2))
                     (pl_goods p)) (planet_stack su.2) /\
  economy_sysLoad (xml_elem "save" [] [saved_economy su.2]) su.2 = Some su.2.
Proof.
  intros Hfresh Hwc Hnames Hsmall Hh Hn.
  destruct (honest_inv u0 Hfresh Hwc Hnames Hsmall n su Hh) as (_ & _ & Hres).
  destruct (Hres Hn) as (Hseen & Ht & Hb). split_and!; [done| |].
  - eapply Forall_impl; [exact Hseen|]. apply counted_variance.
  - rewrite <- (resumable_restored n su.2) at 3 by auto.
    apply (sysLoad_saved su.2 su.2 "save" [] [] []); [|done|constructor].
    by apply (honest_names u0 Hfresh Hwc Hnames Hsmall n).
Qed.

(** ** The twin systems, saved after [twin_calls] and loaded after
    [second_calls] *)

Lemma twin_fresh : fresh twin_systems.
Proof.
  split; repeat (constructor; [repeat constructor|]); try constructor.
  all: unfold bought_ok, LONG_MAX, INT64_MAX; cbn; lia.
Qed.

Lemma twin_names : names_distinct twin_systems.
Proof. repeat split; by apply (bool_decide_unpack _). Qed.

Lemma twin_playable :
  Forall (playable twin_systems) twin_calls /\ Forall (playable twin_systems) second_calls.
Proof.
  split; repeat (apply Forall_cons; split); try apply Forall_nil; try exact I;
    try (by repeat constructor); unfold LONG_MAX, INT64_MAX; lia.
Qed.

Lemma economy_session_resumes_witness :
  exists su1 su2,
    @game_run null_solver no_factions millionths_text twin_calls
      (econ_start, twin_initialised) = Some su1 /\
    @game_run null_solver no_factions millionths_text second_calls
      (econ_start, twin_initialised) = Some su2 /\
    @game_step null_solver no_factions millionths_text
      (GLoad (xml_elem "save" [] [saved_economy su1.2])) su2 = Some (su2.1, su1.2).
Proof.
  eexists _, _. split; [reflexivity|]. split; [reflexivity|].
  eapply (@economy_session_resumes null_solver null_solver_spec no_factions sample_game
            millionths_text millionths_text_spec twin_systems twin_calls second_calls
            _ _ "save" [] [] [saved_economy _] [] twin_fresh twin_connected twin_names
            twin_fields_small (proj1 twin_playable) (proj2 twin_playable)).
  - cbn. unfold INT_MAX. lia.
  - reflexivity.
  - reflexivity.
  - reflexivity.
  - reflexivity.
  - constructor.
  - apply sysSave_written.
Defined.

Lemma honest_statistics_witness :
  exists su1 su2,
    @game_run null_solver no_factions millionths_text twin_calls
      (econ_start, twin_initialised) = Some su1 /\
    @game_run null_solver no_factions millionths_text second_calls
      (econ_start, twin_initialised) = Some su2 /\
    let su := (su2.1, su1.2) in
    seen_within 5 su.2 /\
    Forall (fun p => Forall (fun g => (0 <= cp_cnt g.2 <= 5)%Z /\
                                      ((0 < cp_cnt g.2)%Z -> 0 <= variance_of g.2))
                       (pl_goods p)) (planet_stack su.2) /\
    economy_sysLoad (xml_elem "save" [] [saved_economy su.2]) su.2 = Some su.2.
Proof.
  eexists _, _. split; [reflexivity|]. split; [reflexivity|]. intros su.
  apply (@honest_statistics null_solver null_solver_spec no_factions sample_game
           millionths_text millionths_text_spec twin_systems 5 su twin_fresh
           twin_connected twin_names twin_fields_small); [|unfold INT_MAX; lia].
  apply (@honest_session null_solver null_solver_spec no_factions sample_game
           millionths_text millionths_text_spec twin_systems twin_fresh twin_connected
           twin_names twin_fields_small twin_calls second_calls _ _
           (proj1 twin_playable) (proj2 twin_playable)).
  - cbn. unfold INT_MAX. lia.
  - reflexivity.
  - reflexivity.
  - reflexivity.
  - reflexivity.
Defined.

(** ** A planet that no system points to

    [economy_clearKnown] and [economy_sysSave] reach the planets through the
    systems: what was seen at a planet that no system points to is not
    cleared, by a reset or by a load, and is not saved.  This is why the
    calls of a session land on planets of systems ([playable]). *)
Example economy_clearKnown_unlisted :
  planet_stack (economy_clearKnown unlisted_universe) = [seen_planet] /\
  saved_economy unlisted_universe
  = xml_elem "economy" [] (commodity_stack unlisted_universe ≫= lastPurchase_elems).
Proof. split; reflexivity. Qed.
