(* ===== verification/Ledger.v ===== *)
(** * Ledger: the tracker as a book of the prices seen

    What the tracker promises is a book: for every good of every planet the
    prices the player has seen there, and the time of the last recording.
    The code keeps less, a count, a sum and a sum of squares in each
    [CommodityPrice], and a time stamp; this file states the book as a
    machine of its own and proves that the code implements it.

    - A [Ledger] is a finite map from (planet, position of the good) to a
      [Page]: the prices seen, latest first, and the time of the last
      recording.  A page that is not in the map is [blank].
    - A [Market] is what the book needs of the universe: how many goods a
      planet sells, the price of each at each time, and which planets belong
      to a system.  [market_of] reads it from a universe.
    - [ledger_record], [ledger_clear], [ledger_step] and [ledger_run] are
      the machine: a recording writes one more price on every page of the
      planet whose time is before [now], the reset tears out the pages of
      the planets of systems, the solver leaves the book alone, and the
      loading of a saved game is not a step (a file holds sums, not
      prices).
    - [kept_by a u]: the accumulators of [u] are the statistics of the pages
      of [a].  The game started by [economy_initialiseCommodityPrices] and
      the book started empty stay in this relation, call by call. *)

From stdpp Require Import gmap.
From Stdlib Require Import Reals Lra Lia ZArith.
From stdpp Require Import base tactics option list strings.
From S2P Require Import Prelude World Price Observation Network Economy.
From S2P Require Import Initializer Pipeline Frame Catalog Xml Persistence Game.
From S2P Require Import Statistics Session.

(** ** The book *)

(** The prices seen of one good at one planet, latest first, and the time
    of the last recording. *)
Definition Page : Type := list Z * Z.

Abbreviation Ledger := (gmap (nat * nat) Page).

Definition blank : Page := ([], 0%Z).

Definition page (a : Ledger) (k : nat * nat) : Page := default blank (a !! k).

(** What the book reads of the universe. *)
Record Market : Type := mkMarket {
  mk_goods : nat -> nat;
  mk_quote : nat -> nat -> Z -> Z;
  mk_listed : list nat
}.

(** The market of a universe: the goods are the entries of
    [commodityPrice], the price of an entry is what [economy_getPriceAtTime]
    answers for its commodity, the listed planets are those of the
    systems. *)
Definition market_of (u : Universe) : Market :=
  mkMarket
    (fun pi => from_option (fun p => length (pl_goods p)) 0%nat (planet_stack u !! pi))
    (fun pi i t =>
       match planet_stack u !! pi with
       | Some p =>
           match pl_goods p !! i with
           | Some g => economy_getPriceAtTime u g.1 p t
           | None => 0%Z
           end
       | None => 0%Z
       end)
    (reachable_planets u).

(** ** The machine *)

(** One more price on a page last written before [now]. *)
Definition stamp (price now : Z) (pg : Page) : Page :=
  if decide (pg.2 < now)%Z then (price :: pg.1, now) else pg.

Definition write_page (m : Market) (pi : nat) (now tupdate : Z) (a : Ledger) (i : nat)
  : Ledger :=
  <[(pi, i) := stamp (mk_quote m pi i tupdate) now (page a (pi, i))]> a.

Definition ledger_record (m : Market) (pi : nat) (now tupdate : Z) (a : Ledger) : Ledger :=
  foldl (write_page m pi now tupdate) a (seq 0 (mk_goods m pi)).

Definition ledger_clear (m : Market) (a : Ledger) : Ledger :=
  filter (fun kv => kv.1.1 ∉ mk_listed m) a.

Definition ledger_step (m : Market) (c : game_call) (a : Ledger) : option Ledger :=
  match c with
  | GEcon _ => Some a
  | GSeen pi now => Some (ledger_record m pi now now a)
  | GSeenAtTime pi now tupdate => Some (ledger_record m pi now tupdate a)
  | GClearKnown => Some (ledger_clear m a)
  | GLoad _ => None
  end.

Fixpoint ledger_run (m : Market) (cs : list game_call) (a : Ledger) : option Ledger :=
  match cs with
  | [] => Some a
  | c :: cs => a' ← ledger_step m c a; ledger_run m cs a'
  end.

(** Times that rise from [t0]: the visits of a planet one after the
    other. *)
Fixpoint rising (t0 : Z) (ts : list Z) : Prop :=
  match ts with
  | [] => True
  | t :: ts => (t0 < t)%Z /\ rising t ts
  end.

(** The calls of a game in which the player lands and the solver runs. *)
Definition landing (c : game_call) : Prop :=
  match c with
  | GEcon _ | GSeen _ _ => True
  | _ => False
  end.

(** The times of the landings on the planet [pi], in their order. *)
Definition visit_time (pi : nat) (c : game_call) : option Z :=
  match c with
  | GSeen pj now => if decide (pj = pi) then Some now else None
  | _ => None
  end.

Definition visit_times (pi : nat) (cs : list game_call) : list Z :=
  omap (visit_time pi) cs.

(** What a page reports: the rounded mean and the standard deviation of its
    prices. *)
Definition page_report (pg : Page) : Z * Z * R :=
  if decide (pg.1 = []) then (0%Z, 0%Z, 0%R)
  else (0%Z, Ztrunc (mean_seen pg.1 + 0.5), deviation_seen pg.1).

(** ** The relation between the book and the universe *)

Definition kept_by (a : Ledger) (u : Universe) : Prop :=
  forall pi p i g, planet_stack u !! pi = Some p -> pl_goods p !! i = Some g ->
    observed (page a (pi, i)).1 g.2 /\ cp_updateTime g.2 = (page a (pi, i)).2.

(** No page holds more than [n] prices. *)
Definition pages_within (n : nat) (a : Ledger) : Prop :=
  forall k, (length (page a k).1 <= n)%nat.

(** The book [a] of the game in the state [su], [u1] being the universe
    after the initialisation of the prices. *)
Definition booked (u1 : Universe) (n : nat) (a : Ledger) (su : EconState * Universe) : Prop :=
  same_prices u1 su.2 /\ pages_within n a /\ kept_by a su.2.

(** ** Sample data: two landings on the first planet of the twin systems,
    one on the second and two calls of the solver in between *)

Definition twin_landings : list game_call :=
  [GEcon CallInit; GSeen 0 5; GSeen 1 6; GEcon (CallUpdate 1); GSeen 0 9].

(** * Theorems *)

(** ** The conditions can be decided *)

#[export] Instance rising_dec (t0 : Z) (ts : list Z) : Decision (rising t0 ts).
Proof. revert t0. induction ts as [|t ts IH]; intros t0; cbn; apply _. Defined.

#[export] Instance landing_dec (c : game_call) : Decision (landing c).
Proof. destruct c; cbn; apply _. Defined.

(** ** The pages after a step of the book *)

Lemma page_empty (k : nat * nat) : page ∅ k = blank.
Proof. unfold page. by rewrite lookup_empty. Qed.

Lemma write_page_lookup (m : Market) (pi : nat) (now tupdate : Z) (a : Ledger)
    (i : nat) (k : nat * nat) :
  write_page m pi now tupdate a i !! k
  = if decide (k = (pi, i))
    then Some (stamp (mk_quote m pi i tupdate) now (page a (pi, i)))
    else a !! k.
Proof.
  unfold write_page. case_decide as Hk; [subst; apply lookup_insert_eq|].
  apply lookup_insert_ne. congruence.
Qed.

Lemma record_fold_lookup (m : Market) (pi : nat) (now tupdate : Z) (js : list nat)
    (a : Ledger) (pj i : nat) :
  NoDup js ->
  foldl (write_page m pi now tupdate) a js !! (pj, i)
  = if decide (pj = pi /\ i ∈ js)
    then Some (stamp (mk_quote m pi i tupdate) now (page a (pi, i)))
    else a !! (pj, i).
Proof.
  induction js as [|j js IH] using rev_ind; intros Hnd.
  - cbn. rewrite decide_False; [done|]. intros [_ H]. by apply elem_of_nil in H.
  - apply NoDup_app in Hnd as (Hjs & Hj & _). rewrite foldl_snoc, write_page_lookup.
    assert (j ∉ js) as Hjjs by (intros H; apply (Hj j H); by left).
    destruct (decide ((pj, i) = (pi, j))) as [[= -> ->]|Hne].
    + rewrite decide_True by (split; [done|apply elem_of_app; right; by left]).
      unfold page. rewrite (IH Hjs), decide_False; [done|]. by intros [_ H].
    + rewrite (IH Hjs). apply decide_ext. rewrite elem_of_app, list_elem_of_singleton.
      split; [tauto|]. intros [-> [H| ->]]; done.
Qed.

Lemma ledger_record_lookup (m : Market) (pi : nat) (now tupdate : Z) (a : Ledger)
    (pj i : nat) :
  ledger_record m pi now tupdate a !! (pj, i)
  = if decide (pj = pi /\ (i < mk_goods m pi)%nat)
    then Some (stamp (mk_quote m pi i tupdate) now (page a (pi, i)))
    else a !! (pj, i).
Proof.
  unfold ledger_record. rewrite record_fold_lookup by apply NoDup_seq.
  apply decide_ext. rewrite elem_of_seq. split; intros [-> H]; split; (done || lia).
Qed.

Lemma page_record (m : Market) (pi : nat) (now tupdate : Z) (a : Ledger) (pj i : nat) :
  page (ledger_record m pi now tupdate a) (pj, i)
  = if decide (pj = pi /\ (i < mk_goods m pi)%nat)
    then stamp (mk_quote m pi i tupdate) now (page a (pi, i))
    else page a (pj, i).
Proof. unfold page at 1. rewrite ledger_record_lookup. by case_decide. Qed.

Lemma ledger_clear_lookup (m : Market) (a : Ledger) (k : nat * nat) :
  ledger_clear m a !! k = if decide (k.1 ∈ mk_listed m) then None else a !! k.
Proof.
  unfold ledger_clear. rewrite map_lookup_filter.
  destruct (a !! k) as [pg|]; cbn; [|by case_decide].
  case_guard; case_decide; done.
Qed.

Lemma page_clear (m : Market) (a : Ledger) (k : nat * nat) :
  page (ledger_clear m a) k = if decide (k.1 ∈ mk_listed m) then blank else page a k.
Proof. unfold page at 1. rewrite ledger_clear_lookup. by case_decide. Qed.

Lemma stamp_length (price now : Z) (pg : Page) :
  (length (stamp price now pg).1 <= S (length pg.1))%nat.
Proof. unfold stamp. case_decide; cbn; lia. Qed.

Lemma pages_within_mono (n n' : nat) (a : Ledger) :
  (n <= n')%nat -> pages_within n a -> pages_within n' a.
Proof. intros Hn Ha k. pose proof (Ha k). lia. Qed.

Lemma record_within (m : Market) (n pi : nat) (now tupdate : Z) (a : Ledger) :
  pages_within n a -> pages_within (S n) (ledger_record m pi now tupdate a).
Proof.
  intros Ha [pj i]. rewrite page_record. case_decide.
  - etrans; [apply stamp_length|]. pose proof (Ha (pi, i)). lia.
  - pose proof (Ha (pj, i)). lia.
Qed.

Lemma clear_within (m : Market) (n : nat) (a : Ledger) :
  pages_within n a -> pages_within n (ledger_clear m a).
Proof. intros Ha k. rewrite page_clear. case_decide; [cbn; lia|apply Ha]. Qed.

(** ** The book as a machine of its own *)

Lemma stamp_stamp (price price' now : Z) (pg : Page) :
  stamp price' now (stamp price now pg) = stamp price now pg.
Proof. unfold stamp. repeat (case_decide; cbn in *; try done); lia. Qed.

(** A second recording at the same instant writes nothing. *)
Lemma ledger_record_idem (m : Market) (pi : nat) (now tupdate tupdate' : Z) (a : Ledger) :
  ledger_record m pi now tupdate' (ledger_record m pi now tupdate a)
  = ledger_record m pi now tupdate a.
Proof.
  apply map_eq. intros [pj i]. rewrite !ledger_record_lookup, page_record.
  case_decide as H; [|done]. destruct H as [-> H].
  by rewrite decide_True, stamp_stamp by done.
Qed.

(** Recordings at two planets can be made in either order. *)
Lemma ledger_record_commute (m : Market) (pi pj : nat) (now tupdate now' tupdate' : Z)
    (a : Ledger) :
  pi <> pj ->
  ledger_record m pi now tupdate (ledger_record m pj now' tupdate' a)
  = ledger_record m pj now' tupdate' (ledger_record m pi now tupdate a).
Proof.
  intros Hne. apply map_eq. intros [pk i]. rewrite !ledger_record_lookup, !page_record.
  repeat case_decide; try done; destruct_and?; congruence.
Qed.

Lemma ledger_run_snoc (m : Market) (cs : list game_call) (c : game_call) (a : Ledger) :
  ledger_run m (cs ++ [c]) a = ledger_run m cs a ≫= ledger_step m c.
Proof.
  revert a. induction cs as [|c' cs IH]; intros a; cbn.
  - by destruct (ledger_step m c a).
  - destruct (ledger_step m c' a) as [a'|]; [apply IH|done].
Qed.

(** Visits at rising times: every visit writes its price on the page, the
    latest first. *)
Lemma page_visit (m : Market) (pi i : nat) (t : Z) (a : Ledger) :
  (i < mk_goods m pi)%nat -> ((page a (pi, i)).2 < t)%Z ->
  page (ledger_record m pi t t a) (pi, i) = (mk_quote m pi i t :: (page a (pi, i)).1, t).
Proof.
  intros Hi Ht. rewrite page_record, decide_True by done. unfold stamp.
  by rewrite decide_True.
Qed.

(** Landings at rising times: every landing on the planet writes its price
    on the page, the latest first, whatever the solver does and whatever is
    seen elsewhere in between. *)
Lemma visits_page (m : Market) (pi i : nat) (cs : list game_call) (a : Ledger) :
  (i < mk_goods m pi)%nat -> Forall landing cs ->
  rising (page a (pi, i)).2 (visit_times pi cs) ->
  exists a',
    ledger_run m cs a = Some a' /\
    page a' (pi, i)
    = (reverse (mk_quote m pi i <$> visit_times pi cs) ++ (page a (pi, i)).1,
       default (page a (pi, i)).2 (last (visit_times pi cs))).
Proof.
  intros Hi Hcs. revert a. induction Hcs as [|c cs Hc Hcs IH]; intros a Hts.
  - exists a. split; [done|]. by destruct (page a (pi, i)).
  - destruct c as [c|pj t| | |]; try done; cbn [ledger_run ledger_step mbind option_bind].
    { by apply IH. }
    unfold visit_times in *. cbn [omap visit_time list_omap] in *.
    destruct (decide (pj = pi)) as [->|Hne].
    + destruct Hts as [Ht Hts]. pose proof (page_visit m pi i t a Hi Ht) as Hpg.
      destruct (IH (ledger_record m pi t t a)) as (a' & Hrun & Ha'); [by rewrite Hpg|].
      exists a'. split; [done|]. rewrite Ha', Hpg, fmap_cons, reverse_cons, <- app_assoc.
      cbn. rewrite last_cons. by destruct (last _).
    + assert (page (ledger_record m pj t t a) (pi, i) = page a (pi, i)) as Hpg
        by (rewrite page_record, decide_False; [done|intros [? _]; congruence]).
      destruct (IH (ledger_record m pj t t a)) as (a' & Hrun & Ha'); [by rewrite Hpg|].
      exists a'. by rewrite Ha', Hpg.
Qed.

(** ** The market of a universe with the same prices *)

Lemma market_goods (u1 u : Universe) (pi : nat) (p : Planet) :
  same_prices u1 u -> planet_stack u !! pi = Some p ->
  mk_goods (market_of u1) pi = length (pl_goods p).
Proof.
  intros Hu Hp. destruct (same_prices_query u1 u pi p Hu Hp) as (p1 & Hp1 & Hpp & _).
  cbn. rewrite Hp1. cbn. symmetry. exact (Forall2_length _ _ _ Hpp).
Qed.

Lemma market_quote (u1 u : Universe) (pi i : nat) (p : Planet) (g : nat * CommodityPrice)
    (t : Z) :
  same_prices u1 u -> planet_stack u !! pi = Some p -> pl_goods p !! i = Some g ->
  mk_quote (market_of u1) pi i t = economy_getPriceAtTime u g.1 p t.
Proof.
  intros Hu Hp Hg. destruct (same_prices_query u1 u pi p Hu Hp) as (p1 & Hp1 & Hpp & Hq).
  destruct (Forall2_lookup_l _ _ _ _ _ Hpp Hg) as (g1 & Hg1 & Hgg & _).
  cbn. by rewrite Hp1, Hg1, Hq, Hgg.
Qed.

(** ** One call of the game and one step of the book *)

Lemma record_kept (u1 u : Universe) (a : Ledger) (n pi : nat) (now tupdate : Z) :
  same_prices u1 u -> fields_small u -> pages_within n a -> (Z.of_nat n < INT_MAX)%Z ->
  kept_by a u ->
  kept_by (ledger_record (market_of u1) pi now tupdate a)
    (on_planet (fun p => economy_averageSeenPricesAtTime u p now tupdate) pi u).
Proof.
  intros Hu Hs Hn Hmax Hk pj p' i g' Hp' Hg'. rewrite page_record.
  unfold on_planet in Hp'. cbn [planet_stack set_planet_stack] in Hp'.
  destruct (decide (pj = pi)) as [->|Hne].
  - rewrite list_lookup_alter_eq in Hp'.
    destruct (planet_stack u !! pi) as [p|] eqn:Hp; [|done]. cbn in Hp'. simplify_eq.
    rewrite averageSeenPricesAtTime_loop in Hg'. unfold averageSeen_spec in Hg'.
    rewrite set_pl_goods_goods, list_lookup_fmap in Hg'.
    destruct (pl_goods p !! i) as [g|] eqn:Hg; [|done]. cbn in Hg'. simplify_eq.
    destruct (Hk pi p i g Hp Hg) as [Ho Ht].
    rewrite decide_True
      by (split; [done|]; rewrite (market_goods u1 u pi p) by done; by eapply lookup_lt_Some).
    rewrite (market_quote u1 u pi i p g) by done.
    unfold stamp, seen_entry. rewrite <- Ht. case_decide; [|done]. cbn. split; [|done].
    apply observed_record; [done| |].
    + destruct Ho as [-> _]. pose proof (Hn (pi, i)). lia.
    + apply getPriceAtTime_small. exact (Forall_lookup_1 _ _ _ _ Hs Hp).
  - rewrite list_lookup_alter_ne in Hp' by done. rewrite decide_False by tauto.
    by eapply Hk.
Qed.

Lemma clear_kept (u1 u : Universe) (a : Ledger) :
  same_prices u1 u -> kept_by a u ->
  kept_by (ledger_clear (market_of u1) a) (economy_clearKnown u).
Proof.
  intros Hu Hk pj p' i g' Hp' Hg'. rewrite page_clear. cbn [fst mk_listed market_of].
  rewrite economy_clearKnown_planet_lookup, (same_prices_reachable u1 u Hu) in Hp'.
  case_decide; [|by eapply Hk].
  destruct (planet_stack u !! pj) as [p|]; [|done]. cbn in Hp'. simplify_eq.
  unfold clearKnown_planet in Hg'. rewrite set_pl_goods_goods, list_lookup_fmap in Hg'.
  destruct (pl_goods p !! i) as [g|]; [|done]. cbn in Hg'. simplify_eq.
  split; [apply observed_clear|done].
Qed.

Lemma kept_by_planets (a : Ledger) (u u' : Universe) :
  planet_stack u' = planet_stack u -> kept_by a u -> kept_by a u'.
Proof. intros Hp Hk pi p i g. rewrite Hp. apply Hk. Qed.

Section simulation.
Context `{Sv : Solver} `{F : Factions} `{GD : GameData} `{T : RealText}.
Context (u1 : Universe) (Hsmall : fields_small u1).

Lemma game_step_booked (n : nat) (c : game_call) (a : Ledger) (su : EconState * Universe) :
  tracked c -> booked u1 n a su -> (Z.of_nat n < INT_MAX)%Z ->
  exists a' su',
    ledger_step (market_of u1) c a = Some a' /\ game_step c su = Some su' /\
    booked u1 (S n) a' su'.
Proof.
  intros Hc (Hu & Hn & Hk) Hmax.
  pose proof (fields_small_prices u1 su.2 Hu Hsmall) as Hs.
  assert (forall a' su', game_step c su = Some su' -> pages_within (S n) a' ->
            kept_by a' su'.2 -> booked u1 (S n) a' su') as Hb.
  { intros a' su' Hstep Ha' Hk'. split_and!; [|done..].
    etrans; [exact Hu|]. by eapply game_step_prices. }
  destruct c; [..|done]; eexists _, _; (split; [reflexivity|]); (split; [reflexivity|]);
    apply Hb; try reflexivity.
  - by apply (pages_within_mono n); [lia|].
  - destruct (econ_step_same_world c su) as (_ & _ & Hp & _). by apply (kept_by_planets a su.2).
  - by apply record_within.
  - by apply (record_kept u1 su.2 a n).
  - by apply record_within.
  - by apply (record_kept u1 su.2 a n).
  - by apply (pages_within_mono n); [lia|apply clear_within].
  - by apply clear_kept.
Qed.

Lemma game_run_booked (cs : list game_call) (n : nat) (a : Ledger)
    (su : EconState * Universe) :
  Forall tracked cs -> booked u1 n a su -> (Z.of_nat (n + length cs) <= INT_MAX)%Z ->
  exists a' su',
    ledger_run (market_of u1) cs a = Some a' /\ game_run cs su = Some su' /\
    booked u1 (n + length cs) a' su'.
Proof.
  revert n a su. induction cs as [|c cs IH]; intros n a su Hcs Hb Hn.
  - exists a, su. by rewrite Nat.add_0_r.
  - apply Forall_cons in Hcs as [Hc Hcs]. cbn [length] in *.
    destruct (game_step_booked n c a su Hc Hb) as (a1 & su1 & Ha1 & Hsu1 & Hb1); [lia|].
    destruct (IH (S n) a1 su1 Hcs Hb1) as (a' & su' & Ha' & Hsu' & Hb'); [lia|].
    exists a', su'. cbn. rewrite Ha1, Hsu1. cbn.
    by replace (n + S (length cs))%nat with (S n + length cs)%nat by lia.
Qed.

End simulation.

(** ** The empty book and the initialised universe *)

Lemma cleared_accumulators (cp cp' : CommodityPrice) :
  accumulators cp' = accumulators cp -> cleared cp -> cleared cp'.
Proof. unfold cleared. by intros [= -> -> -> ->]. Qed.

Lemma cleared_zero (cp : CommodityPrice) :
  accumulators cp = (0%Z, 0%R, 0%R, 0%Z) -> cleared cp.
Proof. unfold cleared. by intros [= -> -> -> ->]. Qed.

Lemma initialised_booked `{GD : GameData} (u0 : Universe) :
  Forall (planet_all cleared) (planet_stack u0) ->
  booked (economy_initialiseCommodityPrices u0) 0 ∅
    (econ_start, economy_initialiseCommodityPrices u0).
Proof.
  intros Hu. split_and!; [done|intros k; by rewrite page_empty|].
  intros pi p i g Hp Hg. rewrite page_empty.
  pose proof (initialise_kept cleared cleared_accumulators cleared_zero u0 Hu) as Hc.
  destruct (Forall_lookup_1 _ _ _ _ (Forall_lookup_1 _ _ _ _ Hc Hp) Hg) as (H1 & H2 & H3 & H4).
  by repeat split.
Qed.

(** ** What the game reports is what the page reports *)

Lemma kept_by_report (a : Ledger) (u : Universe) (n pi i com : nat) (p : Planet) :
  kept_by a u -> pages_within n a -> (Z.of_nat n <= 46340)%Z ->
  planet_stack u !! pi = Some p -> com ∈ econ_comm u ->
  planet_commodity_index u p com = Some i ->
  economy_getAveragePlanetPrice u com p = page_report (page a (pi, i)).
Proof.
  intros Hk Hn Hmax Hp Hcom Hi.
  assert (is_Some (pl_goods p !! i)) as [g Hg].
  { apply lookup_lt_is_Some. rewrite <- pl_commodities_length.
    unfold planet_commodity_index in Hi. apply fmap_Some in Hi as ([j c] & Hf & ->).
    apply list_find_Some in Hf as (Hj & _). by eapply lookup_lt_Some. }
  destruct (Hk pi p i g Hp Hg) as [Ho _].
  rewrite (getAveragePlanetPrice_observed u com p g.2 (page a (pi, i)).1); [| |done|].
  - unfold page_report. by destruct (page a (pi, i)).1.
  - unfold find_commodityPrice. apply econ_comm_index_is_Some in Hcom as [k ->].
    by rewrite Hi, pl_commodityPrice_lookup, Hg.
  - pose proof (Hn (pi, i)). lia.
Qed.

(** C7.  The tracker implements the book.  From data of which nothing was
    seen, through [economy_initialiseCommodityPrices] and any sequence of
    fewer than [INT_MAX] calls of the solver, recordings and resets, with
    price fields below [PRICE_MAX]: the game runs, the book runs, and in the
    state the game ends in the count, the sum, the sum of squares and the
    time stamp of every good of every planet are those of the page the book
    holds for it; up to 46340 calls, what [economy_getAveragePlanetPrice]
    reports of a good is what the page reports. *)
Theorem tracker_refines_ledger `{Sv : Solver} `{F : Factions} `{GD : GameData}
    `{T : RealText} (u0 : Universe) (cs : list game_call) :
  Forall (planet_all cleared) (planet_stack u0) ->
  fields_small (economy_initialiseCommodityPrices u0) ->
  Forall tracked cs -> (Z.of_nat (length cs) <= INT_MAX)%Z ->
  exists a su,
    ledger_run (market_of (economy_initialiseCommodityPrices u0)) cs ∅ = Some a /\
    game_run cs (econ_start, economy_initialiseCommodityPrices u0) = Some su /\
    kept_by a su.2 /\
    ((Z.of_nat (length cs) <= 46340)%Z ->
     forall pi p com i,
       planet_stack su.2 !! pi = Some p -> com ∈ econ_comm su.2 ->
       planet_commodity_index su.2 p com = Some i ->
       economy_getAveragePlanetPrice su.2 com p = page_report (page a (pi, i))).
Proof.
  intros Hu Hs Hcs Hn.
  destruct (game_run_booked _ Hs cs 0 ∅ _ Hcs (initialised_booked u0 Hu))
    as (a & su & Ha & Hsu & _ & Hw & Hk); [done|].
  exists a, su. split_and!; [done..|]. intros Hmax pi p com i. by apply (kept_by_report a _ _ _ _ _ _ Hk Hw).
Qed.

Lemma tracker_refines_ledger_witness :
  exists a su,
    ledger_run (market_of twin_initialised) twin_calls ∅ = Some a /\
    @game_run null_solver no_factions millionths_text twin_calls
      (econ_start, twin_initialised) = Some su /\
    kept_by a su.2 /\
    ((Z.of_nat (length twin_calls) <= 46340)%Z ->
     forall pi p com i,
       planet_stack su.2 !! pi = Some p -> com ∈ econ_comm su.2 ->
       planet_commodity_index su.2 p com = Some i ->
       economy_getAveragePlanetPrice su.2 com p = page_report (page a (pi, i))).
Proof.
  apply (@tracker_refines_ledger null_solver no_factions sample_game millionths_text
           twin_systems twin_calls (proj1 twin_fresh) twin_fields_small).
  - repeat constructor.
  - cbn. unfold INT_MAX. lia.
Defined.

(** ** The book of a game with saved games

    A load puts the universe back to a state the game was in, and the book
    with it: every state of the game has the book of a session without
    loads. *)

Section honest_book.
Context `{Sv : Solver} `{!SolverSpec Sv} `{F : Factions} `{GD : GameData}.
Context `{T : RealText} `{!RealTextSpec T}.
Context (u0 : Universe) (Hfresh : fresh u0) (Hwc : well_connected u0).
Context (Hnames : names_distinct u0).
Context (Hsmall : fields_small (economy_initialiseCommodityPrices u0)).

Lemma honest_booked (n : nat) (su : EconState * Universe) :
  honest u0 n su -> (Z.of_nat n <= INT_MAX)%Z ->
  exists cs a,
    Forall (playable u0) cs /\ length cs = n /\
    ledger_run (market_of (economy_initialiseCommodityPrices u0)) cs ∅ = Some a /\
    booked (economy_initialiseCommodityPrices u0) n a su.
Proof.
  induction 1 as [|n c su su' _ IH Hc Hs
                  |n m su1 su2 su3 name attrs before docs after
                     H1 IH1 H2 _ Hi1 Hi2 Hskip Hdocs Hs]; intros Hn.
  - exists [], ∅. split_and!; [done..|]. apply initialised_booked, Hfresh.
  - destruct IH as (cs & a & Hcs & Hlen & Hrun & Hb); [lia|].
    destruct (game_step_booked _ Hsmall n c a su (playable_tracked _ _ Hc) Hb)
      as (a' & su'' & Ha' & Hs' & Hb'); [lia|]. simplify_eq.
    exists (cs ++ [c]), a'. split_and!; [|rewrite length_app; cbn; lia| |done].
    + apply Forall_app. split; [done|by constructor].
    + by rewrite ledger_run_snoc, Hrun.
  - destruct IH1 as (cs & a & Hcs & Hlen & Hrun & Hb); [done|].
    rewrite (honest_load_restores u0 Hfresh Hwc Hnames Hsmall n m su1 su2 su3
               name attrs before docs after) by done.
    by exists cs, a.
Qed.

End honest_book.

(** C17.  A game with saved games keeps the book.  From data of which
    nothing was seen, on a well connected star map with names that identify
    ([names_distinct]) and price fields below [PRICE_MAX], with an
    allocator, a solver and a text of the numbers that meet their contracts
    ([SolverSpec], [RealTextSpec]): in every state of a game that loads only
    what the game has saved, with at most [INT_MAX] calls behind it (those
    of the session that was loaded last, and those since), the accumulators
    of every good of every planet are those of the book of a session
    without loads: the statistics after any number of saves and loads are
    those of the prices of one such session, and of no others. *)
Theorem honest_ledger `{Sv : Solver} `{!SolverSpec Sv} `{F : Factions} `{GD : GameData}
    `{T : RealText} `{!RealTextSpec T} (u0 : Universe) (n : nat)
    (su : EconState * Universe) :
  fresh u0 -> well_connected u0 -> names_distinct u0 ->
  fields_small (economy_initialiseCommodityPrices u0) ->
  honest u0 n su -> (Z.of_nat n <= INT_MAX)%Z ->
  exists cs a,
    Forall (playable u0) cs /\ length cs = n /\
    ledger_run (market_of (economy_initialiseCommodityPrices u0)) cs ∅ = Some a /\
    kept_by a su.2.
Proof.
  intros Hfresh Hwc Hnames Hsmall Hh Hn.
  destruct (honest_booked u0 Hfresh Hwc Hnames Hsmall n su Hh Hn)
    as (cs & a & Hcs & Hlen & Hrun & _ & _ & Hk).
  by exists cs, a.
Qed.

Lemma honest_ledger_witness :
  exists su1 su2,
    @game_run null_solver no_factions millionths_text twin_calls
      (econ_start, twin_initialised) = Some su1 /\
    @game_run null_solver no_factions millionths_text second_calls
      (econ_start, twin_initialised) = Some su2 /\
    let su := (su2.1, su1.2) in
    exists cs a,
      Forall (playable twin_systems) cs /\ length cs = 5%nat /\
      ledger_run (market_of twin_initialised) cs ∅ = Some a /\ kept_by a su.2.
Proof.
  eexists _, _. split; [reflexivity|]. split; [reflexivity|]. intros su.
  apply (@honest_ledger null_solver null_solver_spec no_factions sample_game
           millionths_text millionths_text_spec twin_systems 5 su twin_fresh
           twin_connected twin_names twin_fields_small); [|unfold INT_MAX; lia].
  apply (@honest_session null_solver null_solver_spec no_factions sample_game
           millionths_text millionths_text_spec twin_systems twin_fresh twin_connected
           twin_names twin_fields_small twin_calls second_calls _ _
           (proj1 twin_playable) (proj2 twin_playable)).
  - cbn. unfold INT_MAX. lia.
  - reflexivity.
  - reflexivity.
  - reflexivity.
  - reflexivity.
Defined.

(** ** What the player is told after the landings *)

Lemma landing_tracked (c : game_call) : landing c -> tracked c.
Proof. by destruct c. Qed.

Lemma same_prices_index (u1 u : Universe) (pi com : nat) (p1 p : Planet) :
  same_prices u1 u -> planet_stack u1 !! pi = Some p1 -> planet_stack u !! pi = Some p ->
  planet_commodity_index u p com = planet_commodity_index u1 p1 com.
Proof.
  intros Hu Hp1 Hp.
  destruct (same_prices_query u1 u pi p Hu Hp) as (p1' & Hp1' & Hpp & _). simplify_eq.
  destruct Hu as (_ & _ & Hn & _). unfold planet_commodity_index.
  rewrite (planet_equiv_commodities p p1 Hpp). f_equal. apply list_find_ext.
  intros c. by rewrite !(commodity_names_name u1 u Hn).
Qed.

(** C13.  The player is told the mean of the prices at the landings.  From
    data of which nothing was seen, through
    [economy_initialiseCommodityPrices], which leaves price fields below
    [PRICE_MAX], and up to 46340 calls, each a call of the solver or a
    landing on some planet ([economy_averageSeenPrices]), in any order, the
    landings on the planet [pi] at rising times after 0: then
    [economy_getAveragePlanetPrice] reports of a priced good of [pi] the rounded
    mean and the standard deviation of the prices the good had at [pi] at
    the times of those landings, one price per landing.  What the solver
    did and what was seen at other planets in between does not show. *)
Theorem landings_report `{Sv : Solver} `{F : Factions} `{GD : GameData} `{T : RealText}
    (u0 : Universe) (cs : list game_call) (pi i com : nat) (p1 : Planet)
    (g : nat * CommodityPrice) :
  Forall (planet_all cleared) (planet_stack u0) ->
  fields_small (economy_initialiseCommodityPrices u0) ->
  Forall landing cs -> (Z.of_nat (length cs) <= 46340)%Z ->
  rising 0 (visit_times pi cs) ->
  planet_stack (economy_initialiseCommodityPrices u0) !! pi = Some p1 ->
  pl_goods p1 !! i = Some g ->
  com ∈ econ_comm (economy_initialiseCommodityPrices u0) ->
  planet_commodity_index (economy_initialiseCommodityPrices u0) p1 com = Some i ->
  exists su p,
    game_run cs (econ_start, economy_initialiseCommodityPrices u0) = Some su /\
    planet_stack su.2 !! pi = Some p /\
    economy_getAveragePlanetPrice su.2 com p
    = page_report
        (reverse (economy_getPriceAtTime (economy_initialiseCommodityPrices u0) g.1 p1
                    <$> visit_times pi cs),
         default 0%Z (last (visit_times pi cs))).
Proof.
  intros Hu Hs Hcs Hn Hts Hp1 Hg Hcom Hi. set (u1 := economy_initialiseCommodityPrices u0) in *.
  destruct (game_run_booked u1 Hs cs 0 ∅ (econ_start, u1))
    as (a & su & Ha & Hsu & Hp & Hw & Hk);
    [by eapply Forall_impl; [|apply landing_tracked]|by apply initialised_booked
    |unfold INT_MAX; lia|].
  destruct (visits_page (market_of u1) pi i cs ∅) as (a' & Ha' & Hpg);
    [|done|by rewrite page_empty|].
  { rewrite (market_goods u1 u1 pi p1) by done.
    by eapply lookup_lt_Some. }
  rewrite Ha in Ha'. injection Ha' as <-.
  pose proof Hp as (He & _ & _ & Hps).
  destruct (Forall2_lookup_r _ _ _ _ _ Hps Hp1) as (p & Hpsu & _).
  exists su, p. split_and!; [done..|].
  rewrite (kept_by_report a su.2 (0 + length cs) pi i com p Hk Hw);
    [|lia|done|by rewrite He|by rewrite (same_prices_index u1 su.2 pi com p1 p)].
  rewrite Hpg, page_empty. cbn [blank fst snd]. rewrite app_nil_r. do 3 f_equal.
  apply list_fmap_ext. intros k t _.
  by apply (market_quote u1 u1 pi i p1 g).
Qed.

Lemma landings_report_witness :
  exists su p,
    @game_run null_solver no_factions millionths_text twin_landings
      (econ_start, twin_initialised) = Some su /\
    planet_stack su.2 !! 0%nat = Some p /\
    economy_getAveragePlanetPrice su.2 0 p
    = page_report
        (reverse (economy_getPriceAtTime twin_initialised 0
                    (set_pl_goods [(0%nat, twin_field)] (plain_world "P0"))
                    <$> visit_times 0 twin_landings),
         default 0%Z (last (visit_times 0 twin_landings))).
Proof.
  apply (@landings_report null_solver no_factions sample_game millionths_text
           twin_systems twin_landings 0%nat 0%nat 0%nat
           (set_pl_goods [(0%nat, twin_field)] (plain_world "P0")) (0%nat, twin_field)
           (proj1 twin_fresh) twin_fields_small).
  - by apply (bool_decide_unpack _).
  - cbn. lia.
  - by apply (bool_decide_unpack _).
  - fold twin_initialised. by rewrite twin_initialised_planets.
  - reflexivity.
  - apply list_elem_of_here.
  - reflexivity.
Defined.

(** ** A landing that is not recorded

    The guard [cp->updateTime < t] compares with the time of the last
    recording, which is 0 where nothing was recorded: a landing at a time
    that is not after the time stamps of the planet writes nothing, in the
    code as in the book, and so a landing at time 0 on a planet never seen
    leaves it never seen. *)

Lemma landing_not_after (u : Universe) (p : Planet) (now tupdate : Z) :
  Forall (fun g => (now <= cp_updateTime g.2)%Z) (pl_goods p) ->
  economy_averageSeenPricesAtTime u p now tupdate = p.
Proof.
  intros Hp. rewrite averageSeenPricesAtTime_loop. unfold averageSeen_spec.
  rewrite list_fmap_fixed; [apply set_pl_goods_id|].
  eapply Forall_impl; [exact Hp|]. intros g. apply seen_entry_stale.
Qed.

Lemma stamp_not_after (price now : Z) (pg : Page) : (now <= pg.2)%Z -> stamp price now pg = pg.
Proof. intros H. unfold stamp. by rewrite decide_False by lia. Qed.

Example landing_at_time_zero (u : Universe) (p : Planet) (m : Market) (pi : nat)
    (k : nat * nat) :
  planet_all cleared p ->
  economy_averageSeenPrices u p 0 = p /\ page (ledger_record m pi 0 0 ∅) k = blank.
Proof.
  intros Hp. split.
  - apply landing_not_after. eapply Forall_impl; [exact Hp|].
    intros g (_ & _ & _ & ->). lia.
  - destruct k as [pj i]. rewrite page_record, page_empty.
    case_decide; [by apply stamp_not_after|done].
Qed.
