(* ===== verification/Interleaving.v ===== *)
(** * Interleaving: calls that can be exchanged

    The game calls the solver from its main loop and the tracker when the
    player lands; nothing in economy.c says in which order.  This file shows
    which orders give the same state.

    - The solver reads and writes the systems and the priced set; the
      tracker, the reset and the loader read and write the commodities and
      the planets, and read of the systems only which planets they hold.  So
      a call of the solver and a call of the others can be exchanged
      ([independent]), and so can two recordings at different planets.
    - [reordered] is the least equivalence on sequences of calls that
      exchanges independent neighbours; [game_run] gives the same result,
      the same state or the same failure, on reordered sequences.
    - [restack] puts other systems under a state: the way the frame of the
      tracker is stated. *)

From stdpp Require Import gmap.
From Stdlib Require Import Reals Lra Lia ZArith.
From stdpp Require Import base tactics option list strings.
From S2P Require Import Prelude World Price Observation Network Economy.
From S2P Require Import Initializer Pipeline Frame Catalog Xml Persistence Game.
From S2P Require Import Statistics Session Ledger.

(** ** Independent calls *)

Definition independent (c1 c2 : game_call) : Prop :=
  match c1, c2 with
  | GEcon _, GEcon _ => False
  | GEcon _, _ | _, GEcon _ => True
  | (GSeen pi _ | GSeenAtTime pi _ _), (GSeen pj _ | GSeenAtTime pj _ _) => pi <> pj
  | _, _ => False
  end.

(** Sequences of calls that differ in the order of independent neighbours. *)
Inductive reordered : list game_call -> list game_call -> Prop :=
  | reordered_nil : reordered [] []
  | reordered_skip (c : game_call) (cs cs' : list game_call) :
      reordered cs cs' -> reordered (c :: cs) (c :: cs')
  | reordered_swap (c1 c2 : game_call) (cs : list game_call) :
      independent c1 c2 -> reordered (c1 :: c2 :: cs) (c2 :: c1 :: cs)
  | reordered_trans (cs1 cs2 cs3 : list game_call) :
      reordered cs1 cs2 -> reordered cs2 cs3 -> reordered cs1 cs3.

(** A state on other systems. *)
Definition restack (ss : list StarSystem) (su : EconState * Universe)
  : EconState * Universe :=
  (su.1, set_systems_stack ss su.2).

(** ** Sample data: the calls of the twin game with the solver first *)

Definition twin_calls_solver_first : list game_call :=
  [GEcon CallInit; GEcon (CallUpdate 1); GSeen 0 5; GClearKnown; GSeenAtTime 1 7 3].

(** * Theorems *)

(** ** The relations *)

#[export] Instance independent_dec (c1 c2 : game_call) : Decision (independent c1 c2).
Proof. destruct c1, c2; cbn; apply _. Defined.

#[export] Instance independent_symmetric : Symmetric independent.
Proof. intros [] []; cbn; try done; by intros ? ->. Qed.

#[export] Instance reordered_equivalence : Equivalence reordered.
Proof.
  split.
  - intros cs. induction cs; by constructor.
  - induction 1; try (by econstructor); by constructor.
  - intros cs1 cs2 cs3. apply reordered_trans.
Qed.

Lemma reordered_length (cs cs' : list game_call) :
  reordered cs cs' -> length cs = length cs'.
Proof. induction 1; cbn; congruence. Qed.

(** ** What the solver reads: the systems and the priced set *)

Section frames.
Context `{Sv : Solver} `{F : Factions} `{GD : GameData} `{T : RealText}.

Lemma set_systems_stack_same (u u' : Universe) :
  systems_stack u' = systems_stack u -> set_systems_stack (systems_stack u) u' = u'.
Proof. intros <-. by destruct u'. Qed.

Lemma economy_update_frame (st : EconState) (u u' : Universe) (dt : Z) :
  systems_stack u' = systems_stack u -> econ_comm u' = econ_comm u ->
  (economy_update st u' dt).1
  = ((economy_update st u dt).1.1,
     set_systems_stack (systems_stack (economy_update st u dt).1.2) u').
Proof.
  intros Hs He. unfold economy_update, econ_nprices. rewrite He, Hs.
  destruct (econ_initialized st); cbn [negb fst snd]; [|by rewrite set_systems_stack_same].
  destruct (malloc _); cbn; [done|by rewrite set_systems_stack_same].
Qed.

Lemma economy_refresh_frame (st : EconState) (u u' : Universe) :
  systems_stack u' = systems_stack u -> econ_comm u' = econ_comm u ->
  (economy_refresh st u').1
  = ((economy_refresh st u).1.1,
     set_systems_stack (systems_stack (economy_refresh st u).1.2) u').
Proof.
  intros Hs He. unfold economy_refresh.
  destruct (econ_initialized st); cbn [negb fst snd]; [|by rewrite set_systems_stack_same].
  rewrite (createGMatrix_systems u' u Hs). rewrite <- surjective_pairing.
  by rewrite (economy_update_frame _ u u').
Qed.

Lemma economy_init_frame (st : EconState) (u u' : Universe) :
  systems_stack u' = systems_stack u -> econ_comm u' = econ_comm u ->
  (economy_init st u').1
  = ((economy_init st u).1.1,
     set_systems_stack (systems_stack (economy_init st u).1.2) u').
Proof.
  intros Hs He. unfold economy_init, econ_nprices. rewrite Hs, He.
  destruct (econ_initialized st); cbn [fst snd]; [by rewrite set_systems_stack_same|].
  rewrite <- surjective_pairing.
  by rewrite (economy_refresh_frame _
                (set_systems_stack
                   (set_sys_prices (Some (replicate (length (econ_comm u)) 0%R))
                      <$> systems_stack u) u)).
Qed.

Lemma econ_step_frame (e : econ_call) (st : EconState) (u u' : Universe) :
  systems_stack u' = systems_stack u -> econ_comm u' = econ_comm u ->
  econ_step e (st, u')
  = ((econ_step e (st, u)).1,
     set_systems_stack (systems_stack (econ_step e (st, u)).2) u').
Proof.
  intros Hs He. destruct e; cbn [econ_step fst snd].
  - by apply economy_init_frame.
  - by rewrite set_systems_stack_same.
  - unfold economy_execQueued. case_decide; [by apply economy_refresh_frame|].
    cbn. by rewrite set_systems_stack_same.
  - by apply economy_refresh_frame.
  - by apply economy_update_frame.
  - unfold economy_destroy. rewrite Hs.
    destruct (econ_initialized st); cbn; [done|by rewrite <- Hs, set_systems_stack_same].
Qed.

(** ** What the tracker, the reset and the loader read of the systems: the
    planets they hold *)

Lemma clearKnown_restack (ss : list StarSystem) (u : Universe) :
  sys_planets <$> ss = sys_planets <$> systems_stack u ->
  economy_clearKnown (set_systems_stack ss u) = set_systems_stack ss (economy_clearKnown u).
Proof.
  intros Hss. unfold economy_clearKnown, set_systems_stack. cbn. f_equal.
  rewrite !foldl_foldl_bind. f_equal.
  assert (forall l : list StarSystem,
            l ≫= sys_planets = (sys_planets <$> l) ≫= (fun js : list nat => js)) as Hb
    by (intros l; by rewrite list_fmap_bind).
  by rewrite !Hb, Hss.
Qed.

Lemma load_commodity_restack (ss : list StarSystem) (planet : option nat)
    (st : option Universe) (n : xml) :
  load_commodity planet (set_systems_stack ss <$> st) n
  = set_systems_stack ss <$> load_commodity planet st n.
Proof.
  destruct st as [u|]; [|done]. unfold load_commodity. cbn.
  destruct (xml_isNode n "commodity"); [|done]. destruct planet as [k|]; [|done]. cbn.
  destruct (planet_stack u !! k) as [p|]; [|done]. cbn.
  destruct (xmlr_attr n "name") as [str|]; [|by destruct (pl_goods p)].
  change (commodity_name (set_systems_stack ss u)) with (commodity_name u).
  by destruct (list_find _ _) as [[i g]|].
Qed.

Lemma load_planet_restack (ss : list StarSystem) (st : option Universe) (n : xml) :
  load_planet (set_systems_stack ss <$> st) n = set_systems_stack ss <$> load_planet st n.
Proof.
  destruct st as [u|]; [|done]. unfold load_planet. cbn.
  destruct (xml_isNode n "planet"); [|done].
  apply (foldl_option_fmap (set_systems_stack ss) _ _ (Some u)).
  intros st b. apply load_commodity_restack.
Qed.

Lemma load_entry_restack (ss : list StarSystem) (st : option Universe) (cur : xml) :
  load_entry (set_systems_stack ss <$> st) cur = set_systems_stack ss <$> load_entry st cur.
Proof.
  destruct st as [u|]; [|done]. unfold load_entry. cbn.
  destruct (xml_isNode cur "system").
  - apply (foldl_option_fmap (set_systems_stack ss) _ _ (Some u)). apply load_planet_restack.
  - destruct (xml_isNode cur "lastPurchase"); [|done]. unfold load_lastPurchase.
    destruct (xmlr_attr cur "name") as [str|]; [|done].
    change (commodity_get (set_systems_stack ss u)) with (commodity_get u).
    destruct (commodity_get u str) as [c|]; [|done]. cbn. by destruct (xml_raw cur).
Qed.

Lemma load_economy_restack (ss : list StarSystem) (st : option Universe) (node : xml) :
  load_economy (set_systems_stack ss <$> st) node
  = set_systems_stack ss <$> load_economy st node.
Proof.
  destruct st as [u|]; [|done]. unfold load_economy. cbn.
  destruct (xml_isNode node "economy"); [|done].
  apply (foldl_option_fmap (set_systems_stack ss) _ _ (Some u)). apply load_entry_restack.
Qed.

Lemma game_step_restack (c : game_call) (ss : list StarSystem) (st st' : EconState)
    (u : Universe) :
  is_econ c = false -> sys_planets <$> ss = sys_planets <$> systems_stack u ->
  game_step c (st', set_systems_stack ss u) = restack ss <$> ((st' ,.) <$> (snd <$> game_step c (st, u))).
Proof.
  intros Hc Hss. destruct c; try done; cbn [game_step fst snd fmap option_fmap option_map].
  - unfold restack. cbn. by rewrite clearKnown_restack.
  - unfold economy_sysLoad. rewrite (clearKnown_restack ss u Hss).
    rewrite (foldl_option_fmap (set_systems_stack ss) _ _ (Some (economy_clearKnown u)))
      by apply load_economy_restack.
    by destruct (foldl load_economy _ _).
Qed.

Lemma star_map_planets (u u' : Universe) :
  star_map u' = star_map u ->
  sys_planets <$> systems_stack u' = sys_planets <$> systems_stack u.
Proof.
  unfold star_map. intros H%(f_equal (fmap sys_planets)).
  by rewrite <- !list_fmap_compose in H.
Qed.

(** ** Two calls in either order *)

(** A call of the solver and a call of the tracker, the reset or the
    loader. *)
Lemma econ_commutes (e : econ_call) (c : game_call) (su : EconState * Universe) :
  is_econ c = false ->
  game_step (GEcon e) su ≫= game_step c = game_step c su ≫= game_step (GEcon e).
Proof.
  intros Hc. destruct su as [st u]. cbn [game_step mbind option_bind].
  pose proof (econ_step_same_world e (st, u)) as (_ & _ & _ & Hm%star_map_planets).
  pose proof (econ_step_frame e st u u eq_refl eq_refl) as Hf.
  destruct (econ_step e (st, u)) as [st1 u1] eqn:Hstep. cbn [fst snd] in *.
  remember (systems_stack u1) as ss1 eqn:Hss1. injection Hf as ->. clear Hss1.
  rewrite (game_step_restack c ss1 st st1 u Hc Hm).
  destruct (game_step c (st, u)) as [[st2 u2]|] eqn:Hc2; cbn; [|done].
  destruct (tracker_step_seen c _ _ Hc Hc2) as [Hst (He2 & Hs2 & _)]. cbn in Hst, He2, Hs2.
  subst st2. by rewrite (econ_step_frame e st u u2), Hstep by done.
Qed.

Lemma on_planet_commute (f g f' g' : Planet -> Planet) (pi pj : nat) (u : Universe) :
  pi <> pj -> (forall p, f' p = f p) -> (forall p, g' p = g p) ->
  on_planet g' pj (on_planet f pi u) = on_planet f' pi (on_planet g pj u).
Proof.
  intros Hne Hf Hg. unfold on_planet, set_planet_stack. cbn. f_equal.
  rewrite (list_alter_ext g' g _ _ pj (fun p _ => Hg p) eq_refl).
  rewrite (list_alter_ext f' f _ _ pi (fun p _ => Hf p) eq_refl).
  by apply alter_commute_ne.
Qed.

Lemma calls_commute (c1 c2 : game_call) (su : EconState * Universe) :
  independent c1 c2 -> game_step c1 su ≫= game_step c2 = game_step c2 su ≫= game_step c1.
Proof.
  intros Hi. destruct c1 as [e1|pi now|pi now tu| |], c2 as [e2|pj now'|pj now' tu'| |];
    try done; try (by apply econ_commutes); try (symmetry; by apply econ_commutes).
  all: cbn in Hi |- *; do 2 f_equal; by apply on_planet_commute.
Qed.

(** ** Sequences of calls *)

Lemma game_run_swaps (cs cs' : list game_call) (su : EconState * Universe) :
  reordered cs cs' -> game_run cs su = game_run cs' su.
Proof.
  intros H. revert su.
  induction H as [|c cs cs' _ IH|c1 c2 cs Hi|cs1 cs2 cs3 _ IH1 _ IH2]; intros su.
  - done.
  - cbn. destruct (game_step c su); cbn; [apply IH|done].
  - pose proof (calls_commute c1 c2 su Hi) as Hc. cbn [game_run].
    destruct (game_step c1 su) as [s1|], (game_step c2 su) as [s2|]; cbn in *;
      [by rewrite Hc|by rewrite Hc|by rewrite <- Hc|done].
  - by rewrite IH1.
Qed.

#[export] Instance game_run_proper : Proper (reordered ==> eq ==> eq) game_run.
Proof. intros cs cs' H su ? <-. by apply game_run_swaps. Qed.

End frames.

(** ** The book *)

Lemma ledger_steps_commute (m : Market) (c1 c2 : game_call) (a : Ledger) :
  independent c1 c2 ->
  ledger_step m c1 a ≫= ledger_step m c2 = ledger_step m c2 a ≫= ledger_step m c1.
Proof.
  intros Hi. destruct c1, c2; try done; cbn in Hi |- *; f_equal;
    by apply ledger_record_commute.
Qed.

Lemma ledger_run_swaps (m : Market) (cs cs' : list game_call) (a : Ledger) :
  reordered cs cs' -> ledger_run m cs a = ledger_run m cs' a.
Proof.
  intros H. revert a.
  induction H as [|c cs cs' _ IH|c1 c2 cs Hi|cs1 cs2 cs3 _ IH1 _ IH2]; intros a.
  - done.
  - cbn. destruct (ledger_step m c a); cbn; [apply IH|done].
  - pose proof (ledger_steps_commute m c1 c2 a Hi) as Hc. cbn [ledger_run].
    destruct (ledger_step m c1 a) as [a1|], (ledger_step m c2 a) as [a2|]; cbn in *;
      [by rewrite Hc|by rewrite Hc|by rewrite <- Hc|done].
  - by rewrite IH1.
Qed.

#[export] Instance ledger_run_proper (m : Market) :
  Proper (reordered ==> eq ==> eq) (ledger_run m).
Proof. intros cs cs' H a ? <-. by apply ledger_run_swaps. Qed.

(** ** The solver first *)

Lemma reordered_econ_front (c : game_call) (es cs : list game_call) :
  is_econ c = false -> Forall (fun e => is_econ e = true) es ->
  reordered (c :: es ++ cs) (es ++ c :: cs).
Proof.
  intros Hc Hes. induction Hes as [|e es He _ IH]; [done|]. cbn.
  etrans; [apply reordered_swap|by apply reordered_skip].
  by destruct c, e.
Qed.

Lemma reordered_solver_first (cs : list game_call) :
  reordered cs (filter (fun c => is_econ c = true) cs
                ++ filter (fun c => is_econ c = false) cs).
Proof.
  induction cs as [|c cs IH]; [done|]. destruct (is_econ c) eqn:Hc.
  - rewrite filter_cons_True, filter_cons_False by congruence.
    by apply reordered_skip.
  - rewrite filter_cons_False, filter_cons_True by congruence.
    etrans; [by apply reordered_skip|]. apply reordered_econ_front; [done|].
    apply Forall_forall. by intros e [He _]%list_elem_of_filter.
Qed.

(** Every game is a game in which the solver makes all its calls before the
    player lands anywhere. *)
Lemma game_run_solver_first `{Sv : Solver} `{F : Factions} `{GD : GameData}
    `{T : RealText} (cs : list game_call) (su : EconState * Universe) :
  game_run cs su
  = game_run (filter (fun c => is_econ c = true) cs
              ++ filter (fun c => is_econ c = false) cs) su.
Proof. by rewrite <- (reordered_solver_first cs). Qed.

(** C12.  Independent calls can be made in any order.  A call of the solver
    is independent of a recording, a reset and the loading of a saved game;
    two recordings are independent when they are at different planets.  Two
    sequences of calls that differ in the order of independent neighbours
    give the same result from every state: the same economy and universe,
    or the same failure of a load. *)
Theorem game_run_reordered `{Sv : Solver} `{F : Factions} `{GD : GameData}
    `{T : RealText} (cs cs' : list game_call) (su : EconState * Universe) :
  reordered cs cs' -> game_run cs su = game_run cs' su.
Proof. apply game_run_swaps. Qed.

Lemma game_run_reordered_witness :
  @game_run null_solver no_factions millionths_text twin_calls (econ_start, twin_initialised)
  = @game_run null_solver no_factions millionths_text twin_calls_solver_first
      (econ_start, twin_initialised).
Proof.
  apply (@game_run_reordered null_solver no_factions sample_game millionths_text).
  apply (reordered_solver_first twin_calls).
Defined.
