(* ===== verification/Gatherables.v ===== *)
(** * Gatherables: cargo that floats in space

    [commodity_Jettison], [gatherable_init], [gatherable_update],
    [gatherable_free], [gatherable_getClosest], [gatherable_getPos] and
    [gatherable_gather] of economy.c.

    The pool is the array [gatherable_stack] with the timer [noscoop_timer].
    The two loops that remove from the array while they walk it are kept as
    loops over an index: [update_loop] stays at the index after a removal
    (the code decrements [i]), [gather_loop] moves on (the code does not).
    Both terminate because the number of cells from the index to the end of
    the array decreases in every round.

    What the code takes from other files is behind interfaces: the random
    numbers ([Rng], the draws numbered in the order they are made), the
    pilot ([Pilots]), and the effects and messages, which are collected in
    lists. *)

From Stdlib Require Import Reals Lra Lia ZArith.
From Equations Require Import Equations.
From stdpp Require Import base tactics option list strings.
From S2P Require Import Prelude World.

#[local] Open Scope R_scope.

(** A value with the equation that says what it is, for the loops that
    branch on the cell at their index. *)
Definition inspect {A : Type} (a : A) : {b : A | a = b} := exist _ a eq_refl.

(** ** Vectors ([Vector2d] of physics.h) *)

Record Vector2d : Type := mkVector2d {
  vect_x : R;
  vect_y : R
}.

Definition vectnull : Vector2d := mkVector2d 0 0.

Definition vect_dist (v u : Vector2d) : R :=
  sqrt ((vect_x v - vect_x u) * (vect_x v - vect_x u)
        + (vect_y v - vect_y u) * (vect_y v - vect_y u)).

(** ** The pool *)

Definition GATHER_DIST : R := 30.

Record Gatherable : Type := mkGatherable {
  gat_type : nat;
  gat_pos : Vector2d;
  gat_vel : Vector2d;
  gat_timer : R;
  gat_lifeleng : R
}.

Record GatherState : Type := mkGatherState {
  gatherable_stack : list Gatherable;
  noscoop_timer : R
}.

Definition gather_start : GatherState := mkGatherState [] 1.

(** ** Random numbers ([RNG] and [RNGF] of rng.h): the [n]-th draw *)

Class Rng : Type := {
  RNG : nat -> Z -> Z -> Z;
  RNGF : nat -> R
}.

Class RngSpec (G : Rng) : Prop := {
  RNG_range (n : nat) (L H : Z) : (L <= H)%Z -> (L <= RNG n L H <= H)%Z;
  RNGF_range (n : nat) : 0 <= RNGF n < 1
}.

(** ** The pilot (pilot.h) *)

Class Pilots : Type := {
  Pilot : Type;
  pilot_pos : Pilot -> Vector2d;
  pilot_vel : Pilot -> Vector2d;
  pilot_isPlayer : Pilot -> bool;
  pilot_cargoFree : Pilot -> Z;
  pilot_cargoAdd : Pilot -> nat -> Z -> Pilot * Z
}.

(** [pilot_cargoAdd] loads what fits, and nothing else of the pilot
    changes. *)
Class PilotsSpec (P : Pilots) : Prop := {
  pilot_cargoAdd_quantity (p : Pilot) (com : nat) (q : Z) :
    (0 <= q)%Z -> (pilot_cargoAdd p com q).2 = Z.max 0 (Z.min q (pilot_cargoFree p));
  pilot_cargoAdd_free (p : Pilot) (com : nat) (q : Z) :
    pilot_cargoFree (pilot_cargoAdd p com q).1
    = (pilot_cargoFree p - (pilot_cargoAdd p com q).2)%Z;
  pilot_cargoAdd_pos (p : Pilot) (com : nat) (q : Z) :
    pilot_pos (pilot_cargoAdd p com q).1 = pilot_pos p;
  pilot_cargoAdd_isPlayer (p : Pilot) (com : nat) (q : Z) :
    pilot_isPlayer (pilot_cargoAdd p com q).1 = pilot_isPlayer p
}.

(** ** Messages to the player and effects, in the order they are made *)

Inductive message : Type :=
  | MsgGathered (q : Z) (name : string)
  | MsgNoMoreSpace
  | MsgCannotGather.

Record spfx : Type := mkSpfx {
  spfx_px : R;
  spfx_py : R;
  spfx_vx : R;
  spfx_vy : R
}.

(** ** [gatherable_init] *)

Section Gatherables.
Context `{G : Rng} `{P : Pilots}.

(** [n] is the number of draws made so far; the result holds the number
    after the call. *)
Definition gatherable_init (com : nat) (pos vel : Vector2d) (n : nat) (st : GatherState)
  : GatherState * nat :=
  (mkGatherState
     (gatherable_stack st ++ [mkGatherable com pos vel 0 (RNGF n * 100 + 50)])
     (noscoop_timer st),
   S n).

(** ** [gatherable_update] *)

(** The three assignments at the head of the loop body. *)
Definition gat_advance (dt : R) (g : Gatherable) : Gatherable :=
  mkGatherable (gat_type g)
    (mkVector2d (vect_x (gat_pos g) + dt * vect_x (gat_vel g))
                (vect_y (gat_pos g) + dt * vect_y (gat_vel g)))
    (gat_vel g) (gat_timer g + dt) (gat_lifeleng g).

Definition gat_expired (g : Gatherable) : Prop := gat_lifeleng g < gat_timer g.

#[global] Instance gat_expired_dec (g : Gatherable) : Decision (gat_expired g) :=
  Rlt_dec (gat_lifeleng g) (gat_timer g).

(** The loop from index [i] on. *)
Equations? update_loop (dt : R) (i : nat) (stack : list Gatherable) : list Gatherable
  by wf (length stack - i)%nat lt :=
  update_loop dt i stack with inspect (stack !! i) := {
    | exist _ (Some g) Hi with decide (gat_expired (gat_advance dt g)) := {
        | left _ => update_loop dt i (delete i stack)
        | right _ => update_loop dt (S i) (<[i := gat_advance dt g]> stack) };
    | exist _ None _ => stack }.
Proof.
  all: apply lookup_lt_Some in Hi.
  - rewrite length_delete by (by apply lookup_lt_is_Some_2). lia.
  - rewrite length_insert. lia.
Qed.

Definition gatherable_update (dt : R) (st : GatherState) : GatherState :=
  mkGatherState (update_loop dt 0 (gatherable_stack st)) (noscoop_timer st + dt).

(** ** [gatherable_free] *)

Definition gatherable_free (st : GatherState) : GatherState :=
  mkGatherState [] (noscoop_timer st).

(** ** [gatherable_getClosest] *)

(** One round: the state is [(curg, mindist)], with [None] for [INFINITY]. *)
Definition closest_step (pos : Vector2d) (rad : R) (acc : Z * option R)
  (ig : nat * Gatherable) : Z * option R :=
  let curdist := vect_dist pos (gat_pos ig.2) in
  let closer := match acc.2 with
                | Some mindist => bool_decide (curdist < mindist)
                | None => true
                end in
  if closer && bool_decide (curdist < rad)
  then (Z.of_nat ig.1, Some curdist)
  else acc.

Definition gatherable_getClosest (pos : Vector2d) (rad : R) (st : GatherState) : Z :=
  (foldl (closest_step pos rad) ((-1)%Z, None) (imap pair (gatherable_stack st))).1.

(** ** [gatherable_getPos]: the result is [(pos, vel, return value)] *)

Definition gatherable_getPos (id : Z) (st : GatherState) : Vector2d * Vector2d * Z :=
  if decide (id < 0 \/ id > Z.of_nat (length (gatherable_stack st)) - 1)%Z
  then (vectnull, vectnull, 0%Z)
  else match gatherable_stack st !! Z.to_nat id with
       | Some gat => (gat_pos gat, gat_vel gat, 1%Z)
       | None => (vectnull, vectnull, 0%Z)
       end.

(** ** [gatherable_gather] *)

(** What the loop threads: the pool, the pilot, the number of draws made and
    the messages shown. *)
Record GatherRun : Type := mkGatherRun {
  run_state : GatherState;
  run_pilot : Pilot;
  run_draws : nat;
  run_messages : list message
}.

(** The body of the loop for the object [gat] at index [i]; the result says
    whether the object was taken out of the array. *)
Definition gather_step (u : Universe) (i : nat) (gat : Gatherable) (r : GatherRun)
  : GatherRun * bool :=
  let p := run_pilot r in
  if Rlt_dec (vect_dist (pilot_pos p) (gat_pos gat)) GATHER_DIST then
    let '(p', q) := pilot_cargoAdd p (gat_type gat) (RNG (run_draws r) 1 5) in
    if decide (q > 0)%Z then
      let m1 := if pilot_isPlayer p'
                then [MsgGathered q (commodity_name u (gat_type gat))] else [] in
      let m2 := if decide (pilot_cargoFree p' < 1)%Z
                then (if pilot_isPlayer p' then [MsgNoMoreSpace] else [])
                else [] in
      (mkGatherRun
         (mkGatherState (delete i (gatherable_stack (run_state r)))
            (noscoop_timer (run_state r)))
         p' (S (run_draws r)) (run_messages r ++ m1 ++ m2),
       true)
    else if pilot_isPlayer p' then
      if Rlt_dec 2 (noscoop_timer (run_state r)) then
        (mkGatherRun (mkGatherState (gatherable_stack (run_state r)) 0)
           p' (S (run_draws r)) (run_messages r ++ [MsgCannotGather]),
         false)
      else (mkGatherRun (run_state r) p' (S (run_draws r)) (run_messages r), false)
    else (mkGatherRun (run_state r) p' (S (run_draws r)) (run_messages r), false)
  else (r, false).

(** The loop from index [i] on: [i] is incremented in every round, and a
    round does not make the array longer. *)
Equations? gather_loop (u : Universe) (i : nat) (r : GatherRun) : GatherRun
  by wf (length (gatherable_stack (run_state r)) - i)%nat lt :=
  gather_loop u i r with inspect (gatherable_stack (run_state r) !! i) := {
    | exist _ (Some gat) Hi => gather_loop u (S i) (gather_step u i gat r).1
    | exist _ None _ => r }.
Proof.
  pose proof (lookup_lt_Some _ _ _ Hi) as Hlt.
  enough (length (gatherable_stack (run_state (gather_step u i gat r).1))
          <= length (gatherable_stack (run_state r)))%nat by lia.
  unfold gather_step.
  destruct (Rlt_dec (vect_dist _ _) GATHER_DIST); [|done].
  destruct (pilot_cargoAdd _ _ _) as [p' q].
  destruct (decide (q > 0)%Z);
    [cbn; pose proof (length_delete_le (gatherable_stack (run_state r)) i); lia|].
  destruct (pilot_isPlayer p'); [|done].
  by destruct (Rlt_dec 2 _).
Qed.

Definition gatherable_gather (u : Universe) (r : GatherRun) : GatherRun :=
  gather_loop u 0 r.

(** ** [commodity_Jettison]: the effects added, and the draws made *)

(** [MAX (1, RNG (quantity/10, quantity/5))].  [MAX] is the macro of naev.h,
    [((x) > (y)) ? (x) : (y)]: the draw is made for the comparison and, when
    it is not below 1, once more for the value.  The result is the number of
    effects and the number of draws made so far. *)
Definition jettison_count (quantity : Z) (n : nat) : Z * nat :=
  let L := Z.quot quantity 10 in
  let H := Z.quot quantity 5 in
  if decide (1 > RNG n L H)%Z then (1%Z, S n) else (RNG (S n) L H, S (S n)).

(** One round of the loop: the state is [(effects, draws)]. *)
Definition jettison_step (p : Pilot) (acc : list spfx * nat) (_ : nat) : list spfx * nat :=
  let r := RNGF acc.2 * 25 - 12.5 in
  let a := 2 * PI * RNGF (S acc.2) in
  (acc.1 ++ [mkSpfx (vect_x (pilot_pos p)) (vect_y (pilot_pos p))
               (vect_x (pilot_vel p) + r * cos a)
               (vect_y (pilot_vel p) + r * sin a)],
   S (S acc.2)).

Definition commodity_Jettison (p : Pilot) (quantity : Z) (n : nat) : list spfx * nat :=
  let c := jettison_count quantity n in
  foldl (jettison_step p) ([], c.2) (seq 0 (Z.to_nat c.1)).

(** ** Reference definitions *)

(** What [gatherable_update] leaves: the objects moved, without those whose
    time is over. *)
Definition update_spec (dt : R) (stack : list Gatherable) : list Gatherable :=
  filter (fun g => ~ gat_expired g) (gat_advance dt <$> stack).

Definition gat_dist (pos : Vector2d) (g : Gatherable) : R := vect_dist pos (gat_pos g).

(** [i] is the first object of [l] that is nearest to [pos], and it is
    within [rad]. *)
Definition first_nearest (pos : Vector2d) (rad : R) (l : list Gatherable) (i : nat) : Prop :=
  exists g, l !! i = Some g /\ gat_dist pos g < rad /\
    forall j h, l !! j = Some h ->
      gat_dist pos g <= gat_dist pos h /\ ((j < i)%nat -> gat_dist pos g < gat_dist pos h).

(** What the loop of [gatherable_getClosest] holds after the objects [l]. *)
Definition closest_inv (pos : Vector2d) (rad : R) (l : list Gatherable)
  (acc : Z * option R) : Prop :=
  match acc.2 with
  | None => acc.1 = (-1)%Z /\ Forall (fun g => ~ gat_dist pos g < rad) l
  | Some d => exists i g, acc.1 = Z.of_nat i /\ l !! i = Some g /\ d = gat_dist pos g /\
                          first_nearest pos rad l i
  end.

End Gatherables.

(** ** Sample data: a pilot that is a position, a velocity and a hold;
    draws that are always the least value *)

Record sample_pilot : Type := mkSamplePilot {
  sp_pos : Vector2d;
  sp_vel : Vector2d;
  sp_player : bool;
  sp_free : Z
}.

Definition sample_cargoAdd (p : sample_pilot) (com : nat) (q : Z) : sample_pilot * Z :=
  let a := Z.max 0 (Z.min q (sp_free p)) in
  (mkSamplePilot (sp_pos p) (sp_vel p) (sp_player p) (sp_free p - a), a).

#[export] Instance sample_pilots : Pilots :=
  {| Pilot := sample_pilot; pilot_pos := sp_pos; pilot_vel := sp_vel;
     pilot_isPlayer := sp_player; pilot_cargoFree := sp_free;
     pilot_cargoAdd := sample_cargoAdd |}.

#[export] Instance least_rng : Rng := {| RNG _ L _ := L; RNGF _ := 0 |}.

(** Draws that are the greatest value once and the least from then on. *)
Definition second_least_rng : Rng :=
  {| RNG n L H := match n with O => H | S _ => L end; RNGF _ := 0 |}.

Definition crate (x : R) : Gatherable :=
  mkGatherable 0 (mkVector2d x 0) vectnull 0 100.

Definition scooper : @Pilot sample_pilots := mkSamplePilot vectnull vectnull true 10.

Definition two_crates : GatherRun :=
  mkGatherRun (mkGatherState [crate 1; crate 2] 1) scooper 0 [].

Definition bare_universe : Universe := mkUniverse [] [] [] [].

(** An effect of [commodity_Jettison] for the pilot [p]: at the position of
    the pilot, with a velocity within 12.5 of the pilot's. *)
Definition jettisoned `{P : Pilots} (p : Pilot) (e : spfx) : Prop :=
  spfx_px e = vect_x (pilot_pos p) /\ spfx_py e = vect_y (pilot_pos p) /\
  (spfx_vx e - vect_x (pilot_vel p)) * (spfx_vx e - vect_x (pilot_vel p))
  + (spfx_vy e - vect_y (pilot_vel p)) * (spfx_vy e - vect_y (pilot_vel p))
  <= 12.5 * 12.5.

(** * Theorems *)

Section Update.
Context `{G : Rng} `{P : Pilots}.

(** ** The loops, round by round *)

Lemma update_loop_round (dt : R) (i : nat) (stack : list Gatherable) :
  update_loop dt i stack
  = match stack !! i with
    | Some g =>
        if decide (gat_expired (gat_advance dt g))
        then update_loop dt i (delete i stack)
        else update_loop dt (S i) (<[i := gat_advance dt g]> stack)
    | None => stack
    end.
Proof.
  funelim (update_loop dt i stack);
    match goal with H : stack !! i = _ |- _ => rewrite H end;
    [done|by rewrite decide_True|by rewrite decide_False].
Qed.

Lemma gather_loop_round (u : Universe) (i : nat) (r : GatherRun) :
  gather_loop u i r
  = match gatherable_stack (run_state r) !! i with
    | Some gat => gather_loop u (S i) (gather_step u i gat r).1
    | None => r
    end.
Proof.
  funelim (gather_loop u i r);
    match goal with H : _ !! i = _ |- _ => by rewrite H end.
Qed.

(** ** [gatherable_update] moves every object and drops the expired ones *)

Lemma update_spec_cons (dt : R) (g : Gatherable) (l : list Gatherable) :
  update_spec dt (g :: l)
  = if decide (gat_expired (gat_advance dt g)) then update_spec dt l
    else gat_advance dt g :: update_spec dt l.
Proof.
  unfold update_spec. rewrite fmap_cons, filter_cons.
  destruct (decide (gat_expired (gat_advance dt g))) as [H|H].
  - by rewrite decide_False by tauto.
  - by rewrite decide_True.
Qed.

(** The loop at index [|done|] of [done ++ rest] leaves [done] and gives
    [rest] its due. *)
Lemma update_loop_spec (dt : R) (rest done : list Gatherable) :
  update_loop dt (length done) (done ++ rest) = done ++ update_spec dt rest.
Proof.
  revert done. induction rest as [|g rest IH]; intros done;
    rewrite update_loop_round.
  - by rewrite lookup_ge_None_2 by (rewrite length_app; cbn; lia).
  - rewrite list_lookup_middle, update_spec_cons by done. case_decide.
    + rewrite delete_middle. apply IH.
    + rewrite insert_app_r_alt, Nat.sub_diag by done. cbn [insert list_insert].
      rewrite (cons_middle _ done), app_assoc.
      replace (S (length done)) with (length (done ++ [gat_advance dt g]))
        by (rewrite length_app; cbn; lia).
      by rewrite IH, <- app_assoc.
Qed.

Lemma update_loop_all (dt : R) (stack : list Gatherable) :
  update_loop dt 0 stack = update_spec dt stack.
Proof. apply (update_loop_spec dt stack []). Qed.

(** C32.  [gatherable_update] adds [dt] to [noscoop_timer] and leaves the
    pool in the order it had, each object moved by [dt] along its velocity
    and [dt] older, without the objects whose timer then exceeds their
    lifetime; the loop that removes from the array it walks visits every
    object once. *)
Theorem gatherable_update_spec (dt : R) (st : GatherState) :
  gatherable_update dt st
  = mkGatherState (update_spec dt (gatherable_stack st)) (noscoop_timer st + dt).
Proof.
  unfold gatherable_update. f_equal. apply update_loop_all.
Qed.

(** ** Two updates are one *)

Lemma gat_advance_add (a b : R) (g : Gatherable) :
  gat_advance b (gat_advance a g) = gat_advance (a + b) g.
Proof.
  unfold gat_advance. cbn. f_equal; [f_equal; ring|ring].
Qed.

Lemma update_spec_add (a b : R) (l : list Gatherable) :
  0 <= b -> update_spec b (update_spec a l) = update_spec (a + b) l.
Proof.
  intros Hb. induction l as [|g l IH]; [done|].
  rewrite !update_spec_cons. unfold gat_expired. cbn.
  destruct (decide (gat_lifeleng g < gat_timer g + a)) as [Ha|Ha].
  - rewrite IH, decide_True by lra. done.
  - rewrite update_spec_cons, gat_advance_add, IH. unfold gat_expired. cbn. done.
Qed.

(** Two calls of [gatherable_update] are one call with the sum of the
    two times, when the second time is not negative: what is removed after
    the first is removed after the sum, and what is left has moved and aged
    by the sum. *)
Theorem gatherable_update_add (a b : R) (st : GatherState) :
  0 <= b ->
  gatherable_update b (gatherable_update a st) = gatherable_update (a + b) st.
Proof.
  intros Hb. unfold gatherable_update. cbn [gatherable_stack noscoop_timer].
  rewrite !update_loop_all, update_spec_add by done. f_equal. ring.
Qed.

(** ** [gatherable_gather] passes over the object after one it takes *)

Lemma take_delete_ge {A : Type} (l : list A) (i j : nat) :
  (i <= j)%nat -> take i (delete j l) = take i l.
Proof.
  intros Hij. apply list_eq. intros k. destruct (decide (k < i)%nat).
  - rewrite !lookup_take_lt, list_lookup_delete_lt by lia. done.
  - by rewrite !lookup_take_ge by lia.
Qed.

Lemma gather_step_stack (u : Universe) (i : nat) (gat : Gatherable) (r : GatherRun) :
  gatherable_stack (run_state (gather_step u i gat r).1)
  = if (gather_step u i gat r).2 then delete i (gatherable_stack (run_state r))
    else gatherable_stack (run_state r).
Proof.
  unfold gather_step.
  destruct (Rlt_dec (vect_dist _ _) GATHER_DIST); [|done].
  destruct (pilot_cargoAdd _ _ _) as [p' q].
  destruct (decide (q > 0)%Z); [done|].
  destruct (pilot_isPlayer p'); [|done].
  by destruct (Rlt_dec 2 _).
Qed.

Lemma gather_step_prefix (u : Universe) (i : nat) (gat : Gatherable) (r : GatherRun) :
  take i (gatherable_stack (run_state (gather_step u i gat r).1))
  = take i (gatherable_stack (run_state r)).
Proof.
  rewrite gather_step_stack. destruct (gather_step u i gat r).2; [|done].
  by apply take_delete_ge.
Qed.

(** The loop from index [i] on leaves the cells below [i] alone. *)
Lemma gather_loop_prefix (u : Universe) (i : nat) (r : GatherRun) :
  take i (gatherable_stack (run_state (gather_loop u i r)))
  = take i (gatherable_stack (run_state r)).
Proof.
  funelim (gather_loop u i r); [|done].
  rewrite <- (gather_step_prefix u i gat r).
  apply (f_equal (take i)) in H. by rewrite !take_take, Nat.min_l in H by lia.
Qed.

(** When [gatherable_gather] takes the object at index [i] out of the
    array, the object that followed it moves to index [i] and the loop goes
    on at [i + 1]: that object is still in the pool after the call, however
    near the pilot it is and however much room the pilot has. *)
Theorem gather_loop_skips (u : Universe) (i : nat) (r : GatherRun) (gat next : Gatherable) :
  gatherable_stack (run_state r) !! i = Some gat ->
  gatherable_stack (run_state r) !! S i = Some next ->
  (gather_step u i gat r).2 = true ->
  gatherable_stack (run_state (gather_loop u i r)) !! i = Some next.
Proof.
  intros Hi Hn Hq. rewrite gather_loop_round, Hi.
  rewrite <- (lookup_take_lt _ (S i)), gather_loop_prefix, gather_step_stack, Hq by lia.
  rewrite lookup_take_lt, list_lookup_delete_ge by lia. done.
Qed.

(** ** The nearest object *)

Lemma first_nearest_snoc_keep (pos : Vector2d) (rad : R) (l : list Gatherable)
    (x : Gatherable) (i : nat) (g : Gatherable) :
  l !! i = Some g -> first_nearest pos rad l i -> gat_dist pos g <= gat_dist pos x ->
  first_nearest pos rad (l ++ [x]) i.
Proof.
  intros Hi (g' & Hg' & Hr & Hmin) Hx. simplify_eq.
  exists g. split_and!; [by apply lookup_app_l_Some|done|].
  intros j h [Hj|[Hlen Hj]]%lookup_app_Some; [by apply Hmin|].
  apply list_lookup_singleton_Some in Hj as [Hj ->]. split; [done|].
  apply lookup_lt_Some in Hi. lia.
Qed.

Lemma first_nearest_snoc_new (pos : Vector2d) (rad : R) (l : list Gatherable) (x : Gatherable) :
  gat_dist pos x < rad ->
  (forall h, h ∈ l -> gat_dist pos x < gat_dist pos h) ->
  first_nearest pos rad (l ++ [x]) (length l).
Proof.
  intros Hr Hlt. exists x. split_and!; [by rewrite list_lookup_middle|done|].
  intros j h [Hj|[Hlen Hj]]%lookup_app_Some.
  - pose proof (lookup_lt_Some _ _ _ Hj). apply list_elem_of_lookup_2, Hlt in Hj.
    split; [lra|done].
  - apply list_lookup_singleton_Some in Hj as [Hj ->]. split; [lra|lia].
Qed.

Lemma closest_step_inv (pos : Vector2d) (rad : R) (l : list Gatherable) (x : Gatherable)
    (acc : Z * option R) :
  closest_inv pos rad l acc ->
  closest_inv pos rad (l ++ [x]) (closest_step pos rad acc (length l, x)).
Proof.
  unfold closest_inv, closest_step. fold (gat_dist pos x). cbn [fst snd].
  destruct acc as [c [d|]]; cbn [fst snd].
  - intros (i & g & -> & Hi & -> & Hn).
    destruct (decide (gat_dist pos x < gat_dist pos g)) as [Hlt|Hge];
      [destruct (decide (gat_dist pos x < rad)) as [Hr|Hr]|].
    + rewrite !bool_decide_eq_true_2 by done. cbn.
      exists (length l), x. split_and!; [done|by rewrite list_lookup_middle|done|].
      apply first_nearest_snoc_new; [done|]. intros h (j & Hj)%list_elem_of_lookup.
      destruct Hn as (g' & ? & _ & Hmin). simplify_eq.
      destruct (Hmin j h Hj). lra.
    + destruct Hn as (g' & ? & Hg & _). simplify_eq. lra.
    + rewrite (bool_decide_eq_false_2 (_ < gat_dist pos g)) by done. cbn.
      exists i, g. split_and!; [done|by apply lookup_app_l_Some|done|].
      apply (first_nearest_snoc_keep _ _ _ _ _ g); [done..|lra].
  - intros [-> Hall]. destruct (decide (gat_dist pos x < rad)) as [Hr|Hr].
    + rewrite bool_decide_eq_true_2 by done. cbn.
      exists (length l), x. split_and!; [done|by rewrite list_lookup_middle|done|].
      apply first_nearest_snoc_new; [done|]. intros h Hh.
      apply (proj1 (Forall_forall _ _) Hall) in Hh. lra.
    + rewrite bool_decide_eq_false_2 by done. cbn. split; [done|].
      apply Forall_app. split; [done|by constructor].
Qed.

Lemma closest_loop_inv (pos : Vector2d) (rad : R) (l : list Gatherable) :
  closest_inv pos rad l (foldl (closest_step pos rad) ((-1)%Z, None) (imap pair l)).
Proof.
  induction l as [|x l IH] using rev_ind; [by split|].
  rewrite imap_app, foldl_app. cbn. rewrite Nat.add_0_r. by apply closest_step_inv.
Qed.

(** C39.  [gatherable_getClosest] returns -1 exactly when no object of the
    pool is nearer than [rad]; otherwise it returns the index of an object
    nearer than [rad] that no object is nearer than, the first of them in the
    array. *)
Theorem gatherable_getClosest_spec (pos : Vector2d) (rad : R) (st : GatherState) :
  (gatherable_getClosest pos rad st = (-1)%Z /\
   Forall (fun g => ~ gat_dist pos g < rad) (gatherable_stack st)) \/
  (exists i, gatherable_getClosest pos rad st = Z.of_nat i /\
             first_nearest pos rad (gatherable_stack st) i).
Proof.
  unfold gatherable_getClosest.
  pose proof (closest_loop_inv pos rad (gatherable_stack st)) as H.
  unfold closest_inv in H. destruct (foldl _ _ _) as [c [d|]]; cbn in *.
  - right. destruct H as (i & g & -> & _ & _ & Hn). by exists i.
  - by left.
Qed.

(** ** [gatherable_getPos] *)

Theorem gatherable_getPos_spec (id : Z) (st : GatherState) :
  match gatherable_stack st !! Z.to_nat id with
  | Some gat =>
      if decide (0 <= id)%Z then gatherable_getPos id st = (gat_pos gat, gat_vel gat, 1%Z)
      else gatherable_getPos id st = (vectnull, vectnull, 0%Z)
  | None => gatherable_getPos id st = (vectnull, vectnull, 0%Z)
  end.
Proof.
  unfold gatherable_getPos.
  destruct (gatherable_stack st !! Z.to_nat id) as [gat|] eqn:Hg.
  - apply lookup_lt_Some in Hg. repeat case_decide; try done; lia.
  - by case_decide.
Qed.

End Update.

Section Random.
Context `{G : Rng} `{!RngSpec G} `{P : Pilots}.

(** ** The lifetime of an object *)

Lemma update_spec_snoc (dt : R) (l : list Gatherable) (g : Gatherable) :
  update_spec dt (l ++ [g])
  = update_spec dt l ++ (if decide (gat_expired (gat_advance dt g)) then []
                         else [gat_advance dt g]).
Proof.
  unfold update_spec at 1. rewrite fmap_app, filter_app.
  fold (update_spec dt l) (update_spec dt [g]).
  rewrite (update_spec_cons dt g []). by case_decide.
Qed.

(** [gatherable_init] adds one object at the end of the pool, with a
    lifetime from 50 to 150: an update by at most 50 keeps it, an update by
    150 or more removes it. *)
Theorem gatherable_init_lifetime (com : nat) (pos vel : Vector2d) (n : nat)
    (st : GatherState) (dt : R) :
  let g := mkGatherable com pos vel 0 (RNGF n * 100 + 50) in
  gatherable_init com pos vel n st
  = (mkGatherState (gatherable_stack st ++ [g]) (noscoop_timer st), S n) /\
  50 <= gat_lifeleng g < 150 /\
  (dt <= 50 ->
   gatherable_stack (gatherable_update dt (gatherable_init com pos vel n st).1)
   = gatherable_stack (gatherable_update dt st) ++ [gat_advance dt g]) /\
  (150 <= dt ->
   gatherable_stack (gatherable_update dt (gatherable_init com pos vel n st).1)
   = gatherable_stack (gatherable_update dt st)).
Proof.
  intros g. pose proof (RNGF_range n) as Hr.
  unfold gatherable_init, gatherable_update. cbn [fst gatherable_stack].
  rewrite !update_loop_all, update_spec_snoc. fold g.
  unfold gat_expired. cbn.
  split_and!; [done|lra|lra|..]; intros Hdt.
  - rewrite decide_False by lra. done.
  - rewrite decide_True by lra. by rewrite app_nil_r.
Qed.

(** ** [commodity_Jettison] *)

Lemma jettison_step_inv (p : Pilot) (m : nat) (acc : list spfx * nat) (k : nat) :
  acc.2 = (m + 2 * length acc.1)%nat /\ Forall (jettisoned p) acc.1 ->
  (jettison_step p acc k).2 = (m + 2 * length (jettison_step p acc k).1)%nat /\
  Forall (jettisoned p) (jettison_step p acc k).1.
Proof.
  intros [Hn Hall]. unfold jettison_step. cbn [fst snd]. split.
  - rewrite length_app. cbn. lia.
  - apply Forall_app. split; [done|]. constructor; [|done].
    unfold jettisoned. cbn. split_and!; [done..|].
    pose proof (RNGF_range acc.2) as Hr.
    pose proof (sin2_cos2 (2 * PI * RNGF (S acc.2))) as Hsc. unfold Rsqr in Hsc.
    set (r := RNGF acc.2 * 25 - 12.5) in *.
    set (c := cos _) in *. set (s := sin _) in *.
    replace ((_ + r * c - _) * (_ + r * c - _) + (_ + r * s - _) * (_ + r * s - _))
      with (r * r * (s * s + c * c)) by ring.
    rewrite Hsc. subst r. nra.
Qed.

Lemma jettison_loop_length (p : Pilot) (l : list nat) (acc : list spfx * nat) :
  length (foldl (jettison_step p) acc l).1 = (length acc.1 + length l)%nat.
Proof.
  revert acc. induction l as [|k l IH]; intros acc; cbn [foldl length]; [lia|].
  rewrite IH. unfold jettison_step. cbn. rewrite length_app. cbn. lia.
Qed.

Lemma jettison_count_range (quantity : Z) (n : nat) :
  (0 <= quantity)%Z ->
  (0 <= (jettison_count quantity n).1 <= Z.max 1 (Z.quot quantity 5))%Z /\
  (10 <= quantity -> 1 <= (jettison_count quantity n).1)%Z.
Proof.
  intros Hq. unfold jettison_count. cbn zeta.
  assert (0 <= Z.quot quantity 10 <= Z.quot quantity 5)%Z as Hle
    by (rewrite !Z.quot_div_nonneg by lia; split;
        [apply Z.div_pos; lia|apply Z.div_le_compat_l; lia]).
  assert (10 <= quantity -> 1 <= Z.quot quantity 10)%Z as H10
    by (intros ?; rewrite Z.quot_div_nonneg by lia;
        apply (Z.div_le_lower_bound quantity 10 1); lia).
  pose proof (RNG_range n _ _ (proj2 Hle)).
  pose proof (RNG_range (S n) _ _ (proj2 Hle)).
  case_decide; cbn [fst]; lia.
Qed.

End Random.

(** C40.  With a generator that meets the contract [RngSpec] (a draw of
    [RNG (L, H)] lies between [L] and [H] when [L <= H], a draw of [RNGF]
    is at least 0 and below 1) and a quantity that is not negative,
    [commodity_Jettison] adds the number of effects that
    [MAX (1, RNG (quantity/10, quantity/5))] gives: at most a fifth of the
    quantity when that is more than one, and at least one when the quantity
    is 10 or more.  Every effect starts where the pilot is, with a velocity
    within 12.5 of the pilot's, and takes two draws. *)
Theorem commodity_Jettison_spec `{G : Rng} `{!RngSpec G} `{P : Pilots}
    (p : Pilot) (quantity : Z) (n : nat) :
  (0 <= quantity)%Z ->
  let c := jettison_count quantity n in
  let r := commodity_Jettison p quantity n in
  length r.1 = Z.to_nat c.1 /\
  (length r.1 <= Z.to_nat (Z.max 1 (Z.quot quantity 5)))%nat /\
  ((10 <= quantity)%Z -> (1 <= length r.1)%nat) /\
  r.2 = (c.2 + 2 * length r.1)%nat /\
  Forall (jettisoned p) r.1.
Proof.
  intros Hq c r. subst r. unfold commodity_Jettison. fold c.
  destruct (jettison_count_range quantity n Hq) as [Hc H10]. fold c in Hc, H10.
  set (l := seq 0 _).
  pose proof (jettison_loop_length p l ([], c.2)) as Hlen.
  destruct (foldl_inv (fun acc => acc.2 = (c.2 + 2 * length acc.1)%nat
                                  /\ Forall (jettisoned p) acc.1)
              (jettison_step p) l ([], c.2)) as [Hn Hall];
    [cbn; split; [lia|done] | intros acc k Hacc _; by apply jettison_step_inv |].
  subst l. rewrite length_seq in Hlen. cbn [fst length Nat.add] in Hlen.
  split_and!; [done|lia|lia|done|done].
Qed.

(** ** A pilot without room gathers nothing *)

Section Room.
Context `{G : Rng} `{!RngSpec G} `{P : Pilots}.

Lemma gather_step_full `{!PilotsSpec P} (u : Universe) (i : nat) (gat : Gatherable)
    (r : GatherRun) :
  (pilot_cargoFree (run_pilot r) <= 0)%Z ->
  let r' := (gather_step u i gat r).1 in
  gatherable_stack (run_state r') = gatherable_stack (run_state r) /\
  pilot_cargoFree (run_pilot r') = pilot_cargoFree (run_pilot r) /\
  pilot_pos (run_pilot r') = pilot_pos (run_pilot r).
Proof.
  intros Hfull. unfold gather_step. cbn zeta.
  destruct (Rlt_dec (vect_dist _ _) GATHER_DIST); [|done].
  assert (1 <= RNG (run_draws r) 1 5 <= 5)%Z as Hd by (by apply RNG_range).
  assert (0 <= RNG (run_draws r) 1 5)%Z as Hd0 by lia.
  pose proof (pilot_cargoAdd_quantity (run_pilot r) (gat_type gat) _ Hd0) as Hq.
  pose proof (pilot_cargoAdd_free (run_pilot r) (gat_type gat)
                (RNG (run_draws r) 1 5)) as Hf.
  pose proof (pilot_cargoAdd_pos (run_pilot r) (gat_type gat)
                (RNG (run_draws r) 1 5)) as Hp.
  destruct (pilot_cargoAdd _ _ _) as [p' q]. cbn [fst snd] in *.
  rewrite decide_False by lia.
  assert (pilot_cargoFree p' = pilot_cargoFree (run_pilot r)) by lia.
  destruct (pilot_isPlayer p'); [|done]. by destruct (Rlt_dec 2 _).
Qed.

(** When the pilot has no room, [gatherable_gather] leaves the pool and the
    hold as they are. *)
Theorem gatherable_gather_full `{!PilotsSpec P} (u : Universe) (r : GatherRun) :
  (pilot_cargoFree (run_pilot r) <= 0)%Z ->
  gatherable_stack (run_state (gatherable_gather u r)) = gatherable_stack (run_state r) /\
  pilot_cargoFree (run_pilot (gatherable_gather u r)) = pilot_cargoFree (run_pilot r).
Proof.
  unfold gatherable_gather. generalize 0%nat. intros i.
  funelim (gather_loop u i r); [|done]. intros Hfull.
  destruct (gather_step_full u i gat r Hfull) as (Hs & Hf & _).
  destruct H as [H1 H2]; [done|lia|]. by rewrite H1, H2.
Qed.

End Room.

(** ** The sample interfaces keep their contracts *)

#[export] Instance least_rng_spec : RngSpec least_rng.
Proof. split; intros; cbn; [lia|lra]. Qed.

#[export] Instance sample_pilots_spec : PilotsSpec sample_pilots.
Proof. split; intros; cbn; try done; lia. Qed.

Lemma second_least_rng_spec : RngSpec second_least_rng.
Proof. split; intros n; intros; cbn; [destruct n; lia|lra]. Qed.

(** ** The sample pool *)

Lemma crate_in_reach (x : R) :
  0 <= x < 30 -> vect_dist (pilot_pos scooper) (gat_pos (crate x)) < GATHER_DIST.
Proof.
  intros Hx. unfold vect_dist, GATHER_DIST. cbn.
  replace ((0 - x) * (0 - x) + (0 - 0) * (0 - 0)) with (x * x) by ring.
  rewrite sqrt_square; lra.
Qed.

Lemma two_crates_first : (gather_step bare_universe 0 (crate 1) two_crates).2 = true.
Proof.
  unfold gather_step. destruct (Rlt_dec _ _) as [_|Hn]; [done|].
  destruct Hn. apply (crate_in_reach 1). lra.
Qed.

Lemma gatherable_update_add_witness :
  gatherable_update 2 (gatherable_update 1 (run_state two_crates))
  = gatherable_update (1 + 2) (run_state two_crates).
Proof. apply (gatherable_update_add 1 2). lra. Defined.

Lemma gather_loop_skips_witness :
  gatherable_stack (run_state (gather_loop bare_universe 0 two_crates)) !! 0%nat
  = Some (crate 2).
Proof.
  apply (gather_loop_skips bare_universe 0 two_crates (crate 1) (crate 2));
    [done|done|apply two_crates_first].
Defined.

Lemma commodity_Jettison_spec_witness :
  let c := jettison_count 20 0 in
  let r := commodity_Jettison scooper 20 0 in
  length r.1 = Z.to_nat c.1 /\
  (length r.1 <= Z.to_nat (Z.max 1 (Z.quot 20 5)))%nat /\
  ((10 <= 20)%Z -> (1 <= length r.1)%nat) /\
  r.2 = (c.2 + 2 * length r.1)%nat /\
  Forall (jettisoned scooper) r.1.
Proof. apply (commodity_Jettison_spec scooper 20 0). lia. Defined.

(** With the draws 1 and then 0, five tons thrown out add no effect: the
    draw that passed the comparison with 1 is not the draw that is used. *)
Example jettison_nothing :
  (commodity_Jettison (G := second_least_rng) scooper 5 0).1 = [].
Proof. done. Qed.
