(* ===== verification/Pool.v ===== *)
(** * Pool: the floating cargo, round by round and call by call

    [gatherable_render], and the functions of Gatherables.v seen from three
    sides:

    - the two loops that remove from the array they walk, as the rounds of
      the [for] statement ([update_round], [gather_round]) run by [loop]:
      how many rounds they take, and that the recursions [update_loop] and
      [gather_loop] are what the rounds compute;
    - [gatherable_gather] against a reference that walks the objects in
      their order with a flag for the object to pass over ([gather_ref]);
    - the pool as a machine ([pool_call], [pool_step]) with the objects it
      can hold ([pool_ok]) and the time after which it holds none;
    - the pool and the catalogue: the sprite [gatherable_render] passes for
      an object is the image in space of its commodity, which the loader
      of Catalog.v gives to the commodities with a price. *)

From Stdlib Require Import Reals Lra Lia ZArith.
From stdpp Require Import base tactics option list strings.
From S2P Require Import Prelude World Price Catalog Gatherables.

#[local] Open Scope R_scope.

(** ** [gatherable_render] *)

(** A call [gl_blitSprite (sprite, bx, by, sx, sy, c)]; the colour is
    [NULL], and the sprite is [None] for a texture that is [NULL]. *)
Record blit : Type := mkBlit {
  blit_sprite : option Texture;
  blit_bx : R;
  blit_by : R;
  blit_sx : Z;
  blit_sy : Z
}.

(** [gat->type->gfx_space]. *)
Definition gat_sprite (u : Universe) (gat : Gatherable) : option Texture :=
  commodity_stack u !! gat_type gat ≫= com_gfx_space.

(** The calls made, in their order. *)
Definition gatherable_render (u : Universe) (st : GatherState) : list blit :=
  (fun gat => mkBlit (gat_sprite u gat) (vect_x (gat_pos gat)) (vect_y (gat_pos gat)) 0 0)
    <$> gatherable_stack st.

(** ** The loops as rounds *)

Section Pool.
Context `{G : Rng} `{P : Pilots}.

(** One round of the loop of [gatherable_update] with the index [s.1]:
    [None] when [i < gatherable_nstack] fails; after a removal [i--] and
    [i++] leave the index where it was. *)
Definition update_round (dt : R) (s : nat * list Gatherable) : option (nat * list Gatherable) :=
  g ← s.2 !! s.1;
  Some (if decide (gat_expired (gat_advance dt g))
        then (s.1, delete s.1 s.2)
        else (S s.1, <[s.1 := gat_advance dt g]> s.2)).

(** One round of the loop of [gatherable_gather]: the index moves on
    whatever the body did. *)
Definition gather_round (u : Universe) (s : nat * GatherRun) : option (nat * GatherRun) :=
  gat ← gatherable_stack (run_state s.2) !! s.1;
  Some (S s.1, (gather_step u s.1 gat s.2).1).

(** ** The reference of [gatherable_gather] *)

(** What the loop threads beside the array. *)
Record Hold : Type := mkHold {
  hold_pilot : Pilot;
  hold_draws : nat;
  hold_messages : list message;
  hold_noscoop : R
}.

Definition hold_of (r : GatherRun) : Hold :=
  mkHold (run_pilot r) (run_draws r) (run_messages r) (noscoop_timer (run_state r)).

Definition run_of (l : list Gatherable) (h : Hold) : GatherRun :=
  mkGatherRun (mkGatherState l (hold_noscoop h)) (hold_pilot h) (hold_draws h)
    (hold_messages h).

(** The body of the loop on the object [gat] alone: what it leaves beside
    the array, and whether the object is taken. *)
Definition gather_try (u : Universe) (gat : Gatherable) (h : Hold) : Hold * bool :=
  let r := gather_step u 0 gat (run_of [gat] h) in (hold_of r.1, r.2).

(** The objects in their order: the body runs on an object unless the one
    before it was taken; the result is what stays in the pool. *)
Fixpoint gather_ref (u : Universe) (l : list Gatherable) (h : Hold)
  : list Gatherable * Hold :=
  match l with
  | [] => ([], h)
  | gat :: l =>
      let '(h', taken) := gather_try u gat h in
      if taken then
        match l with
        | [] => ([], h')
        | next :: l' => let '(k, h'') := gather_ref u l' h' in (next :: k, h'')
        end
      else let '(k, h'') := gather_ref u l h' in (gat :: k, h'')
  end.

(** The objects at the second, fourth, ... place. *)
Fixpoint every_second {A : Type} (l : list A) : list A :=
  match l with
  | _ :: x :: l => x :: every_second l
  | _ => []
  end.

Definition in_reach (p : Pilot) (gat : Gatherable) : Prop :=
  vect_dist (pilot_pos p) (gat_pos gat) < GATHER_DIST.

(** ** The pool as a machine *)

(** The calls the game makes: a new object, the passing of time, a pilot
    that comes to gather, the end of the system. *)
Inductive pool_call : Type :=
  | PInit (com : nat) (pos vel : Vector2d)
  | PUpdate (dt : R)
  | PGather (p : Pilot)
  | PFree.

Definition on_state (f : GatherState -> GatherState) (r : GatherRun) : GatherRun :=
  mkGatherRun (f (run_state r)) (run_pilot r) (run_draws r) (run_messages r).

Definition pool_step (u : Universe) (c : pool_call) (r : GatherRun) : GatherRun :=
  match c with
  | PInit com pos vel =>
      let st := gatherable_init com pos vel (run_draws r) (run_state r) in
      mkGatherRun st.1 (run_pilot r) st.2 (run_messages r)
  | PUpdate dt => on_state (gatherable_update dt) r
  | PGather p =>
      gatherable_gather u (mkGatherRun (run_state r) p (run_draws r) (run_messages r))
  | PFree => on_state gatherable_free r
  end.

Definition pool_run (u : Universe) (cs : list pool_call) (r : GatherRun) : GatherRun :=
  foldl (fun r c => pool_step u c r) r cs.

(** Time does not run backwards. *)
Definition call_ok (c : pool_call) : Prop :=
  match c with
  | PUpdate dt => 0 <= dt
  | _ => True
  end.

Inductive pool_reachable (u : Universe) (p0 : Pilot) : GatherRun -> Prop :=
  | pool_start : pool_reachable u p0 (mkGatherRun gather_start p0 0 [])
  | pool_next (c : pool_call) (r : GatherRun) :
      pool_reachable u p0 r -> call_ok c -> pool_reachable u p0 (pool_step u c r).

(** An object the pool can hold: its time is not over, and its lifetime is
    one that [gatherable_init] gives. *)
Definition pool_ok (g : Gatherable) : Prop :=
  0 <= gat_timer g <= gat_lifeleng g /\ 50 <= gat_lifeleng g < 150.

(** A pool whose objects are all at least [D] old. *)
Definition pool_aged (D : R) (l : list Gatherable) : Prop :=
  Forall (fun g => D <= gat_timer g /\ pool_ok g) l.

(** Calls that add nothing to the pool, and the time that passes in them. *)
Definition drain (c : pool_call) : Prop :=
  match c with
  | PInit _ _ _ => False
  | c => call_ok c
  end.

Definition call_time (c : pool_call) : R :=
  match c with
  | PUpdate dt => dt
  | _ => 0
  end.

Definition elapsed (cs : list pool_call) : R := Rsum (call_time <$> cs).

(** Calls that put goods of the priced set into the pool and no others,
    and a pool of such goods. *)
Definition call_priced (u : Universe) (c : pool_call) : Prop :=
  match c with
  | PInit com _ _ => com ∈ econ_comm u
  | _ => True
  end.

Definition pool_priced (u : Universe) (l : list Gatherable) : Prop :=
  Forall (fun g => gat_type g ∈ econ_comm u) l.

End Pool.

(** ** Sample data *)

Definition roomy : @Pilot sample_pilots := mkSamplePilot vectnull vectnull true 100.

Definition three_crates : list Gatherable := [crate 1; crate 2; crate 3].

Definition sample_pool_calls : list (@pool_call sample_pilots) :=
  [PUpdate 60; PGather scooper; PUpdate 90].

(** An object of food, the first commodity of the sample catalogue, and a
    second of time. *)
Definition food_calls : list (@pool_call sample_pilots) :=
  [PInit 0 vectnull vectnull; PUpdate 1].

(** * Theorems *)

(** ** [gatherable_render] draws every object once, in the order of the
    pool, and nothing else *)

Lemma gatherable_render_length (u : Universe) (st : GatherState) :
  length (gatherable_render u st) = length (gatherable_stack st).
Proof. unfold gatherable_render. by rewrite length_fmap. Qed.

Lemma gatherable_render_lookup (u : Universe) (st : GatherState) (i : nat)
    (gat : Gatherable) :
  gatherable_stack st !! i = Some gat ->
  gatherable_render u st !! i
  = Some (mkBlit (gat_sprite u gat) (vect_x (gat_pos gat)) (vect_y (gat_pos gat)) 0 0).
Proof. intros Hi. unfold gatherable_render. by rewrite list_lookup_fmap, Hi. Qed.

(** The sprite of an object whose commodity is in the priced set of a
    catalogue with its images. *)
Lemma gat_sprite_priced (u : Universe) (gat : Gatherable) :
  econ_comm u = priced_set (commodity_stack u) ->
  Forall imaged (commodity_stack u) ->
  gat_type gat ∈ econ_comm u -> is_Some (gat_sprite u gat).
Proof.
  intros -> Hi (c & Hc & Hp)%elem_of_priced_set. unfold gat_sprite. rewrite Hc. cbn.
  apply list_elem_of_lookup_2 in Hc. by apply (proj1 (Forall_forall _ _) Hi c Hc).
Qed.

Section Rounds.
Context `{G : Rng} `{P : Pilots}.

(** ** The rounds of [gatherable_update] *)

Lemma update_round_None (dt : R) (s : nat * list Gatherable) :
  update_round dt s = None <-> (length s.2 - s.1 = 0)%nat.
Proof.
  unfold update_round. destruct (s.2 !! s.1) as [g|] eqn:Hg; cbn.
  - apply lookup_lt_Some in Hg. split; [done|lia].
  - apply lookup_ge_None in Hg. split; [lia|done].
Qed.

Lemma update_round_measure (dt : R) (s s' : nat * list Gatherable) :
  update_round dt s = Some s' -> (length s.2 - s.1)%nat = S (length s'.2 - s'.1).
Proof.
  unfold update_round. destruct (s.2 !! s.1) as [g|] eqn:Hg; cbn; [|done].
  pose proof (lookup_lt_Some _ _ _ Hg). intros ?. simplify_eq. case_decide; cbn.
  - rewrite length_delete by (by eexists). lia.
  - rewrite length_insert. lia.
Qed.

Lemma update_round_Some (dt : R) (i : nat) (stack : list Gatherable) (g : Gatherable) :
  stack !! i = Some g ->
  update_round dt (i, stack)
  = Some (if decide (gat_expired (gat_advance dt g))
          then (i, delete i stack)
          else (S i, <[i := gat_advance dt g]> stack)).
Proof. intros Hg. unfold update_round. cbn [fst snd]. by rewrite Hg. Qed.

(** The rounds compute the recursion, and leave the index at the end of the
    array. *)
Lemma update_loop_rounds (dt : R) (fuel i : nat) (stack : list Gatherable) :
  (i <= length stack)%nat -> (length stack - i <= fuel)%nat ->
  loop (update_round dt) fuel (i, stack)
  = Some (length (update_loop dt i stack), update_loop dt i stack).
Proof.
  revert i stack. induction fuel as [|n IH]; intros i stack Hi Hn;
    rewrite update_loop_round; destruct (stack !! i) as [g|] eqn:Hg;
    try (apply lookup_lt_Some in Hg; lia);
    try (rewrite loop_done by (by unfold update_round; cbn; rewrite Hg);
         apply lookup_ge_None in Hg; do 2 f_equal; lia).
  pose proof (lookup_lt_Some _ _ _ Hg).
  rewrite (loop_round _ _ _ _ (update_round_Some dt i stack g Hg)).
  repeat case_decide; try done;
    apply IH; rewrite ?length_delete, ?length_insert by (by eexists); lia.
Qed.

(** ** The rounds of [gatherable_gather] *)

Lemma gather_step_length (u : Universe) (i : nat) (gat : Gatherable) (r : GatherRun) :
  (length (gatherable_stack (run_state (gather_step u i gat r).1))
   <= length (gatherable_stack (run_state r)))%nat.
Proof.
  rewrite gather_step_stack. destruct (gather_step u i gat r).2; [|done].
  apply length_delete_le.
Qed.

Lemma gather_round_measure (u : Universe) (s s' : nat * GatherRun) :
  gather_round u s = Some s' ->
  (length (gatherable_stack (run_state s'.2)) - s'.1
   < length (gatherable_stack (run_state s.2)) - s.1)%nat.
Proof.
  unfold gather_round. destruct (_ !! s.1) as [gat|] eqn:Hg; cbn; [|done].
  apply lookup_lt_Some in Hg. intros ?. simplify_eq. cbn.
  pose proof (gather_step_length u s.1 gat s.2). lia.
Qed.

Lemma gather_loop_rounds (u : Universe) (fuel i : nat) (r : GatherRun) :
  (length (gatherable_stack (run_state r)) - i <= fuel)%nat ->
  exists i', loop (gather_round u) fuel (i, r) = Some (i', gather_loop u i r).
Proof.
  revert i r. induction fuel as [|n IH]; intros i r Hn;
    rewrite gather_loop_round;
    destruct (gatherable_stack (run_state r) !! i) as [gat|] eqn:Hg;
    try (apply lookup_lt_Some in Hg; lia);
    try (exists i; apply loop_done; unfold gather_round; cbn; by rewrite Hg).
  pose proof (lookup_lt_Some _ _ _ Hg).
  pose proof (gather_step_length u i gat r).
  erewrite loop_round by (unfold gather_round; cbn; by rewrite Hg).
  apply IH. lia.
Qed.

(** ** The body of [gatherable_gather] and the array *)

Lemma run_of_hold (r : GatherRun) :
  run_of (gatherable_stack (run_state r)) (hold_of r) = r.
Proof. by destruct r as [[] ? ? ?]. Qed.

Lemma gather_step_try (u : Universe) (i : nat) (gat : Gatherable) (l : list Gatherable)
    (h : Hold) :
  gather_step u i gat (run_of l h)
  = (run_of (if (gather_try u gat h).2 then delete i l else l) (gather_try u gat h).1,
     (gather_try u gat h).2).
Proof.
  unfold gather_try, gather_step. cbn.
  destruct (Rlt_dec (vect_dist _ _) GATHER_DIST); [|by destruct h].
  destruct (pilot_cargoAdd _ _ _) as [p' q].
  destruct (decide (q > 0)%Z); [done|].
  destruct (pilot_isPlayer p'); [|done]. by destruct (Rlt_dec 2 _).
Qed.

(** The loop at the index [|done|] of [done ++ rest] is the reference on
    [rest]. *)
Lemma gather_loop_ref (u : Universe) (rest done : list Gatherable) (h : Hold) :
  gather_loop u (length done) (run_of (done ++ rest) h)
  = run_of (done ++ (gather_ref u rest h).1) (gather_ref u rest h).2.
Proof.
  remember (length rest) as n eqn:Hn. revert rest done h Hn.
  induction n as [n IH] using lt_wf_ind. intros [|gat rest] done h Hn;
    rewrite gather_loop_round; cbn [run_of run_state gatherable_stack].
  { by rewrite lookup_ge_None_2 by (rewrite length_app; cbn; lia). }
  rewrite list_lookup_middle by done. fold (run_of (done ++ gat :: rest) h).
  rewrite gather_step_try. cbn [fst gather_ref].
  destruct (gather_try u gat h) as [h' [|]]; cbn [fst snd].
  - rewrite delete_middle. destruct rest as [|next rest].
    + rewrite gather_loop_round. cbn.
      by rewrite lookup_ge_None_2 by (rewrite length_app; cbn; lia).
    + rewrite (cons_middle next done), app_assoc.
      replace (S (length done)) with (length (done ++ [next]))
        by (rewrite length_app; cbn; lia).
      rewrite (IH (length rest)) by (cbn in *; lia || done).
      destruct (gather_ref u rest h') as [k h'']. cbn. by rewrite <- app_assoc.
  - rewrite (cons_middle gat done), app_assoc.
    replace (S (length done)) with (length (done ++ [gat]))
      by (rewrite length_app; cbn; lia).
    rewrite (IH (length rest)) by (cbn in *; lia || done).
    destruct (gather_ref u rest h') as [k h'']. cbn. by rewrite <- app_assoc.
Qed.

Lemma gatherable_gather_is_ref (u : Universe) (r : GatherRun) :
  gatherable_gather u r
  = run_of (gather_ref u (gatherable_stack (run_state r)) (hold_of r)).1
           (gather_ref u (gatherable_stack (run_state r)) (hold_of r)).2.
Proof.
  unfold gatherable_gather. rewrite <- (run_of_hold r) at 1.
  apply (gather_loop_ref u _ []).
Qed.

(** What stays is part of what was there, in its order. *)
Lemma gather_ref_sublist (u : Universe) (l : list Gatherable) (h : Hold) :
  (gather_ref u l h).1 `sublist_of` l.
Proof.
  remember (length l) as n eqn:Hn. revert l h Hn.
  induction n as [n IH] using lt_wf_ind. intros [|gat l] h Hn; [done|].
  cbn [gather_ref]. destruct (gather_try u gat h) as [h' [|]].
  - destruct l as [|next l]; [apply sublist_nil_l|].
    pose proof (IH (length l) ltac:(cbn in *; lia) l h' eq_refl) as Hs.
    destruct (gather_ref u l h') as [k h'']. cbn in *.
    by apply sublist_cons, sublist_skip.
  - pose proof (IH (length l) ltac:(cbn in *; lia) l h' eq_refl) as Hs.
    destruct (gather_ref u l h') as [k h'']. cbn in *. by apply sublist_skip.
Qed.

Lemma gatherable_gather_sublist (u : Universe) (r : GatherRun) :
  gatherable_stack (run_state (gatherable_gather u r))
  `sublist_of` gatherable_stack (run_state r).
Proof. rewrite gatherable_gather_is_ref. apply gather_ref_sublist. Qed.

(** C23.  The loop of [gatherable_update] ends: on an array of [n] objects
    it runs [n] rounds, no more and no fewer, although a round that removes
    an object steps the index back; it ends with the index at the end of the
    array that [gatherable_update] leaves. *)
Theorem gatherable_update_rounds (dt : R) (fuel : nat) (st : GatherState) :
  let n := length (gatherable_stack st) in
  let l := gatherable_stack (gatherable_update dt st) in
  rounds (update_round dt) fuel (0%nat, gatherable_stack st)
  = (if decide (n <= fuel)%nat then Some n else None) /\
  loop (update_round dt) fuel (0%nat, gatherable_stack st)
  = (if decide (n <= fuel)%nat then Some (length l, l) else None).
Proof.
  intros n l.
  assert (rounds (update_round dt) fuel (0%nat, gatherable_stack st)
          = if decide (n <= fuel)%nat then Some n else None) as Hr.
  { rewrite (rounds_exact _ (fun s => length s.2 - s.1)%nat);
      [cbn [fst snd]; by rewrite Nat.sub_0_r|apply update_round_None
      |apply update_round_measure]. }
  split; [done|]. case_decide as Hn.
  - apply update_loop_rounds; lia.
  - apply eq_None_not_Some. rewrite loop_is_Some_rounds, Hr. by intros [? ?].
Qed.

(** The loop of [gatherable_gather] ends within as many rounds as the
    array has objects, in the state [gatherable_gather] returns. *)
Theorem gatherable_gather_terminates (u : Universe) (r : GatherRun) :
  let n := length (gatherable_stack (run_state r)) in
  exists i k, loop (gather_round u) n (0%nat, r) = Some (i, gatherable_gather u r) /\
              rounds (gather_round u) n (0%nat, r) = Some k /\ (k <= n)%nat.
Proof.
  intros n.
  destruct (gather_loop_rounds u n 0 r) as [i Hi]; [lia|].
  destruct (loop_terminates (gather_round u)
              (fun s => length (gatherable_stack (run_state s.2)) - s.1)%nat n (0%nat, r))
    as (s' & k & _ & Hk & Hle & _); [apply gather_round_measure|cbn; lia|].
  exists i, k. split_and!; [done|done|]. cbn in Hle. lia.
Qed.

(** C21.  [gatherable_gather] is the reference [gather_ref] on the array:
    the objects are tried in their order, except that the object after one
    that is taken is not tried; pilot, draws, messages and [noscoop_timer]
    are what the bodies that ran left. *)
Theorem gatherable_gather_spec (u : Universe) (r : GatherRun) :
  gatherable_gather u r
  = run_of (gather_ref u (gatherable_stack (run_state r)) (hold_of r)).1
           (gather_ref u (gatherable_stack (run_state r)) (hold_of r)).2.
Proof. apply gatherable_gather_is_ref. Qed.

End Rounds.

Section Machine.
Context `{G : Rng} `{!RngSpec G} `{P : Pilots} `{!PilotsSpec P}.

(** ** A pilot with room among objects in reach *)

Lemma in_reach_pos (p p' : Pilot) (gat : Gatherable) :
  pilot_pos p' = pilot_pos p -> in_reach p gat -> in_reach p' gat.
Proof. unfold in_reach. by intros ->. Qed.

(** With room for one ton, the body takes an object in reach; the pilot
    stays where it is and loses room for five tons at most. *)
Lemma gather_try_takes (u : Universe) (gat : Gatherable) (h : Hold) :
  in_reach (hold_pilot h) gat -> (1 <= pilot_cargoFree (hold_pilot h))%Z ->
  (gather_try u gat h).2 = true /\
  pilot_pos (hold_pilot (gather_try u gat h).1) = pilot_pos (hold_pilot h) /\
  (pilot_cargoFree (hold_pilot h) - 5
   <= pilot_cargoFree (hold_pilot (gather_try u gat h).1))%Z.
Proof.
  intros Hr Hfree. unfold gather_try, gather_step. cbn.
  destruct (Rlt_dec (vect_dist _ _) GATHER_DIST) as [_|Hn]; [|done].
  assert (1 <= RNG (hold_draws h) 1 5 <= 5)%Z as Hd by (by apply RNG_range).
  assert (0 <= RNG (hold_draws h) 1 5)%Z as Hd0 by lia.
  pose proof (pilot_cargoAdd_quantity (hold_pilot h) (gat_type gat) _ Hd0) as Hq.
  pose proof (pilot_cargoAdd_free (hold_pilot h) (gat_type gat)
                (RNG (hold_draws h) 1 5)) as Hf.
  pose proof (pilot_cargoAdd_pos (hold_pilot h) (gat_type gat)
                (RNG (hold_draws h) 1 5)) as Hp.
  destruct (pilot_cargoAdd _ _ _) as [p' q]. cbn [fst snd] in *.
  rewrite decide_True by lia. cbn. split_and!; [done|done|lia].
Qed.

Lemma gather_ref_every_second (u : Universe) (l : list Gatherable) (h : Hold) :
  Forall (in_reach (hold_pilot h)) l ->
  (5 * Z.of_nat (length l) <= pilot_cargoFree (hold_pilot h))%Z ->
  (gather_ref u l h).1 = every_second l.
Proof.
  remember (length l) as n eqn:Hn. revert l h Hn.
  induction n as [n IH] using lt_wf_ind. intros [|gat l] h Hn Hall Hfree; [done|].
  apply Forall_cons in Hall as [Hgat Hall]. cbn [length] in *.
  destruct (gather_try_takes u gat h Hgat) as (Ht & Hp & Hf); [lia|].
  cbn [gather_ref]. destruct (gather_try u gat h) as [h' b]. cbn [fst snd] in *.
  subst b. destruct l as [|next l]; [done|].
  apply Forall_cons in Hall as [_ Hall]. cbn [length] in *.
  pose proof (IH (length l) ltac:(lia) l h' eq_refl) as Hl.
  destruct (gather_ref u l h') as [k h'']. cbn [fst every_second] in *.
  rewrite Hl; [done| |lia].
  eapply Forall_impl; [exact Hall|]. intros g. by apply in_reach_pos.
Qed.

(** A pilot with room for everything, among objects that are all in
    reach, gathers the first, the third, the fifth, ...: what is left in
    the pool are the objects at the even places, half of them. *)
Theorem gatherable_gather_every_second (u : Universe) (r : GatherRun) :
  Forall (in_reach (run_pilot r)) (gatherable_stack (run_state r)) ->
  (5 * Z.of_nat (length (gatherable_stack (run_state r)))
   <= pilot_cargoFree (run_pilot r))%Z ->
  gatherable_stack (run_state (gatherable_gather u r))
  = every_second (gatherable_stack (run_state r)).
Proof.
  intros Hall Hfree. rewrite gatherable_gather_is_ref.
  by apply gather_ref_every_second.
Qed.

(** ** The objects of the pool *)

Lemma pool_aged_mono (D D' : R) (l : list Gatherable) :
  D' <= D -> pool_aged D l -> pool_aged D' l.
Proof.
  intros HD Hl. eapply Forall_impl; [exact Hl|]. intros g [? ?]. split; [lra|done].
Qed.

(** No object is 150 old. *)
Lemma pool_aged_empty (D : R) (l : list Gatherable) :
  150 <= D -> pool_aged D l -> l = [].
Proof.
  intros HD Hl. destruct l as [|g l]; [done|].
  apply Forall_cons in Hl as [[Hg [? ?]] _]. lra.
Qed.

Lemma update_spec_aged (D dt : R) (l : list Gatherable) :
  0 <= dt -> pool_aged D l -> pool_aged (D + dt) (update_spec dt l).
Proof.
  intros Hdt Hl. unfold pool_aged, update_spec. apply Forall_forall.
  intros g [Hg (g0 & -> & Hg0)%list_elem_of_fmap]%list_elem_of_filter.
  apply (proj1 (Forall_forall _ _) Hl) in Hg0 as [HD [? ?]].
  unfold gat_expired, pool_ok in *. cbn in *. split_and!; lra.
Qed.

Lemma gatherable_init_aged (D : R) (com : nat) (pos vel : Vector2d) (n : nat)
    (st : GatherState) :
  D <= 0 -> pool_aged D (gatherable_stack st) ->
  pool_aged D (gatherable_stack (gatherable_init com pos vel n st).1).
Proof.
  intros HD Hl. cbn. apply Forall_app. split; [done|]. constructor; [|done].
  pose proof (RNGF_range n). unfold pool_ok. cbn. split_and!; lra.
Qed.

(** A call ages the pool by the time that passes in it; a new object is of
    age 0. *)
Lemma pool_step_aged (u : Universe) (D : R) (c : pool_call) (r : GatherRun) :
  call_ok c -> (drain c \/ D <= 0) ->
  pool_aged D (gatherable_stack (run_state r)) ->
  pool_aged (D + call_time c) (gatherable_stack (run_state (pool_step u c r))).
Proof.
  intros Hc HD Hl. destruct c as [com pos vel|dt|p|]; cbn [pool_step call_time].
  - rewrite Rplus_0_r. apply gatherable_init_aged; [|done]. by destruct HD.
  - cbn. rewrite update_loop_all. by apply update_spec_aged.
  - rewrite Rplus_0_r. eapply Forall_sublist; [apply gatherable_gather_sublist|done].
  - constructor.
Qed.

Lemma elapsed_cons (c : pool_call) (cs : list pool_call) :
  elapsed (c :: cs) = call_time c + elapsed cs.
Proof. unfold elapsed. by rewrite fmap_cons, Rsum_cons. Qed.

Lemma pool_run_aged (u : Universe) (D : R) (cs : list pool_call) (r : GatherRun) :
  Forall drain cs -> pool_aged D (gatherable_stack (run_state r)) ->
  pool_aged (D + elapsed cs) (gatherable_stack (run_state (pool_run u cs r))).
Proof.
  intros Hcs. revert D r. induction Hcs as [|c cs Hc Hcs IH]; intros D r Hl.
  - unfold elapsed. cbn. by rewrite Rplus_0_r.
  - rewrite elapsed_cons, <- Rplus_assoc. apply IH, pool_step_aged; [|by left|done].
    by destruct c.
Qed.

Lemma pool_reachable_aged (u : Universe) (p0 : Pilot) (r : GatherRun) :
  pool_reachable u p0 r -> pool_aged 0 (gatherable_stack (run_state r)).
Proof.
  induction 1 as [|c r _ IH Hc]; [constructor|].
  apply (pool_aged_mono (0 + call_time c)); [destruct c; cbn in *; lra|].
  apply pool_step_aged; [done|right; lra|done].
Qed.

(** Whatever the calls and their order, as long as time does not run
    backwards, every object of the pool is one whose time is not over, with
    a lifetime from 50 to 150 and an age that is not negative. *)
Theorem pool_reachable_ok (u : Universe) (p0 : Pilot) (r : GatherRun) :
  pool_reachable u p0 r -> Forall pool_ok (gatherable_stack (run_state r)).
Proof.
  intros Hr. eapply Forall_impl; [exact (pool_reachable_aged u p0 r Hr)|].
  by intros g [_ ?].
Qed.

End Machine.

(** C22.  Every object leaves the pool.  With a generator that meets the
    contract [RngSpec] (a draw of [RNGF] is at least 0 and below 1, so a
    lifetime is at most 150), from any state the game can reach by calls in
    which time does not run backwards, calls that add no object and in
    which a time of 150 or more passes, whatever is gathered in between,
    leave the pool empty. *)
Theorem pool_drains `{G : Rng} `{!RngSpec G} `{P : Pilots}
    (u : Universe) (p0 : Pilot) (r : GatherRun) (cs : list pool_call) :
  pool_reachable u p0 r -> Forall drain cs -> 150 <= elapsed cs ->
  gatherable_stack (run_state (pool_run u cs r)) = [].
Proof.
  intros Hr Hcs Ht. apply (pool_aged_empty (0 + elapsed cs)); [lra|].
  by apply pool_run_aged, (pool_reachable_aged u p0).
Qed.

(** ** The sprites of the pool *)

Section Render.
Context `{G : Rng} `{P : Pilots} `{GL : Gl}.

Lemma update_spec_priced (u : Universe) (dt : R) (l : list Gatherable) :
  pool_priced u l -> pool_priced u (update_spec dt l).
Proof.
  intros Hl. unfold update_spec. eapply Forall_sublist; [apply sublist_filter|].
  by apply Forall_fmap.
Qed.

Lemma pool_step_priced (u : Universe) (c : pool_call) (r : GatherRun) :
  call_priced u c -> pool_priced u (gatherable_stack (run_state r)) ->
  pool_priced u (gatherable_stack (run_state (pool_step u c r))).
Proof.
  intros Hc Hl. destruct c as [com pos vel|dt|p|]; cbn [pool_step call_priced] in *.
  - cbn. apply Forall_app. split; [done|]. by constructor.
  - cbn. rewrite update_loop_all. by apply update_spec_priced.
  - eapply Forall_sublist; [apply gatherable_gather_sublist|done].
  - constructor.
Qed.

Lemma pool_run_priced (u : Universe) (cs : list pool_call) (r : GatherRun) :
  Forall (call_priced u) cs -> pool_priced u (gatherable_stack (run_state r)) ->
  pool_priced u (gatherable_stack (run_state (pool_run u cs r))).
Proof.
  intros Hcs. revert r. induction Hcs as [|c cs Hc _ IH]; intros r Hr; [done|].
  by apply IH, pool_step_priced.
Qed.

(** C25.  Every object [gatherable_render] draws has a sprite, when the
    catalogue is the one [commodity_load] built with default images that
    load, and the pool is one the game reaches by calls that put goods of
    the priced set into it: the loader gives every commodity with a price
    its image in space, and no call changes the commodity of an object. *)
Theorem gatherable_render_sprites (file : DataFile) (s s' : Universe * GlStore)
    (p0 : Pilot) (cs : list pool_call) :
  gl_loads (COMMODITY_GFX_PATH +:+ "_default.png") = true ->
  gl_loads (space_dir +:+ "_default.png") = true ->
  econ_comm s.1 = priced_set (commodity_stack s.1) ->
  Forall imaged (commodity_stack s.1) ->
  commodity_load file s = inr s' ->
  Forall (call_priced s'.1) cs ->
  Forall (fun b => is_Some (blit_sprite b))
    (gatherable_render s'.1
       (run_state (pool_run s'.1 cs (mkGatherRun gather_start p0 0 [])))).
Proof.
  intros Hst Hsp Hp Hi Hload Hcs.
  assert (priced_ok s') as Hp' by (by eapply commodity_load_inv, Hload; [apply load_node_priced|]).
  pose proof (commodity_load_imaged file s s' Hst Hsp Hi Hload) as Hi'.
  unfold gatherable_render. apply Forall_fmap.
  eapply Forall_impl; [apply (pool_run_priced s'.1 cs); [exact Hcs|constructor]|].
  intros gat Hgat. by apply gat_sprite_priced.
Qed.

End Render.

(** ** The sample pool *)

Lemma three_crates_in_reach : Forall (in_reach roomy) three_crates.
Proof.
  repeat (apply Forall_cons; split); [..|done];
    unfold in_reach; change (pilot_pos roomy) with (pilot_pos scooper);
    apply crate_in_reach; lra.
Qed.

Lemma gatherable_gather_every_second_witness :
  gatherable_stack
    (run_state (gatherable_gather bare_universe
                  (mkGatherRun (mkGatherState three_crates 1) roomy 0 [])))
  = [crate 2].
Proof.
  apply (gatherable_gather_every_second bare_universe
           (mkGatherRun (mkGatherState three_crates 1) roomy 0 []));
    [apply three_crates_in_reach|cbn; lia].
Defined.

Lemma one_crate_reachable :
  pool_reachable bare_universe scooper
    (pool_step bare_universe (PInit 0 vectnull vectnull)
       (mkGatherRun gather_start scooper 0 [])).
Proof. by apply pool_next; [apply pool_start|]. Qed.

Lemma pool_reachable_ok_witness :
  Forall pool_ok
    (gatherable_stack
       (run_state (pool_step bare_universe (PInit 0 vectnull vectnull)
                     (mkGatherRun gather_start scooper 0 [])))).
Proof. exact (pool_reachable_ok bare_universe scooper _ one_crate_reachable). Defined.

Lemma pool_drains_witness :
  gatherable_stack
    (run_state (pool_run bare_universe sample_pool_calls
                  (pool_step bare_universe (PInit 0 vectnull vectnull)
                     (mkGatherRun gather_start scooper 0 []))))
  = [].
Proof.
  apply (pool_drains bare_universe scooper _ sample_pool_calls one_crate_reachable).
  - repeat constructor; cbn; lra.
  - unfold elapsed. cbn. lra.
Defined.

(** ** The sprites of the sample catalogue *)

Lemma gatherable_render_sprites_witness :
  Forall (fun b => is_Some (blit_sprite b))
    (gatherable_render sample_loaded.1
       (run_state (pool_run sample_loaded.1 food_calls
                     (mkGatherRun gather_start scooper 0 [])))).
Proof.
  apply (gatherable_render_sprites (GL := sample_gl) sample_file (empty_universe, ∅)
           sample_loaded scooper food_calls);
    [reflexivity|reflexivity|reflexivity|constructor|apply sample_file_loaded|].
  repeat constructor. unfold call_priced.
  rewrite (proj1 (proj2 (proj2 sample_file_loaded))). apply list_elem_of_here.
Defined.

(** An object of dust, a commodity the sample file gives no price and no
    image: [gatherable_render] passes [NULL] for its sprite. *)
Example dust_no_sprite :
  blit_sprite <$> gatherable_render sample_loaded.1
    (run_state (pool_step sample_loaded.1 (PInit 1 vectnull vectnull)
                  (mkGatherRun gather_start scooper 0 [])))
  = [None].
Proof.
  destruct sample_file_loaded as (_ & _ & _ & _ & Hsp).
  assert ((com_gfx_space <$> commodity_stack sample_loaded.1) !! 1%nat = Some None) as H
    by (by rewrite Hsp).
  rewrite list_lookup_fmap in H. clear Hsp. revert H.
  generalize sample_loaded.1. intros u H. unfold gatherable_render, gat_sprite. cbn.
  destruct (commodity_stack u !! 1%nat) as [c|]; cbn in *; [|done].
  by injection H as ->.
Qed.
