(* ===== verification/Format.v ===== *)
(** * Format: credits as text

    [credits2str] and [price2str] of economy.c.  The buffer the caller
    passes is the string the function leaves in it.  [nsnprintf] keeps what
    fits in [ECON_CRED_STRLEN] bytes with the terminating zero; the texts of
    the conversions ["%" CREDITS_PRI] and ["%.*f"] are the class
    [CreditText], with the length of ["%.*f"] as its contract
    [CreditTextSpec]. *)

From Stdlib Require Import Reals Lra Lia ZArith Zfloor Ascii.
From stdpp Require Import base tactics option list strings.
From S2P Require Import Prelude Xml.

#[local] Open Scope R_scope.

(** ** Text of the C library *)

(** The first [n] bytes of a string. *)
Fixpoint string_take (n : nat) (s : string) : string :=
  match n, s with
  | S n, String c s => String c (string_take n s)
  | _, _ => EmptyString
  end.

(** [nsnprintf (str, size, ...)] with the text the format expands to: at
    most [size - 1] bytes are stored. *)
Definition nsnprintf (size : nat) (text : string) : string :=
  string_take (size - 1) text.

Class CreditText : Type := {
  (** ["%" CREDITS_PRI] *)
  printf_credits : Z -> string;
  (** ["%.*f"] with the number of decimals and the value *)
  printf_fixed : Z -> R -> string
}.

(** ["%.*f"] writes at least one digit, and the point and the decimals when
    there are any. *)
Class CreditTextSpec `{CreditText} : Prop := {
  printf_fixed_length : forall (decimals : Z) (x : R),
    (0 < decimals)%Z ->
    (decimals + 2 <= Z.of_nat (String.length (printf_fixed decimals x)))%Z
}.

Definition ECON_CRED_STRLEN : nat := 32.

(** The escape sequences of the font: red, and back to the default. *)
Definition BEL : Ascii.ascii := Ascii.Ascii true true true false false false false false.
Definition colour_red : string := String BEL "r".
Definition colour_reset : string := String BEL "0".

(** ** The two functions *)

Section Format.
Context `{T : CreditText}.

Definition credits2str (credits decimals : Z) : string :=
  if decide (decimals < 0)%Z then
    nsnprintf ECON_CRED_STRLEN (printf_credits credits)
  else if decide (credits >= 1000000000000000)%Z then
    nsnprintf ECON_CRED_STRLEN
      (printf_fixed decimals (IZR credits / 1000000000000000) +:+ "Q")
  else if decide (credits >= 1000000000000)%Z then
    nsnprintf ECON_CRED_STRLEN
      (printf_fixed decimals (IZR credits / 1000000000000) +:+ "T")
  else if decide (credits >= 1000000000)%Z then
    nsnprintf ECON_CRED_STRLEN
      (printf_fixed decimals (IZR credits / 1000000000) +:+ "B")
  else if decide (credits >= 1000000)%Z then
    nsnprintf ECON_CRED_STRLEN
      (printf_fixed decimals (IZR credits / 1000000) +:+ "M")
  else if decide (credits >= 1000)%Z then
    nsnprintf ECON_CRED_STRLEN
      (printf_fixed decimals (IZR credits / 1000) +:+ "K")
  else
    nsnprintf ECON_CRED_STRLEN (printf_credits credits).

Definition price2str (price credits decimals : Z) : string :=
  let str := credits2str price decimals in
  if decide (price <= credits)%Z then str
  else
    let buf := str in
    nsnprintf ECON_CRED_STRLEN (colour_red +:+ buf +:+ colour_reset).

End Format.

(** ** Reference descriptions *)

(** The unit [credits2str] divides by, with its letter: the largest of
    1e3, 1e6, 1e9, 1e12, 1e15 that is not above the amount. *)
Definition credit_unit (credits : Z) : option (Z * string) :=
  if decide (1000000000000000 <= credits)%Z then Some (1000000000000000, "Q")%Z
  else if decide (1000000000000 <= credits)%Z then Some (1000000000000, "T")%Z
  else if decide (1000000000 <= credits)%Z then Some (1000000000, "B")%Z
  else if decide (1000000 <= credits)%Z then Some (1000000, "M")%Z
  else if decide (1000 <= credits)%Z then Some (1000, "K")%Z
  else None.

(** ** A text that satisfies the contract

    The value rounded to the decimals asked for: its whole part in decimal,
    then the point and the decimals, padded with zeros to their number. *)

Fixpoint zeros (n : nat) : string :=
  match n with
  | O => EmptyString
  | S n => String "0"%char (zeros n)
  end.

Definition pad_left (n : nat) (s : string) : string :=
  zeros (n - String.length s) +:+ s.

Definition fixed_text (decimals : Z) (x : R) : string :=
  let scaled := Zfloor (x * IZR (10 ^ decimals) + / 2) in
  if decide (0 < decimals)%Z then
    printf_d (scaled / 10 ^ decimals) +:+ "." +:+
    pad_left (Z.to_nat decimals) (printf_d (scaled mod 10 ^ decimals))
  else printf_d scaled.

#[export] Instance decimal_credits : CreditText :=
  {| printf_credits := printf_u64; printf_fixed := fixed_text |}.

(** * Theorems *)

(** ** Truncation *)

Lemma string_length_app (a b : string) :
  String.length (a +:+ b) = (String.length a + String.length b)%nat.
Proof.
  induction a as [|c a IH]; [done|].
  change (String c a +:+ b) with (String c (a +:+ b)). cbn. by rewrite IH.
Qed.

Lemma string_take_length (n : nat) (s : string) :
  String.length (string_take n s) = (n `min` String.length s)%nat.
Proof.
  revert s. induction n as [|n IH]; intros [|c s]; cbn; try done. by rewrite IH.
Qed.

Lemma string_take_all (n : nat) (s : string) :
  (String.length s <= n)%nat -> string_take n s = s.
Proof.
  revert s. induction n as [|n IH]; intros [|c s] Hn; cbn in *; try done; [lia|].
  rewrite IH; [done|lia].
Qed.

Lemma string_take_app (n : nat) (a b : string) :
  string_take (String.length a + n) (a +:+ b) = a +:+ string_take n b.
Proof.
  induction a as [|c a IH]; [done|].
  change (String c a +:+ b) with (String c (a +:+ b)). cbn. by rewrite IH.
Qed.

Lemma string_take_app_l (n : nat) (a b : string) :
  (n <= String.length a)%nat -> string_take n (a +:+ b) = string_take n a.
Proof.
  revert a. induction n as [|n IH]; intros [|c a] Hn; cbn in *; try done; [lia|].
  change (String c a +:+ b) with (String c (a +:+ b)). cbn.
  rewrite IH; [done|lia].
Qed.

Lemma nsnprintf_length (size : nat) (text : string) :
  (String.length (nsnprintf size text) <= size - 1)%nat.
Proof. unfold nsnprintf. rewrite string_take_length. lia. Qed.

Lemma nsnprintf_fits (size : nat) (text : string) :
  (String.length text < size)%nat -> nsnprintf size text = text.
Proof. intros Hn. apply string_take_all. lia. Qed.

Section FormatFacts.
Context `{T : CreditText}.

(** ** [credits2str] *)

(** The text fits the buffer of [ECON_CRED_STRLEN] bytes the callers pass,
    with its terminating zero. *)
Lemma credits2str_length (credits decimals : Z) :
  (String.length (credits2str credits decimals) < ECON_CRED_STRLEN)%nat.
Proof.
  unfold credits2str.
  repeat case_decide;
    match goal with |- (String.length (nsnprintf _ ?t) < _)%nat =>
      pose proof (nsnprintf_length ECON_CRED_STRLEN t) end;
    unfold ECON_CRED_STRLEN in *; lia.
Qed.

(** Every branch at once: without decimals, or below 1000, the amount as it
    is; otherwise the amount in its unit, with the letter of the unit. *)
Lemma credits2str_spec (credits decimals : Z) :
  credits2str credits decimals
  = nsnprintf ECON_CRED_STRLEN
      (match credit_unit credits with
       | Some (unit, letter) =>
           if decide (decimals < 0)%Z then printf_credits credits
           else printf_fixed decimals (IZR credits / IZR unit) +:+ letter
       | None => printf_credits credits
       end).
Proof.
  unfold credits2str, credit_unit.
  repeat case_decide; try done; lia.
Qed.

(** The amount in its unit is between 1 and 1000 for every amount below
    1e18; above, the unit stays 1e15. *)
Lemma credit_unit_range (credits unit : Z) (letter : string) :
  credit_unit credits = Some (unit, letter) ->
  (credits < 1000000000000000000)%Z ->
  1 <= IZR credits / IZR unit < 1000.
Proof.
  unfold credit_unit. intros Hu Hc.
  repeat case_decide; simplify_eq;
    match goal with |- _ <= _ / IZR ?u < _ =>
      assert (IZR u <= IZR credits < 1000 * IZR u) as Hr
        by (rewrite <- mult_IZR; split; [apply IZR_le|apply IZR_lt]; lia);
      assert (0 < IZR u) as Hpos by (apply IZR_lt; lia);
      assert (0 < / IZR u) as Hinv by (apply Rinv_0_lt_compat; lra);
      assert (IZR u * / IZR u = 1) as Hone by (field; lra);
      unfold Rdiv; split; nra
    end.
Qed.

(** An amount that is negative is written as it is, whatever its size. *)
Lemma credits2str_negative (credits decimals : Z) :
  (credits < 0)%Z ->
  credits2str credits decimals = nsnprintf ECON_CRED_STRLEN (printf_credits credits).
Proof. intros Hc. unfold credits2str. repeat case_decide; done || lia. Qed.

(** ** [price2str] *)

Lemma price2str_affordable (price credits decimals : Z) :
  (price <= credits)%Z -> price2str price credits decimals = credits2str price decimals.
Proof. intros Hp. unfold price2str. by rewrite decide_True. Qed.

(** A price above the credits is red, and the colour is reset after it,
    when the text of the price has at most 27 bytes. *)
Lemma price2str_coloured (price credits decimals : Z) :
  (credits < price)%Z ->
  (String.length (credits2str price decimals) <= 27)%nat ->
  price2str price credits decimals
  = colour_red +:+ credits2str price decimals +:+ colour_reset.
Proof.
  intros Hp Hlen. unfold price2str. rewrite decide_False by lia.
  apply nsnprintf_fits. rewrite !string_length_app. unfold ECON_CRED_STRLEN. cbn. lia.
Qed.

(** With a longer text the reset does not fit: the buffer ends inside the
    price, and the colour stays red for what is drawn next. *)
Lemma price2str_reset_lost (price credits decimals : Z) :
  (credits < price)%Z ->
  (29 <= String.length (credits2str price decimals))%nat ->
  price2str price credits decimals
  = colour_red +:+ string_take 29 (credits2str price decimals).
Proof.
  intros Hp Hlen. unfold price2str. rewrite decide_False by lia.
  unfold nsnprintf, ECON_CRED_STRLEN.
  change (32 - 1)%nat with (String.length colour_red + 29)%nat.
  rewrite string_take_app. f_equal. by apply string_take_app_l.
Qed.

(** The text of a price of 1000 or more is that long as soon as 26
    decimals are asked for. *)
Lemma credits2str_long `{!CreditTextSpec} (price decimals : Z) :
  (1000 <= price)%Z -> (26 <= decimals)%Z ->
  (29 <= String.length (credits2str price decimals))%nat.
Proof.
  intros Hp Hd. rewrite credits2str_spec. unfold credit_unit.
  repeat case_decide; try lia;
    unfold nsnprintf, ECON_CRED_STRLEN;
    rewrite string_take_length, string_length_app;
    match goal with |- context [printf_fixed ?d ?x] =>
      pose proof (printf_fixed_length d x ltac:(lia)) end;
    cbn [String.length]; lia.
Qed.

(** C33.  [credits2str] and [price2str] leave a text that fits the buffer of
    [ECON_CRED_STRLEN] bytes with its terminating zero, whatever the
    amounts and the decimals; a price within the credits is written as
    [credits2str] writes it, and a price above the credits is written in
    red, with the reset of the colour after it exactly when the text of the
    price has 27 bytes at most. *)
Theorem price2str_buffer (price credits decimals : Z) :
  (String.length (credits2str price decimals) < ECON_CRED_STRLEN)%nat /\
  (String.length (price2str price credits decimals) < ECON_CRED_STRLEN)%nat /\
  ((price <= credits)%Z ->
   price2str price credits decimals = credits2str price decimals) /\
  ((credits < price)%Z ->
   exists text, price2str price credits decimals = colour_red +:+ text /\
     (text = credits2str price decimals +:+ colour_reset
      <-> (String.length (credits2str price decimals) <= 27)%nat)).
Proof.
  split_and!.
  - apply credits2str_length.
  - unfold price2str. case_decide; [apply credits2str_length|].
    pose proof (nsnprintf_length ECON_CRED_STRLEN
                  (colour_red +:+ credits2str price decimals +:+ colour_reset)).
    unfold ECON_CRED_STRLEN in *. lia.
  - apply price2str_affordable.
  - intros Hp. exists (string_take 29 (credits2str price decimals +:+ colour_reset)).
    split.
    + unfold price2str. rewrite decide_False by lia. unfold nsnprintf, ECON_CRED_STRLEN.
      change (32 - 1)%nat with (String.length colour_red + 29)%nat.
      by rewrite string_take_app.
    + split; intros Ht.
      * apply (f_equal String.length) in Ht.
        rewrite string_take_length, !string_length_app in Ht.
        change (String.length colour_reset) with 2%nat in Ht. lia.
      * apply string_take_all. rewrite string_length_app.
        change (String.length colour_reset) with 2%nat. lia.
Qed.

End FormatFacts.

(** ** The decimal text *)

Lemma zeros_length (n : nat) : String.length (zeros n) = n.
Proof. induction n as [|n IH]; cbn; [done|]. by rewrite IH. Qed.

Lemma pad_left_length (n : nat) (s : string) :
  (n <= String.length (pad_left n s))%nat.
Proof. unfold pad_left. rewrite string_length_app, zeros_length. lia. Qed.

Lemma printf_d_length (z : Z) : (1 <= String.length (printf_d z))%nat.
Proof.
  unfold printf_d. destruct (Z.to_int z) as [u|u]; destruct u; cbn; lia.
Qed.

#[export] Instance decimal_credits_spec : CreditTextSpec.
Proof.
  split. intros decimals x Hd. cbn. unfold fixed_text. rewrite decide_True by done.
  rewrite !string_length_app.
  pose proof (printf_d_length (Zfloor (x * IZR (10 ^ decimals) + / 2) / 10 ^ decimals)).
  pose proof (pad_left_length (Z.to_nat decimals)
                (printf_d (Zfloor (x * IZR (10 ^ decimals) + / 2) mod 10 ^ decimals))).
  cbn [String.length]. lia.
Qed.

(** A price of 1500 against 1000 credits with 26 decimals: 31 bytes, red,
    without the reset. *)
Example price2str_26_decimals :
  price2str 1500 1000 26 = colour_red +:+ string_take 29 (credits2str 1500 26).
Proof. apply price2str_reset_lost; [lia|]. apply credits2str_long; lia. Qed.
